(** * Shadow baker add-on: geometry, pixel post-processing and export orchestration

    A shallow embedding of [src/mirai-modeling-tools/__init__.py].

    Conventions of the embedding:
    - Python floats are idealised as exact rationals ([Q]); every comparison
      the code performs is a boolean test on [Q], so all definitions compute.
      Equalities between computed numbers are stated with [==] ([Qeq]).
    - A Python exception is a value of [Exn]; code that can raise returns
      [Res].  Code that touches the Blender scene is a function from the
      scene to a result and the scene reached when the call returned or
      raised (a raising call keeps the mutations done so far).
    - Everything the add-on asks of its host and cannot be read in the file
      (trigonometry, the random generator, the renderer, the glTF exporter,
      the file system) is a field of [Env]. *)

From Stdlib Require Import String DecimalString QArith Qabs Qminmax Lqa Bool Arith Lia ZArith List FinFun Permutation.
Import ListNotations.
Open Scope Q_scope.

(* ================================================================== *)
(** ** Exceptions and results *)

Inductive Exn : Type :=
| AttributeError
| ValueError
| IndexError
| ZeroDivisionError
| ReferenceError
| RuntimeError
| TypeError.

Inductive Res (A : Type) : Type :=
| Ok (a : A)
| Raise (e : Exn).
Arguments Ok {A} a.
Arguments Raise {A} e.

Definition res_bind {A B} (r : Res A) (k : A -> Res B) : Res B :=
  match r with
  | Ok a => k a
  | Raise e => Raise e
  end.

Definition res_map {A B} (f : A -> B) (r : Res A) : Res B :=
  res_bind r (fun a => Ok (f a)).

Declare Scope res_scope.
Delimit Scope res_scope with res.
Notation "x <- c ;; k" := (res_bind c (fun x => k))
  (at level 61, c at next level, right associativity) : res_scope.

(* ================================================================== *)
(** ** Numbers: the comparisons and the builtins [max], [min], [range] *)

Module Num.

(** [x < y] as the interpreter evaluates it. *)
Definition Qltb (x y : Q) : bool := negb (Qle_bool y x).

(** The builtins [max] and [min] keep the first extremal item: the running
    value is replaced only by a strictly larger (smaller) one. *)
Definition py_max (first : Q) (rest : list Q) : Q :=
  fold_left (fun m v => if Qltb m v then v else m) rest first.

Definition py_min (first : Q) (rest : list Q) : Q :=
  fold_left (fun m v => if Qltb v m then v else m) rest first.

(** [max(r, g, b)] *)
Definition max3 (r g b : Q) : Q := py_max r [g; b].

(** [min(xs)] and [max(xs)] of a list; an empty argument raises. *)
Definition min_list (xs : list Q) : Res Q :=
  match xs with
  | [] => Raise ValueError
  | x :: rest => Ok (py_min x rest)
  end.

Definition max_list (xs : list Q) : Res Q :=
  match xs with
  | [] => Raise ValueError
  | x :: rest => Ok (py_max x rest)
  end.

(** [range(0, n, 4)]: 0, 4, 8, ... below [n]. *)
Definition range4 (n : nat) : list nat :=
  map (fun k => 4 * k)%nat (seq 0 ((n + 3) / 4)).

(** [range(n)] *)
Definition range (n : nat) : list nat := seq 0 n.

End Num.
Import Num.

(* ================================================================== *)
(** ** Image post-processing

    The loop of [make_shadow_plane] (lines 352-365), repeated verbatim in
    [OBJECT_OT_bake_shadow_texture.execute] (lines 483-498):
<<
    pixels = list(rendered.pixels[:])
    for i in range(0, len(pixels), 4):
        r, g, b, a = pixels[i:i+4]
        pixels[i] = 0.0
        pixels[i+1] = 0.0
        pixels[i+2] = 0.0
        pixels[i+3] = 1-max(r, g, b)
>>
    [pixels] is the flat buffer [r,g,b,a, r,g,b,a, ...]. *)

Module Pixels.

(** [pixels[i:i+4]] *)
Definition slice4 (pixels : list Q) (i : nat) : list Q :=
  firstn 4 (skipn i pixels).

(** [pixels[i] = v]; an index past the end raises. *)
Definition store (pixels : list Q) (i : nat) (v : Q) : Res (list Q) :=
  if (i <? length pixels)%nat
  then Ok (firstn i pixels ++ v :: skipn (S i) pixels)
  else Raise IndexError.

(** One iteration of the loop body.  Unpacking a slice that does not hold
    exactly four items raises [ValueError]. *)
Definition binarize_step (pixels : list Q) (i : nat) : Res (list Q) :=
  match slice4 pixels i with
  | [r; g; b; a] =>
      (p0 <- store pixels i 0 ;;
       p1 <- store p0 (i + 1) 0 ;;
       p2 <- store p1 (i + 2) 0 ;;
       store p2 (i + 3) (1 - max3 r g b))%res
  | _ => Raise ValueError
  end.

(** The loop over a given sequence of start indices. *)
Definition binarize_over (idxs : list nat) (pixels : list Q) : Res (list Q) :=
  fold_left (fun acc i => res_bind acc (fun p => binarize_step p i))
            idxs (Ok pixels).

(** The whole loop. *)
Definition binarize (pixels : list Q) : Res (list Q) :=
  binarize_over (range4 (length pixels)) pixels.

(** What one pixel becomes. *)
Definition binarize_pixel (r g b a : Q) : list Q :=
  [0; 0; 0; 1 - max3 r g b].

(** The same transformation by recursion on the buffer, four items at a
    time: the reference the loop is compared with. *)
Fixpoint binarize_chunks (pixels : list Q) : Res (list Q) :=
  match pixels with
  | [] => Ok []
  | r :: g :: b :: a :: rest =>
      res_map (fun t => binarize_pixel r g b a ++ t) (binarize_chunks rest)
  | _ => Raise ValueError
  end.

(** Channel [c] (0..3) of pixel [k] of a flat buffer. *)
Definition channel (pixels : list Q) (k c : nat) : Q :=
  nth (4 * k + c) pixels 0.

(** An image all of whose pixels satisfy [P r g b a]. *)
Fixpoint all_pixels (P : Q -> Q -> Q -> Q -> Prop) (pixels : list Q) : Prop :=
  match pixels with
  | [] => True
  | r :: g :: b :: a :: rest => P r g b a /\ all_pixels P rest
  | _ => False
  end.

(** What the loop body leaves in channel [c] of a pixel whose colours were
    [r], [g], [b]. *)
Definition binarized_channel (r g b : Q) (c : nat) : Q :=
  match c with
  | 3%nat => 1 - max3 r g b
  | _ => 0
  end.

(** A pixel of a binary image: opaque black, or what white becomes. *)
Definition binary_pixel (r g b a : Q) : Prop :=
  [r; g; b; a] = [0; 0; 0; 1] \/ [r; g; b; a] = binarize_pixel 1 1 1 1.

Definition opaque_black (r g b a : Q) : Prop := [r; g; b; a] = [0; 0; 0; 1].

End Pixels.
Import Pixels.

(* ================================================================== *)
(** ** Vectors and matrices ([mathutils]) *)

Module Geometry.

Record Vec3 : Type := vec3 { vx : Q; vy : Q; vz : Q }.

Definition vzero : Vec3 := vec3 0 0 0.
Definition vadd (u v : Vec3) : Vec3 := vec3 (vx u + vx v) (vy u + vy v) (vz u + vz v).
Definition vsub (u v : Vec3) : Vec3 := vec3 (vx u - vx v) (vy u - vy v) (vz u - vz v).
Definition vmul (u v : Vec3) : Vec3 := vec3 (vx u * vx v) (vy u * vy v) (vz u * vz v).
Definition vdiv (u : Vec3) (k : Q) : Vec3 := vec3 (vx u / k) (vy u / k) (vz u / k).
Definition dot (u v : Vec3) : Q := vx u * vx v + vy u * vy v + vz u * vz v.
Definition cross (u v : Vec3) : Vec3 :=
  vec3 (vy u * vz v - vz u * vy v)
       (vz u * vx v - vx u * vz v)
       (vx u * vy v - vy u * vx v).

(** Two vectors with equal coordinates. *)
Definition veq (u v : Vec3) : Prop :=
  vx u == vx v /\ vy u == vy v /\ vz u == vz v.

(** A 3x3 matrix by rows. *)
Record Mat3 : Type := mat3 { row_x : Vec3; row_y : Vec3; row_z : Vec3 }.

Definition mat3_apply (m : Mat3) (v : Vec3) : Vec3 :=
  vec3 (dot (row_x m) v) (dot (row_y m) v) (dot (row_z m) v).

Definition mat3_identity : Mat3 := mat3 (vec3 1 0 0) (vec3 0 1 0) (vec3 0 0 1).

(** [m] with its columns multiplied by the components of [s]: rotation
    times [diag s]. *)
Definition mat3_scale_columns (m : Mat3) (s : Vec3) : Mat3 :=
  mat3 (vmul (row_x m) s) (vmul (row_y m) s) (vmul (row_z m) s).

Definition det3 (m : Mat3) : Q := dot (row_x m) (cross (row_y m) (row_z m)).

(** The inverse applied to a vector, by the adjugate. *)
Definition mat3_solve (m : Mat3) (w : Vec3) : Vec3 :=
  let a := row_x m in
  let b := row_y m in
  let c := row_z m in
  vdiv (vadd (vadd (vmul (cross b c) (vec3 (vx w) (vx w) (vx w)))
                   (vmul (cross c a) (vec3 (vy w) (vy w) (vy w))))
             (vmul (cross a b) (vec3 (vz w) (vz w) (vz w))))
       (det3 m).

(** A 4x4 object matrix.  Its last row is (0,0,0,1): the upper three rows
    are a 3x3 block and the [translation] column. *)
Record Matrix : Type := matrix { linear : Mat3; translation : Vec3 }.

(** [mat @ v] for a 3D vector [v]: the vector is read as (x,y,z,1) and the
    result keeps three components. *)
Definition mat_apply (m : Matrix) (v : Vec3) : Vec3 :=
  vadd (mat3_apply (linear m) v) (translation m).

(** The inverse matrix applied to a point. *)
Definition mat_inv_apply (m : Matrix) (p : Vec3) : Vec3 :=
  mat3_solve (linear m) (vsub p (translation m)).

End Geometry.
Import Geometry.

(* ================================================================== *)
(** ** The host's data: objects, images, materials, scene *)

Module Bpy.

Local Open Scope string_scope.

(** [obj.data]: the vertices and the material slots of a mesh, the settings
    of a light. *)
Inductive ObData : Type :=
| MeshData (vertices : list Vec3) (slots : list nat)
| LightData (energy : Q) (spread : Q)
| NoData.

(** The attributes of [bpy.types.Object] the add-on reads or writes.
    [select] is what [select_get]/[select_set] access, [linked] tells
    whether the object has been linked to the scene's collection. *)
Record Object : Type := mkObject {
  name : string;
  type : string;
  location : Vec3;
  rotation_euler : Vec3;
  scale : Vec3;
  matrix_world : Matrix;
  bound_box : list Vec3;
  dimensions : Vec3;
  data : ObData;
  select : bool;
  hide_render : bool;
  linked : bool
}.

Definition set_name (v : string) (o : Object) : Object :=
  mkObject v (type o) (location o) (rotation_euler o) (scale o) (matrix_world o)
           (bound_box o) (dimensions o) (data o) (select o) (hide_render o) (linked o).
Definition set_location (v : Vec3) (o : Object) : Object :=
  mkObject (name o) (type o) v (rotation_euler o) (scale o) (matrix_world o)
           (bound_box o) (dimensions o) (data o) (select o) (hide_render o) (linked o).
Definition set_rotation_euler (v : Vec3) (o : Object) : Object :=
  mkObject (name o) (type o) (location o) v (scale o) (matrix_world o)
           (bound_box o) (dimensions o) (data o) (select o) (hide_render o) (linked o).
Definition set_scale (v : Vec3) (o : Object) : Object :=
  mkObject (name o) (type o) (location o) (rotation_euler o) v (matrix_world o)
           (bound_box o) (dimensions o) (data o) (select o) (hide_render o) (linked o).
Definition set_matrix_world (v : Matrix) (o : Object) : Object :=
  mkObject (name o) (type o) (location o) (rotation_euler o) (scale o) v
           (bound_box o) (dimensions o) (data o) (select o) (hide_render o) (linked o).
Definition set_bound_box (v : list Vec3) (o : Object) : Object :=
  mkObject (name o) (type o) (location o) (rotation_euler o) (scale o) (matrix_world o)
           v (dimensions o) (data o) (select o) (hide_render o) (linked o).
Definition set_data (v : ObData) (o : Object) : Object :=
  mkObject (name o) (type o) (location o) (rotation_euler o) (scale o) (matrix_world o)
           (bound_box o) (dimensions o) v (select o) (hide_render o) (linked o).
Definition set_select (v : bool) (o : Object) : Object :=
  mkObject (name o) (type o) (location o) (rotation_euler o) (scale o) (matrix_world o)
           (bound_box o) (dimensions o) (data o) v (hide_render o) (linked o).
Definition set_hide_render (v : bool) (o : Object) : Object :=
  mkObject (name o) (type o) (location o) (rotation_euler o) (scale o) (matrix_world o)
           (bound_box o) (dimensions o) (data o) (select o) v (linked o).
Definition set_linked (v : bool) (o : Object) : Object :=
  mkObject (name o) (type o) (location o) (rotation_euler o) (scale o) (matrix_world o)
           (bound_box o) (dimensions o) (data o) (select o) (hide_render o) v.

(** [bpy.types.Image] *)
Record Image : Type := mkImage {
  img_name : string;
  img_size : nat * nat;
  img_pixels : list Q;
  filepath_raw : string;
  file_format : string
}.

(** A node of a material's shader graph and a link between two sockets
    (node index, socket name). *)
Record Node : Type := mkNode {
  node_type : string;
  node_image : option nat;
  interpolation : string
}.

Record Material : Type := mkMaterial {
  mat_name : string;
  use_nodes : bool;
  nodes : list Node;
  links : list ((nat * string) * (nat * string))
}.

(** [scene.render.engine], [scene.cycles.*], [scene.render.bake.*] *)
Record RenderSettings : Type := mkRender {
  engine : string;
  bake_type : string;
  device : string;
  denoiser : string;
  samples : Z;
  use_selected_to_active : bool
}.

Definition set_engine (v : string) (r : RenderSettings) : RenderSettings :=
  mkRender v (bake_type r) (device r) (denoiser r) (samples r)
           (use_selected_to_active r).
Definition set_bake_type (v : string) (r : RenderSettings) : RenderSettings :=
  mkRender (engine r) v (device r) (denoiser r) (samples r)
           (use_selected_to_active r).
Definition set_device (v : string) (r : RenderSettings) : RenderSettings :=
  mkRender (engine r) (bake_type r) v (denoiser r) (samples r)
           (use_selected_to_active r).
Definition set_denoiser (v : string) (r : RenderSettings) : RenderSettings :=
  mkRender (engine r) (bake_type r) (device r) v (samples r)
           (use_selected_to_active r).
Definition set_samples (v : Z) (r : RenderSettings) : RenderSettings :=
  mkRender (engine r) (bake_type r) (device r) (denoiser r) v
           (use_selected_to_active r).

(** The scene properties registered from [PROPS].  Objects and collections
    are referred to by handle.  [numLights] is registered with [min=1] and
    [max=16], [angle] and [strength] with [min=0]: the host keeps the
    values in these ranges. *)
Record Props : Type := mkProps {
  pathToFile : string;
  angle : Q;
  simetric : bool;
  strength : Q;
  Collection : option (list nat);
  targetObj : option nat;
  numLights : Z;
  measurements : string
}.

(** The part of the host's state the add-on acts on.  [objects] is
    [bpy.data.objects]: every object under the handle by which Python holds
    it, in creation order.  [files] lists the paths written so far, the
    latest first, [reports] what the operators reported, the latest first.
    [random_calls] counts the draws taken from the random generator. *)
Record Scene : Type := mkScene {
  objects : list (nat * Object);
  next_handle : nat;
  images : list Image;
  materials : list Material;
  cursor_location : Vec3;
  mode : string;
  active_object : option nat;
  render : RenderSettings;
  props : Props;
  random_calls : nat;
  files : list string;
  reports : list (string * string)
}.

Definition set_objects (v : list (nat * Object)) (s : Scene) : Scene :=
  mkScene v (next_handle s) (images s) (materials s) (cursor_location s) (mode s)
          (active_object s) (render s) (props s) (random_calls s) (files s) (reports s).
Definition set_next_handle (v : nat) (s : Scene) : Scene :=
  mkScene (objects s) v (images s) (materials s) (cursor_location s) (mode s)
          (active_object s) (render s) (props s) (random_calls s) (files s) (reports s).
Definition set_images (v : list Image) (s : Scene) : Scene :=
  mkScene (objects s) (next_handle s) v (materials s) (cursor_location s) (mode s)
          (active_object s) (render s) (props s) (random_calls s) (files s) (reports s).
Definition set_materials (v : list Material) (s : Scene) : Scene :=
  mkScene (objects s) (next_handle s) (images s) v (cursor_location s) (mode s)
          (active_object s) (render s) (props s) (random_calls s) (files s) (reports s).
Definition set_cursor_location (v : Vec3) (s : Scene) : Scene :=
  mkScene (objects s) (next_handle s) (images s) (materials s) v (mode s)
          (active_object s) (render s) (props s) (random_calls s) (files s) (reports s).
Definition set_mode (v : string) (s : Scene) : Scene :=
  mkScene (objects s) (next_handle s) (images s) (materials s) (cursor_location s) v
          (active_object s) (render s) (props s) (random_calls s) (files s) (reports s).
Definition set_active_object (v : option nat) (s : Scene) : Scene :=
  mkScene (objects s) (next_handle s) (images s) (materials s) (cursor_location s) (mode s)
          v (render s) (props s) (random_calls s) (files s) (reports s).
Definition set_render (v : RenderSettings) (s : Scene) : Scene :=
  mkScene (objects s) (next_handle s) (images s) (materials s) (cursor_location s) (mode s)
          (active_object s) v (props s) (random_calls s) (files s) (reports s).
Definition set_random_calls (v : nat) (s : Scene) : Scene :=
  mkScene (objects s) (next_handle s) (images s) (materials s) (cursor_location s) (mode s)
          (active_object s) (render s) (props s) v (files s) (reports s).
Definition set_files (v : list string) (s : Scene) : Scene :=
  mkScene (objects s) (next_handle s) (images s) (materials s) (cursor_location s) (mode s)
          (active_object s) (render s) (props s) (random_calls s) v (reports s).
Definition set_reports (v : list (string * string)) (s : Scene) : Scene :=
  mkScene (objects s) (next_handle s) (images s) (materials s) (cursor_location s) (mode s)
          (active_object s) (render s) (props s) (random_calls s) (files s) v.

(** What the host provides and the file does not define.
    - [cos], [sin], [radians]: the functions of [math];
    - [random k]: the value of the [k]-th call of [random.random()];
    - [track_euler d]: [d.normalized().to_track_quat('-Z','Y').to_euler()];
    - [euler_matrix r]: the rotation matrix of the Euler angles [r];
    - [isdir], [path_join]: [os.path.isdir], [os.path.join];
    - [blend_dir]: [bpy.path.abspath("//")];
    - [plane_half_extent size]: half the side of the square
      [bpy.ops.mesh.primitive_plane_add(size=size)] creates;
    - [bake s i]: the pixel buffer the renderer leaves in image [i] when
      [bpy.ops.object.bake] is called in scene [s], [None] when the call
      raises;
    - [export_gltf s path]: whether [bpy.ops.export_scene.gltf] succeeds in
      writing [path] when called in scene [s];
    - [denoiser_offered v]: whether [v] is among the values this build and
      this machine offer for [scene.cycles.denoiser] (OptiX needs a
      supported graphics card);
    - [writable path]: whether [Image.save()] can write a file at [path];
      it cannot, for one, at the path [blend_dir] gives when the blend file
      was never saved. *)
Record Env : Type := mkEnv {
  cos : Q -> Q;
  sin : Q -> Q;
  radians : Q -> Q;
  random : nat -> Q;
  track_euler : Vec3 -> Vec3;
  euler_matrix : Vec3 -> Mat3;
  isdir : string -> bool;
  path_join : string -> string -> string;
  blend_dir : string;
  plane_half_extent : Q -> Q;
  bake : Scene -> nat -> option (list Q);
  export_gltf : Scene -> string -> bool;
  denoiser_offered : string -> bool;
  writable : string -> bool
}.

(** The value an operator's [execute] returns. *)
Inductive OpResult : Type := FINISHED | CANCELLED.

End Bpy.
Import Bpy.

(* ================================================================== *)
(** ** Computations on the scene *)

Module Monad.

(** A computation returns or raises, and leaves a scene either way. *)
Definition M (A : Type) : Type := Scene -> Res A * Scene.

Definition ret {A} (a : A) : M A := fun s => (Ok a, s).

Definition raise {A} (e : Exn) : M A := fun s => (Raise e, s).

Definition bind {A B} (m : M A) (k : A -> M B) : M B :=
  fun s =>
    match m s with
    | (Ok a, s') => k a s'
    | (Raise e, s') => (Raise e, s')
    end.

Definition gets {A} (f : Scene -> A) : M A := fun s => (Ok (f s), s).

Definition modify (f : Scene -> Scene) : M unit := fun s => (Ok tt, f s).

Definition lift {A} (r : Res A) : M A := fun s => (r, s).

Declare Scope scene_scope.
Delimit Scope scene_scope with scene.
Notation "x <- c ;; k" := (bind c (fun x => k))
  (at level 61, c at next level, right associativity) : scene_scope.
Notation "c ;; k" := (bind c (fun _ => k))
  (at level 61, right associativity) : scene_scope.

(** [for x in xs: body(x)] *)
Fixpoint for_each {A} (xs : list A) (body : A -> M unit) : M unit :=
  match xs with
  | [] => ret tt
  | x :: rest => (body x ;; for_each rest body)%scene
  end.

(** A loop that appends what each iteration yields to a list, as
    [lights.append(...)] and list comprehensions do. *)
Fixpoint for_collect {A B} (xs : list A) (body : A -> M (option B)) : M (list B) :=
  match xs with
  | [] => ret []
  | x :: rest =>
      (y <- body x ;;
       ys <- for_collect rest body ;;
       ret (match y with Some b => b :: ys | None => ys end))%scene
  end.

End Monad.
Import Monad.

(* ================================================================== *)
(** ** The host's operations ([bpy.data], [bpy.ops], [bpy.context])

    These are Blender's, not the add-on's: each definition states the
    documented effect of the call on the part of the state modelled here,
    for objects without a parent, the objects of the view layer being
    visible and selectable.  [mode] is what [bpy.context.mode] returns:
    "OBJECT", "EDIT_MESH", "SCULPT" and so on. *)

Module Host.

Local Open Scope string_scope.
Local Open Scope scene_scope.

Definition lookup (h : nat) (obs : list (nat * Object)) : option Object :=
  match find (fun p => (fst p =? h)%nat) obs with
  | Some p => Some (snd p)
  | None => None
  end.

(** Reading through a handle; a handle whose object was removed raises. *)
Definition get_object (h : nat) : M Object :=
  fun s =>
    match lookup h (objects s) with
    | Some o => (Ok o, s)
    | None => (Raise ReferenceError, s)
    end.

(** Reading an attribute of [None] raises. *)
Definition deref (h : option nat) : M nat :=
  match h with
  | Some h => ret h
  | None => raise AttributeError
  end.

Definition replace_object (h : nat) (f : Object -> Object)
    (obs : list (nat * Object)) : list (nat * Object) :=
  map (fun p => if (fst p =? h)%nat then (fst p, f (snd p)) else p) obs.

(** [obj.attr = v] *)
Definition update_object (h : nat) (f : Object -> Object) : M unit :=
  _ <- get_object h ;;
  modify (fun s => set_objects (replace_object h f (objects s)) s).

Definition map_objects (f : Object -> Object) : M unit :=
  modify (fun s => set_objects (map (fun p => (fst p, f (snd p))) (objects s)) s).

(** [bpy.data.objects.new]: a fresh handle. *)
Definition new_object (o : Object) : M nat :=
  fun s =>
    let h := next_handle s in
    (Ok h, set_next_handle (S h) (set_objects (objects s ++ [(h, o)]) s)).

(** [bpy.data.objects.remove(obj, do_unlink=True)] *)
Definition objects_remove (h : nat) : M unit :=
  _ <- get_object h ;;
  modify (fun s =>
    set_active_object
      (match active_object s with
       | Some a => if (a =? h)%nat then None else Some a
       | None => None
       end)
      (set_objects (filter (fun p => negb (fst p =? h)%nat) (objects s)) s)).

(** [collection.objects.link(obj)] *)
Definition objects_link (h : nat) : M unit := update_object h (set_linked true).

(** [bpy.ops.object.mode_set(mode=m)] *)
Definition mode_set (m : string) : M unit := modify (set_mode m).

(** The operators of [bpy.ops.object] that work on the selected objects can
    be called in object mode only: in any other mode their [poll] fails
    and the call raises. *)
Definition object_mode_poll : M unit :=
  md <- gets mode ;;
  if md =? "OBJECT" then ret tt else raise RuntimeError.

(** Every object of the view layer deselected. *)
Definition deselect_all : M unit :=
  map_objects (fun o => if linked o then set_select false o else o).

(** [bpy.ops.object.select_all(action='DESELECT')] *)
Definition select_all_deselect : M unit :=
  object_mode_poll ;;
  deselect_all.

(** [obj.select_set(v)]: an object that is not in the view layer cannot be
    selected, and asking for it raises. *)
Definition select_set (h : nat) (v : bool) : M unit :=
  o <- get_object h ;;
  if linked o then update_object h (set_select v)
  else if v then raise RuntimeError
  else ret tt.

(** The objects an operator of [bpy.ops.object] acts on. *)
Definition selected_mesh (o : Object) : bool :=
  linked o && select o && (type o =? "MESH").

Definition map_vertices (f : Vec3 -> Vec3) (d : ObData) : ObData :=
  match d with
  | MeshData vs slots => MeshData (map f vs) slots
  | other => other
  end.

(** Moving the origin of [o] to the world point [c] without moving its
    geometry: the mesh is translated by minus the local coordinates of [c]
    and the object by the same amount seen from the world. *)
Definition origin_to (c : Vec3) (o : Object) : Object :=
  let cent := mat_inv_apply (matrix_world o) c in
  let shift := mat3_apply (linear (matrix_world o)) cent in
  set_matrix_world (matrix (linear (matrix_world o))
                           (vadd (translation (matrix_world o)) shift))
    (set_location (vadd (location o) shift)
      (set_bound_box (map (fun v => vsub v cent) (bound_box o))
        (set_data (map_vertices (fun v => vsub v cent) (data o)) o))).

(** [bpy.ops.object.origin_set(type='ORIGIN_CURSOR')]; the operator
    reports an error, which raises, when an object is being edited. *)
Definition origin_set_cursor : M unit :=
  md <- gets mode ;;
  if prefix "EDIT" md then raise RuntimeError
  else
    c <- gets cursor_location ;;
    map_objects (fun o => if selected_mesh o then origin_to c o else o).

Section WithEnv.

Variable env : Env.

(** The plane primitive for [size], a square in the local XY plane. *)
Definition plane_object (size : Q) (at_ : Vec3) : Object :=
  let h := plane_half_extent env size in
  mkObject "Plane" "MESH" at_ vzero (vec3 1 1 1) (matrix mat3_identity at_)
    [vec3 (-h) (-h) 0; vec3 (-h) (-h) 0; vec3 (-h) h 0; vec3 (-h) h 0;
     vec3 h (-h) 0; vec3 h (-h) 0; vec3 h h 0; vec3 h h 0]
    (vec3 (h + h) (h + h) 0)
    (MeshData [vec3 (-h) (-h) 0; vec3 h (-h) 0; vec3 (-h) h 0; vec3 h h 0] [])
    true false true.

(** [bpy.ops.mesh.primitive_plane_add(size=size)].  While a mesh is being
    edited the square is added to the mesh under edit: no object is
    created and the active object stays the edited one.  Otherwise a new
    plane is put at the 3D cursor and becomes the only selected object and
    the active one; the new object is in object mode, so that the context
    is in object mode afterwards. *)
Definition primitive_plane_add (size : Q) : M unit :=
  md <- gets mode ;;
  if md =? "EDIT_MESH" then ret tt
  else
    deselect_all ;;
    c <- gets cursor_location ;;
    h <- new_object (plane_object size c) ;;
    modify (set_active_object (Some h)) ;;
    if md =? "OBJECT" then ret tt else mode_set "OBJECT".

(** The world matrix of an object from its location, rotation and scale. *)
Definition evaluated_matrix (o : Object) : Matrix :=
  matrix (mat3_scale_columns (euler_matrix env (rotation_euler o)) (scale o))
         (location o).

(** [bpy.context.view_layer.update()] *)
Definition view_layer_update : M unit :=
  map_objects (fun o => set_matrix_world (evaluated_matrix o) o).

(** Applying the scale: the mesh takes the scale, the object's scale
    becomes 1 and its world matrix is evaluated again. *)
Definition apply_scale (o : Object) : Object :=
  let o1 :=
    set_scale (vec3 1 1 1)
      (set_bound_box (map (vmul (scale o)) (bound_box o))
        (set_data (map_vertices (vmul (scale o)) (data o)) o)) in
  set_matrix_world (evaluated_matrix o1) o1.

(** [bpy.ops.object.transform_apply(location=False, rotation=False, scale=True)] *)
Definition transform_apply_scale : M unit :=
  object_mode_poll ;;
  map_objects (fun o => if selected_mesh o then apply_scale o else o).

(** [random.uniform(a, b)]: [a + (b-a) * random()] *)
Definition random_uniform (a b : Q) : M Q :=
  k <- gets random_calls ;;
  modify (set_random_calls (S k)) ;;
  ret (a + (b - a) * random env k).

(** [bpy.ops.object.bake(type='SHADOW')], writing into image [i]. *)
Definition object_bake (i : nat) : M unit :=
  fun s =>
    match bake env s i, nth_error (images s) i with
    | Some px, Some im =>
        (Ok tt,
         set_images (firstn i (images s)
                     ++ mkImage (img_name im) (img_size im) px
                                (filepath_raw im) (file_format im)
                     :: skipn (S i) (images s)) s)
    | _, _ => (Raise RuntimeError, s)
    end.

(** [bpy.ops.export_scene.gltf(filepath=path, export_format='GLB',
    check_existing=True, use_selection=True)] *)
Definition export_scene_gltf (path : string) : M unit :=
  fun s =>
    if export_gltf env s path
    then (Ok tt, set_files (path :: files s) s)
    else (Raise RuntimeError, s).

(** [scene.render.engine = v], [scene.cycles.device = v] and the like. *)
Definition update_render (f : RenderSettings -> RenderSettings) : M unit :=
  modify (fun s => set_render (f (render s)) s).

(** [scene.cycles.denoiser = v]: a value the build does not offer is
    refused. *)
Definition assign_denoiser (v : string) : M unit :=
  if denoiser_offered env v then update_render (set_denoiser v)
  else raise TypeError.

End WithEnv.

(** [bpy.data.images.new(name, width, height, alpha=True)]: a buffer of
    [4 * width * height] numbers. *)
Definition images_new (nm : string) (width height : nat) : M nat :=
  fun s =>
    (Ok (length (images s)),
     set_images (images s
                 ++ [mkImage nm (width, height)
                             (concat (repeat [0; 0; 0; 1] (width * height)))
                             "" "TARGA"]) s).

Definition get_image (i : nat) : M Image :=
  fun s =>
    match nth_error (images s) i with
    | Some im => (Ok im, s)
    | None => (Raise ReferenceError, s)
    end.

Definition update_image (i : nat) (f : Image -> Image) : M unit :=
  im <- get_image i ;;
  modify (fun s =>
    set_images (firstn i (images s) ++ f im :: skipn (S i) (images s)) s).

(** [img.pixels[:] = px]: the sizes must agree. *)
Definition set_pixels (i : nat) (px : list Q) : M unit :=
  im <- get_image i ;;
  if (length px =? length (img_pixels im))%nat
  then update_image i (fun im => mkImage (img_name im) (img_size im) px
                                         (filepath_raw im) (file_format im))
  else raise ValueError.

(** [img.save()]: the file goes to [filepath_raw]; the call raises when it
    cannot be written. *)
Definition image_save (env : Env) (i : nat) : M unit :=
  im <- get_image i ;;
  if writable env (filepath_raw im)
  then modify (fun s => set_files (filepath_raw im :: files s) s)
  else raise RuntimeError.

(** [bpy.data.materials.new(name)] followed by the node set-up. *)
Definition materials_new (m : Material) : M nat :=
  fun s => (Ok (length (materials s)), set_materials (materials s ++ [m]) s).

(** [self.report({level}, msg)] *)
Definition report (level msg : string) : M unit :=
  modify (fun s => set_reports ((level, msg) :: reports s) s).

End Host.
Import Host.

(* ================================================================== *)
(** ** The add-on: utility functions *)

Section Addon.

Variable env : Env.

Local Open Scope string_scope.
Local Open Scope scene_scope.

(** [MEASUREMENTS]: the height range of every preset. *)
Definition MEASUREMENTS : list (string * (Q * Q)) :=
  [("Table", (0.71, 0.76));
   ("Chair", (0.45, 0.5));
   ("Hanger", (1.5, 1.8));
   ("High table", (1, 1.07));
   ("FREE (Only for exceptions)", (0, 9999))].

Definition measurement_range (key : string) : option (Q * Q) :=
  match find (fun p => fst p =? key) MEASUREMENTS with
  | Some p => Some (snd p)
  | None => None
  end.

(** The test the panel draws "Within range" with (line 695):
    [dimensions.z > MEASUREMENTS[key][0] and dimensions.z < MEASUREMENTS[key][1]]. *)
Definition within_range (key : string) (o : Object) : bool :=
  match measurement_range key with
  | Some (lo, hi) => Qltb lo (vz (dimensions o)) && Qltb (vz (dimensions o)) hi
  | None => false
  end.

(** [world_bbox_corners] *)
Definition world_bbox_corners (o : Object) : list Vec3 :=
  map (mat_apply (matrix_world o)) (bound_box o).

(** [bbox_min_max_z] *)
Definition bbox_min_max_z (o : Object) : Res (Q * Q) :=
  let corners := world_bbox_corners o in
  let zs := map vz corners in
  (mn <- min_list zs ;; mx <- max_list zs ;; Ok (mn, mx))%res.

(** [compute_radius_from_dimensions] *)
Definition compute_radius_from_dimensions (o : Object) : Q :=
  let dims := dimensions o in
  max3 (vx dims) (vy dims) (vz dims) * 1.2.

(** The side length [make_shadow_plane] (lines 331-333) and the bake
    operator (lines 442-444) pass to [create_plane_at]:
<<
    side_len = radius * 4.0
    if side_len <= 0.0:
        side_len = 1.0
>> *)
Definition side_len_of (radius : Q) : Q :=
  let side_len := radius * 4.0 in
  if Qle_bool side_len 0.0 then 1.0 else side_len.

(** The centre of the bottom face in local space, lines 78-84 of
    [fix_origin]:
<<
    bb_local = [mathutils.Vector(v) for v in obj.bound_box]
    min_z = min(v.z for v in bb_local)
    bottom_verts = [v for v in bb_local if abs(v.z - min_z) <= eps]
    if not bottom_verts:
        bottom_verts = [v for v in bb_local if v.z == min_z]
    center_local = sum(bottom_verts, Vector((0.0, 0.0, 0.0))) / len(bottom_verts)
>>
    Dividing a vector by zero raises. *)
Definition center_of_bottom (bb_local : list Vec3) : Res Vec3 :=
  let eps := 0.000001 in
  (min_z <- min_list (map vz bb_local) ;;
   let bottom_verts :=
     filter (fun v => Qle_bool (Qabs (vz v - min_z)) eps) bb_local in
   let bottom_verts :=
     match bottom_verts with
     | [] => filter (fun v => Qeq_bool (vz v) min_z) bb_local
     | _ => bottom_verts
     end in
   match bottom_verts with
   | [] => Raise ZeroDivisionError
   | _ => Ok (vdiv (fold_left vadd bottom_verts (vec3 0.0 0.0 0.0))
                   (inject_Z (Z.of_nat (length bottom_verts))))
   end)%res.

(** [fix_origin].  The guard reads [obj.type] before it compares [obj]
    with [None]. *)
Definition fix_origin (obj : option nat) : M unit :=
  h <- deref obj ;;
  o <- get_object h ;;
  if negb (type o =? "MESH") || match obj with None => true | Some _ => false end
  then ret tt
  else
    md <- gets mode ;;
    (if negb (md =? "OBJECT") then mode_set "OBJECT" else ret tt) ;;
    o <- get_object h ;;
    center_local <- lift (center_of_bottom (bound_box o)) ;;
    let center_world := mat_apply (matrix_world o) center_local in
    prev_cursor <- gets cursor_location ;;
    modify (set_cursor_location center_world) ;;
    select_all_deselect ;;
    select_set h true ;;
    origin_set_cursor ;;
    update_object h (set_location (vec3 0.0 0.0 0.0)) ;;
    modify (set_cursor_location prev_cursor) ;;
    view_layer_update env ;;
    transform_apply_scale env ;;
    ret tt.

(** [create_plane_at] *)
Definition create_plane_at (obj : nat) (side_length : Q) : M nat :=
  primitive_plane_add env 1.0 ;;
  active <- gets active_object ;;
  plane <- deref active ;;
  o <- get_object obj ;;
  update_object plane (set_name (name o ++ "_shadow_plane")) ;;
  let scale_factor := side_length / 2.0 in
  update_object plane (set_scale (vec3 scale_factor scale_factor 1.0)) ;;
  o <- get_object obj ;;
  mm <- lift (bbox_min_max_z o) ;;
  let bbox_min_z := fst mm in
  o <- get_object obj ;;
  let world_center := translation (matrix_world o) in
  update_object plane
    (set_location (vec3 (vx world_center) (vy world_center) bbox_min_z)) ;;
  view_layer_update env ;;
  transform_apply_scale env ;;
  ret plane.

(** [create_image] *)
Definition create_image (nm : string) (width height : nat) : M nat :=
  img <- images_new nm width height ;;
  let pixels := concat (repeat [1.0; 1.0; 1.0; 1.0] (width * height)) in
  set_pixels img pixels ;;
  ret img.

(** [ensure_material_with_image]: the material holds the output node, the
    principled node and the image node, linked texture -> base colour and
    BSDF -> surface; it goes to the first slot of the object. *)
Definition ensure_material_with_image (obj img : nat) : M nat :=
  im <- get_image img ;;
  mat <- materials_new
           (mkMaterial (img_name im ++ "_mat") true
              [mkNode "ShaderNodeOutputMaterial" None "";
               mkNode "ShaderNodeBsdfPrincipled" None "";
               mkNode "ShaderNodeTexImage" (Some img) "Closest"]
              [((2%nat, "Color"), (1%nat, "Base Color"));
               ((1%nat, "BSDF"), (0%nat, "Surface"))]) ;;
  o <- get_object obj ;;
  match data o with
  | MeshData vs (_ :: slots) =>
      update_object obj (set_data (MeshData vs (mat :: slots)))
  | MeshData vs [] =>
      update_object obj (set_data (MeshData vs [mat]))
  | _ => raise AttributeError
  end ;;
  ret mat.

(** One turn of the loop of [create_x_suns_around]. *)
Definition create_sun (obj : nat) (distance obj_distance angle_increment : Q)
    (i : nat) : M (option nat) :=
  sym <- gets (fun s => simetric (props s)) ;;
  angle_random_offset <-
    (if sym then ret 0
     else random_uniform env (- angle_increment / 4) (angle_increment / 4)) ;;
  let angle_rad :=
    radians env (inject_Z (Z.of_nat i) * angle_increment + angle_random_offset) in
  o <- get_object obj ;;
  let x := vx (location o) + (obj_distance + distance) * cos env angle_rad in
  let y := vy (location o) + (obj_distance + distance) * sin env angle_rad in
  mm <- lift (bbox_min_max_z o) ;;
  let max_z := snd mm in
  let z := max_z + 5.0 in
  let nm := "Shadow_Sun_" ++ NilZero.string_of_uint (Nat.to_uint (i + 1)) in
  energy <- gets (fun s => strength (props s)) ;;
  spread <- gets (fun s => radians env (angle (props s))) ;;
  light_obj <- new_object
    (mkObject nm "LIGHT" vzero vzero (vec3 1 1 1) (matrix mat3_identity vzero)
              [] vzero (LightData energy spread) false false false) ;;
  objects_link light_obj ;;
  update_object light_obj (set_location (vec3 x y z)) ;;
  o <- get_object obj ;;
  l <- get_object light_obj ;;
  let direction := vsub (location o) (location l) in
  update_object light_obj (set_rotation_euler (track_euler env direction)) ;;
  ret (Some light_obj).

(** [create_x_suns_around] *)
Definition create_x_suns_around (obj : nat) (distance : Q) : M (list nat) :=
  o <- get_object obj ;;
  let obj_distance :=
    if Qltb (vy (dimensions o)) (vx (dimensions o))
    then vx (dimensions o) else vy (dimensions o) in
  n <- gets (fun s => numLights (props s)) ;;
  if (n =? 0)%Z then raise ZeroDivisionError
  else
    let angle_increment := 360 / inject_Z n in
    for_collect (range (Z.to_nat n))
                (create_sun obj distance obj_distance angle_increment).

(** [setup_render] *)
Definition setup_render : M unit :=
  modify (fun s =>
    set_render (mkRender "CYCLES" "SHADOW" "CPU" (denoiser (render s)) 64 false) s).

(** [isolate_mesh_render] *)
Definition isolate_mesh_render (obj : nat) : M unit :=
  o <- get_object obj ;;
  if negb (type o =? "MESH") then ret tt
  else
    map_objects (fun o => if linked o && (type o =? "MESH")
                          then set_hide_render true o else o) ;;
    update_object obj (set_hide_render false).

(** The post-processing of the baked image (lines 349-365), shared with the
    bake operator. *)
Definition postprocess (img : nat) : M unit :=
  rendered <- get_image img ;;
  let pixels := img_pixels rendered in
  pixels <- lift (binarize pixels) ;;
  set_pixels img pixels.

(** [make_shadow_plane] *)
Definition make_shadow_plane (obj : nat) : M nat :=
  setup_render ;;
  o <- get_object obj ;;
  let radius := compute_radius_from_dimensions o in
  let side_len := side_len_of radius in
  plane <- create_plane_at obj side_len ;;
  o <- get_object obj ;;
  img <- create_image (name o ++ "_shadow_tex") 128 128 ;;
  ensure_material_with_image plane img ;;
  isolate_mesh_render obj ;;
  update_object plane (set_hide_render false) ;;
  object_bake env img ;;
  postprocess img ;;
  ret plane.

(** [export_obj] *)
Definition export_obj (obj : nat) : M unit :=
  lights <- create_x_suns_around obj 1.0 ;;
  plane <- make_shadow_plane obj ;;
  select_all_deselect ;;
  select_set plane true ;;
  select_set obj true ;;
  dir <- gets (fun s => pathToFile (props s)) ;;
  o <- get_object obj ;;
  export_scene_gltf env (path_join env dir (name o ++ ".glb")) ;;
  objects_remove plane ;;
  for_each lights objects_remove.

(* ------------------------------------------------------------------ *)
(** ** The add-on: operators *)

(** [OBJECT_OT_reset_pivot.poll] *)
Definition reset_pivot_poll : M bool :=
  t <- gets (fun s => targetObj (props s)) ;;
  match t with
  | None => ret false
  | Some h => o <- get_object h ;; ret (type o =? "MESH")
  end.

(** [OBJECT_OT_reset_pivot.execute] *)
Definition reset_pivot_execute : M OpResult :=
  t <- gets (fun s => targetObj (props s)) ;;
  fix_origin t ;;
  ret FINISHED.

(** [OBJECT_OT_bake_shadow_texture.execute] *)
Definition bake_shadow_texture_execute : M OpResult :=
  sel <- gets active_object ;;
  match sel with
  | None => report "ERROR" "Active object must be a mesh" ;; ret CANCELLED
  | Some sel =>
      o <- get_object sel ;;
      if negb (type o =? "MESH")
      then report "ERROR" "Active object must be a mesh" ;; ret CANCELLED
      else
        update_render (set_engine "CYCLES") ;;
        update_render (set_engine "CYCLES") ;;
        update_render (set_device "GPU") ;;
        update_render (set_bake_type "SHADOW") ;;
        assign_denoiser env "OPTIX" ;;
        update_render (set_samples 64) ;;
        o <- get_object sel ;;
        let radius := compute_radius_from_dimensions o in
        let side_len := side_len_of radius in
        plane <- create_plane_at sel side_len ;;
        o <- get_object sel ;;
        img <- create_image (name o ++ "_shadow_tex") 128 128 ;;
        ensure_material_with_image plane img ;;
        create_x_suns_around sel 1.0 ;;
        object_bake env img ;;
        postprocess img ;;
        let final_path := path_join env (blend_dir env) "baked_shadow.png" in
        update_image img (fun im => mkImage (img_name im) (img_size im)
                                            (img_pixels im) final_path "PNG") ;;
        image_save env img ;;
        report "INFO" ("Baked shadow saved to: " ++ final_path) ;;
        ret FINISHED
  end.

(** [OBJECT_OT_export_obj_glb.execute] *)
Definition export_obj_glb_execute : M OpResult :=
  md <- gets mode ;;
  (if negb (md =? "OBJECT") then mode_set "OBJECT" else ret tt) ;;
  t <- gets (fun s => targetObj (props s)) ;;
  match t with
  | None => report "ERROR" "No target object selected" ;; ret CANCELLED
  | Some t =>
      dir <- gets (fun s => pathToFile (props s)) ;;
      if negb (isdir env dir)
      then report "ERROR" "Invalid path" ;; ret CANCELLED
      else
        o <- get_object t ;;
        if negb (type o =? "MESH")
        then report "ERROR" "Target object is not a mesh" ;; ret CANCELLED
        else
          lights <- create_x_suns_around t 1.0 ;;
          plane <- make_shadow_plane t ;;
          select_all_deselect ;;
          select_set plane true ;;
          select_set t true ;;
          dir <- gets (fun s => pathToFile (props s)) ;;
          o <- get_object t ;;
          export_scene_gltf env (path_join env dir (name o ++ ".glb")) ;;
          objects_remove plane ;;
          for_each lights objects_remove ;;
          modify (set_active_object (Some t)) ;;
          ret FINISHED
  end.

(** [OBJECT_OT_export_collection_glb.execute] *)
Definition export_collection_glb_execute : M OpResult :=
  c <- gets (fun s => Collection (props s)) ;;
  match c with
  | None => report "ERROR" "No collection selected" ;; ret CANCELLED
  | Some all_objects =>
      dir <- gets (fun s => pathToFile (props s)) ;;
      if negb (isdir env dir)
      then report "ERROR" "Invalid path" ;; ret CANCELLED
      else if (length all_objects =? 0)%nat
      then report "ERROR" "Collection is empty" ;; ret CANCELLED
      else
        meshes <- for_collect all_objects
                    (fun obj => o <- get_object obj ;;
                                ret (if type o =? "MESH" then Some obj else None)) ;;
        md <- gets mode ;;
        (if negb (md =? "OBJECT") then mode_set "OBJECT" else ret tt) ;;
        for_each meshes
          (fun mesh =>
             o <- get_object mesh ;;
             if negb (type o =? "MESH")
             then report "ERROR" (name o ++ " is not a mesh")
             else export_obj mesh) ;;
        ret FINISHED
  end.

End Addon.

(* ================================================================== *)
(** ** Notions used in the statements *)

Module Notions.

(** The handles of the objects of a scene, in creation order. *)
Definition handles (s : Scene) : list nat := map fst (objects s).

(** Handles are handed out in increasing order: those in use lie below the
    next one. *)
Definition wf_scene (s : Scene) : Prop :=
  forall p, In p (objects s) -> (fst p < next_handle s)%nat.

Definition fresh (h : nat) (obs : list (nat * Object)) : Prop :=
  forall p, In p obs -> fst p <> h.

(** What [select_all(action='DESELECT')] and [view_layer.update()] make of
    one object. *)
Definition deselect (o : Object) : Object :=
  if linked o then set_select false o else o.

Definition refresh (env : Env) (o : Object) : Object :=
  set_matrix_world (evaluated_matrix env o) o.

Definition settled (env : Env) (o : Object) : Object := refresh env (deselect o).

(** What [transform_apply(scale=True)] makes of one object. *)
Definition applied (env : Env) (o : Object) : Object :=
  if selected_mesh o then apply_scale env o else o.

(** What the blanket loop of [isolate_mesh_render] makes of one object. *)
Definition hidden (o : Object) : Object :=
  if linked o && (type o =? "MESH")%string then set_hide_render true o else o.

(** The material [ensure_material_with_image] builds for image [img]. *)
Definition shadow_material (im : Image) (img : nat) : Material :=
  mkMaterial (img_name im ++ "_mat")%string true
    [mkNode "ShaderNodeOutputMaterial" None "";
     mkNode "ShaderNodeBsdfPrincipled" None "";
     mkNode "ShaderNodeTexImage" (Some img) "Closest"]
    [((2%nat, "Color"%string), (1%nat, "Base Color"%string));
     ((1%nat, "BSDF"%string), (0%nat, "Surface"%string))].

(** The first material slot taken by [mat]. *)
Definition with_material (mat : nat) (o : Object) : Object :=
  match data o with
  | MeshData vs (_ :: slots) => set_data (MeshData vs (mat :: slots)) o
  | MeshData vs [] => set_data (MeshData vs [mat]) o
  | _ => o
  end.

(** [m] is the least (greatest) item of [zs]. *)
Definition is_min (m : Q) (zs : list Q) : Prop :=
  In m zs /\ forall z, In z zs -> m <= z.

Definition is_max (m : Q) (zs : list Q) : Prop :=
  In m zs /\ forall z, In z zs -> z <= m.

(** The world-space height of the point that has the local coordinates [c]
    in object [o]: the third row of the object's world matrix applied to
    (x, y, z, 1). *)
Definition world_z (o : Object) (c : Vec3) : Q :=
  dot (row_z (linear (matrix_world o))) c + vz (translation (matrix_world o)).

(** The mesh vertices of an object. *)
Definition vertices (o : Object) : list Vec3 :=
  match data o with
  | MeshData vs _ => vs
  | _ => []
  end.

(** [o'] is [o] up to the selection flag, the render visibility and the
    evaluated world matrix. *)
Definition same_body (o o' : Object) : Prop :=
  name o' = name o /\ type o' = type o /\ location o' = location o /\
  rotation_euler o' = rotation_euler o /\ scale o' = scale o /\
  bound_box o' = bound_box o /\ dimensions o' = dimensions o /\
  data o' = data o /\ linked o' = linked o.

(** The renderer and the exporter never fail, and the renderer leaves whole
    pixels in the image. *)
Definition bake_succeeds (env : Env) : Prop :=
  forall s i, exists px n, bake env s i = Some px /\ length px = (4 * n)%nat.

Definition export_succeeds (env : Env) : Prop :=
  forall s path, export_gltf env s path = true.

(** The plane [create_plane_at] leaves in the scene for object [o], side
    length [side_length] and lowest corner height [mn], when the 3D cursor
    is at [c]. *)
Definition shadow_plane (env : Env) (o : Object) (side_length mn : Q) (c : Vec3)
    : Object :=
  let scale_factor := side_length / 2.0 in
  let world_center := translation (matrix_world o) in
  apply_scale env
    (refresh env
      (set_location (vec3 (vx world_center) (vy world_center) mn)
        (set_scale (vec3 scale_factor scale_factor 1.0)
          (set_name (name o ++ "_shadow_plane")%string
            (plane_object env 1.0 c))))).

(** The light ring of [create_x_suns_around], light by light.
    [footprint] is [obj_distance], [angle_step] is [angle_increment],
    [jitter] the random offset of light [i] when [k0] draws were taken
    before the loop, [azimuth] the angle in degrees handed to [radians]. *)
Definition footprint (o : Object) : Q :=
  if Qltb (vy (dimensions o)) (vx (dimensions o))
  then vx (dimensions o) else vy (dimensions o).

Definition angle_step (pr : Props) : Q := 360 / inject_Z (numLights pr).

Definition jitter (env : Env) (pr : Props) (k0 i : nat) : Q :=
  if simetric pr then 0
  else - angle_step pr / 4
       + (angle_step pr / 4 - - angle_step pr / 4) * random env (k0 + i)%nat.

Definition azimuth (env : Env) (pr : Props) (k0 i : nat) : Q :=
  inject_Z (Z.of_nat i) * angle_step pr + jitter env pr k0 i.

Definition sun_location (env : Env) (o : Object) (reach max_z azimuth_deg : Q)
    : Vec3 :=
  vec3 (vx (location o) + reach * cos env (radians env azimuth_deg))
       (vy (location o) + reach * sin env (radians env azimuth_deg))
       (max_z + 5.0).

Definition sun_object (env : Env) (o : Object) (pr : Props) (i : nat)
    (at_ : Vec3) : Object :=
  mkObject ("Shadow_Sun_" ++ NilZero.string_of_uint (Nat.to_uint (i + 1)))%string
           "LIGHT" at_ (track_euler env (vsub (location o) at_)) (vec3 1 1 1)
           (matrix mat3_identity vzero) [] vzero
           (LightData (strength pr) (radians env (angle pr)))
           false false true.

Definition nth_sun (env : Env) (o : Object) (pr : Props) (distance max_z : Q)
    (k0 i : nat) : Object :=
  sun_object env o pr i
    (sun_location env o (footprint o + distance) max_z (azimuth env pr k0 i)).

(** The scene after [m] turns of the loop started in [s]. *)
Definition with_suns (env : Env) (o : Object) (distance max_z : Q) (s : Scene)
    (m : nat) : Scene :=
  mkScene
    (objects s
     ++ map (fun i => ((next_handle s + i)%nat,
                       nth_sun env o (props s) distance max_z (random_calls s) i))
            (seq 0 m))
    (next_handle s + m)%nat (images s) (materials s) (cursor_location s)
    (mode s) (active_object s) (render s) (props s)
    (if simetric (props s) then random_calls s else (random_calls s + m)%nat)
    (files s) (reports s).

(** The scene [make_shadow_plane] returns in when the image holds [px]
    at the end; with the white buffer of [create_image] for [px] it is the
    scene the renderer is called in. *)
Definition white_pixels : list Q :=
  concat (repeat [1.0; 1.0; 1.0; 1.0] (128 * 128)).

Definition baked_plane (env : Env) (o : Object) (mn : Q) (c : Vec3) (mat : nat)
    : Object :=
  set_hide_render false
    (hidden
       (with_material mat
          (shadow_plane env o (side_len_of (compute_radius_from_dimensions o))
                        mn c))).

Definition after_shadow_plane (env : Env) (obj : nat) (o : Object) (mn : Q)
    (px : list Q) (s : Scene) : Scene :=
  mkScene
    (replace_object obj (set_hide_render false)
       (map (fun p => (fst p, hidden (snd p)))
          (map (fun p => (fst p, settled env (snd p))) (objects s)))
     ++ [(next_handle s,
          baked_plane env o mn (cursor_location s) (length (materials s)))])
    (S (next_handle s))
    (images s
     ++ [mkImage (name o ++ "_shadow_tex")%string (128%nat, 128%nat) px "" "TARGA"])
    (materials s
     ++ [shadow_material
           (mkImage (name o ++ "_shadow_tex")%string (128%nat, 128%nat)
                    white_pixels "" "TARGA")
           (length (images s))])
    (cursor_location s) (mode s) (Some (next_handle s))
    (mkRender "CYCLES" "SHADOW" "CPU" (denoiser (render s)) 64 false)
    (props s) (random_calls s) (files s) (reports s).

(** The stages of [export_obj] after the plane is baked: the plane and the
    object selected, the file written, the temporaries removed. *)
Definition ready_to_export (plane obj : nat) (s : Scene) : Scene :=
  mkScene
    (replace_object obj (set_select true)
       (replace_object plane (set_select true)
          (map (fun p => (fst p, deselect (snd p))) (objects s))))
    (next_handle s) (images s) (materials s) (cursor_location s) (mode s)
    (active_object s) (render s) (props s) (random_calls s) (files s)
    (reports s).

Definition with_file (path : string) (s : Scene) : Scene :=
  mkScene (objects s) (next_handle s) (images s) (materials s)
          (cursor_location s) (mode s) (active_object s) (render s) (props s)
          (random_calls s) (path :: files s) (reports s).

Definition removed (hs : list nat) (h : nat) : bool := existsb (Nat.eqb h) hs.

Definition without (hs : list nat) (s : Scene) : Scene :=
  mkScene
    (filter (fun p => negb (removed hs (fst p))) (objects s))
    (next_handle s) (images s) (materials s) (cursor_location s) (mode s)
    (match active_object s with
     | Some a => if removed hs a then None else Some a
     | None => None
     end)
    (render s) (props s) (random_calls s) (files s) (reports s).

(** The number of lights, their handles and the plane's handle when the
    export starts in [s]; the path of the file written for [o]. *)
Definition light_count (s : Scene) : nat := Z.to_nat (numLights (props s)).

Definition light_handles (s : Scene) : list nat :=
  map (fun i => (next_handle s + i)%nat) (seq 0 (light_count s)).

Definition plane_handle (s : Scene) : nat := (next_handle s + light_count s)%nat.

Definition glb_path (env : Env) (s : Scene) (o : Object) : string :=
  path_join env (pathToFile (props s)) (name o ++ ".glb")%string.

(** The scene in which [export_obj] calls the exporter, [px] being the
    post-processed image. *)
Definition staged (env : Env) (obj : nat) (o : Object) (mn mx : Q)
    (px : list Q) (s : Scene) : Scene :=
  ready_to_export (plane_handle s) obj
    (after_shadow_plane env obj o mn px
       (with_suns env o 1.0 mx s (light_count s))).

(** The scene [export_obj] returns in. *)
Definition exported (env : Env) (obj : nat) (o : Object) (mn mx : Q)
    (px : list Q) (s : Scene) : Scene :=
  without (light_handles s)
    (without [plane_handle s]
       (with_file (glb_path env s o) (staged env obj o mn mx px s))).

(** Every object of [s] is still in [s'], with the same body. *)
Definition keeps_objects (s s' : Scene) : Prop :=
  forall h x, lookup h (objects s) = Some x ->
              exists x', lookup h (objects s') = Some x' /\ same_body x x'.

(** The lights and the plane of an export started in [s] are in [s']: the
    objects of [s'] are those of [s], then the lights, then the plane. *)
Definition temporaries_left (s s' : Scene) : Prop :=
  handles s' = handles s ++ light_handles s ++ [plane_handle s] /\
  length (light_handles s) = light_count s /\
  (forall h, In h (light_handles s) ->
             exists l, lookup h (objects s') = Some l /\ type l = "LIGHT"%string) /\
  (exists p, lookup (plane_handle s) (objects s') = Some p /\
             type p = "MESH"%string).

(** Whether handle [h] is a mesh of scene [s], and the path of its file. *)
Definition is_mesh (s : Scene) (h : nat) : bool :=
  match lookup h (objects s) with
  | Some o => (type o =? "MESH")%string
  | None => false
  end.

Definition glb_path_of (env : Env) (s : Scene) (h : nat) : string :=
  match lookup h (objects s) with
  | Some o => glb_path env s o
  | None => EmptyString
  end.

(** The scene once the operator has switched to object mode. *)
Definition in_object_mode (s : Scene) : Scene :=
  if negb (mode s =? "OBJECT")%string then set_mode "OBJECT" s else s.

(** The body of the loop of [OBJECT_OT_export_collection_glb.execute]. *)
Definition export_member (env : Env) (mesh : nat) : M unit :=
  bind (get_object mesh)
    (fun o => if negb (type o =? "MESH")%string
              then report "ERROR" (name o ++ " is not a mesh")%string
              else export_obj env mesh).

(** A mesh of the view layer, with a bounding box, that the scene holds
    under handle [h]. *)
Definition exportable (s : Scene) (h : nat) : Prop :=
  exists x, lookup h (objects s) = Some x /\
            type x = "MESH"%string /\ bound_box x <> [] /\ linked x = true.

(** What [origin_set(type='ORIGIN_CURSOR')] makes of one object when the
    cursor is at [c]. *)
Definition recentred (c : Vec3) (o : Object) : Object :=
  if selected_mesh o then origin_to c o else o.

(** What [fix_origin] makes of the object it is called on, the centre of
    whose bottom face lies at the world point [c]. *)
Definition relocated (env : Env) (c : Vec3) (o : Object) : Object :=
  applied env
    (refresh env
       (set_location (vec3 0.0 0.0 0.0)
          (recentred c (set_select true (deselect o))))).

(** The bounding box of an object: the eight corners of the local box that
    reaches from [lo] to [hi], in the order [Object.bound_box] lists
    them. *)
Definition box_of (lo hi : Vec3) : list Vec3 :=
  [vec3 (vx lo) (vy lo) (vz lo); vec3 (vx lo) (vy lo) (vz hi);
   vec3 (vx lo) (vy hi) (vz hi); vec3 (vx lo) (vy hi) (vz lo);
   vec3 (vx hi) (vy lo) (vz lo); vec3 (vx hi) (vy lo) (vz hi);
   vec3 (vx hi) (vy hi) (vz hi); vec3 (vx hi) (vy hi) (vz lo)].

(** The centre of the bottom face of that box. *)
Definition bottom_centre (lo hi : Vec3) : Vec3 :=
  vec3 ((vx lo + vx hi) / 2) ((vy lo + vy hi) / 2) (vz lo).

(** [vs'] is [vs] with every vertex translated by minus [d]. *)
Definition shifted_by (d : Vec3) (vs vs' : list Vec3) : Prop :=
  Forall2 veq vs' (map (fun v => vsub v d) vs).

End Notions.
Import Notions.

(* ================================================================== *)
(** ** Sample scenes *)

Module Samples.

Local Open Scope string_scope.

(** An axis-aligned box of the given extents standing on its local origin,
    placed at [at_] with the given uniform scale and no rotation; its mesh
    has the eight corners as vertices. *)
Definition box_corners (sx sy sz : Q) : list Vec3 :=
  [vec3 (- sx / 2) (- sy / 2) 0; vec3 (- sx / 2) (- sy / 2) sz;
   vec3 (- sx / 2) (sy / 2) sz;  vec3 (- sx / 2) (sy / 2) 0;
   vec3 (sx / 2) (- sy / 2) 0;   vec3 (sx / 2) (- sy / 2) sz;
   vec3 (sx / 2) (sy / 2) sz;    vec3 (sx / 2) (sy / 2) 0].

Definition box (nm : string) (sx sy sz k : Q) (at_ : Vec3) : Object :=
  mkObject nm "MESH" at_ vzero (vec3 k k k)
    (matrix (mat3_scale_columns mat3_identity (vec3 k k k)) at_)
    (box_corners sx sy sz)
    (vec3 (sx * k) (sy * k) (sz * k))
    (MeshData (box_corners sx sy sz) [])
    false false true.

(** A host whose trigonometry is exact on the quarter turns, whose random
    generator always returns one half, whose renderer leaves a uniform
    light grey in the 128 x 128 image when [bake_ok] (and raises otherwise),
    and whose exporter answers [export_ok]; it offers every denoiser and
    can write every path. *)
Definition quarter_cos (d : Q) : Q :=
  if Qeq_bool d 0 then 1 else if Qeq_bool d 180 then -1 else 0.

Definition quarter_sin (d : Q) : Q :=
  if Qeq_bool d 90 then 1 else if Qeq_bool d 270 then -1 else 0.

Definition grey_pixels : list Q :=
  concat (repeat [0.9; 0.9; 0.9; 1] (128 * 128)).

Definition sample_env (bake_ok export_ok : bool) : Env :=
  mkEnv quarter_cos quarter_sin (fun d => d) (fun _ => 1 # 2) (fun v => v)
        (fun _ => mat3_identity) (fun _ => true)
        (fun a b => a ++ "/" ++ b) "/tmp" (fun size => size / 2)
        (fun _ _ => if bake_ok then Some grey_pixels else None)
        (fun _ _ => export_ok)
        (fun _ => true) (fun _ => true).

(** The same host, except that its exporter refuses the file of the
    object named "Table". *)
Definition picky_env : Env :=
  mkEnv quarter_cos quarter_sin (fun d => d) (fun _ => 1 # 2) (fun v => v)
        (fun _ => mat3_identity) (fun _ => true)
        (fun a b => a ++ "/" ++ b) "/tmp" (fun size => size / 2)
        (fun _ _ => Some grey_pixels)
        (fun _ path => negb (path =? "/out/Table.glb"))
        (fun _ => true) (fun _ => true).

Definition sample_render : RenderSettings :=
  mkRender "BLENDER_EEVEE" "COMBINED" "CPU" "NONE" 128 true.

(** A scene holding the given objects under the handles 0, 1, 2, ... *)
Definition scene_of (obs : list Object) (pr : Props) : Scene :=
  mkScene (combine (seq 0 (length obs)) obs) (length obs) [] [] vzero "OBJECT"
          None sample_render pr 0 [] [].

(** One table, 1 x 1 x 0.74, selected as the target; four symmetric lights. *)
Definition table : Object := box "Table" 1 1 0.74 1 (vec3 3 4 0).

Definition single_scene : Scene :=
  scene_of [table]
    (mkProps "/out" 13.3 true 5.0 None (Some 0%nat) 4 "Table").

(** A collection of three meshes, the third one 2 m high, outside the
    height range of the preset "Table". *)
Definition desk : Object := box "Desk" 2 1 0.75 1 (vec3 0 0 0).
Definition wardrobe : Object := box "Wardrobe" 1 1 2 1 (vec3 5 0 0).

Definition collection_scene : Scene :=
  scene_of [table; desk; wardrobe]
    (mkProps "/out" 13.3 true 5.0 (Some [0; 1; 2]%nat) None 4 "Table").

(** A mesh of 10 cm in every direction. *)
Definition pebble : Object := box "Pebble" 0.1 0.1 0.1 1 (vec3 0 0 0).

(** A unit box scaled by two, away from the world origin. *)
Definition scaled_box : Object := box "Crate" 1 1 1 2 (vec3 1 2 3).

Definition scaled_scene : Scene :=
  scene_of [scaled_box]
    (mkProps "/out" 13.3 true 5.0 None (Some 0%nat) 4 "Table").

(** A unit cube whose origin is a corner of its bottom face, scaled by two
    and placed at (1,2,3). *)
Definition corner_crate : Object :=
  mkObject "Crate" "MESH" (vec3 1 2 3) vzero (vec3 2 2 2)
    (matrix (mat3_scale_columns mat3_identity (vec3 2 2 2)) (vec3 1 2 3))
    (box_of (vec3 0 0 0) (vec3 1 1 1))
    (vec3 2 2 2)
    (MeshData (box_of (vec3 0 0 0) (vec3 1 1 1)) [])
    false false true.

Definition corner_scene : Scene :=
  scene_of [corner_crate]
    (mkProps "/out" 13.3 true 5.0 None (Some 0%nat) 4 "Table").

End Samples.

(* ================================================================== *)
(** ** Further notions: the bake operator *)

Module BakeNotions.

(** The scene in which [OBJECT_OT_bake_shadow_texture.execute] creates its
    lights: the plane for the active object [o], the white image and the
    material are there, the render settings are the operator's. *)
Definition bake_ready (env : Env) (o : Object) (mn : Q) (s : Scene) : Scene :=
  mkScene
    (map (fun p => (fst p, settled env (snd p))) (objects s)
     ++ [(next_handle s,
          with_material (length (materials s))
            (shadow_plane env o (side_len_of (compute_radius_from_dimensions o))
                          mn (cursor_location s)))])
    (S (next_handle s))
    (images s
     ++ [mkImage (name o ++ "_shadow_tex")%string (128%nat, 128%nat)
                 white_pixels "" "TARGA"])
    (materials s
     ++ [shadow_material
           (mkImage (name o ++ "_shadow_tex")%string (128%nat, 128%nat)
                    white_pixels "" "TARGA")
           (length (images s))])
    (cursor_location s) (mode s) (Some (next_handle s))
    (mkRender "CYCLES" "SHADOW" "GPU" "OPTIX" 64
              (use_selected_to_active (render s)))
    (props s) (random_calls s) (files s) (reports s).

(** The path the operator saves the image to. *)
Definition baked_shadow_path (env : Env) : string :=
  path_join env (blend_dir env) "baked_shadow.png".

(** The scene the operator returns in, [st] being the scene the renderer
    was called in and [out] the post-processed image. *)
Definition bake_saved (env : Env) (o : Object) (out : list Q) (st : Scene) : Scene :=
  mkScene (objects st) (next_handle st)
    (removelast (images st)
     ++ [mkImage (name o ++ "_shadow_tex")%string (128%nat, 128%nat) out
                 (baked_shadow_path env) "PNG"])
    (materials st) (cursor_location st) (mode st) (active_object st) (render st)
    (props st) (random_calls st)
    (baked_shadow_path env :: files st)
    (("INFO", "Baked shadow saved to: " ++ baked_shadow_path env)%string
     :: reports st).

End BakeNotions.
Import BakeNotions.

(* ================================================================== *)
(** ** Collections and reference images

    [make_collection], [setup_ref_image] and [setup_ref_images] act on
    [bpy.data.collections] and on objects of which they touch attributes
    the shadow baker does not: they are embedded over a state of their
    own. *)

Module Refs.

Local Open Scope string_scope.

(** A collection: the handles of the objects linked to it, whether its
    objects can be selected, whether it is a child of the scene's
    collection.  Python holds a collection of [bpy.data.collections] by
    its name, which is its key there. *)
Record Coll : Type := mkColl {
  coll_name : string;
  coll_objects : list nat;
  coll_hide_select : bool;
  coll_in_scene : bool
}.

(** An object, with the attributes the reference-image code sets. *)
Record RefObject : Type := mkRefObject {
  ref_filepath : string;
  ref_location : Vec3;
  ref_rotation : Vec3;
  ref_scale : Vec3;
  empty_display_size : Q;
  empty_image_offset_y : Q;
  hide_select : bool
}.

(** [collections] is [bpy.data.collections], [active_collection] the name
    of [bpy.context.collection] when that is one of them ([None] when it is
    the scene's own collection), [ref_objects] is [bpy.data.objects],
    [printed] what [print] wrote, the latest first. *)
Record RefState : Type := mkRefState {
  collections : list Coll;
  active_collection : option string;
  ref_objects : list (nat * RefObject);
  ref_next_handle : nat;
  ref_active_object : option nat;
  printed : list string
}.

(** What the host provides.
    - [isfile]: [os.path.isfile];
    - [image_size path]: the size of the image [bpy.data.images.load]
      reads from [path], [None] when the call raises;
    - [stored_name names name]: the name the host gives a new collection
      asked for under [name] when [names] are in use;
    - [can_add_empty st]: whether [bpy.ops.object.empty_image_add] can run
      in the context of [st] (an operator whose poll fails raises);
    - [default_display_size], [default_offset_y]: the display size and the
      vertical image offset of a new image empty;
    - [pi]: [math.pi]. *)
Record RefEnv : Type := mkRefEnv {
  isfile : string -> bool;
  image_size : string -> option (nat * nat);
  stored_name : list string -> string -> string;
  can_add_empty : RefState -> bool;
  default_display_size : Q;
  default_offset_y : Q;
  pi : Q
}.

(** Computations on this state. *)
Definition R (A : Type) : Type := RefState -> Res A * RefState.

Definition rret {A} (a : A) : R A := fun st => (Ok a, st).

Definition rraise {A} (e : Exn) : R A := fun st => (Raise e, st).

Definition rbind {A B} (m : R A) (k : A -> R B) : R B :=
  fun st =>
    match m st with
    | (Ok a, st') => k a st'
    | (Raise e, st') => (Raise e, st')
    end.

Definition rgets {A} (f : RefState -> A) : R A := fun st => (Ok (f st), st).

Definition rmodify (f : RefState -> RefState) : R unit := fun st => (Ok tt, f st).

Declare Scope ref_scope.
Delimit Scope ref_scope with ref.
Notation "x <- c ;; k" := (rbind c (fun x => k))
  (at level 61, c at next level, right associativity) : ref_scope.
Notation "c ;; k" := (rbind c (fun _ => k))
  (at level 61, right associativity) : ref_scope.

Local Open Scope ref_scope.

Fixpoint rfor_each {A} (xs : list A) (body : A -> R unit) : R unit :=
  match xs with
  | [] => rret tt
  | x :: rest => body x ;; rfor_each rest body
  end.

Definition set_collections (v : list Coll) (st : RefState) : RefState :=
  mkRefState v (active_collection st) (ref_objects st) (ref_next_handle st)
             (ref_active_object st) (printed st).

(** [name in bpy.data.collections] *)
Definition has_collection (name : string) (cs : list Coll) : bool :=
  existsb (fun c => coll_name c =? name) cs.

(** [bpy.data.collections[name]] and the attributes of a collection held
    by name. *)
Definition get_coll (name : string) : R Coll :=
  fun st =>
    match find (fun c => coll_name c =? name) (collections st) with
    | Some c => (Ok c, st)
    | None => (Raise ReferenceError, st)
    end.

Definition update_coll (name : string) (f : Coll -> Coll) : R unit :=
  _ <- get_coll name ;;
  rmodify (fun st =>
    set_collections
      (map (fun c => if coll_name c =? name then f c else c) (collections st)) st).

(** [bpy.data.collections.new(name)] *)
Definition collections_new (env : RefEnv) (name : string) : R string :=
  fun st =>
    let nm := stored_name env (map coll_name (collections st)) name in
    (Ok nm, set_collections (collections st ++ [mkColl nm [] false false]) st).

(** [bpy.context.scene.collection.children.link(col)]: a collection that
    is a child already raises. *)
Definition children_link (col : string) : R unit :=
  c <- get_coll col ;;
  if coll_in_scene c then rraise RuntimeError
  else update_coll col (fun c => mkColl (coll_name c) (coll_objects c)
                                        (coll_hide_select c) true).

(** [col.objects.link(obj)]: an object that is in the collection already
    raises. *)
Definition coll_objects_link (col : string) (h : nat) : R unit :=
  c <- get_coll col ;;
  if existsb (Nat.eqb h) (coll_objects c) then rraise RuntimeError
  else update_coll col (fun c => mkColl (coll_name c) (coll_objects c ++ [h])
                                        (coll_hide_select c) (coll_in_scene c)).

Definition ref_lookup (h : nat) (obs : list (nat * RefObject)) : option RefObject :=
  match find (fun p => (fst p =? h)%nat) obs with
  | Some p => Some (snd p)
  | None => None
  end.

Definition update_ref_object (h : nat) (f : RefObject -> RefObject) : R unit :=
  fun st =>
    match ref_lookup h (ref_objects st) with
    | Some _ =>
        (Ok tt,
         mkRefState (collections st) (active_collection st)
           (map (fun p => if (fst p =? h)%nat then (fst p, f (snd p)) else p)
                (ref_objects st))
           (ref_next_handle st) (ref_active_object st) (printed st))
    | None => (Raise ReferenceError, st)
    end.

(** [bpy.data.objects.remove(obj, do_unlink=True)]: the object leaves the
    data and every collection. *)
Definition ref_objects_remove (h : nat) : R unit :=
  fun st =>
    match ref_lookup h (ref_objects st) with
    | Some _ =>
        (Ok tt,
         mkRefState
           (map (fun c => mkColl (coll_name c)
                                 (filter (fun x => negb (x =? h)%nat) (coll_objects c))
                                 (coll_hide_select c) (coll_in_scene c))
                (collections st))
           (active_collection st)
           (filter (fun p => negb (fst p =? h)%nat) (ref_objects st))
           (ref_next_handle st)
           (match ref_active_object st with
            | Some a => if (a =? h)%nat then None else Some a
            | None => None
            end)
           (printed st))
    | None => (Raise ReferenceError, st)
    end.

(** [bpy.ops.object.empty_image_add(filepath=..., align='WORLD',
    location=..., scale=..., rotation=...)]: the new empty is linked to
    the active collection and becomes the active object. *)
Definition empty_image_add (env : RefEnv) (filepath : string)
    (location scale rotation : Vec3) : R unit :=
  fun st =>
    if can_add_empty env st
    then
      let h := ref_next_handle st in
      (Ok tt,
       mkRefState
         (match active_collection st with
          | Some a =>
              map (fun c => if coll_name c =? a
                            then mkColl (coll_name c) (coll_objects c ++ [h])
                                        (coll_hide_select c) (coll_in_scene c)
                            else c)
                  (collections st)
          | None => collections st
          end)
         (active_collection st)
         (ref_objects st
          ++ [(h, mkRefObject filepath location rotation scale
                              (default_display_size env) (default_offset_y env)
                              false)])
         (S h) (Some h) (printed st))
    else (Raise RuntimeError, st).

(** [print(msg)] *)
Definition print (msg : string) : R unit :=
  rmodify (fun st =>
    mkRefState (collections st) (active_collection st) (ref_objects st)
               (ref_next_handle st) (ref_active_object st) (msg :: printed st)).

(** [make_collection] *)
Definition make_collection (env : RefEnv) (name : string) : R string :=
  cs <- rgets collections ;;
  if has_collection name cs
  then rret name
  else
    new_col <- collections_new env name ;;
    children_link new_col ;;
    update_coll new_col (fun c => mkColl (coll_name c) (coll_objects c) true
                                         (coll_in_scene c)) ;;
    rret new_col.

(** [setup_ref_image].  [size] is the larger of the width and the height
    of the image, the display size of the empty is [size / 1024]. *)
Definition setup_ref_image (env : RefEnv) (image_path : string)
    (location scale rotation : Vec3) : R (option nat) :=
  if negb (isfile env image_path)
  then print "Invalid image path" ;; rret None
  else
    match image_size env image_path with
    | None => rraise RuntimeError
    | Some (width, height) =>
        let size := if (height <? width)%nat then width else height in
        let pixelRatio := inject_Z (Z.of_nat size) / 1024 in
        empty_image_add env image_path location scale rotation ;;
        active <- rgets ref_active_object ;;
        match active with
        | None => rraise AttributeError
        | Some image_plane =>
            update_ref_object image_plane
              (fun o => mkRefObject (ref_filepath o) (ref_location o)
                          (ref_rotation o) (ref_scale o) pixelRatio
                          (empty_image_offset_y o) (hide_select o)) ;;
            update_ref_object image_plane
              (fun o => mkRefObject (ref_filepath o) (ref_location o)
                          (ref_rotation o) (ref_scale o) (empty_display_size o)
                          0 (hide_select o)) ;;
            update_ref_object image_plane
              (fun o => mkRefObject (ref_filepath o) (ref_location o)
                          (ref_rotation o) (ref_scale o) (empty_display_size o)
                          (empty_image_offset_y o) true) ;;
            rret (Some image_plane)
        end
    end.

(** The path of the arrow image, written in the file. *)
Definition arrow_path : string := "C:\Users\alber\Downloads\arrow.png".

(** What [setup_ref_images] does with an image [setup_ref_image] returned:
<<
    if img:
        ref_col.objects.link(img)
        img.hide_select = True
>> *)
Definition link_ref_image (ref_col : string) (img : option nat) : R unit :=
  match img with
  | Some h =>
      coll_objects_link ref_col h ;;
      update_ref_object h
        (fun o => mkRefObject (ref_filepath o) (ref_location o) (ref_rotation o)
                    (ref_scale o) (empty_display_size o) (empty_image_offset_y o)
                    true)
  | None => rret tt
  end.

(** [setup_ref_images] *)
Definition setup_ref_images (env : RefEnv) (url : string) : R unit :=
  ref_col <- make_collection env "References" ;;
  c <- get_coll ref_col ;;
  rfor_each (coll_objects c) ref_objects_remove ;;
  img1 <- setup_ref_image env url (vec3 (-0.5) 0 0) (vec3 1 1 1)
            (vec3 (pi env / 2) 0 (- pi env / 2)) ;;
  link_ref_image ref_col img1 ;;
  img2 <- setup_ref_image env arrow_path (vec3 0 0 0) (vec3 1 1 1) (vec3 0 0 0) ;;
  link_ref_image ref_col img2.

(** [OBJECT_OT_setup_ref_images.execute] *)
Definition setup_ref_images_execute (env : RefEnv) : R OpResult :=
  setup_ref_images env "C:\Users\alber\Downloads\Image20251003133529.png" ;;
  rret FINISHED.

(** The objects of the collection named [name], none when there is no such
    collection. *)
Definition members (name : string) (st : RefState) : list nat :=
  match find (fun c => coll_name c =? name) (collections st) with
  | Some c => coll_objects c
  | None => []
  end.

(** The state once the objects [hs] have been removed from the data. *)
Definition strip (hs : list nat) (c : Coll) : Coll :=
  mkColl (coll_name c)
         (filter (fun x => negb (removed hs x)) (coll_objects c))
         (coll_hide_select c) (coll_in_scene c).

Definition without_refs (hs : list nat) (st : RefState) : RefState :=
  mkRefState
    (map (strip hs) (collections st))
    (active_collection st)
    (filter (fun p => negb (removed hs (fst p))) (ref_objects st))
    (ref_next_handle st)
    (match ref_active_object st with
     | Some a => if removed hs a then None else Some a
     | None => None
     end)
    (printed st).

(** The image empty [setup_ref_image] makes of an image of the given
    width and height. *)
Definition ref_image (path : string) (location scale rotation : Vec3)
    (width height : nat) : RefObject :=
  mkRefObject path location rotation scale
              (inject_Z (Z.of_nat (Nat.max width height)) / 1024) 0 true.

(** The collection [a] with object [h] linked to it. *)
Definition link_into (a : string) (h : nat) (cs : list Coll) : list Coll :=
  map (fun c => if coll_name c =? a
                then mkColl (coll_name c) (coll_objects c ++ [h])
                            (coll_hide_select c) (coll_in_scene c)
                else c) cs.

(** The state [setup_ref_image] returns in when it has created [o]. *)
Definition with_ref_object (o : RefObject) (st : RefState) : RefState :=
  mkRefState
    (match active_collection st with
     | Some a => link_into a (ref_next_handle st) (collections st)
     | None => collections st
     end)
    (active_collection st)
    (ref_objects st ++ [(ref_next_handle st, o)])
    (S (ref_next_handle st)) (Some (ref_next_handle st)) (printed st).

(** Handles are handed out in increasing order. *)
Definition wf_refs (st : RefState) : Prop :=
  forall p, In p (ref_objects st) -> (fst p < ref_next_handle st)%nat.

(** A host that has the given files, each an image of the given size, and
    stores names as they are asked for. *)
Definition sample_ref_env (files : list (string * (nat * nat))) : RefEnv :=
  mkRefEnv (fun p => existsb (fun f => fst f =? p) files)
           (fun p => match find (fun f => fst f =? p) files with
                     | Some f => Some (snd f)
                     | None => None
                     end)
           (fun _ name => name) (fun _ => true) 1 (-0.5) (355 # 113).

Definition empty_ref_state : RefState := mkRefState [] None [] 0 None [].

End Refs.

(* ================================================================== *)
(** ** The add-on: the single light *)

Module TopDownSun.

Local Open Scope scene_scope.

(** [create_top_down_sun]: one sun light at [location]; its rotation is
    not set. *)
Definition create_top_down_sun (env : Env) (location : Vec3) (name : string)
    : M nat :=
  energy <- gets (fun s => strength (props s)) ;;
  spread <- gets (fun s => radians env (angle (props s))) ;;
  light_obj <- new_object
    (mkObject name "LIGHT" vzero vzero (vec3 1 1 1) (matrix mat3_identity vzero)
              [] vzero (LightData energy spread) false false false) ;;
  objects_link light_obj ;;
  update_object light_obj (set_location location) ;;
  ret light_obj.

End TopDownSun.
Import TopDownSun.
(* ================================================================== *)
(** ** Lemmas on numbers *)

Section NumFacts.

Lemma Qltb_true (x y : Q) : Qltb x y = true <-> x < y.
Proof.
  unfold Qltb. rewrite negb_true_iff.
  destruct (Qle_bool y x) eqn:E.
  - apply Qle_bool_iff in E. split; [discriminate | intro; lra].
  - split; [intros _ | reflexivity].
    apply Qnot_le_lt. intro H. apply Qle_bool_iff in H. congruence.
Qed.

Lemma Qltb_false (x y : Q) : Qltb x y = false <-> y <= x.
Proof.
  unfold Qltb. rewrite negb_false_iff. apply Qle_bool_iff.
Qed.

Lemma max3_cases (r g b : Q) :
  max3 r g b = r \/ max3 r g b = g \/ max3 r g b = b.
Proof.
  unfold max3, py_max. simpl.
  destruct (Qltb r g); destruct (Qltb _ b); auto.
Qed.

Lemma max3_upper (r g b : Q) :
  r <= max3 r g b /\ g <= max3 r g b /\ b <= max3 r g b.
Proof.
  unfold max3, py_max. simpl.
  destruct (Qltb r g) eqn:E1;
    [apply Qltb_true in E1 | apply Qltb_false in E1];
    match goal with |- context [Qltb ?m b] => destruct (Qltb m b) eqn:E2 end;
    [apply Qltb_true in E2 | apply Qltb_false in E2
    |apply Qltb_true in E2 | apply Qltb_false in E2];
    repeat split; lra.
Qed.

Lemma max3_Qmax (r g b : Q) : max3 r g b == Qmax (Qmax r g) b.
Proof.
  pose proof (max3_upper r g b) as (Hr & Hg & Hb).
  destruct (Q.max_spec r g) as [[? E1] | [? E1]];
    destruct (Q.max_spec (Qmax r g) b) as [[? E2] | [? E2]];
    rewrite E2; try rewrite E1; rewrite ?E1 in *;
    destruct (max3_cases r g b) as [E | [E | E]]; rewrite E in *; lra.
Qed.

End NumFacts.

(* ================================================================== *)
(** ** The post-processing loop computes [binarize_chunks] *)

Section PixelLoop.

Lemma store_middle (pre post : list Q) (x v : Q) :
  store (pre ++ x :: post) (length pre) v = Ok (pre ++ v :: post).
Proof.
  unfold store.
  assert (H : (length pre <? length (pre ++ x :: post))%nat = true).
  { apply Nat.ltb_lt. rewrite length_app. simpl. lia. }
  rewrite H. f_equal.
  rewrite firstn_app, firstn_all, Nat.sub_diag, skipn_app, skipn_all2 by lia.
  replace (S (length pre) - length pre)%nat with 1%nat by lia.
  simpl. rewrite app_nil_r. reflexivity.
Qed.

Lemma store_at (pre post : list Q) (x v : Q) (i : nat) :
  i = length pre -> store (pre ++ x :: post) i v = Ok (pre ++ v :: post).
Proof. intros ->. apply store_middle. Qed.

Lemma slice4_at (done rest : list Q) :
  slice4 (done ++ rest) (length done) = firstn 4 rest.
Proof.
  unfold slice4. rewrite skipn_app, skipn_all, Nat.sub_diag. reflexivity.
Qed.

Lemma binarize_step_chunk (done rest : list Q) (r g b a : Q) :
  binarize_step (done ++ r :: g :: b :: a :: rest) (length done)
  = Ok (done ++ binarize_pixel r g b a ++ rest).
Proof.
  unfold binarize_step. rewrite slice4_at. simpl firstn. cbv beta iota.
  rewrite store_middle. simpl res_bind.
  replace (done ++ 0 :: g :: b :: a :: rest)
    with ((done ++ [0]) ++ g :: b :: a :: rest)
    by (rewrite <- app_assoc; reflexivity).
  rewrite (store_at (done ++ [0])) by (rewrite length_app; simpl; lia).
  simpl res_bind.
  replace ((done ++ [0]) ++ 0 :: b :: a :: rest)
    with ((done ++ [0; 0]) ++ b :: a :: rest)
    by (rewrite <- !app_assoc; reflexivity).
  rewrite (store_at (done ++ [0; 0])) by (rewrite length_app; simpl; lia).
  simpl res_bind.
  replace ((done ++ [0; 0]) ++ 0 :: a :: rest)
    with ((done ++ [0; 0; 0]) ++ a :: rest)
    by (rewrite <- !app_assoc; reflexivity).
  rewrite (store_at (done ++ [0; 0; 0])) by (rewrite length_app; simpl; lia).
  rewrite <- app_assoc. reflexivity.
Qed.

Lemma binarize_step_short (done rest : list Q) :
  (length rest < 4)%nat -> rest <> [] ->
  binarize_step (done ++ rest) (length done) = Raise ValueError.
Proof.
  intros Hlen Hne. unfold binarize_step. rewrite slice4_at.
  destruct rest as [|a [|b [|c [|d rest]]]]; simpl in *;
    try reflexivity; try congruence; lia.
Qed.

Lemma fold_raise (idxs : list nat) (e : Exn) :
  fold_left (fun acc i => res_bind acc (fun p => binarize_step p i))
            idxs (Raise e) = Raise e.
Proof. induction idxs as [|i idxs IH]; simpl; auto. Qed.

Lemma range4_chunk (n : nat) :
  ((S (S (S (S n))) + 3) / 4 = S ((n + 3) / 4))%nat.
Proof.
  replace (S (S (S (S n))) + 3)%nat with ((n + 3) + 1 * 4)%nat by lia.
  rewrite Nat.div_add by lia. lia.
Qed.

Lemma binarize_over_from (fuel : nat) :
  forall (rest done : list Q) (k0 : nat),
    (length rest <= fuel)%nat ->
    length done = (4 * k0)%nat ->
    binarize_over (map (fun k => 4 * k)%nat (seq k0 ((length rest + 3) / 4)))
                  (done ++ rest)
    = res_map (fun t => done ++ t) (binarize_chunks rest).
Proof.
  unfold binarize_over.
  induction fuel as [|fuel IH]; intros rest done k0 Hfuel Hdone.
  - destruct rest; simpl in Hfuel; [reflexivity | lia].
  - destruct rest as [|r [|g [|b [|a rest]]]].
    + reflexivity.
    + change (seq k0 _) with [k0]. cbn [map fold_left res_bind].
      rewrite <- Hdone, binarize_step_short by (simpl; (lia || congruence)).
      reflexivity.
    + change (seq k0 _) with [k0]. cbn [map fold_left res_bind].
      rewrite <- Hdone, binarize_step_short by (simpl; (lia || congruence)).
      reflexivity.
    + change (seq k0 _) with [k0]. cbn [map fold_left res_bind].
      rewrite <- Hdone, binarize_step_short by (simpl; (lia || congruence)).
      reflexivity.
    + cbn [length]. rewrite range4_chunk. cbn [seq map fold_left res_bind].
      rewrite <- Hdone, binarize_step_chunk.
      rewrite app_assoc.
      rewrite (IH rest (done ++ binarize_pixel r g b a) (S k0)).
      * cbn [binarize_chunks]. destruct (binarize_chunks rest); simpl.
        -- rewrite <- app_assoc. reflexivity.
        -- reflexivity.
      * simpl in Hfuel. lia.
      * rewrite length_app, Hdone. simpl. lia.
Qed.

Lemma binarize_chunks_ok (pixels : list Q) :
  binarize pixels = binarize_chunks pixels.
Proof.
  pose proof (binarize_over_from (length pixels) pixels [] 0%nat
                (Nat.le_refl _) eq_refl) as H.
  unfold binarize, range4. simpl app in H. rewrite H.
  destruct (binarize_chunks pixels); reflexivity.
Qed.

End PixelLoop.

(* ================================================================== *)
(** ** Pixels of the post-processed image *)

Section PixelFacts.

Lemma channel_skip4 (x0 x1 x2 x3 : Q) (t : list Q) (k c : nat) :
  channel (x0 :: x1 :: x2 :: x3 :: t) (S k) c = channel t k c.
Proof.
  unfold channel.
  replace (4 * S k + c)%nat with (S (S (S (S (4 * k + c))))) by lia.
  reflexivity.
Qed.

Lemma alpha_range (r g b : Q) :
  0 <= r <= 1 -> 0 <= g <= 1 -> 0 <= b <= 1 ->
  0 <= 1 - max3 r g b <= 1.
Proof.
  intros Hr Hg Hb.
  destruct (max3_cases r g b) as [E | [E | E]]; rewrite E; lra.
Qed.

(** On a buffer of [n] whole pixels the transformation returns, keeps the
    size and rewrites every pixel from its own three colour channels. *)
Lemma binarize_chunks_channels (n : nat) :
  forall pixels : list Q,
    length pixels = (4 * n)%nat ->
    exists out,
      binarize_chunks pixels = Ok out /\
      length out = (4 * n)%nat /\
      forall k, (k < n)%nat ->
        channel out k 0 = 0 /\ channel out k 1 = 0 /\ channel out k 2 = 0 /\
        channel out k 3
        = 1 - max3 (channel pixels k 0) (channel pixels k 1) (channel pixels k 2).
Proof.
  induction n as [|n IH]; intros pixels Hlen.
  - destruct pixels; [|discriminate]. exists []. repeat split; intros; lia.
  - destruct pixels as [|r [|g [|b [|a rest]]]]; simpl in Hlen; try lia.
    destruct (IH rest) as (out & Hout & Hlen' & Hch); [lia|].
    exists (binarize_pixel r g b a ++ out).
    cbn [binarize_chunks]. rewrite Hout. split; [reflexivity|].
    split; [simpl; lia|].
    intros [|k] Hk.
    + repeat split; reflexivity.
    + unfold binarize_pixel. cbn [app]. rewrite !channel_skip4. apply Hch. lia.
Qed.

(** The result does not look at the alpha channel of its argument. *)
Lemma binarize_chunks_alpha (fuel : nat) :
  forall p q : list Q,
    (length p <= fuel)%nat ->
    length p = length q ->
    (forall k c, (c < 3)%nat -> channel p k c = channel q k c) ->
    binarize_chunks p = binarize_chunks q.
Proof.
  induction fuel as [|fuel IH]; intros p q Hfuel Hlen Hrgb.
  - destruct p; [|simpl in Hfuel; lia]. destruct q; [reflexivity | discriminate].
  - destruct p as [|r [|g [|b [|a p]]]];
      destruct q as [|r' [|g' [|b' [|a' q]]]]; try discriminate; try reflexivity.
    cbn [binarize_chunks].
    assert (Er : r = r') by (apply (Hrgb 0%nat 0%nat); lia).
    assert (Eg : g = g') by (apply (Hrgb 0%nat 1%nat); lia).
    assert (Eb : b = b') by (apply (Hrgb 0%nat 2%nat); lia).
    subst r' g' b'.
    rewrite (IH p q).
    + reflexivity.
    + simpl in Hfuel. lia.
    + simpl in Hlen. lia.
    + intros k c Hc. specialize (Hrgb (S k) c Hc).
      rewrite !channel_skip4 in Hrgb. exact Hrgb.
Qed.

Lemma binarize_chunks_binary (fuel : nat) :
  forall pixels : list Q,
    (length pixels <= fuel)%nat ->
    all_pixels binary_pixel pixels ->
    exists out,
      binarize_chunks pixels = Ok out /\ all_pixels opaque_black out.
Proof.
  induction fuel as [|fuel IH]; intros pixels Hfuel Hbin.
  - destruct pixels; [|simpl in Hfuel; lia]. exists []. split; [reflexivity | exact I].
  - destruct pixels as [|r [|g [|b [|a rest]]]]; simpl in Hbin; try contradiction.
    + exists []. split; [reflexivity | exact I].
    + destruct Hbin as [Hpix Hrest].
      destruct (IH rest) as (out & Hout & Hblack); [simpl in Hfuel; lia | exact Hrest |].
      exists ([0; 0; 0; 1] ++ out).
      cbn [binarize_chunks]. rewrite Hout. split.
      * destruct Hpix as [E | E]; injection E as -> -> -> ->; reflexivity.
      * split; [reflexivity | exact Hblack].
Qed.

Lemma binarize_chunks_black (fuel : nat) :
  forall pixels : list Q,
    (length pixels <= fuel)%nat ->
    all_pixels opaque_black pixels ->
    binarize_chunks pixels = Ok pixels.
Proof.
  induction fuel as [|fuel IH]; intros pixels Hfuel Hbl.
  - destruct pixels; [reflexivity | simpl in Hfuel; lia].
  - destruct pixels as [|r [|g [|b [|a rest]]]]; simpl in Hbl; try contradiction.
    + reflexivity.
    + destruct Hbl as [E Hrest]. injection E as -> -> -> ->.
      cbn [binarize_chunks]. rewrite (IH rest); [reflexivity | simpl in Hfuel; lia | exact Hrest].
Qed.

End PixelFacts.

(* ================================================================== *)
(** ** Running computations on the scene *)

Section MonadFacts.

Lemma bind_ok {A B} (m : M A) (k : A -> M B) s a s' :
  m s = (Ok a, s') -> bind m k s = k a s'.
Proof. intros H. unfold bind. rewrite H. reflexivity. Qed.

Lemma bind_raise {A B} (m : M A) (k : A -> M B) s e s' :
  m s = (Raise e, s') -> bind m k s = (Raise e, s').
Proof. intros H. unfold bind. rewrite H. reflexivity. Qed.

Lemma bind_gets {A B} (f : Scene -> A) (k : A -> M B) s :
  bind (gets f) k s = k (f s) s.
Proof. reflexivity. Qed.

Lemma bind_modify {B} (f : Scene -> Scene) (k : unit -> M B) s :
  bind (modify f) k s = k tt (f s).
Proof. reflexivity. Qed.

Lemma bind_ret {A B} (a : A) (k : A -> M B) s : bind (ret a) k s = k a s.
Proof. reflexivity. Qed.

Lemma bind_lift_ok {A B} (a : A) (k : A -> M B) s :
  bind (lift (Ok a)) k s = k a s.
Proof. reflexivity. Qed.

Lemma bind_assoc {A B C} (m : M A) (k : A -> M B) (k' : B -> M C) s :
  bind (bind m k) k' s = bind m (fun a => bind (k a) k') s.
Proof. unfold bind. destruct (m s) as [[a|e] s1]; reflexivity. Qed.

Lemma bind_new_object {B} (o : Object) (k : nat -> M B) s :
  bind (new_object o) k s
  = k (next_handle s)
      (set_next_handle (S (next_handle s))
         (set_objects (objects s ++ [(next_handle s, o)]) s)).
Proof. reflexivity. Qed.

Lemma bind_get_object {B} (h : nat) (k : Object -> M B) s o :
  lookup h (objects s) = Some o -> bind (get_object h) k s = k o s.
Proof. intros H. unfold bind, get_object. rewrite H. reflexivity. Qed.

Lemma bind_update_object {B} (h : nat) f (k : unit -> M B) s o :
  lookup h (objects s) = Some o ->
  bind (update_object h f) k s
  = k tt (set_objects (replace_object h f (objects s)) s).
Proof.
  intros H. unfold update_object. rewrite bind_assoc.
  rewrite (bind_get_object _ _ _ _ H). reflexivity.
Qed.

End MonadFacts.

(** Scenes are kept as explicit records: the updates are unfolded and the
    fields read off. *)
Ltac sc :=
  unfold set_objects, set_next_handle, set_images, set_materials,
         set_cursor_location, set_mode, set_active_object, set_render,
         set_random_calls, set_files, set_reports, handles in *;
  cbn [objects next_handle images materials cursor_location mode
       active_object render props random_calls files reports] in *.

(** One step of a computation whose head needs no side condition. *)
Ltac mstep :=
  first [ rewrite bind_assoc | rewrite bind_modify | rewrite bind_gets
        | rewrite bind_ret | rewrite bind_lift_ok | rewrite bind_new_object ];
  cbv beta; sc.

Ltac mrun := repeat mstep.

(* ================================================================== *)
(** ** Object tables *)

Section Tables.

Lemma lookup_app_old h obs l o :
  lookup h obs = Some o -> lookup h (obs ++ l) = Some o.
Proof.
  unfold lookup. induction obs as [|p obs IH]; simpl; [discriminate|].
  destruct (fst p =? h)%nat; [auto | exact IH].
Qed.

Lemma lookup_fresh h obs x :
  fresh h obs -> lookup h (obs ++ [(h, x)]) = Some x.
Proof.
  unfold lookup, fresh. induction obs as [|p obs IH]; simpl; intros Hf.
  - rewrite Nat.eqb_refl. reflexivity.
  - destruct (fst p =? h)%nat eqn:E.
    + apply Nat.eqb_eq in E. exfalso. exact (Hf p (or_introl eq_refl) E).
    + apply IH. intros q Hq. apply Hf. right. exact Hq.
Qed.

Lemma lookup_In h obs o : lookup h obs = Some o -> In (h, o) obs.
Proof.
  unfold lookup. destruct (find _ obs) as [p|] eqn:E; [|discriminate].
  intros [= <-]. apply find_some in E. destruct E as [Hin Heq].
  apply Nat.eqb_eq in Heq. destruct p; simpl in *. subst. exact Hin.
Qed.

Lemma lookup_handles h obs o : lookup h obs = Some o -> In h (map fst obs).
Proof. intros H. apply lookup_In in H. apply (in_map fst) in H. exact H. Qed.

Lemma handles_lookup h obs : In h (map fst obs) -> exists o, lookup h obs = Some o.
Proof.
  unfold lookup. induction obs as [|p obs IH]; simpl; [contradiction|].
  intros [E | Hin].
  - rewrite E, Nat.eqb_refl. eauto.
  - destruct (fst p =? h)%nat; [eauto | exact (IH Hin)].
Qed.

Lemma fresh_handles h obs : fresh h obs <-> ~ In h (map fst obs).
Proof.
  unfold fresh. split.
  - intros Hf Hin. apply in_map_iff in Hin. destruct Hin as (p & E & Hp).
    exact (Hf p Hp E).
  - intros Hn p Hp E. apply Hn. rewrite <- E. apply in_map. exact Hp.
Qed.

Lemma lookup_map h f obs :
  lookup h (map (fun p => (fst p, f (snd p))) obs) = option_map f (lookup h obs).
Proof.
  unfold lookup. induction obs as [|p obs IH]; simpl; [reflexivity|].
  destruct (fst p =? h)%nat; [reflexivity | exact IH].
Qed.

Lemma lookup_map_old h f obs o :
  lookup h obs = Some o ->
  lookup h (map (fun p => (fst p, f (snd p))) obs) = Some (f o).
Proof. intros H. rewrite lookup_map, H. reflexivity. Qed.

Lemma lookup_replace_same h f obs o :
  lookup h obs = Some o -> lookup h (replace_object h f obs) = Some (f o).
Proof.
  unfold lookup, replace_object. induction obs as [|p obs IH]; simpl; [discriminate|].
  destruct (fst p =? h)%nat eqn:E; simpl.
  - rewrite E. intros [= <-]. reflexivity.
  - rewrite E. exact IH.
Qed.

Lemma lookup_replace_other h h' f obs :
  h <> h' -> lookup h (replace_object h' f obs) = lookup h obs.
Proof.
  intros Hne. unfold lookup, replace_object.
  induction obs as [|p obs IH]; simpl; [reflexivity|].
  destruct (fst p =? h')%nat eqn:E'; simpl.
  - apply Nat.eqb_eq in E'.
    assert (E : (fst p =? h)%nat = false) by (apply Nat.eqb_neq; lia).
    rewrite E. exact IH.
  - destruct (fst p =? h)%nat; [reflexivity | exact IH].
Qed.

Lemma replace_fresh h f obs x :
  fresh h obs -> replace_object h f (obs ++ [(h, x)]) = obs ++ [(h, f x)].
Proof.
  intros Hf. unfold replace_object. rewrite map_app. simpl.
  rewrite Nat.eqb_refl. f_equal.
  rewrite <- (map_id obs) at 2. apply map_ext_in. intros p Hin.
  destruct (fst p =? h)%nat eqn:E; [|reflexivity].
  apply Nat.eqb_eq in E. exfalso. exact (Hf p Hin E).
Qed.

Lemma replace_app_old h f obs n x :
  h <> n -> replace_object h f (obs ++ [(n, x)]) = replace_object h f obs ++ [(n, x)].
Proof.
  intros Hne. unfold replace_object. rewrite map_app. simpl.
  assert (E : (n =? h)%nat = false) by (apply Nat.eqb_neq; lia).
  rewrite E. reflexivity.
Qed.

Lemma handles_map (f : Object -> Object) obs :
  map fst (map (fun p : nat * Object => (fst p, f (snd p))) obs) = map fst obs.
Proof. rewrite map_map. reflexivity. Qed.

Lemma handles_replace h f obs : map fst (replace_object h f obs) = map fst obs.
Proof.
  unfold replace_object. rewrite map_map. apply map_ext. intros p.
  destruct (fst p =? h)%nat; reflexivity.
Qed.

Lemma fresh_map h f obs :
  fresh h obs -> fresh h (map (fun p => (fst p, f (snd p))) obs).
Proof. rewrite !fresh_handles, handles_map. auto. Qed.

Lemma fresh_replace h h' f obs : fresh h obs -> fresh h (replace_object h' f obs).
Proof. rewrite !fresh_handles, handles_replace. auto. Qed.

Lemma wf_fresh s : wf_scene s -> fresh (next_handle s) (objects s).
Proof. intros Hwf p Hp. specialize (Hwf p Hp). lia. Qed.

Lemma wf_lookup_lt s h o :
  wf_scene s -> lookup h (objects s) = Some o -> (h < next_handle s)%nat.
Proof. intros Hwf H. apply lookup_In in H. exact (Hwf _ H). Qed.

End Tables.

(* ================================================================== *)
(** ** The builtins [min] and [max], and the bounding box *)

Section Extremes.

Lemma py_min_spec (rest : list Q) :
  forall first, is_min (py_min first rest) (first :: rest).
Proof.
  unfold py_min, is_min.
  induction rest as [|v rest IH]; intros m; simpl.
  - split; [auto | intros z [<- | []]; lra].
  - destruct (IH (if Qltb v m then v else m)) as [Hin Hle].
    set (m' := if Qltb v m then v else m) in *.
    assert (Hm' : (m' = v \/ m' = m) /\ m' <= m /\ m' <= v).
    { unfold m'. destruct (Qltb v m) eqn:E.
      - apply Qltb_true in E. split; [auto | lra].
      - apply Qltb_false in E. split; [auto | lra]. }
    destruct Hm' as (Hcase & Hm & Hv).
    split.
    + simpl in Hin. destruct Hin as [E | Hin].
      * rewrite <- E. destruct Hcase as [-> | ->]; auto.
      * auto.
    + assert (H0 : fold_left (fun m0 v0 => if Qltb v0 m0 then v0 else m0) rest m' <= m')
        by (apply Hle; left; reflexivity).
      intros z [<- | [<- | Hz]]; [lra | lra |].
      apply Hle. right. exact Hz.
Qed.

Lemma py_max_spec (rest : list Q) :
  forall first, is_max (py_max first rest) (first :: rest).
Proof.
  unfold py_max, is_max.
  induction rest as [|v rest IH]; intros m; simpl.
  - split; [auto | intros z [<- | []]; lra].
  - destruct (IH (if Qltb m v then v else m)) as [Hin Hle].
    set (m' := if Qltb m v then v else m) in *.
    assert (Hm' : (m' = v \/ m' = m) /\ m <= m' /\ v <= m').
    { unfold m'. destruct (Qltb m v) eqn:E.
      - apply Qltb_true in E. split; [auto | lra].
      - apply Qltb_false in E. split; [auto | lra]. }
    destruct Hm' as (Hcase & Hm & Hv).
    split.
    + simpl in Hin. destruct Hin as [E | Hin].
      * rewrite <- E. destruct Hcase as [-> | ->]; auto.
      * auto.
    + assert (H0 : m' <= fold_left (fun m0 v0 => if Qltb m0 v0 then v0 else m0) rest m')
        by (apply Hle; left; reflexivity).
      intros z [<- | [<- | Hz]]; [lra | lra |].
      apply Hle. right. exact Hz.
Qed.

(** The heights of the corners [world_bbox_corners] returns are the world
    heights of the corners of the bounding box. *)
Lemma world_bbox_corners_z (o : Object) :
  map vz (world_bbox_corners o) = map (world_z o) (bound_box o).
Proof.
  unfold world_bbox_corners. rewrite map_map. apply map_ext. intros c.
  reflexivity.
Qed.

Lemma bbox_min_max_z_ok (o : Object) :
  bound_box o <> [] ->
  exists mn mx,
    bbox_min_max_z o = Ok (mn, mx) /\
    is_min mn (map (world_z o) (bound_box o)) /\
    is_max mx (map (world_z o) (bound_box o)).
Proof.
  intros Hne. unfold bbox_min_max_z. rewrite world_bbox_corners_z.
  destruct (bound_box o) as [|c cs]; [congruence|].
  cbn [map min_list max_list res_bind].
  eexists. eexists. split; [reflexivity|].
  split; [apply py_min_spec | apply py_max_spec].
Qed.

End Extremes.

(* ================================================================== *)
(** ** Creating the plane *)

Ltac fr :=
  first [ apply wf_fresh; assumption
        | apply fresh_map; fr
        | apply fresh_replace; fr
        | assumption ].

Ltac lk :=
  sc;
  first [ eassumption
        | apply lookup_fresh; fr
        | apply lookup_app_old; lk
        | apply lookup_map_old; lk
        | apply lookup_replace_same; lk
        | rewrite lookup_replace_other by lia; lk ].

Ltac mget := erewrite bind_get_object by lk; cbv beta; sc.
Ltac mupd := erewrite bind_update_object by lk; cbv beta; sc;
             rewrite ?replace_fresh by fr.

Section Plane.

Variable env : Env.

Lemma deselect_body (o : Object) : same_body o (deselect o).
Proof.
  unfold deselect, same_body.
  destruct (linked o) eqn:E; cbn; rewrite ?E; repeat split.
Qed.

Lemma deselect_matrix (o : Object) : matrix_world (deselect o) = matrix_world o.
Proof. unfold deselect. destruct (linked o); reflexivity. Qed.

Lemma deselect_name (o : Object) : name (deselect o) = name o.
Proof. unfold deselect. destruct (linked o); reflexivity. Qed.

Lemma deselect_type (o : Object) : type (deselect o) = type o.
Proof. unfold deselect. destruct (linked o); reflexivity. Qed.

Lemma deselect_bbox (o : Object) : bbox_min_max_z (deselect o) = bbox_min_max_z o.
Proof. unfold deselect. destruct (linked o); reflexivity. Qed.

Lemma deselect_unselected (o : Object) : selected_mesh (deselect o) = false.
Proof.
  unfold deselect, selected_mesh. destruct (linked o) eqn:E; simpl.
  - rewrite E. reflexivity.
  - rewrite E. reflexivity.
Qed.

Lemma deselect_linked (o : Object) : linked (deselect o) = linked o.
Proof. unfold deselect. destruct (linked o) eqn:E; [exact E | exact E]. Qed.

Lemma refresh_unselected (o : Object) :
  selected_mesh (refresh env o) = selected_mesh o.
Proof. reflexivity. Qed.

Lemma refresh_body (o : Object) : same_body o (refresh env o).
Proof. unfold same_body. repeat split. Qed.

Lemma same_body_trans (a b c : Object) :
  same_body a b -> same_body b c -> same_body a c.
Proof.
  unfold same_body. intros (?&?&?&?&?&?&?&?&?) (?&?&?&?&?&?&?&?&?).
  repeat split; congruence.
Qed.

Lemma same_body_refl (a : Object) : same_body a a.
Proof. unfold same_body. repeat split. Qed.

Lemma same_body_set_select (v : bool) (y : Object) : same_body y (set_select v y).
Proof. unfold same_body. repeat split. Qed.

(** Tables changed object by object, by functions that keep the body. *)
Lemma kept_map (f : Object -> Object) (obs : list (nat * Object)) (h : nat)
    (x : Object) :
  (forall y, same_body y (f y)) ->
  lookup h obs = Some x ->
  exists x', lookup h (map (fun p => (fst p, f (snd p))) obs) = Some x' /\
             same_body x x'.
Proof.
  intros Hf Hx. exists (f x). split; [apply lookup_map_old; exact Hx | apply Hf].
Qed.

Lemma kept_replace (a : nat) (f : Object -> Object) (obs : list (nat * Object))
    (h : nat) (x : Object) :
  (forall y, same_body y (f y)) ->
  lookup h obs = Some x ->
  exists x', lookup h (replace_object a f obs) = Some x' /\ same_body x x'.
Proof.
  intros Hf Hx. destruct (Nat.eq_dec h a) as [-> | Hne].
  - exists (f x). split; [apply lookup_replace_same; exact Hx | apply Hf].
  - exists x. split; [|apply same_body_refl].
    rewrite lookup_replace_other by exact Hne. exact Hx.
Qed.

Lemma bind_map_objects {B} (f : Object -> Object) (k : unit -> M B) s :
  bind (map_objects f) k s
  = k tt (set_objects (map (fun p => (fst p, f (snd p))) (objects s)) s).
Proof. reflexivity. Qed.

Lemma bind_object_mode_poll {B} (k : unit -> M B) s :
  mode s = "OBJECT"%string -> bind object_mode_poll k s = k tt s.
Proof.
  intros Hm. unfold object_mode_poll. rewrite bind_assoc, bind_gets, Hm.
  reflexivity.
Qed.

Lemma bind_deselect_all {B} (k : unit -> M B) s :
  bind deselect_all k s
  = k tt (set_objects (map (fun p => (fst p, deselect (snd p))) (objects s)) s).
Proof. reflexivity. Qed.

Lemma bind_select_all_deselect {B} (k : unit -> M B) s :
  mode s = "OBJECT"%string ->
  bind select_all_deselect k s
  = k tt (set_objects (map (fun p => (fst p, deselect (snd p))) (objects s)) s).
Proof.
  intros Hm. unfold select_all_deselect.
  rewrite bind_assoc, (bind_object_mode_poll _ _ Hm). reflexivity.
Qed.

(** Selecting an object of the view layer. *)
Lemma bind_select_set {B} (h : nat) (v : bool) (k : unit -> M B) s o :
  lookup h (objects s) = Some o ->
  linked o = true ->
  bind (select_set h v) k s
  = k tt (set_objects (replace_object h (set_select v) (objects s)) s).
Proof.
  intros Ho Hl. unfold select_set. rewrite bind_assoc.
  rewrite (bind_get_object _ _ _ _ Ho), Hl.
  exact (bind_update_object h (set_select v) k s o Ho).
Qed.

(** Selecting an object outside the view layer raises. *)
Lemma select_set_unlinked (h : nat) s o :
  lookup h (objects s) = Some o ->
  linked o = false ->
  select_set h true s = (Raise RuntimeError, s).
Proof.
  intros Ho Hl. unfold select_set.
  rewrite (bind_get_object _ _ _ _ Ho), Hl. reflexivity.
Qed.

Lemma bind_view_layer_update {B} (k : unit -> M B) s :
  bind (view_layer_update env) k s
  = k tt (set_objects (map (fun p => (fst p, refresh env (snd p))) (objects s)) s).
Proof. reflexivity. Qed.

Lemma bind_transform_apply_scale {B} (k : unit -> M B) s :
  mode s = "OBJECT"%string ->
  bind (transform_apply_scale env) k s
  = k tt (set_objects (map (fun p => (fst p, applied env (snd p))) (objects s)) s).
Proof.
  intros Hm. unfold transform_apply_scale.
  rewrite bind_assoc, (bind_object_mode_poll _ _ Hm). reflexivity.
Qed.

(** In object mode the plane primitive is a new object, selected alone and
    active. *)
Lemma primitive_plane_add_run (size : Q) s :
  mode s = "OBJECT"%string ->
  primitive_plane_add env size s
  = (Ok tt,
     set_active_object (Some (next_handle s))
       (set_next_handle (S (next_handle s))
          (set_objects
             (map (fun p => (fst p, deselect (snd p))) (objects s)
              ++ [(next_handle s, plane_object env size (cursor_location s))])
             s))).
Proof.
  intros Hm. unfold primitive_plane_add. rewrite bind_gets, Hm.
  cbn [String.eqb Ascii.eqb Bool.eqb].
  rewrite bind_deselect_all. reflexivity.
Qed.

Lemma plane_selected (l sc : Vec3) (nm : string) (size : Q) (c : Vec3) :
  selected_mesh
    (refresh env (set_location l (set_scale sc (set_name nm (plane_object env size c)))))
  = true.
Proof. reflexivity. Qed.

(** The scene [create_plane_at] returns in. *)
Lemma create_plane_at_run (s : Scene) (obj : nat) (o : Object) (side mn mx : Q) :
  wf_scene s ->
  mode s = "OBJECT"%string ->
  lookup obj (objects s) = Some o ->
  bbox_min_max_z o = Ok (mn, mx) ->
  create_plane_at env obj side s
  = (Ok (next_handle s),
     mkScene
       (map (fun p => (fst p, settled env (snd p))) (objects s)
        ++ [(next_handle s, shadow_plane env o side mn (cursor_location s))])
       (S (next_handle s)) (images s) (materials s) (cursor_location s)
       (mode s) (Some (next_handle s)) (render s) (props s) (random_calls s)
       (files s) (reports s)).
Proof.
  intros Hwf Hm Ho Hbb.
  unfold create_plane_at.
  rewrite (bind_ok _ _ _ _ _ (primitive_plane_add_run 1.0 s Hm)).
  mrun. unfold deref. mrun.
  mget. mupd. mupd. mget. rewrite deselect_bbox, Hbb. mrun.
  mget. mupd.
  rewrite bind_view_layer_update. sc.
  rewrite bind_transform_apply_scale by exact Hm. sc.
  rewrite !map_app, !map_map. cbn [map fst snd].
  rewrite deselect_name, deselect_matrix.
  unfold applied at 2. rewrite plane_selected.
  fold (shadow_plane env o side mn (cursor_location s)).
  rewrite (map_ext _ (fun p => (fst p, settled env (snd p)))).
  - reflexivity.
  - intros p. cbn [fst snd]. unfold applied, settled.
    rewrite refresh_unselected, deselect_unselected. reflexivity.
Qed.

End Plane.

(* ================================================================== *)
(** ** The light ring *)

Section Suns.

Variable env : Env.

(** One turn of the loop, from a scene [s1] in which [k] draws and [i]
    turns have gone since the start. *)
Lemma create_sun_run (s1 : Scene) (obj : nat) (o : Object)
    (distance mn mx : Q) (k0 i : nat) :
  fresh (next_handle s1) (objects s1) ->
  lookup obj (objects s1) = Some o ->
  bbox_min_max_z o = Ok (mn, mx) ->
  (simetric (props s1) = false -> random_calls s1 = (k0 + i)%nat) ->
  create_sun env obj distance (footprint o) (angle_step (props s1)) i s1
  = (Ok (Some (next_handle s1)),
     mkScene
       (objects s1
        ++ [(next_handle s1, nth_sun env o (props s1) distance mx k0 i)])
       (S (next_handle s1)) (images s1) (materials s1) (cursor_location s1)
       (mode s1) (active_object s1) (render s1) (props s1)
       (if simetric (props s1) then random_calls s1 else S (random_calls s1))
       (files s1) (reports s1)).
Proof.
  intros Hfresh Ho Hbb Hk.
  unfold create_sun, nth_sun, azimuth, jitter. mrun.
  destruct (simetric (props s1)) eqn:Esym.
  - mrun. mget. rewrite Hbb. mrun.
    unfold objects_link. mupd. mupd. mget. mget. mupd.
    unfold sun_object, sun_location, set_rotation_euler, set_location, set_linked.
    cbn [name type location rotation_euler scale matrix_world bound_box
         dimensions data select hide_render linked snd].
    reflexivity.
  - unfold random_uniform. mrun. mget. rewrite Hbb. mrun.
    unfold objects_link. mupd. mupd. mget. mget. mupd.
    unfold sun_object, sun_location, set_rotation_euler, set_location, set_linked.
    cbn [name type location rotation_euler scale matrix_world bound_box
         dimensions data select hide_render linked snd].
    rewrite (Hk eq_refl). reflexivity.
Qed.

Lemma with_suns_light (s : Scene) (o : Object) (distance mx : Q) (m : nat) :
  wf_scene s ->
  forall i, (i < m)%nat ->
    lookup (next_handle s + i)%nat (objects (with_suns env o distance mx s m))
    = Some (nth_sun env o (props s) distance mx (random_calls s) i).
Proof.
  intros Hwf. induction m as [|m IH]; intros i Hi; [lia|].
  unfold with_suns in *. cbn [objects] in *.
  rewrite seq_S, map_app, app_assoc. cbn [map Nat.add].
  destruct (Nat.eq_dec i m) as [-> | Hne].
  - apply lookup_fresh. intros p Hp.
    apply in_app_or in Hp. destruct Hp as [Hp | Hp].
    + specialize (Hwf p Hp). lia.
    + apply in_map_iff in Hp. destruct Hp as (j & <- & Hj).
      apply in_seq in Hj. simpl. lia.
  - apply lookup_app_old. apply IH. lia.
Qed.

Variables (s : Scene) (obj : nat) (o : Object) (distance mn mx : Q).
Hypothesis Hwf : wf_scene s.
Hypothesis Ho : lookup obj (objects s) = Some o.
Hypothesis Hbb : bbox_min_max_z o = Ok (mn, mx).

Let suns (m : nat) : Scene := with_suns env o distance mx s m.

Lemma with_suns_fresh (m : nat) :
  fresh (next_handle (suns m)) (objects (suns m)).
Proof.
  unfold suns, with_suns. sc. intros p Hp.
  apply in_app_or in Hp. destruct Hp as [Hp | Hp].
  - specialize (Hwf p Hp). lia.
  - apply in_map_iff in Hp. destruct Hp as (i & <- & Hi).
    apply in_seq in Hi. simpl. lia.
Qed.

Lemma with_suns_wf (m : nat) : wf_scene (suns m).
Proof.
  intros p Hp. pose proof (with_suns_fresh m p Hp) as Hne.
  unfold suns, with_suns in *. sc.
  apply in_app_or in Hp. destruct Hp as [Hp | Hp].
  - specialize (Hwf p Hp). lia.
  - apply in_map_iff in Hp. destruct Hp as (i & <- & Hi).
    apply in_seq in Hi. simpl. lia.
Qed.

Lemma with_suns_lookup (m : nat) : lookup obj (objects (suns m)) = Some o.
Proof. unfold suns, with_suns. sc. apply lookup_app_old. exact Ho. Qed.

Lemma with_suns_zero : suns 0 = s.
Proof.
  unfold suns, with_suns. cbn [seq map].
  rewrite app_nil_r, !Nat.add_0_r.
  destruct (simetric (props s)); destruct s; reflexivity.
Qed.

Lemma with_suns_step (a : nat) :
  mkScene
    (objects (suns a)
     ++ [(next_handle (suns a),
          nth_sun env o (props (suns a)) distance mx (random_calls s) a)])
    (S (next_handle (suns a))) (images (suns a)) (materials (suns a))
    (cursor_location (suns a)) (mode (suns a)) (active_object (suns a))
    (render (suns a)) (props (suns a))
    (if simetric (props (suns a)) then random_calls (suns a)
     else S (random_calls (suns a)))
    (files (suns a)) (reports (suns a))
  = suns (S a).
Proof.
  unfold suns, with_suns.
  cbn [objects next_handle images materials cursor_location mode
       active_object render props random_calls files reports].
  rewrite seq_S, map_app, <- app_assoc. cbn [map app Nat.add].
  replace (next_handle s + S a)%nat with (S (next_handle s + a)) by lia.
  replace (random_calls s + S a)%nat with (S (random_calls s + a)) by lia.
  destruct (simetric (props s)); reflexivity.
Qed.

Lemma suns_loop (m : nat) :
  forall a,
    for_collect (seq a m)
      (create_sun env obj distance (footprint o) (angle_step (props s)))
      (suns a)
    = (Ok (map (fun i => (next_handle s + i)%nat) (seq a m)), suns (a + m)).
Proof.
  induction m as [|m IH]; intros a.
  - cbn [seq for_collect map]. rewrite Nat.add_0_r. reflexivity.
  - cbn [seq for_collect map].
    change (props s) with (props (suns a)) at 1.
    rewrite (bind_ok _ _ _ _ _
               (create_sun_run (suns a) obj o distance mn mx (random_calls s) a
                  (with_suns_fresh a) (with_suns_lookup a) Hbb
                  ltac:(intros Hs; unfold suns, with_suns in *; sc; rewrite Hs; reflexivity))).
    rewrite with_suns_step.
    rewrite (bind_ok _ _ _ _ _ (IH (S a))).
    replace (a + S m)%nat with (S a + m)%nat by lia.
    reflexivity.
Qed.

(** The scene [create_x_suns_around] returns in. *)
Lemma create_x_suns_around_run :
  (0 < numLights (props s))%Z ->
  create_x_suns_around env obj distance s
  = (Ok (map (fun i => (next_handle s + i)%nat)
             (seq 0 (Z.to_nat (numLights (props s))))),
     suns (Z.to_nat (numLights (props s)))).
Proof.
  intros Hn. unfold create_x_suns_around. mget. mrun.
  destruct (numLights (props s) =? 0)%Z eqn:E; [apply Z.eqb_eq in E; lia|].
  unfold range. fold (angle_step (props s)). fold (footprint o).
  pose proof (suns_loop (Z.to_nat (numLights (props s))) 0%nat) as H.
  rewrite with_suns_zero in H. exact H.
Qed.

End Suns.

(* ================================================================== *)
(** ** Images *)

Section Images.

Lemma length_concat_repeat (l : list Q) (n : nat) :
  length (concat (repeat l n)) = (length l * n)%nat.
Proof.
  induction n as [|n IH]; simpl.
  - lia.
  - rewrite length_app, IH. lia.
Qed.

Lemma nth_error_last {A} (l : list A) (x : A) :
  nth_error (l ++ [x]) (length l) = Some x.
Proof.
  rewrite nth_error_app2 by lia. rewrite Nat.sub_diag. reflexivity.
Qed.

Lemma update_last {A} (l : list A) (x y : A) :
  firstn (length l) (l ++ [x]) ++ y :: skipn (S (length l)) (l ++ [x])
  = l ++ [y].
Proof.
  rewrite firstn_app, firstn_all, Nat.sub_diag, skipn_all2
    by (rewrite length_app; simpl; lia).
  simpl. rewrite app_nil_r. reflexivity.
Qed.

Lemma bind_get_image {B} (i : nat) (k : Image -> M B) s im :
  nth_error (images s) i = Some im -> bind (get_image i) k s = k im s.
Proof. intros H. unfold bind, get_image. rewrite H. reflexivity. Qed.

Lemma bind_images_new {B} nm w h (k : nat -> M B) s :
  bind (images_new nm w h) k s
  = k (length (images s))
      (set_images (images s
                   ++ [mkImage nm (w, h) (concat (repeat [0; 0; 0; 1] (w * h)))
                               "" "TARGA"]) s).
Proof. reflexivity. Qed.

(** Writing a buffer of the right size into the image created last. *)
Lemma bind_set_pixels_last {B} (px : list Q) (k : unit -> M B) s imgs im :
  images s = imgs ++ [im] ->
  length px = length (img_pixels im) ->
  bind (set_pixels (length imgs) px) k s
  = k tt (set_images (imgs ++ [mkImage (img_name im) (img_size im) px
                                       (filepath_raw im) (file_format im)]) s).
Proof.
  intros Himgs Hlen. unfold set_pixels. rewrite bind_assoc.
  erewrite bind_get_image by (rewrite Himgs; apply nth_error_last).
  apply Nat.eqb_eq in Hlen. rewrite Hlen.
  unfold update_image. rewrite bind_assoc.
  erewrite bind_get_image by (rewrite Himgs; apply nth_error_last).
  rewrite bind_modify. rewrite Himgs, update_last. reflexivity.
Qed.

Lemma bind_create_image {B} nm w h (k : nat -> M B) s :
  bind (create_image nm w h) k s
  = k (length (images s))
      (set_images (images s
                   ++ [mkImage nm (w, h)
                               (concat (repeat [1.0; 1.0; 1.0; 1.0] (w * h)))
                               "" "TARGA"]) s).
Proof.
  unfold create_image. rewrite bind_assoc, bind_images_new. cbv beta.
  rewrite bind_assoc.
  erewrite bind_set_pixels_last
    by (first [ reflexivity
              | cbn [img_pixels]; rewrite !length_concat_repeat; reflexivity ]).
  rewrite bind_ret. cbn [img_name img_size filepath_raw file_format].
  unfold set_images.
  cbn [objects next_handle images materials cursor_location mode
       active_object render props random_calls files reports].
  reflexivity.
Qed.

Lemma binarize_total (px : list Q) (n : nat) :
  length px = (4 * n)%nat ->
  exists out, binarize px = Ok out /\ length out = length px.
Proof.
  intros Hlen. destruct (binarize_chunks_channels n px Hlen) as (out & Hout & Hl & _).
  exists out. rewrite binarize_chunks_ok. split; [exact Hout | lia].
Qed.

Section WithEnv.

Variable env : Env.

Lemma bind_object_bake_last {B} (k : unit -> M B) s imgs im px :
  images s = imgs ++ [im] ->
  bake env s (length imgs) = Some px ->
  bind (object_bake env (length imgs)) k s
  = k tt (set_images (imgs ++ [mkImage (img_name im) (img_size im) px
                                       (filepath_raw im) (file_format im)]) s).
Proof.
  intros Himgs Hpx. unfold bind at 1, object_bake.
  rewrite Hpx, Himgs, nth_error_last, update_last. reflexivity.
Qed.

Lemma bind_postprocess_last {B} (k : unit -> M B) s imgs im out :
  images s = imgs ++ [im] ->
  binarize (img_pixels im) = Ok out ->
  length out = length (img_pixels im) ->
  bind (postprocess (length imgs)) k s
  = k tt (set_images (imgs ++ [mkImage (img_name im) (img_size im) out
                                       (filepath_raw im) (file_format im)]) s).
Proof.
  intros Himgs Hout Hlen. unfold postprocess. rewrite bind_assoc.
  erewrite bind_get_image by (rewrite Himgs; apply nth_error_last).
  rewrite Hout, bind_assoc, bind_lift_ok.
  erewrite bind_set_pixels_last by eassumption.
  reflexivity.
Qed.

End WithEnv.

End Images.

(* ================================================================== *)
(** ** Baking the shadow plane *)

Section ShadowPlane.

Variable env : Env.

Lemma bind_isolate_mesh_render {B} (obj : nat) (k : unit -> M B) s o :
  lookup obj (objects s) = Some o ->
  type o = "MESH"%string ->
  bind (isolate_mesh_render obj) k s
  = k tt (set_objects
            (replace_object obj (set_hide_render false)
               (map (fun p => (fst p, hidden (snd p))) (objects s))) s).
Proof.
  intros Ho Ht.
  change (isolate_mesh_render obj)
    with (bind (get_object obj)
            (fun o => if negb (type o =? "MESH")%string then ret tt
                      else bind (map_objects hidden)
                             (fun _ => update_object obj (set_hide_render false)))).
  rewrite bind_assoc.
  rewrite (bind_get_object _ _ _ _ Ho). rewrite Ht.
  cbn [String.eqb Ascii.eqb Bool.eqb negb].
  rewrite bind_assoc, bind_map_objects.
  erewrite bind_update_object
    by (cbn [objects set_objects]; apply lookup_map_old; exact Ho).
  unfold set_objects.
  cbn [objects next_handle images materials cursor_location mode
       active_object render props random_calls files reports].
  reflexivity.
Qed.

Lemma bind_ensure_material {B} (obj img : nat) (k : nat -> M B) s im o vs :
  nth_error (images s) img = Some im ->
  lookup obj (objects s) = Some o ->
  data o = MeshData vs [] ->
  bind (ensure_material_with_image obj img) k s
  = k (length (materials s))
      (set_objects (replace_object obj (set_data (MeshData vs [length (materials s)]))
                                   (objects s))
         (set_materials (materials s ++ [shadow_material im img]) s)).
Proof.
  intros Him Ho Hd. unfold ensure_material_with_image. rewrite bind_assoc.
  rewrite (bind_get_image _ _ _ _ Him). rewrite bind_assoc.
  unfold materials_new at 1. unfold bind at 1. fold (shadow_material im img).
  rewrite bind_assoc.
  erewrite bind_get_object by (cbn [objects set_materials]; exact Ho).
  rewrite Hd. rewrite bind_assoc.
  erewrite bind_update_object by (cbn [objects set_materials]; exact Ho).
  rewrite bind_ret. reflexivity.
Qed.

Lemma shadow_plane_data (o : Object) (side mn : Q) (c : Vec3) :
  exists vs, data (shadow_plane env o side mn c) = MeshData vs [].
Proof. eexists. reflexivity. Qed.

Lemma settled_body (o : Object) : same_body o (settled env o).
Proof.
  unfold settled. eapply same_body_trans; [apply deselect_body | apply refresh_body].
Qed.

Lemma settled_type (o : Object) : type (settled env o) = type o.
Proof. apply settled_body. Qed.

Lemma settled_name (o : Object) : name (settled env o) = name o.
Proof. apply settled_body. Qed.

Lemma settled_linked (o : Object) : linked (settled env o) = linked o.
Proof. apply settled_body. Qed.

Lemma hidden_linked (o : Object) : linked (hidden o) = linked o.
Proof.
  unfold hidden. destruct (linked o && (type o =? "MESH")%string); reflexivity.
Qed.

(** The plane and the object in the scene [make_shadow_plane] returns in. *)
Lemma after_shadow_plane_lookup (s : Scene) (obj : nat) (o : Object) (mn : Q)
    (px : list Q) :
  wf_scene s ->
  lookup (next_handle s) (objects (after_shadow_plane env obj o mn px s))
  = Some (baked_plane env o mn (cursor_location s) (length (materials s))).
Proof.
  intros Hwf. unfold after_shadow_plane. cbn [objects].
  apply lookup_fresh. apply fresh_replace. apply fresh_map. apply fresh_map.
  apply wf_fresh. exact Hwf.
Qed.

Lemma after_shadow_plane_target (s : Scene) (obj : nat) (o : Object) (mn : Q)
    (px : list Q) :
  lookup obj (objects s) = Some o ->
  lookup obj (objects (after_shadow_plane env obj o mn px s))
  = Some (set_hide_render false (hidden (settled env o))).
Proof.
  intros Ho. unfold after_shadow_plane. cbn [objects].
  apply lookup_app_old, lookup_replace_same, lookup_map_old, lookup_map_old.
  exact Ho.
Qed.

Lemma baked_plane_linked (o : Object) (mn : Q) (c : Vec3) (mat : nat) :
  linked (baked_plane env o mn c mat) = true.
Proof. reflexivity. Qed.

Lemma baked_plane_type (o : Object) (mn : Q) (c : Vec3) (mat : nat) :
  type (baked_plane env o mn c mat) = "MESH"%string.
Proof. reflexivity. Qed.

Lemma hidden_type (o : Object) : type (hidden o) = type o.
Proof.
  unfold hidden. destruct (linked o && (type o =? "MESH")%string); reflexivity.
Qed.

Lemma after_shadow_plane_old (s : Scene) (obj : nat) (o : Object) (mn : Q)
    (px : list Q) (h : nat) (x : Object) :
  lookup h (objects s) = Some x ->
  lookup h (objects (after_shadow_plane env obj o mn px s))
  = Some (if (h =? obj)%nat then set_hide_render false (hidden (settled env x))
          else hidden (settled env x)).
Proof.
  intros Hx. unfold after_shadow_plane. cbn [objects].
  assert (Hbase :
    lookup h (map (fun p => (fst p, hidden (snd p)))
                (map (fun p => (fst p, settled env (snd p))) (objects s)))
    = Some (hidden (settled env x)))
    by (apply lookup_map_old, lookup_map_old; exact Hx).
  apply lookup_app_old.
  destruct (h =? obj)%nat eqn:E.
  - apply Nat.eqb_eq in E. subst h. apply lookup_replace_same. exact Hbase.
  - apply Nat.eqb_neq in E. rewrite lookup_replace_other by exact E. exact Hbase.
Qed.

Lemma after_shadow_plane_handles (s : Scene) (obj : nat) (o : Object) (mn : Q)
    (px : list Q) :
  handles (after_shadow_plane env obj o mn px s) = handles s ++ [next_handle s].
Proof.
  unfold handles, after_shadow_plane. cbn [objects].
  rewrite map_app, handles_replace, !handles_map. reflexivity.
Qed.

(** Up to the call of the renderer. *)
Lemma make_shadow_plane_prefix (s : Scene) (obj : nat) (o : Object) (mn mx : Q) :
  wf_scene s ->
  mode s = "OBJECT"%string ->
  lookup obj (objects s) = Some o ->
  type o = "MESH"%string ->
  bbox_min_max_z o = Ok (mn, mx) ->
  make_shadow_plane env obj s
  = bind (object_bake env (length (images s)))
      (fun _ => bind (postprocess (length (images s)))
                  (fun _ => ret (next_handle s)))
      (after_shadow_plane env obj o mn white_pixels s).
Proof.
  intros Hwf Hm Ho Ht Hbb.
  assert (Hne : obj <> next_handle s)
    by (pose proof (wf_lookup_lt _ _ _ Hwf Ho); lia).
  destruct (shadow_plane_data o (side_len_of (compute_radius_from_dimensions o))
              mn (cursor_location s)) as (vs & Hvs).
  unfold after_shadow_plane, baked_plane, with_material.
  rewrite Hvs.
  unfold make_shadow_plane, setup_render. mrun. mget.
  erewrite bind_ok
    by (apply (create_plane_at_run env _ obj o _ mn mx);
        [ exact Hwf | exact Hm | exact Ho | exact Hbb ]).
  sc. mget. rewrite bind_create_image. fold white_pixels. sc.
  erewrite bind_ensure_material
    by (sc; first [ apply nth_error_last | lk | exact Hvs ]).
  sc. rewrite replace_fresh by fr.
  erewrite bind_isolate_mesh_render
    by (sc; first [ lk | rewrite settled_type; exact Ht ]).
  sc. rewrite map_app. cbn [map fst snd].
  rewrite replace_app_old by exact Hne.
  mupd. rewrite settled_name.
  reflexivity.
Qed.

Lemma make_shadow_plane_run (s : Scene) (obj : nat) (o : Object) (mn mx : Q) :
  wf_scene s ->
  mode s = "OBJECT"%string ->
  lookup obj (objects s) = Some o ->
  type o = "MESH"%string ->
  bbox_min_max_z o = Ok (mn, mx) ->
  bake_succeeds env ->
  exists px out,
    bake env (after_shadow_plane env obj o mn white_pixels s) (length (images s))
    = Some px /\
    binarize px = Ok out /\
    make_shadow_plane env obj s
    = (Ok (next_handle s), after_shadow_plane env obj o mn out s).
Proof.
  intros Hwf Hm Ho Ht Hbb Hbake.
  destruct (Hbake (after_shadow_plane env obj o mn white_pixels s)
                  (length (images s))) as (px & npx & Hpx & Hlen).
  destruct (binarize_total px npx Hlen) as (out & Hout & Hlout).
  exists px, out. split; [exact Hpx|]. split; [exact Hout|].
  rewrite (make_shadow_plane_prefix s obj o mn mx Hwf Hm Ho Ht Hbb).
  erewrite bind_object_bake_last by (first [ reflexivity | exact Hpx ]).
  erewrite bind_postprocess_last by (first [ reflexivity | exact Hout | exact Hlout ]).
  reflexivity.
Qed.

End ShadowPlane.

(* ================================================================== *)
(** ** Removing objects *)

Section Removal.

Lemma removed_single (h a : nat) : removed [h] a = (a =? h)%nat.
Proof. unfold removed. simpl. apply orb_false_r. Qed.

Lemma removed_In (hs : list nat) (h : nat) : removed hs h = true <-> In h hs.
Proof.
  unfold removed. rewrite existsb_exists. split.
  - intros (x & Hx & E). apply Nat.eqb_eq in E. subst. exact Hx.
  - intros H. exists h. split; [exact H | apply Nat.eqb_refl].
Qed.

Lemma removed_not_In (hs : list nat) (h : nat) : removed hs h = false <-> ~ In h hs.
Proof.
  rewrite <- removed_In. destruct (removed hs h); split; congruence.
Qed.

Lemma lookup_filter_keep (P : nat -> bool) (h : nat) (obs : list (nat * Object)) :
  P h = true ->
  lookup h (filter (fun p => P (fst p)) obs) = lookup h obs.
Proof.
  intros HP. unfold lookup. induction obs as [|p obs IH]; simpl; [reflexivity|].
  destruct (fst p =? h)%nat eqn:E.
  - apply Nat.eqb_eq in E. rewrite E, HP. simpl.
    rewrite E, Nat.eqb_refl. reflexivity.
  - destruct (P (fst p)); simpl; [rewrite E|]; exact IH.
Qed.

Lemma handles_filter (P : nat -> bool) (obs : list (nat * Object)) :
  map fst (filter (fun p => P (fst p)) obs) = filter P (map fst obs).
Proof.
  induction obs as [|p obs IH]; simpl; [reflexivity|].
  destruct (P (fst p)); simpl; rewrite IH; reflexivity.
Qed.

Lemma objects_remove_run (s : Scene) (h : nat) (o : Object) :
  lookup h (objects s) = Some o ->
  objects_remove h s = (Ok tt, without [h] s).
Proof.
  intros Ho. unfold objects_remove. rewrite (bind_get_object _ _ _ _ Ho).
  unfold modify, without. sc. f_equal. f_equal.
  - apply filter_ext. intros p. rewrite removed_single. reflexivity.
  - destruct (active_object s) as [a|]; [|reflexivity].
    rewrite removed_single. reflexivity.
Qed.

Lemma removed_cons (h : nat) (hs : list nat) (a : nat) :
  removed (h :: hs) a = (a =? h)%nat || removed hs a.
Proof. reflexivity. Qed.

Lemma filter_removed (hs : list nat) (h : nat) (obs : list (nat * Object)) :
  filter (fun p => negb (removed hs (fst p)))
         (filter (fun p => negb (removed [h] (fst p))) obs)
  = filter (fun p => negb (removed (h :: hs) (fst p))) obs.
Proof.
  induction obs as [|p obs IH]; [reflexivity|].
  cbn [filter]. rewrite removed_single, removed_cons.
  destruct (fst p =? h)%nat; cbn [negb orb].
  - exact IH.
  - cbn [filter]. rewrite IH. reflexivity.
Qed.

Lemma without_without (hs : list nat) (h : nat) (s : Scene) :
  without hs (without [h] s) = without (h :: hs) s.
Proof.
  unfold without. sc. rewrite filter_removed.
  destruct (active_object s) as [a|]; [|reflexivity].
  rewrite removed_single, removed_cons.
  destruct (a =? h)%nat; reflexivity.
Qed.

Lemma without_nil (s : Scene) : without [] s = s.
Proof.
  unfold without. simpl.
  replace (filter (fun _ => true) (objects s)) with (objects s).
  - destruct s as [? ? ? ? ? ? [a|] ? ? ? ? ?]; reflexivity.
  - induction (objects s) as [|p obs IH]; simpl; [reflexivity | rewrite <- IH; reflexivity].
Qed.

Lemma for_each_remove_run (hs : list nat) :
  forall s,
    NoDup hs ->
    (forall h, In h hs -> In h (handles s)) ->
    for_each hs objects_remove s = (Ok tt, without hs s).
Proof.
  induction hs as [|h hs IH]; intros s Hnd Hin.
  - simpl. rewrite without_nil. reflexivity.
  - cbn [for_each].
    destruct (handles_lookup h (objects s)) as (o & Ho);
      [apply Hin; left; reflexivity|].
    rewrite (bind_ok _ _ _ _ _ (objects_remove_run s h o Ho)).
    rewrite IH.
    + rewrite without_without. reflexivity.
    + inversion Hnd; assumption.
    + intros h' Hh'. unfold handles, without. sc.
      rewrite (handles_filter (fun a => negb (removed [h] a))).
      apply filter_In. split.
      * apply Hin. right. exact Hh'.
      * rewrite removed_single. apply negb_true_iff. apply Nat.eqb_neq.
        inversion Hnd; subst. intros ->. contradiction.
Qed.

End Removal.

(* ================================================================== *)
(** ** Exporting one object *)

Section ExportObj.

Variable env : Env.

Lemma hidden_body (o : Object) : same_body o (hidden o).
Proof.
  unfold hidden.
  destruct (linked o && (type o =? "MESH")%string); unfold same_body; repeat split.
Qed.

Lemma bind_export_ok {B} (path : string) (k : unit -> M B) s :
  export_gltf env s path = true ->
  bind (export_scene_gltf env path) k s = k tt (with_file path s).
Proof.
  intros H. unfold bind at 1, export_scene_gltf. rewrite H. reflexivity.
Qed.

Lemma bind_export_fails {B} (path : string) (k : unit -> M B) s :
  export_gltf env s path = false ->
  bind (export_scene_gltf env path) k s = (Raise RuntimeError, s).
Proof.
  intros H. unfold bind at 1, export_scene_gltf. rewrite H. reflexivity.
Qed.

Variables (s : Scene) (obj : nat) (o : Object) (mn mx : Q).
Hypothesis Hwf : wf_scene s.
Hypothesis Ho : lookup obj (objects s) = Some o.
Hypothesis Ht : type o = "MESH"%string.
Hypothesis Hbb : bbox_min_max_z o = Ok (mn, mx).

Lemma light_handles_spec (h : nat) :
  In h (light_handles s) <->
  (next_handle s <= h < next_handle s + light_count s)%nat.
Proof.
  unfold light_handles. rewrite in_map_iff. split.
  - intros (i & <- & Hi). apply in_seq in Hi. lia.
  - intros Hh. exists (h - next_handle s)%nat. split; [lia|].
    apply in_seq. lia.
Qed.

Lemma light_handles_NoDup : NoDup (light_handles s).
Proof.
  unfold light_handles. apply Injective_map_NoDup.
  - intros a b. lia.
  - apply seq_NoDup.
Qed.

Lemma staged_handles (px : list Q) :
  handles (staged env obj o mn mx px s)
  = handles s ++ light_handles s ++ [plane_handle s].
Proof.
  unfold staged, ready_to_export, after_shadow_plane, with_suns, handles,
         light_handles, plane_handle.
  cbn [objects next_handle].
  rewrite !handles_replace, handles_map, map_app, handles_replace, !handles_map.
  rewrite map_app, map_map. cbn [map fst]. rewrite <- app_assoc. reflexivity.
Qed.

Lemma staged_old (px : list Q) (h : nat) (x : Object) :
  lookup h (objects s) = Some x ->
  exists x', lookup h (objects (staged env obj o mn mx px s)) = Some x' /\
             same_body x x'.
Proof.
  intros Hx.
  unfold staged, ready_to_export, after_shadow_plane, with_suns.
  cbn [objects next_handle].
  assert (Hlt : (h < next_handle s)%nat) by exact (wf_lookup_lt _ _ _ Hwf Hx).
  assert (Hbase :
    lookup h (map (fun p => (fst p, hidden (snd p)))
                (map (fun p => (fst p, settled env (snd p)))
                   (objects s ++
                    map (fun i => ((next_handle s + i)%nat,
                                   nth_sun env o (props s) 1.0 mx (random_calls s) i))
                        (seq 0 (light_count s)))))
    = Some (hidden (settled env x))).
  { apply lookup_map_old. apply lookup_map_old. apply lookup_app_old. exact Hx. }
  assert (Hbody0 : same_body x (hidden (settled env x))).
  { eapply same_body_trans; [apply settled_body | apply hidden_body]. }
  set (base := map (fun p => (fst p, hidden (snd p))) _) in *.
  assert (H1 : exists x1,
             lookup h (replace_object obj (set_hide_render false) base
                       ++ [((next_handle s + light_count s)%nat,
                            baked_plane env o mn (cursor_location s)
                                        (length (materials s)))])
             = Some x1 /\ same_body x x1).
  { destruct (Nat.eq_dec h obj) as [-> | Hne].
    - eexists. split.
      + apply lookup_app_old. apply lookup_replace_same. exact Hbase.
      + eapply same_body_trans; [exact Hbody0 | unfold same_body; repeat split].
    - eexists. split.
      + apply lookup_app_old. rewrite lookup_replace_other by exact Hne. exact Hbase.
      + exact Hbody0. }
  destruct H1 as (x1 & Hx1 & Hb1).
  set (tbl := replace_object obj (set_hide_render false) base ++ _) in *.
  assert (H2 : lookup h (map (fun p => (fst p, deselect (snd p))) tbl)
               = Some (deselect x1))
    by (apply lookup_map_old; exact Hx1).
  assert (Hb2 : same_body x (deselect x1))
    by (eapply same_body_trans; [exact Hb1 | apply deselect_body]).
  set (tbl2 := map (fun p => (fst p, deselect (snd p))) tbl) in *.
  assert (H3 : exists x3,
             lookup h (replace_object (plane_handle s) (set_select true) tbl2)
             = Some x3 /\ same_body x x3).
  { eexists. split.
    - rewrite lookup_replace_other by (unfold plane_handle; lia). exact H2.
    - exact Hb2. }
  destruct H3 as (x3 & Hx3 & Hb3).
  destruct (Nat.eq_dec h obj) as [-> | Hne].
  - eexists. split.
    + apply lookup_replace_same. exact Hx3.
    + eapply same_body_trans; [exact Hb3 | unfold same_body; repeat split].
  - eexists. split.
    + rewrite lookup_replace_other by exact Hne. exact Hx3.
    + exact Hb3.
Qed.

Lemma staged_plane (px : list Q) :
  exists p, lookup (plane_handle s) (objects (staged env obj o mn mx px s)) = Some p.
Proof.
  apply handles_lookup. fold (handles (staged env obj o mn mx px s)).
  rewrite staged_handles. apply in_or_app. right. apply in_or_app. right.
  left. reflexivity.
Qed.

Lemma bind_update_object_in {B} (h : nat) f (k : unit -> M B) st :
  In h (map fst (objects st)) ->
  bind (update_object h f) k st
  = k tt (set_objects (replace_object h f (objects st)) st).
Proof.
  intros Hin. destruct (handles_lookup _ _ Hin) as (x & Hx).
  exact (bind_update_object h f k st x Hx).
Qed.

(** The lights and the plane are in the scene once the plane is made. *)
Lemma baked_temporaries (px : list Q) :
  temporaries_left s
    (after_shadow_plane env obj o mn px (with_suns env o 1.0 mx s (light_count s))).
Proof.
  assert (Hlt : (obj < next_handle s)%nat) by exact (wf_lookup_lt _ _ _ Hwf Ho).
  split; [|split; [|split]].
  - rewrite after_shadow_plane_handles.
    unfold handles, with_suns, light_handles, plane_handle.
    cbn [objects next_handle].
    rewrite map_app, map_map. cbn [fst]. rewrite <- app_assoc. reflexivity.
  - unfold light_handles. rewrite length_map, length_seq. reflexivity.
  - intros h Hh. apply light_handles_spec in Hh.
    pose proof (with_suns_light env s o 1.0 mx (light_count s) Hwf
                  (h - next_handle s)%nat ltac:(lia)) as Hlight.
    replace (next_handle s + (h - next_handle s))%nat with h in Hlight by lia.
    rewrite (after_shadow_plane_old env _ obj o mn px h _ Hlight).
    assert (E : (h =? obj)%nat = false) by (apply Nat.eqb_neq; lia).
    rewrite E. eexists. split; [reflexivity|].
    rewrite hidden_type, settled_type. reflexivity.
  - eexists. split.
    + apply (after_shadow_plane_lookup env
               (with_suns env o 1.0 mx s (light_count s)) obj o mn px).
      exact (with_suns_wf env s o 1.0 mx Hwf (light_count s)).
    + apply baked_plane_type.
Qed.

Lemma temporaries_kept (st st' : Scene) :
  temporaries_left s st ->
  handles st' = handles st ->
  keeps_objects st st' ->
  temporaries_left s st'.
Proof.
  intros (Hh & Hlen & Hlights & (p & Hp & Htp)) Hh' Hk.
  split; [congruence|]. split; [exact Hlen|]. split.
  - intros h Hin. destruct (Hlights h Hin) as (l & Hl1 & Hty).
    destruct (Hk h l Hl1) as (l' & Hl' & Hb). exists l'. split; [exact Hl'|].
    destruct Hb as (_ & Ht' & _). congruence.
  - destruct (Hk _ p Hp) as (p' & Hp' & Hb). exists p'. split; [exact Hp'|].
    destruct Hb as (_ & Ht' & _). congruence.
Qed.

(** Selecting the plane, and then the object, after deselecting all. *)
Lemma plane_selected_keeps (plane : nat) (st : Scene) :
  keeps_objects st
    (set_objects
       (replace_object plane (set_select true)
          (map (fun p => (fst p, deselect (snd p))) (objects st))) st).
Proof.
  intros h x Hx. cbn [objects set_objects].
  destruct (kept_map deselect (objects st) h x deselect_body Hx) as (x1 & H1 & B1).
  destruct (kept_replace plane (set_select true) _ h x1 (same_body_set_select true) H1)
    as (x2 & H2 & B2).
  exists x2. split; [exact H2 | exact (same_body_trans _ _ _ B1 B2)].
Qed.

Lemma ready_to_export_keeps (plane : nat) (st : Scene) :
  keeps_objects st (ready_to_export plane obj st).
Proof.
  intros h x Hx. unfold ready_to_export. cbn [objects].
  destruct (plane_selected_keeps plane st h x Hx) as (x2 & H2 & B2).
  cbn [objects set_objects] in H2.
  destruct (kept_replace obj (set_select true) _ h x2 (same_body_set_select true) H2)
    as (x3 & H3 & B3).
  exists x3. split; [exact H3 | exact (same_body_trans _ _ _ B2 B3)].
Qed.

(** The lights and the plane are in the scene the exporter is called in. *)
Lemma staged_temporaries (px : list Q) :
  temporaries_left s (staged env obj o mn mx px s).
Proof.
  apply (temporaries_kept _ _ (baked_temporaries px)).
  - unfold staged, ready_to_export, handles. cbn [objects].
    rewrite !handles_replace, handles_map. reflexivity.
  - apply ready_to_export_keeps.
Qed.

Hypothesis Hn : (0 < numLights (props s))%Z.
Hypothesis Hm : mode s = "OBJECT"%string.

(** With the target outside the view layer, [export_obj] stops at
    [obj.select_set(True)]: the plane is baked and selected, nothing is
    exported and nothing removed. *)
Lemma export_obj_unlinked :
  bake_succeeds env ->
  linked o = false ->
  exists st,
    export_obj env obj s = (Raise RuntimeError, st) /\
    temporaries_left s st /\
    files st = files s /\ reports st = reports s.
Proof.
  intros Hbake Hl.
  pose proof (create_x_suns_around_run env s obj o 1.0 mn mx Hwf Ho Hbb Hn) as Hsuns.
  fold (light_count s) in Hsuns. fold (light_handles s) in Hsuns.
  set (s1 := with_suns env o 1.0 mx s (light_count s)) in *.
  assert (Hwf1 : wf_scene s1) by exact (with_suns_wf env s o 1.0 mx Hwf (light_count s)).
  assert (Ho1 : lookup obj (objects s1) = Some o)
    by exact (with_suns_lookup env s obj o 1.0 mx Ho (light_count s)).
  destruct (make_shadow_plane_run env s1 obj o mn mx Hwf1 Hm Ho1 Ht Hbb Hbake)
    as (px0 & out & _ & _ & Hplane).
  change (next_handle s1) with (plane_handle s) in Hplane.
  assert (Hlt : (obj < next_handle s)%nat) by exact (wf_lookup_lt _ _ _ Hwf Ho).
  eexists. split.
  - unfold export_obj.
    rewrite (bind_ok _ _ _ _ _ Hsuns).
    rewrite (bind_ok _ _ _ _ _ Hplane).
    rewrite bind_select_all_deselect by exact Hm.
    erewrite bind_select_set;
      [ | cbn [objects set_objects]; apply lookup_map_old;
          apply (after_shadow_plane_lookup env s1 obj o mn out Hwf1)
        | rewrite deselect_linked; apply baked_plane_linked ].
    apply bind_raise.
    eapply select_set_unlinked.
    + cbn [objects set_objects].
      rewrite lookup_replace_other by (unfold plane_handle; lia).
      apply lookup_map_old.
      apply (after_shadow_plane_target env s1 obj o mn out Ho1).
    + rewrite deselect_linked. cbn [linked set_hide_render].
      rewrite hidden_linked, settled_linked. exact Hl.
  - split; [|split; reflexivity].
    apply (temporaries_kept _ _ (baked_temporaries out)).
    + unfold handles. cbn [objects set_objects].
      rewrite handles_replace, handles_map. reflexivity.
    + exact (plane_selected_keeps (plane_handle s)
               (after_shadow_plane env obj o mn out s1)).
Qed.

Hypothesis Hl : linked o = true.
Hypothesis Hbake : bake_succeeds env.

(** [export_obj], whether the exporter succeeds or raises. *)
Lemma export_obj_run :
  exists px,
    (export_gltf env (staged env obj o mn mx px s) (glb_path env s o) = true ->
     export_obj env obj s = (Ok tt, exported env obj o mn mx px s)) /\
    (export_gltf env (staged env obj o mn mx px s) (glb_path env s o) = false ->
     export_obj env obj s = (Raise RuntimeError, staged env obj o mn mx px s)).
Proof.
  pose proof (create_x_suns_around_run env s obj o 1.0 mn mx Hwf Ho Hbb Hn) as Hsuns.
  fold (light_count s) in Hsuns. fold (light_handles s) in Hsuns.
  set (s1 := with_suns env o 1.0 mx s (light_count s)) in *.
  assert (Hwf1 : wf_scene s1) by exact (with_suns_wf env s o 1.0 mx Hwf (light_count s)).
  assert (Ho1 : lookup obj (objects s1) = Some o)
    by exact (with_suns_lookup env s obj o 1.0 mx Ho (light_count s)).
  destruct (make_shadow_plane_run env s1 obj o mn mx Hwf1 Hm Ho1 Ht Hbb Hbake)
    as (px0 & out & _ & _ & Hplane).
  change (next_handle s1) with (plane_handle s) in Hplane.
  assert (Hlt : (obj < next_handle s)%nat) by exact (wf_lookup_lt _ _ _ Hwf Ho).
  exists out.
  assert (Hprefix :
    export_obj env obj s
    = bind (get_object obj)
        (fun o0 => bind (export_scene_gltf env
                           (path_join env (pathToFile (props s))
                                      (name o0 ++ ".glb")%string))
                     (fun _ => bind (objects_remove (plane_handle s))
                                 (fun _ => for_each (light_handles s) objects_remove)))
        (staged env obj o mn mx out s)).
  { unfold export_obj.
    rewrite (bind_ok _ _ _ _ _ Hsuns).
    rewrite (bind_ok _ _ _ _ _ Hplane).
    rewrite bind_select_all_deselect by exact Hm.
    erewrite bind_select_set;
      [ | cbn [objects set_objects]; apply lookup_map_old;
          apply (after_shadow_plane_lookup env s1 obj o mn out Hwf1)
        | rewrite deselect_linked; apply baked_plane_linked ].
    erewrite bind_select_set;
      [ | cbn [objects set_objects];
          rewrite lookup_replace_other by (unfold plane_handle; lia);
          apply lookup_map_old;
          apply (after_shadow_plane_target env s1 obj o mn out Ho1)
        | rewrite deselect_linked; cbn [linked set_hide_render];
          rewrite hidden_linked, settled_linked; exact Hl ].
    rewrite bind_gets.
    reflexivity. }
  destruct (staged_old out obj o Ho) as (o3 & Ho3 & Hbody).
  assert (Hname : name o3 = name o) by apply Hbody.
  split; intros Hexp.
  - rewrite Hprefix.
    rewrite (bind_get_object _ _ _ _ Ho3). rewrite Hname.
    fold (glb_path env s o).
    rewrite (bind_export_ok _ _ _ Hexp).
    destruct (staged_plane out) as (pl & Hpl).
    erewrite bind_ok by (apply (objects_remove_run _ _ pl); exact Hpl).
    rewrite for_each_remove_run.
    + reflexivity.
    + apply light_handles_NoDup.
    + intros h Hh. unfold handles, without, with_file. cbn [objects].
      rewrite (handles_filter (fun a => negb (removed [plane_handle s] a))).
      apply filter_In. split.
      * fold (handles (staged env obj o mn mx out s)). rewrite staged_handles.
        apply in_or_app. right. apply in_or_app. left. exact Hh.
      * rewrite removed_single. apply negb_true_iff, Nat.eqb_neq.
        apply light_handles_spec in Hh. unfold plane_handle. lia.
  - rewrite Hprefix.
    rewrite (bind_get_object _ _ _ _ Ho3). rewrite Hname.
    fold (glb_path env s o).
    rewrite (bind_export_fails _ _ _ Hexp). reflexivity.
Qed.

Lemma exported_handles (px : list Q) :
  handles (exported env obj o mn mx px s) = handles s.
Proof.
  unfold exported, handles, without, with_file. cbn [objects].
  rewrite (handles_filter (fun a => negb (removed (light_handles s) a))).
  rewrite (handles_filter (fun a => negb (removed [plane_handle s] a))).
  fold (handles (staged env obj o mn mx px s)). rewrite staged_handles.
  rewrite !filter_app.
  assert (Hold : forall hs, (forall h, In h hs -> (next_handle s <= h)%nat) ->
            filter (fun a => negb (removed hs a)) (handles s) = handles s).
  { intros hs Hhs. apply forallb_filter_id. apply forallb_forall. intros h Hh.
    apply negb_true_iff, removed_not_In. intros Hin. apply Hhs in Hin.
    unfold handles in Hh. apply in_map_iff in Hh. destruct Hh as (p & <- & Hp).
    specialize (Hwf p Hp). lia. }
  rewrite (Hold [plane_handle s])
    by (intros h [<- | []]; unfold plane_handle; lia).
  rewrite Hold by (intros h Hh; apply light_handles_spec in Hh; lia).
  cbn [filter]. rewrite removed_single, Nat.eqb_refl. cbn [negb].
  rewrite app_nil_r.
  assert (Hl1 : filter (fun a => negb (removed [plane_handle s] a)) (light_handles s)
                = light_handles s).
  { apply forallb_filter_id. apply forallb_forall. intros h Hh.
    rewrite removed_single. apply negb_true_iff, Nat.eqb_neq.
    apply light_handles_spec in Hh. unfold plane_handle. lia. }
  rewrite Hl1.
  assert (Hl2 : filter (fun a => negb (removed (light_handles s) a)) (light_handles s)
                = []).
  { assert (Hgen : forall L, (forall h, In h L -> In h (light_handles s)) ->
               filter (fun a => negb (removed (light_handles s) a)) L = []).
    { induction L as [|h L IH]; intros Hall; [reflexivity|].
      cbn [filter].
      assert (E : removed (light_handles s) h = true)
        by (apply removed_In, Hall; left; reflexivity).
      rewrite E. cbn [negb]. apply IH. intros h' Hh'. apply Hall. right. exact Hh'. }
    apply Hgen. auto. }
  rewrite Hl2. apply app_nil_r.
Qed.

Lemma exported_keeps (px : list Q) :
  keeps_objects s (exported env obj o mn mx px s).
Proof.
  intros h x Hx.
  destruct (staged_old px h x Hx) as (x' & Hx' & Hbody).
  exists x'. split; [|exact Hbody].
  assert (Hlt : (h < next_handle s)%nat) by exact (wf_lookup_lt _ _ _ Hwf Hx).
  unfold exported, without, with_file. cbn [objects].
  rewrite (lookup_filter_keep (fun a => negb (removed (light_handles s) a))).
  - rewrite (lookup_filter_keep (fun a => negb (removed [plane_handle s] a))).
    + exact Hx'.
    + rewrite removed_single. apply negb_true_iff, Nat.eqb_neq.
      unfold plane_handle. lia.
  - apply negb_true_iff, removed_not_In. intros Hin.
    apply light_handles_spec in Hin. lia.
Qed.

Lemma exported_wf (px : list Q) : wf_scene (exported env obj o mn mx px s).
Proof.
  intros p Hp. apply (in_map fst) in Hp.
  fold (handles (exported env obj o mn mx px s)) in Hp.
  rewrite exported_handles in Hp.
  unfold handles in Hp. apply in_map_iff in Hp. destruct Hp as (q & E & Hq).
  specialize (Hwf q Hq). rewrite <- E.
  assert (Enext : next_handle (exported env obj o mn mx px s)
                  = S (plane_handle s)) by reflexivity.
  rewrite Enext. unfold plane_handle. lia.
Qed.

End ExportObj.

(* ================================================================== *)
(** ** The order of the loop does not matter *)

Section LoopOrder.

Lemma channel_app_done (done rest : list Q) (k m c : nat) :
  length done = (4 * k)%nat -> (c < 4)%nat ->
  channel (done ++ rest) m c
  = if (m <? k)%nat then channel done m c else channel rest (m - k) c.
Proof.
  intros Hlen Hc. unfold channel.
  destruct (m <? k)%nat eqn:E.
  - apply Nat.ltb_lt in E. apply app_nth1. lia.
  - apply Nat.ltb_ge in E. rewrite app_nth2 by lia. f_equal. lia.
Qed.

(** One turn of the loop on pixel [k]: that pixel is rewritten from its own
    colours, every other pixel is kept. *)
Lemma binarize_step_channels (p : list Q) (k : nat) :
  (4 * k + 4 <= length p)%nat ->
  exists q,
    binarize_step p (4 * k) = Ok q /\
    length q = length p /\
    forall m c, (c < 4)%nat ->
      channel q m c
      = if (m =? k)%nat
        then binarized_channel (channel p k 0) (channel p k 1) (channel p k 2) c
        else channel p m c.
Proof.
  intros Hlen.
  pose proof (firstn_skipn (4 * k) p) as Hsplit.
  assert (Hdone : length (firstn (4 * k) p) = (4 * k)%nat)
    by (rewrite length_firstn; lia).
  assert (Htail : (4 <= length (skipn (4 * k) p))%nat)
    by (rewrite length_skipn; lia).
  set (done := firstn (4 * k) p) in *.
  destruct (skipn (4 * k) p) as [|r [|g [|b [|a rest]]]];
    simpl in Htail; try lia.
  exists (done ++ binarize_pixel r g b a ++ rest).
  split; [|split].
  - rewrite <- Hsplit. rewrite <- Hdone. apply binarize_step_chunk.
  - rewrite <- Hsplit. rewrite !length_app. simpl. lia.
  - intros m c Hc.
    assert (Hk : forall c', (c' < 4)%nat ->
              channel p k c' = channel (r :: g :: b :: a :: rest) 0 c').
    { intros c' Hc'. rewrite <- Hsplit.
      rewrite (channel_app_done done _ k k c' Hdone Hc').
      rewrite Nat.ltb_irrefl, Nat.sub_diag. reflexivity. }
    rewrite (Hk 0%nat), (Hk 1%nat), (Hk 2%nat) by lia.
    rewrite <- Hsplit.
    rewrite !(channel_app_done done _ k m c Hdone Hc).
    destruct (m <? k)%nat eqn:Elt.
    + apply Nat.ltb_lt in Elt.
      assert (E : (m =? k)%nat = false) by (apply Nat.eqb_neq; lia).
      rewrite E. reflexivity.
    + apply Nat.ltb_ge in Elt.
      destruct (m =? k)%nat eqn:E.
      * apply Nat.eqb_eq in E. subst m. rewrite Nat.sub_diag.
        destruct c as [|[|[|[|c]]]]; try lia; reflexivity.
      * apply Nat.eqb_neq in E.
        destruct (m - k)%nat as [|d] eqn:Ed; [lia|].
        unfold binarize_pixel. cbn [app]. rewrite !channel_skip4. reflexivity.
Qed.

(** The loop over any sequence of distinct pixels rewrites exactly those. *)
Lemma binarize_over_channels (n : nat) (ks : list nat) :
  forall p,
    length p = (4 * n)%nat ->
    NoDup ks ->
    (forall k, In k ks -> (k < n)%nat) ->
    exists q,
      binarize_over (map (fun k => 4 * k)%nat ks) p = Ok q /\
      length q = (4 * n)%nat /\
      forall m c, (c < 4)%nat ->
        channel q m c
        = if existsb (Nat.eqb m) ks
          then binarized_channel (channel p m 0) (channel p m 1) (channel p m 2) c
          else channel p m c.
Proof.
  induction ks as [|k ks IH]; intros p Hlen Hnd Hin.
  - exists p. split; [reflexivity|]. split; [exact Hlen|]. reflexivity.
  - destruct (binarize_step_channels p k) as (p1 & Hstep & Hlen1 & Hch1).
    { specialize (Hin k (or_introl eq_refl)). lia. }
    inversion Hnd as [|k' ks' Hnotin Hnd']; subst.
    destruct (IH p1) as (q & Hrun & Hlenq & Hchq).
    { lia. }
    { exact Hnd'. }
    { intros k' Hk'. apply Hin. right. exact Hk'. }
    exists q. split; [|split; [exact Hlenq|]].
    + unfold binarize_over in *. cbn [map fold_left res_bind].
      rewrite Hstep. exact Hrun.
    + intros m c Hc. rewrite (Hchq m c Hc). cbn [existsb].
      destruct (existsb (Nat.eqb m) ks) eqn:Ein.
      * assert (Hmk : (m =? k)%nat = false).
        { apply Nat.eqb_neq. intros ->. apply Hnotin.
          apply existsb_exists in Ein. destruct Ein as (x & Hx & E).
          apply Nat.eqb_eq in E. subst. exact Hx. }
        rewrite Hmk, orb_true_r.
        rewrite !Hch1 by lia. rewrite Hmk. reflexivity.
      * rewrite orb_false_r, (Hch1 m c Hc).
        destruct (m =? k)%nat eqn:E; [|reflexivity].
        apply Nat.eqb_eq in E. subst m. reflexivity.
Qed.

Lemma channels_ext (n : nat) (q1 q2 : list Q) :
  length q1 = (4 * n)%nat -> length q2 = (4 * n)%nat ->
  (forall m c, (c < 4)%nat -> channel q1 m c = channel q2 m c) ->
  q1 = q2.
Proof.
  intros H1 H2 Hch. apply (nth_ext q1 q2 0 0); [lia|].
  intros j Hj.
  specialize (Hch (j / 4)%nat (j mod 4)%nat (Nat.mod_upper_bound j 4 ltac:(lia))).
  unfold channel in Hch. rewrite <- Nat.div_mod_eq in Hch. exact Hch.
Qed.

(** Any order of the turns gives the result of the loop. *)
Lemma binarize_any_order (n : nat) (pixels : list Q) (ks : list nat) :
  length pixels = (4 * n)%nat ->
  Permutation ks (seq 0 n) ->
  binarize_over (map (fun k => 4 * k)%nat ks) pixels = binarize pixels.
Proof.
  intros Hlen Hperm.
  assert (Hcount : ((length pixels + 3) / 4 = n)%nat).
  { rewrite Hlen. replace (4 * n + 3)%nat with (3 + n * 4)%nat by lia.
    rewrite Nat.div_add by lia. reflexivity. }
  destruct (binarize_over_channels n ks pixels Hlen) as (q1 & Hq1 & Hl1 & Hc1).
  { apply (Permutation_NoDup (Permutation_sym Hperm)). apply seq_NoDup. }
  { intros k Hk. apply (Permutation_in _ Hperm) in Hk. apply in_seq in Hk. lia. }
  destruct (binarize_over_channels n (seq 0 n) pixels Hlen) as (q2 & Hq2 & Hl2 & Hc2).
  { apply seq_NoDup. }
  { intros k Hk. apply in_seq in Hk. lia. }
  unfold binarize, range4. rewrite Hcount, Hq1, Hq2. f_equal.
  apply (channels_ext n); [exact Hl1 | exact Hl2 |].
  intros m c Hc. rewrite (Hc1 m c Hc), (Hc2 m c Hc).
  assert (E : existsb (Nat.eqb m) ks = existsb (Nat.eqb m) (seq 0 n)).
  { destruct (existsb (Nat.eqb m) (seq 0 n)) eqn:E2.
    - apply existsb_exists in E2. destruct E2 as (x & Hx & Ex).
      apply existsb_exists. exists x. split; [|exact Ex].
      apply (Permutation_in _ (Permutation_sym Hperm)). exact Hx.
    - destruct (existsb (Nat.eqb m) ks) eqn:E1; [|reflexivity].
      apply existsb_exists in E1. destruct E1 as (x & Hx & Ex).
      assert (Hin : existsb (Nat.eqb m) (seq 0 n) = true).
      { apply existsb_exists. exists x. split; [|exact Ex].
        apply (Permutation_in _ Hperm). exact Hx. }
      congruence. }
  rewrite E. reflexivity.
Qed.

End LoopOrder.

(* ================================================================== *)
(** * The post-processed image *)

(** C1.  On every image (a buffer of [n] whole pixels) the post-processing
    loop returns; it keeps the size, sets the three colour channels of
    every pixel to 0 and its alpha to [1 - max(r, g, b)] of that pixel's
    input colours, where [max] is the greatest of the three; the alpha lies
    in [0,1] when the input colours do; the output pixel is the same for
    any other image of that size with the same colours at that pixel; and
    taking the pixels in any other order gives the same image. *)
Theorem binarize_pointwise (pixels : list Q) (n : nat) :
  length pixels = (4 * n)%nat ->
  exists out,
    binarize pixels = Ok out /\
    length out = (4 * n)%nat /\
    (forall k, (k < n)%nat ->
      let r := channel pixels k 0 in
      let g := channel pixels k 1 in
      let b := channel pixels k 2 in
      channel out k 0 = 0 /\ channel out k 1 = 0 /\ channel out k 2 = 0 /\
      channel out k 3 = 1 - max3 r g b /\
      max3 r g b == Qmax (Qmax r g) b /\
      (0 <= r <= 1 -> 0 <= g <= 1 -> 0 <= b <= 1 -> 0 <= channel out k 3 <= 1) /\
      (forall pixels' out',
          length pixels' = (4 * n)%nat ->
          binarize pixels' = Ok out' ->
          (forall c, (c < 3)%nat -> channel pixels' k c = channel pixels k c) ->
          forall c, (c < 4)%nat -> channel out' k c = channel out k c)) /\
    (forall ks, Permutation ks (seq 0 n) ->
                binarize_over (map (fun k => 4 * k)%nat ks) pixels = Ok out).
Proof.
  intros Hlen.
  destruct (binarize_chunks_channels n pixels Hlen) as (out & Hout & Hlout & Hch).
  exists out. rewrite binarize_chunks_ok. split; [exact Hout|]. split; [exact Hlout|].
  split.
  2:{ intros ks Hperm. rewrite (binarize_any_order n pixels ks Hlen Hperm).
      rewrite binarize_chunks_ok. exact Hout. }
  intros k Hk r g b. destruct (Hch k Hk) as (H0 & H1 & H2 & H3).
  split; [exact H0|]. split; [exact H1|]. split; [exact H2|]. split; [exact H3|].
  split; [apply max3_Qmax|].
  split.
  { intros Hr Hg Hb. rewrite H3. apply alpha_range; assumption. }
  intros pixels' out' Hlen' Hout' Hsame c Hc.
  rewrite binarize_chunks_ok in Hout'.
  destruct (binarize_chunks_channels n pixels' Hlen') as (out2 & Hout2 & _ & Hch').
  rewrite Hout2 in Hout'. injection Hout' as <-.
  destruct (Hch' k Hk) as (H0' & H1' & H2' & H3').
  destruct c as [|[|[|[|c]]]]; try lia.
  - rewrite H0, H0'. reflexivity.
  - rewrite H1, H1'. reflexivity.
  - rewrite H2, H2'. reflexivity.
  - rewrite H3, H3'. rewrite !Hsame by lia. reflexivity.
Qed.

Lemma binarize_pointwise_witness :
  exists out,
    binarize [0.9; 0.9; 0.9; 1; 0; 0; 0; 1] = Ok out /\
    length out = 8%nat /\
    binarize_over [4; 0]%nat [0.9; 0.9; 0.9; 1; 0; 0; 0; 1] = Ok out.
Proof.
  destruct (binarize_pointwise [0.9; 0.9; 0.9; 1; 0; 0; 0; 1] 2 eq_refl)
    as (out & Hrun & Hlen & _ & Horder).
  exists out. split; [exact Hrun|]. split; [exact Hlen|].
  apply (Horder [1; 0]%nat). apply perm_swap.
Defined.

(** C6.  On an image all of whose pixels are (0,0,0,1) or what the
    post-processing makes of (1,1,1,1), a second pass returns the image the
    first pass returned. *)
Theorem binarize_twice_on_binary (pixels : list Q) :
  all_pixels binary_pixel pixels ->
  exists out, binarize pixels = Ok out /\ binarize out = Ok out.
Proof.
  intros Hbin.
  destruct (binarize_chunks_binary (length pixels) pixels (Nat.le_refl _) Hbin)
    as (out & Hout & Hblack).
  exists out. rewrite !binarize_chunks_ok. split; [exact Hout|].
  apply (binarize_chunks_black (length out)); [apply Nat.le_refl | exact Hblack].
Qed.

Lemma binarize_twice_on_binary_witness :
  exists out,
    binarize ([0; 0; 0; 1] ++ binarize_pixel 1 1 1 1) = Ok out /\
    binarize out = Ok out.
Proof.
  apply (binarize_twice_on_binary ([0; 0; 0; 1] ++ binarize_pixel 1 1 1 1)).
  simpl. split; [left; reflexivity|]. split; [right; reflexivity | exact I].
Defined.

(** C10.  Two images of the same size with the same colour channels at
    every pixel are post-processed alike, whatever their alpha channels. *)
Theorem binarize_ignores_alpha (p q : list Q) :
  length p = length q ->
  (forall k c, (c < 3)%nat -> channel p k c = channel q k c) ->
  binarize p = binarize q.
Proof.
  intros Hlen Hrgb. rewrite !binarize_chunks_ok.
  apply (binarize_chunks_alpha (length p)); [apply Nat.le_refl | exact Hlen | exact Hrgb].
Qed.

Lemma binarize_ignores_alpha_witness :
  binarize [0.5; 0.2; 0.1; 1; 0.3; 0.3; 0.3; 0.25]
  = binarize [0.5; 0.2; 0.1; 0; 0.3; 0.3; 0.3; 0.75].
Proof.
  apply binarize_ignores_alpha.
  - reflexivity.
  - intros k c Hc.
    destruct k as [|[|k]]; destruct c as [|[|[|c]]]; try lia; try reflexivity;
      unfold channel; rewrite !nth_overflow by (simpl; lia); reflexivity.
Defined.

(* ================================================================== *)
(** * The side length of the shadow plane *)

Lemma side_len_of_pos (radius : Q) :
  0 < radius * 4.0 -> side_len_of radius = radius * 4.0.
Proof.
  intros H. unfold side_len_of.
  destruct (Qle_bool (radius * 4.0) 0.0) eqn:E; [|reflexivity].
  apply Qle_bool_iff in E. lra.
Qed.

Lemma side_len_of_nonpos (radius : Q) :
  radius * 4.0 <= 0 -> side_len_of radius = 1.0.
Proof.
  intros H. unfold side_len_of.
  destruct (Qle_bool (radius * 4.0) 0.0) eqn:E; [reflexivity|].
  assert (Hle : Qle_bool (radius * 4.0) 0.0 = true) by (apply Qle_bool_iff; lra).
  congruence.
Qed.

(** C2, as the code has it.  The estimated radius is 1.2 times the greatest
    of the three dimensions.  The side length handed to [create_plane_at]
    is four times that radius when this is positive and 1.0 otherwise; so
    it is always positive, and it is [max(4 * radius, 1.0)] as soon as
    [4 * radius] is at least 1. *)
Theorem side_length_of_plane (o : Object) :
  let dims := dimensions o in
  let radius := compute_radius_from_dimensions o in
  let side := side_len_of radius in
  radius == 1.2 * Qmax (Qmax (vx dims) (vy dims)) (vz dims) /\
  (0 < 4 * radius -> side == 4 * radius) /\
  (4 * radius <= 0 -> side == 1.0) /\
  (1.0 <= 4 * radius -> side == Qmax (4 * radius) 1.0) /\
  0 < side.
Proof.
  intros dims radius side.
  split.
  { unfold radius, compute_radius_from_dimensions. fold dims.
    rewrite max3_Qmax. ring. }
  assert (Hpos : 0 < 4 * radius -> side == 4 * radius).
  { intros H. unfold side. rewrite side_len_of_pos by lra. ring. }
  assert (Hneg : 4 * radius <= 0 -> side == 1.0).
  { intros H. unfold side. rewrite side_len_of_nonpos by lra. reflexivity. }
  split; [exact Hpos|]. split; [exact Hneg|].
  split.
  - intros H. rewrite Hpos by lra.
    destruct (Q.max_spec (4 * radius) 1.0) as [[Hlt E] | [Hle E]]; rewrite E; lra.
  - destruct (Qlt_le_dec 0 (4 * radius)) as [H | H].
    + rewrite (Hpos H). exact H.
    + rewrite (Hneg H). reflexivity.
Qed.

(** C2 as stated fails: a mesh of 10 cm in every direction gets a side
    length of 0.48, not [max(0.48, 1.0) = 1.0]. *)
Lemma side_length_below_one :
  let radius := compute_radius_from_dimensions Samples.pebble in
  side_len_of radius == 0.48 /\
  Qmax (4 * radius) 1.0 == 1.0 /\
  ~ side_len_of radius == Qmax (4 * radius) 1.0.
Proof.
  cbv zeta. split; [vm_compute; reflexivity|].
  split; [vm_compute; reflexivity|].
  intros H. vm_compute in H. discriminate H.
Qed.

(* ================================================================== *)
(** * Pivot relocation on something that is not a mesh *)

(** C8 at an absent object: the guard of [fix_origin] reads [obj.type]
    first, so the call raises instead of returning. *)
Theorem fix_origin_absent_raises (env : Env) (s : Scene) :
  fix_origin env None s = (Raise AttributeError, s).
Proof. reflexivity. Qed.

(** On an object that is not a mesh the call returns and changes nothing. *)
Lemma fix_origin_not_mesh (env : Env) (s : Scene) (h : nat) (o : Object) :
  lookup h (objects s) = Some o ->
  (type o =? "MESH")%string = false ->
  fix_origin env (Some h) s = (Ok tt, s).
Proof.
  intros Ho Ht. unfold fix_origin, deref. rewrite bind_ret.
  rewrite (bind_get_object _ _ _ _ Ho). rewrite Ht. reflexivity.
Qed.

(* ================================================================== *)
(** * Where the plane is put *)

Section PlanePlacement.

Variable env : Env.

Lemma shadow_plane_location (o : Object) (side mn : Q) (c : Vec3) :
  location (shadow_plane env o side mn c)
  = vec3 (vx (translation (matrix_world o))) (vy (translation (matrix_world o))) mn.
Proof. reflexivity. Qed.

Lemma location_set_hide_render (v : bool) (x : Object) :
  location (set_hide_render v x) = location x.
Proof. destruct x; reflexivity. Qed.

Lemma location_set_data (d : ObData) (x : Object) :
  location (set_data d x) = location x.
Proof. destruct x; reflexivity. Qed.

Lemma baked_plane_body (o : Object) (mn : Q) (c : Vec3) (mat : nat) :
  location (baked_plane env o mn c mat)
  = vec3 (vx (translation (matrix_world o))) (vy (translation (matrix_world o))) mn.
Proof.
  unfold baked_plane, with_material.
  destruct (shadow_plane_data env o (side_len_of (compute_radius_from_dimensions o))
              mn c) as (vs & Hvs).
  rewrite Hvs.
  assert (Hh : same_body
                 (set_data (MeshData vs [mat])
                    (shadow_plane env o
                       (side_len_of (compute_radius_from_dimensions o)) mn c))
                 (hidden
                    (set_data (MeshData vs [mat])
                       (shadow_plane env o
                          (side_len_of (compute_radius_from_dimensions o)) mn c))))
    by apply hidden_body.
  destruct Hh as (_ & _ & Hloc & _).
  rewrite location_set_hide_render, Hloc, location_set_data.
  apply shadow_plane_location.
Qed.

Lemma bind_update_image_last {B} (f : Image -> Image) (k : unit -> M B) s imgs im :
  images s = imgs ++ [im] ->
  bind (update_image (length imgs) f) k s
  = k tt (set_images (imgs ++ [f im]) s).
Proof.
  intros Himgs. unfold update_image. rewrite bind_assoc.
  erewrite bind_get_image by (rewrite Himgs; apply nth_error_last).
  rewrite bind_modify, Himgs, update_last. reflexivity.
Qed.

Lemma settled_bound_box (o : Object) : bound_box (settled env o) = bound_box o.
Proof. apply settled_body. Qed.

(** The render settings of the bake operator, on a host that offers the
    OptiX denoiser. *)
Lemma bind_bake_settings {B} (k : unit -> M B) (s : Scene) :
  denoiser_offered env "OPTIX" = true ->
  bind (update_render (set_engine "CYCLES"))
    (fun _ =>
       bind (update_render (set_engine "CYCLES"))
         (fun _ =>
            bind (update_render (set_device "GPU"))
              (fun _ =>
                 bind (update_render (set_bake_type "SHADOW"))
                   (fun _ =>
                      bind (assign_denoiser env "OPTIX")
                        (fun _ => bind (update_render (set_samples 64)) k)))))
    s
  = k tt (set_render (mkRender "CYCLES" "SHADOW" "GPU" "OPTIX" 64
                               (use_selected_to_active (render s))) s).
Proof.
  intros Hoptix. unfold assign_denoiser. rewrite Hoptix. reflexivity.
Qed.

(** [OBJECT_OT_bake_shadow_texture.execute] up to the call of the renderer:
    the plane is in the scene, the image is the one created last. *)
Lemma bake_operator_prefix (s : Scene) (sel : nat) (o : Object) (mn mx : Q) :
  wf_scene s ->
  mode s = "OBJECT"%string ->
  denoiser_offered env "OPTIX" = true ->
  active_object s = Some sel ->
  lookup sel (objects s) = Some o ->
  type o = "MESH"%string ->
  bbox_min_max_z o = Ok (mn, mx) ->
  (0 < numLights (props s))%Z ->
  exists st p im,
    bake_shadow_texture_execute env s
    = bind (object_bake env (length (images s)))
        (fun _ =>
           bind (postprocess (length (images s)))
             (fun _ =>
                bind (update_image (length (images s))
                        (fun im => mkImage (img_name im) (img_size im)
                                     (img_pixels im)
                                     (path_join env (blend_dir env) "baked_shadow.png")
                                     "PNG"))
                  (fun _ =>
                     bind (image_save env (length (images s)))
                       (fun _ =>
                          bind (report "INFO"
                                  ("Baked shadow saved to: "
                                   ++ path_join env (blend_dir env)
                                        "baked_shadow.png")%string)
                            (fun _ => ret FINISHED)))))
        st /\
    images st = images s ++ [im] /\
    lookup (next_handle s) (objects st) = Some p /\
    location p
    = vec3 (vx (translation (matrix_world o)))
           (vy (translation (matrix_world o))) mn.
Proof.
  intros Hwf Hm Hoptix Hact Ho Ht Hbb Hn.
  assert (Hne : sel <> next_handle s)
    by (pose proof (wf_lookup_lt _ _ _ Hwf Ho); lia).
  destruct (shadow_plane_data env o (side_len_of (compute_radius_from_dimensions o))
              mn (cursor_location s)) as (vs & Hvs).
  assert (Hbox : bound_box (settled env o) <> []).
  { rewrite settled_bound_box. intros E. unfold bbox_min_max_z, world_bbox_corners in Hbb.
    rewrite E in Hbb. discriminate Hbb. }
  destruct (bbox_min_max_z_ok (settled env o) Hbox) as (mn' & mx' & Hbb' & _).
  set (plane := set_data (MeshData vs [length (materials s)])
                  (shadow_plane env o (side_len_of (compute_radius_from_dimensions o))
                                mn (cursor_location s))).
  set (P3 := mkScene
               (map (fun p => (fst p, settled env (snd p))) (objects s)
                ++ [(next_handle s, plane)])
               (S (next_handle s))
               (images s
                ++ [mkImage (name o ++ "_shadow_tex")%string (128%nat, 128%nat)
                            white_pixels "" "TARGA"])
               (materials s
                ++ [shadow_material
                      (mkImage (name o ++ "_shadow_tex")%string (128%nat, 128%nat)
                               white_pixels "" "TARGA")
                      (length (images s))])
               (cursor_location s) (mode s) (Some (next_handle s))
               (mkRender "CYCLES" "SHADOW" "GPU" "OPTIX" 64
                         (use_selected_to_active (render s)))
               (props s) (random_calls s) (files s) (reports s)).
  assert (Hwf3 : wf_scene P3).
  { intros q Hq. unfold P3 in *. cbn [objects next_handle] in *.
    apply in_app_or in Hq. destruct Hq as [Hq | [<- | []]].
    - apply in_map_iff in Hq. destruct Hq as (q0 & <- & Hq0).
      specialize (Hwf q0 Hq0). simpl. lia.
    - simpl. lia. }
  assert (Ho3 : lookup sel (objects P3) = Some (settled env o)).
  { unfold P3. cbn [objects]. apply lookup_app_old, lookup_map_old. exact Ho. }
  exists (with_suns env (settled env o) 1.0 mx' P3 (light_count P3)).
  exists plane. eexists.
  split; [|split; [|split]].
  - unfold bake_shadow_texture_execute. rewrite bind_gets, Hact.
    rewrite (bind_get_object _ _ _ _ Ho). rewrite Ht.
    cbn [String.eqb Ascii.eqb Bool.eqb negb].
    rewrite bind_bake_settings by exact Hoptix. mget.
    erewrite bind_ok
      by (apply (create_plane_at_run env _ sel o _ mn mx);
          [ exact Hwf | exact Hm | exact Ho | exact Hbb ]).
    sc. mget. rewrite bind_create_image. fold white_pixels. sc.
    erewrite bind_ensure_material
      by (sc; first [ apply nth_error_last | lk | exact Hvs ]).
    sc. rewrite replace_fresh by fr. rewrite settled_name.
    fold plane. fold P3.
    rewrite (bind_ok _ _ _ _ _
               (create_x_suns_around_run env P3 sel (settled env o) 1.0 mn' mx'
                  Hwf3 Ho3 Hbb' Hn)).
    reflexivity.
  - reflexivity.
  - unfold with_suns, P3. cbn [objects]. apply lookup_app_old.
    apply lookup_fresh. apply fresh_map. apply wf_fresh. exact Hwf.
  - unfold plane. rewrite location_set_data. apply shadow_plane_location.
Qed.

(** The plane of the bake operator. *)
Lemma bake_operator_plane (s : Scene) (sel : nat) (o : Object) (mn mx : Q) :
  wf_scene s ->
  mode s = "OBJECT"%string ->
  denoiser_offered env "OPTIX" = true ->
  writable env (path_join env (blend_dir env) "baked_shadow.png") = true ->
  active_object s = Some sel ->
  lookup sel (objects s) = Some o ->
  type o = "MESH"%string ->
  bbox_min_max_z o = Ok (mn, mx) ->
  (0 < numLights (props s))%Z ->
  bake_succeeds env ->
  exists s' p,
    bake_shadow_texture_execute env s = (Ok FINISHED, s') /\
    lookup (next_handle s) (objects s') = Some p /\
    location p
    = vec3 (vx (translation (matrix_world o)))
           (vy (translation (matrix_world o))) mn.
Proof.
  intros Hwf Hm Hoptix Hsave Hact Ho Ht Hbb Hn Hbake.
  destruct (bake_operator_prefix s sel o mn mx Hwf Hm Hoptix Hact Ho Ht Hbb Hn)
    as (st & p & im & Hrun & Himgs & Hp & Hloc).
  destruct (Hbake st (length (images s))) as (px & npx & Hpx & Hlen).
  destruct (binarize_total px npx Hlen) as (out & Hout & Hlout).
  eexists. exists p. split; [|split; [|exact Hloc]].
  - rewrite Hrun.
    erewrite bind_object_bake_last by (first [ exact Himgs | exact Hpx ]).
    erewrite bind_postprocess_last
      by (first [ reflexivity | exact Hout | exact Hlout ]).
    erewrite bind_update_image_last by reflexivity.
    unfold image_save. rewrite bind_assoc.
    erewrite bind_get_image by (cbn [images set_images]; apply nth_error_last).
    cbn [filepath_raw]. rewrite Hsave.
    unfold report. rewrite !bind_modify. reflexivity.
  - cbn [objects set_reports set_files set_images]. exact Hp.
Qed.

(** C7.  In object mode, the plane [create_plane_at] creates for an object
    lies at the X and Y of the translation of the object's world matrix
    (what the code calls the object's world centre) and at the height [mn],
    the least of the world heights of the corners of the object's bounding
    box: the third row of the world matrix applied to each local corner
    (x, y, z, 1).  So does the plane [make_shadow_plane] returns when
    the renderer works, and the plane the bake operator leaves in the scene
    for the active object when, besides, the host offers the OptiX denoiser
    and can write the image file. *)
Theorem plane_sits_at_feet (s : Scene) (obj : nat) (o : Object) (side : Q) :
  wf_scene s ->
  mode s = "OBJECT"%string ->
  lookup obj (objects s) = Some o ->
  bound_box o <> [] ->
  exists mn,
    let feet := vec3 (vx (translation (matrix_world o)))
                     (vy (translation (matrix_world o))) mn in
    is_min mn (map (world_z o) (bound_box o)) /\
    (exists s' p,
        create_plane_at env obj side s = (Ok (next_handle s), s') /\
        lookup (next_handle s) (objects s') = Some p /\
        location p = feet) /\
    (type o = "MESH"%string -> bake_succeeds env ->
     exists s' p,
        make_shadow_plane env obj s = (Ok (next_handle s), s') /\
        lookup (next_handle s) (objects s') = Some p /\
        location p = feet) /\
    (type o = "MESH"%string -> bake_succeeds env ->
     denoiser_offered env "OPTIX" = true ->
     writable env (path_join env (blend_dir env) "baked_shadow.png") = true ->
     active_object s = Some obj -> (0 < numLights (props s))%Z ->
     exists s' p,
        bake_shadow_texture_execute env s = (Ok FINISHED, s') /\
        lookup (next_handle s) (objects s') = Some p /\
        location p = feet).
Proof.
  intros Hwf Hm Ho Hne.
  destruct (bbox_min_max_z_ok o Hne) as (mn & mx & Hbb & Hmin & _).
  exists mn. cbv zeta. split; [exact Hmin|]. split; [|split].
  - eexists. eexists.
    split; [apply (create_plane_at_run env s obj o side mn mx Hwf Hm Ho Hbb)|].
    split.
    + cbn [objects]. apply lookup_fresh. apply fresh_map. apply wf_fresh. exact Hwf.
    + apply shadow_plane_location.
  - intros Ht Hbake.
    destruct (make_shadow_plane_run env s obj o mn mx Hwf Hm Ho Ht Hbb Hbake)
      as (px & out & _ & _ & Hrun).
    eexists. eexists. split; [exact Hrun|]. split.
    + apply after_shadow_plane_lookup. exact Hwf.
    + apply baked_plane_body.
  - intros Ht Hbake Hoptix Hsave Hact Hn.
    exact (bake_operator_plane s obj o mn mx Hwf Hm Hoptix Hsave Hact Ho Ht Hbb
             Hn Hbake).
Qed.

End PlanePlacement.

(* ================================================================== *)
(** * The light ring *)

Section LightRing.

Variable env : Env.

Lemma jitter_bound (st u : Q) :
  0 <= st -> 0 <= u -> u < 1 ->
  Qabs (- st / 4 + (st / 4 - - st / 4) * u) <= st / 4.
Proof.
  intros Hst Hu Hu1.
  assert (Hq : 0 <= st / 4) by (apply Qle_shift_div_l; lra).
  set (q := st / 4) in *.
  assert (H0 : 0 <= q * u) by (apply Qmult_le_0_compat; assumption).
  assert (H1 : 0 <= q * (1 - u)) by (apply Qmult_le_0_compat; lra).
  assert (E1 : q * (1 - u) == q - q * u) by ring.
  rewrite E1 in H1.
  assert (E2 : - st / 4 + (q - - st / 4) * u == 2 * (q * u) - q)
    by (unfold q; field).
  rewrite E2. apply Qabs_Qle_condition.
  set (p := q * u) in *. split; lra.
Qed.

Lemma angle_step_pos (n : Z) :
  (1 <= n)%Z ->
  0 < 360 / inject_Z n /\ 360 / (4 * inject_Z n) == (360 / inject_Z n) / 4.
Proof.
  intros Hn. assert (Hpos : 0 < inject_Z n).
  { change 0 with (inject_Z 0). rewrite <- Zlt_Qlt. lia. }
  split.
  - apply Qlt_shift_div_l; lra.
  - field. lra.
Qed.

Lemma footprint_max (o : Object) :
  footprint o == Qmax (vx (dimensions o)) (vy (dimensions o)).
Proof.
  unfold footprint.
  destruct (Qltb (vy (dimensions o)) (vx (dimensions o))) eqn:E;
    [apply Qltb_true in E | apply Qltb_false in E];
    destruct (Q.max_spec (vx (dimensions o)) (vy (dimensions o)))
      as [[H1 H2] | [H1 H2]]; rewrite H2; lra.
Qed.

Lemma sun_object_location (o : Object) (pr : Props) (i : nat) (at_ : Vec3) :
  location (sun_object env o pr i at_) = at_.
Proof. reflexivity. Qed.

(** C5.  With [N] lights, [1 <= N <= 16], [create_x_suns_around] returns
    [N] lights.  Light [i] stands at the azimuth [az] degrees with
    [az = i * 360/N] when the lights are symmetric, and within
    [360/(4N)] of it otherwise (the random generator drawing from [0,1));
    its X and Y are the object's location plus
    [(max(dimX, dimY) + distance) * (cos, sin)] of that azimuth in
    radians, and its Z is [mx + 5.0], [mx] being the greatest of the world
    heights of the corners of the object's bounding box: the third row of
    the world matrix applied to each local corner (x, y, z, 1). *)
Theorem light_ring (s : Scene) (obj : nat) (o : Object) (distance : Q) :
  wf_scene s ->
  lookup obj (objects s) = Some o ->
  bound_box o <> [] ->
  (1 <= numLights (props s) <= 16)%Z ->
  (forall k, 0 <= random env k /\ random env k < 1) ->
  exists lights s' mx,
    create_x_suns_around env obj distance s = (Ok lights, s') /\
    length lights = Z.to_nat (numLights (props s)) /\
    is_max mx (map (world_z o) (bound_box o)) /\
    forall i, (i < Z.to_nat (numLights (props s)))%nat ->
      exists h l az,
        nth_error lights i = Some h /\
        lookup h (objects s') = Some l /\
        (simetric (props s) = true ->
         az == inject_Z (Z.of_nat i) * (360 / inject_Z (numLights (props s)))) /\
        (simetric (props s) = false ->
         Qabs (az - inject_Z (Z.of_nat i) * (360 / inject_Z (numLights (props s))))
         <= 360 / (4 * inject_Z (numLights (props s)))) /\
        vx (location l)
        = vx (location o) + (footprint o + distance) * cos env (radians env az) /\
        vy (location l)
        = vy (location o) + (footprint o + distance) * sin env (radians env az) /\
        vz (location l) = mx + 5.0 /\
        footprint o == Qmax (vx (dimensions o)) (vy (dimensions o)).
Proof.
  intros Hwf Ho Hne HN Hrand.
  destruct (bbox_min_max_z_ok o Hne) as (mn & mx & Hbb & _ & Hmax).
  assert (Hpos : (0 < numLights (props s))%Z) by lia.
  pose proof (create_x_suns_around_run env s obj o distance mn mx Hwf Ho Hbb Hpos)
    as Hrun.
  eexists. eexists. exists mx. split; [exact Hrun|].
  split; [rewrite length_map, length_seq; reflexivity|].
  split; [exact Hmax|].
  intros i Hi.
  exists (next_handle s + i)%nat.
  exists (nth_sun env o (props s) distance mx (random_calls s) i).
  exists (azimuth env (props s) (random_calls s) i).
  split.
  { rewrite nth_error_map, nth_error_seq.
    assert (E : (i <? Z.to_nat (numLights (props s)))%nat = true)
      by (apply Nat.ltb_lt; exact Hi).
    rewrite E. reflexivity. }
  split; [apply with_suns_light; assumption|].
  destruct (angle_step_pos (numLights (props s))) as (Hstep & Hquarter); [lia|].
  split.
  { intros Hsym. unfold azimuth, jitter, angle_step. rewrite Hsym. ring. }
  split.
  { intros Hsym. unfold azimuth, jitter, angle_step. rewrite Hsym.
    rewrite Hquarter.
    set (st := 360 / inject_Z (numLights (props s))) in *.
    assert (E : inject_Z (Z.of_nat i) * st
                + (- st / 4 + (st / 4 - - st / 4)
                              * random env (random_calls s + i)%nat)
                - inject_Z (Z.of_nat i) * st
                == - st / 4 + (st / 4 - - st / 4)
                              * random env (random_calls s + i)%nat) by ring.
    rewrite E.
    destruct (Hrand (random_calls s + i)%nat) as (H0 & H1).
    apply jitter_bound; [lra | exact H0 | exact H1]. }
  unfold nth_sun. rewrite sun_object_location.
  split; [reflexivity|]. split; [reflexivity|]. split; [reflexivity|].
  apply footprint_max.
Qed.

End LightRing.

(* ================================================================== *)
(** * The export operators *)

Section ExportOperators.

Variable env : Env.

Lemma without_fields (hs : list nat) (s : Scene) :
  props (without hs s) = props s /\ files (without hs s) = files s /\
  reports (without hs s) = reports s.
Proof. repeat split. Qed.

Lemma with_file_fields (path : string) (s : Scene) :
  props (with_file path s) = props s /\
  files (with_file path s) = path :: files s /\
  reports (with_file path s) = reports s.
Proof. repeat split. Qed.

Lemma ready_to_export_fields (plane obj : nat) (s : Scene) :
  props (ready_to_export plane obj s) = props s /\
  files (ready_to_export plane obj s) = files s /\
  reports (ready_to_export plane obj s) = reports s.
Proof. repeat split. Qed.

Lemma after_shadow_plane_fields (obj : nat) (o : Object) (mn : Q) (px : list Q)
    (s : Scene) :
  props (after_shadow_plane env obj o mn px s) = props s /\
  files (after_shadow_plane env obj o mn px s) = files s /\
  reports (after_shadow_plane env obj o mn px s) = reports s.
Proof. repeat split. Qed.

Lemma with_suns_fields (o : Object) (distance mx : Q) (s : Scene) (m : nat) :
  props (with_suns env o distance mx s m) = props s /\
  files (with_suns env o distance mx s m) = files s /\
  reports (with_suns env o distance mx s m) = reports s.
Proof. repeat split. Qed.

Lemma staged_fields (obj : nat) (o : Object) (mn mx : Q) (px : list Q) (s : Scene) :
  props (staged env obj o mn mx px s) = props s /\
  files (staged env obj o mn mx px s) = files s /\
  reports (staged env obj o mn mx px s) = reports s.
Proof.
  unfold staged.
  destruct (ready_to_export_fields (plane_handle s) obj
              (after_shadow_plane env obj o mn px
                 (with_suns env o 1.0 mx s (light_count s)))) as (E1 & E2 & E3).
  destruct (after_shadow_plane_fields obj o mn px
              (with_suns env o 1.0 mx s (light_count s))) as (F1 & F2 & F3).
  destruct (with_suns_fields o 1.0 mx s (light_count s)) as (G1 & G2 & G3).
  rewrite E1, E2, E3, F1, F2, F3, G1, G2, G3. repeat split.
Qed.

Lemma exported_fields (obj : nat) (o : Object) (mn mx : Q) (px : list Q) (s : Scene) :
  props (exported env obj o mn mx px s) = props s /\
  files (exported env obj o mn mx px s) = glb_path env s o :: files s /\
  reports (exported env obj o mn mx px s) = reports s.
Proof.
  unfold exported.
  set (st := staged env obj o mn mx px s).
  destruct (staged_fields obj o mn mx px s) as (S1 & S2 & S3). fold st in S1, S2, S3.
  destruct (without_fields (light_handles s)
              (without [plane_handle s] (with_file (glb_path env s o) st)))
    as (E1 & E2 & E3).
  destruct (without_fields [plane_handle s] (with_file (glb_path env s o) st))
    as (F1 & F2 & F3).
  destruct (with_file_fields (glb_path env s o) st) as (G1 & G2 & G3).
  rewrite E1, E2, E3, F1, F2, F3, G1, G2, G3, S1, S2, S3. repeat split.
Qed.

Lemma in_object_mode_fields (s : Scene) :
  objects (in_object_mode s) = objects s /\
  next_handle (in_object_mode s) = next_handle s /\
  props (in_object_mode s) = props s /\
  files (in_object_mode s) = files s /\
  reports (in_object_mode s) = reports s.
Proof.
  unfold in_object_mode.
  destruct (negb (mode s =? "OBJECT")%string); repeat split.
Qed.

Lemma in_object_mode_wf (s : Scene) : wf_scene s -> wf_scene (in_object_mode s).
Proof.
  intros Hwf p Hp.
  destruct (in_object_mode_fields s) as (Eo & En & _).
  rewrite Eo in Hp. rewrite En. exact (Hwf p Hp).
Qed.

Lemma bind_mode_check {B} (k : unit -> M B) (s : Scene) :
  bind (if negb (mode s =? "OBJECT")%string then mode_set "OBJECT" else ret tt) k s
  = k tt (in_object_mode s).
Proof.
  unfold in_object_mode.
  destruct (negb (mode s =? "OBJECT")%string); reflexivity.
Qed.

Lemma in_object_mode_mode (s : Scene) : mode (in_object_mode s) = "OBJECT"%string.
Proof.
  unfold in_object_mode. destruct (mode s =? "OBJECT")%string eqn:E; cbn [negb].
  - apply String.eqb_eq in E. exact E.
  - reflexivity.
Qed.

Lemma temporaries_in_object_mode (s st : Scene) :
  temporaries_left (in_object_mode s) st -> temporaries_left s st.
Proof.
  destruct (in_object_mode_fields s) as (Eo & En & Ep & _).
  unfold temporaries_left, light_handles, plane_handle, light_count, handles.
  rewrite Eo, En, Ep. auto.
Qed.

(** When the renderer raises, [export_obj] stops with the lights and the
    plane in the scene. *)
Lemma export_obj_bake_fails (s : Scene) (obj : nat) (o : Object) (mn mx : Q) :
  wf_scene s ->
  mode s = "OBJECT"%string ->
  lookup obj (objects s) = Some o ->
  type o = "MESH"%string ->
  bbox_min_max_z o = Ok (mn, mx) ->
  (0 < numLights (props s))%Z ->
  (forall st, bake env st (length (images s)) = None) ->
  export_obj env obj s
  = (Raise RuntimeError,
     after_shadow_plane env obj o mn white_pixels
       (with_suns env o 1.0 mx s (light_count s))).
Proof.
  intros Hwf Hm Ho Ht Hbb Hn Hbake.
  unfold export_obj.
  rewrite (bind_ok _ _ _ _ _
             (create_x_suns_around_run env s obj o 1.0 mn mx Hwf Ho Hbb Hn)).
  fold (light_count s).
  apply bind_raise.
  rewrite (make_shadow_plane_prefix env _ obj o mn mx
             (with_suns_wf env s o 1.0 mx Hwf (light_count s)) Hm
             (with_suns_lookup env s obj o 1.0 mx Ho (light_count s)) Ht Hbb).
  unfold bind at 1, object_bake. cbn [images with_suns].
  rewrite Hbake. reflexivity.
Qed.

(** Past its checks, [OBJECT_OT_export_obj_glb.execute] runs the steps of
    [export_obj] on the target and makes it the active object. *)
Lemma export_obj_glb_execute_head (s : Scene) (t : nat) (o : Object) :
  targetObj (props s) = Some t ->
  lookup t (objects s) = Some o ->
  type o = "MESH"%string ->
  isdir env (pathToFile (props s)) = true ->
  export_obj_glb_execute env s
  = bind (export_obj env t)
      (fun _ => bind (modify (set_active_object (Some t)))
                  (fun _ => ret FINISHED))
      (in_object_mode s).
Proof.
  intros Htarget Ho Ht Hdir.
  destruct (in_object_mode_fields s) as (Eo & En & Ep & Ef & Er).
  assert (Ho' : lookup t (objects (in_object_mode s)) = Some o)
    by (rewrite Eo; exact Ho).
  unfold export_obj_glb_execute. rewrite bind_gets, bind_mode_check.
  rewrite bind_gets, Ep, Htarget. rewrite bind_gets, Ep, Hdir.
  cbn [negb]. rewrite (bind_get_object _ _ _ _ Ho'). rewrite Ht.
  cbn [String.eqb Ascii.eqb Bool.eqb negb].
  unfold export_obj, bind.
  repeat match goal with
         | |- context [match ?x with pair _ _ => _ end] =>
             lazymatch x with
             | context [match _ with pair _ _ => _ end] => fail
             | _ => destruct x as [[?|?] ?]
             end
         end; reflexivity.
Qed.

(** [OBJECT_OT_export_obj_glb.execute] on a valid target of the view layer,
    whether the exporter succeeds or raises. *)
Lemma export_obj_glb_execute_run (s : Scene) (t : nat) (o : Object) (mn mx : Q) :
  wf_scene s ->
  targetObj (props s) = Some t ->
  lookup t (objects s) = Some o ->
  type o = "MESH"%string ->
  linked o = true ->
  bbox_min_max_z o = Ok (mn, mx) ->
  isdir env (pathToFile (props s)) = true ->
  (0 < numLights (props s))%Z ->
  bake_succeeds env ->
  exists px,
    (export_gltf env (staged env t o mn mx px (in_object_mode s))
                 (glb_path env (in_object_mode s) o) = true ->
     export_obj_glb_execute env s
     = (Ok FINISHED,
        set_active_object (Some t)
          (exported env t o mn mx px (in_object_mode s)))) /\
    (export_gltf env (staged env t o mn mx px (in_object_mode s))
                 (glb_path env (in_object_mode s) o) = false ->
     export_obj_glb_execute env s
     = (Raise RuntimeError, staged env t o mn mx px (in_object_mode s))).
Proof.
  intros Hwf Htarget Ho Ht Hl Hbb Hdir Hn Hbake.
  destruct (in_object_mode_fields s) as (Eo & En & Ep & Ef & Er).
  assert (Ho' : lookup t (objects (in_object_mode s)) = Some o)
    by (rewrite Eo; exact Ho).
  assert (Hn' : (0 < numLights (props (in_object_mode s)))%Z)
    by (rewrite Ep; exact Hn).
  destruct (export_obj_run env (in_object_mode s) t o mn mx
              (in_object_mode_wf s Hwf) Ho' Ht Hbb Hn' (in_object_mode_mode s)
              Hl Hbake)
    as (px & Hok & Hfail).
  exists px.
  pose proof (export_obj_glb_execute_head s t o Htarget Ho Ht Hdir) as Hhead.
  split; intros Hexp.
  - rewrite Hhead, (bind_ok _ _ _ _ _ (Hok Hexp)). reflexivity.
  - rewrite Hhead. apply bind_raise. exact (Hfail Hexp).
Qed.

Lemma glb_path_in_object_mode (s : Scene) (o : Object) :
  glb_path env (in_object_mode s) o = glb_path env s o.
Proof.
  unfold glb_path. destruct (in_object_mode_fields s) as (_ & _ & Ep & _).
  rewrite Ep. reflexivity.
Qed.

(** C3, as the code has it.  The single-object export on a mesh target.
    When the target is in the view layer and the renderer and the exporter
    succeed, the operator returns FINISHED having written the object's
    file, and the scene holds exactly the objects it held before: the
    plane and every light are gone.  When the exporter raises, when the
    renderer raises, or when the target is outside the view layer (so that
    selecting it raises), the exception leaves the operator, no file is
    written, and the lights and the plane are still in the scene. *)
Theorem export_removes_temporaries (s : Scene) (t : nat) (o : Object) :
  wf_scene s ->
  targetObj (props s) = Some t ->
  lookup t (objects s) = Some o ->
  type o = "MESH"%string ->
  bound_box o <> [] ->
  isdir env (pathToFile (props s)) = true ->
  (1 <= numLights (props s))%Z ->
  (linked o = true -> bake_succeeds env -> export_succeeds env ->
   exists s',
     export_obj_glb_execute env s = (Ok FINISHED, s') /\
     handles s' = handles s /\
     keeps_objects s s' /\
     files s' = glb_path env s o :: files s /\
     reports s' = reports s) /\
  (linked o = true -> bake_succeeds env ->
   (forall st, export_gltf env st (glb_path env s o) = false) ->
   exists s',
     export_obj_glb_execute env s = (Raise RuntimeError, s') /\
     temporaries_left s s' /\ files s' = files s) /\
  ((forall st, bake env st (length (images s)) = None) ->
   exists s',
     export_obj_glb_execute env s = (Raise RuntimeError, s') /\
     temporaries_left s s' /\ files s' = files s) /\
  (linked o = false -> bake_succeeds env ->
   exists s',
     export_obj_glb_execute env s = (Raise RuntimeError, s') /\
     temporaries_left s s' /\ files s' = files s).
Proof.
  intros Hwf Htarget Ho Ht Hne Hdir Hn.
  destruct (bbox_min_max_z_ok o Hne) as (mn & mx & Hbb & _).
  destruct (in_object_mode_fields s) as (Eo & En & Ep & Ef & Er).
  assert (Ho' : lookup t (objects (in_object_mode s)) = Some o)
    by (rewrite Eo; exact Ho).
  assert (Hwf' : wf_scene (in_object_mode s)) by exact (in_object_mode_wf s Hwf).
  assert (Hn' : (0 < numLights (props (in_object_mode s)))%Z)
    by (rewrite Ep; lia).
  pose proof (export_obj_glb_execute_head s t o Htarget Ho Ht Hdir) as Hhead.
  split; [|split; [|split]].
  - intros Hl Hbake Hexport.
    destruct (export_obj_glb_execute_run s t o mn mx Hwf Htarget Ho Ht Hl Hbb Hdir
                ltac:(lia) Hbake) as (px & Hok & _).
    eexists. split; [apply Hok, Hexport|].
    destruct (exported_fields t o mn mx px (in_object_mode s)) as (F1 & F2 & F3).
    split.
    { change (handles (set_active_object (Some t) ?st)) with (handles st).
      rewrite (exported_handles env (in_object_mode s) t o mn mx Hwf').
      unfold handles. rewrite Eo. reflexivity. }
    split.
    { intros h x Hx. rewrite <- Eo in Hx.
      exact (exported_keeps env (in_object_mode s) t o mn mx Hwf' px h x Hx). }
    split.
    { change (files (set_active_object (Some t) ?st)) with (files st).
      rewrite F2, Ef, glb_path_in_object_mode. reflexivity. }
    change (reports (set_active_object (Some t) ?st)) with (reports st).
    rewrite F3, Er. reflexivity.
  - intros Hl Hbake Hfails.
    destruct (export_obj_glb_execute_run s t o mn mx Hwf Htarget Ho Ht Hl Hbb Hdir
                ltac:(lia) Hbake) as (px & _ & Hfail).
    eexists. split.
    { apply Hfail. rewrite glb_path_in_object_mode. apply Hfails. }
    split.
    + apply temporaries_in_object_mode.
      exact (staged_temporaries env (in_object_mode s) t o mn mx Hwf' Ho' px).
    + destruct (staged_fields t o mn mx px (in_object_mode s)) as (_ & F2 & _).
      rewrite F2. exact Ef.
  - intros Hbake.
    eexists. split.
    { rewrite Hhead. apply bind_raise.
      apply (export_obj_bake_fails (in_object_mode s) t o mn mx Hwf'
               (in_object_mode_mode s) Ho' Ht Hbb Hn').
      intros st.
      replace (images (in_object_mode s)) with (images s); [apply Hbake|].
      unfold in_object_mode. destruct (negb (mode s =? "OBJECT")%string); reflexivity. }
    split.
    + apply temporaries_in_object_mode.
      exact (baked_temporaries env (in_object_mode s) t o mn mx Hwf' Ho'
               white_pixels).
    + exact Ef.
  - intros Hl Hbake.
    destruct (export_obj_unlinked env (in_object_mode s) t o mn mx Hwf' Ho' Ht Hbb
                Hn' (in_object_mode_mode s) Hbake Hl)
      as (st & Hrun & Htemp & Hf & _).
    exists st. split.
    { rewrite Hhead. apply bind_raise. exact Hrun. }
    split.
    + apply temporaries_in_object_mode. exact Htemp.
    + rewrite Hf. exact Ef.
Qed.

End ExportOperators.

(* ================================================================== *)
(** ** The sample scenes *)

Section SampleFacts.

Lemma sample_bake_succeeds (export_ok : bool) :
  bake_succeeds (Samples.sample_env true export_ok).
Proof.
  intros s i. exists Samples.grey_pixels, (128 * 128)%nat.
  split; [reflexivity|].
  unfold Samples.grey_pixels. rewrite length_concat_repeat. reflexivity.
Qed.

Lemma sample_export_succeeds (bake_ok : bool) :
  export_succeeds (Samples.sample_env bake_ok true).
Proof. intros s path. reflexivity. Qed.

Lemma scene_of_wf (obs : list Object) (pr : Props) :
  wf_scene (Samples.scene_of obs pr).
Proof.
  intros p Hp. unfold Samples.scene_of in *. cbn [objects next_handle] in *.
  destruct p as [h x]. apply in_combine_l in Hp. apply in_seq in Hp.
  simpl. lia.
Qed.

Lemma sample_random (b1 b2 : bool) (k : nat) :
  0 <= random (Samples.sample_env b1 b2) k /\ random (Samples.sample_env b1 b2) k < 1.
Proof. simpl. split; lra. Qed.

End SampleFacts.

(** C3 as stated fails: when the exporter raises, and likewise when the
    renderer raises, the operator stops with the four lights (handles 1 to
    4) and the plane (handle 5) still in the scene, which held only the
    target (handle 0). *)
Lemma export_failure_leaves_temporaries :
  handles Samples.single_scene = [0%nat] /\
  (exists s',
      export_obj_glb_execute (Samples.sample_env true false) Samples.single_scene
      = (Raise RuntimeError, s') /\
      handles s' = [0; 1; 2; 3; 4; 5]%nat) /\
  (exists s',
      export_obj_glb_execute (Samples.sample_env false true) Samples.single_scene
      = (Raise RuntimeError, s') /\
      handles s' = [0; 1; 2; 3; 4; 5]%nat).
Proof.
  assert (Hwf : wf_scene Samples.single_scene) by apply scene_of_wf.
  assert (Hne : bound_box Samples.table <> []) by discriminate.
  destruct (bbox_min_max_z_ok Samples.table Hne) as (mn & mx & Hbb & _).
  split; [reflexivity|]. split.
  - destruct (export_obj_glb_execute_run (Samples.sample_env true false)
                Samples.single_scene 0%nat Samples.table mn mx Hwf
                eq_refl eq_refl eq_refl eq_refl Hbb eq_refl eq_refl
                (sample_bake_succeeds false)) as (px & _ & Hfail).
    eexists. split; [apply Hfail; reflexivity|].
    rewrite staged_handles. reflexivity.
  - eexists. split.
    + rewrite (export_obj_glb_execute_head (Samples.sample_env false true)
                 Samples.single_scene 0%nat Samples.table
                 eq_refl eq_refl eq_refl eq_refl).
      apply bind_raise.
      apply (export_obj_bake_fails (Samples.sample_env false true)
               (in_object_mode Samples.single_scene) 0%nat Samples.table mn mx).
      * exact Hwf.
      * reflexivity.
      * reflexivity.
      * reflexivity.
      * exact Hbb.
      * reflexivity.
      * intros st. reflexivity.
    + unfold after_shadow_plane, with_suns, handles. cbn [objects].
      rewrite map_app, handles_replace, !handles_map, map_app, map_map.
      reflexivity.
Qed.

(* ================================================================== *)
(** * The collection export *)

Section CollectionExport.

Variable env : Env.

Lemma keeps_objects_trans (a b c : Scene) :
  keeps_objects a b -> keeps_objects b c -> keeps_objects a c.
Proof.
  intros Hab Hbc h x Hx.
  destruct (Hab h x Hx) as (x1 & Hx1 & Hb1).
  destruct (Hbc h x1 Hx1) as (x2 & Hx2 & Hb2).
  exists x2. split; [exact Hx2 | exact (same_body_trans _ _ _ Hb1 Hb2)].
Qed.

Lemma keeps_objects_refl (a : Scene) : keeps_objects a a.
Proof. intros h x Hx. exists x. split; [exact Hx | apply same_body_refl]. Qed.

Lemma glb_path_of_kept (s s' : Scene) (h : nat) (x : Object) :
  lookup h (objects s) = Some x ->
  keeps_objects s s' ->
  props s' = props s ->
  glb_path_of env s' h = glb_path_of env s h.
Proof.
  intros Hx Hkeep Hp. unfold glb_path_of. rewrite Hx.
  destruct (Hkeep h x Hx) as (x' & Hx' & Hbody). rewrite Hx'.
  unfold glb_path. rewrite Hp.
  destruct Hbody as (Hname & _). rewrite Hname. reflexivity.
Qed.

Lemma exportable_kept (s s' : Scene) (h : nat) :
  keeps_objects s s' -> exportable s h -> exportable s' h.
Proof.
  intros Hkeep (x & Hx & Ht & Hbb & Hl).
  destruct (Hkeep h x Hx) as (x' & Hx' & Hbody).
  exists x'. split; [exact Hx'|].
  destruct Hbody as (_ & Htype & _ & _ & _ & Hbox & _ & _ & Hlink).
  split; [rewrite Htype; exact Ht|].
  split; [rewrite Hbox; exact Hbb | rewrite Hlink; exact Hl].
Qed.

(** One turn of the loop on an exportable member. *)
Lemma export_member_ok (s : Scene) (h : nat) :
  wf_scene s ->
  mode s = "OBJECT"%string ->
  exportable s h ->
  (0 < numLights (props s))%Z ->
  bake_succeeds env ->
  export_succeeds env ->
  exists s',
    export_member env h s = (Ok tt, s') /\
    wf_scene s' /\ mode s' = "OBJECT"%string /\
    handles s' = handles s /\ keeps_objects s s' /\
    props s' = props s /\ reports s' = reports s /\
    files s' = glb_path_of env s h :: files s.
Proof.
  intros Hwf Hm (x & Hx & Ht & Hbox & Hl) Hn Hbake Hexport.
  destruct (bbox_min_max_z_ok x Hbox) as (mn & mx & Hbb & _).
  destruct (export_obj_run env s h x mn mx Hwf Hx Ht Hbb Hn Hm Hl Hbake)
    as (px & Hok & _).
  exists (exported env h x mn mx px s).
  destruct (exported_fields env h x mn mx px s) as (F1 & F2 & F3).
  split.
  { unfold export_member. rewrite (bind_get_object _ _ _ _ Hx). rewrite Ht.
    cbn [String.eqb Ascii.eqb Bool.eqb negb]. apply Hok, Hexport. }
  split; [exact (exported_wf env s h x mn mx Hwf px)|].
  split; [exact Hm|].
  split; [exact (exported_handles env s h x mn mx Hwf px)|].
  split; [exact (exported_keeps env s h x mn mx Hwf px)|].
  split; [exact F1|]. split; [exact F3|].
  rewrite F2. unfold glb_path_of. rewrite Hx. reflexivity.
Qed.

(** The whole loop. *)
Lemma export_members_ok (ms : list nat) :
  forall s,
    wf_scene s ->
    mode s = "OBJECT"%string ->
    (forall h, In h ms -> exportable s h) ->
    (0 < numLights (props s))%Z ->
    bake_succeeds env ->
    export_succeeds env ->
    exists s',
      for_each ms (export_member env) s = (Ok tt, s') /\
      handles s' = handles s /\ keeps_objects s s' /\
      props s' = props s /\ reports s' = reports s /\
      files s' = rev (map (glb_path_of env s) ms) ++ files s.
Proof.
  induction ms as [|h ms IH]; intros s Hwf Hm Hall Hn Hbake Hexport.
  - exists s. split; [reflexivity|]. split; [reflexivity|].
    split; [apply keeps_objects_refl|]. repeat split.
  - destruct (export_member_ok s h Hwf Hm (Hall h (or_introl eq_refl)) Hn Hbake
                Hexport)
      as (s1 & Hrun1 & Hwf1 & Hm1 & Hh1 & Hk1 & Hp1 & Hr1 & Hf1).
    destruct (IH s1 Hwf1 Hm1) as (s2 & Hrun2 & Hh2 & Hk2 & Hp2 & Hr2 & Hf2).
    { intros h' Hh'. apply (exportable_kept s s1 h' Hk1). apply Hall. right. exact Hh'. }
    { rewrite Hp1. exact Hn. }
    { exact Hbake. }
    { exact Hexport. }
    exists s2. split.
    { cbn [for_each]. rewrite (bind_ok _ _ _ _ _ Hrun1). exact Hrun2. }
    split; [congruence|].
    split; [exact (keeps_objects_trans _ _ _ Hk1 Hk2)|].
    split; [congruence|]. split; [congruence|].
    rewrite Hf2, Hf1. cbn [map rev]. rewrite <- app_assoc. cbn [app].
    f_equal. f_equal. apply map_ext_in. intros h' Hh'.
    destruct (Hall h' (or_intror Hh')) as (x' & Hx' & _).
    exact (glb_path_of_kept s s1 h' x' Hx' Hk1 Hp1).
Qed.

(** The list comprehension that keeps the meshes of the collection. *)
Lemma mesh_members_run (members : list nat) (s : Scene) :
  (forall h, In h members -> In h (handles s)) ->
  for_collect members
    (fun obj => bind (get_object obj)
                  (fun o => ret (if (type o =? "MESH")%string
                                 then Some obj else None))) s
  = (Ok (filter (is_mesh s) members), s).
Proof.
  induction members as [|h members IH]; intros Hin; [reflexivity|].
  cbn [for_collect filter].
  destruct (handles_lookup h (objects s)) as (x & Hx);
    [apply Hin; left; reflexivity|].
  rewrite bind_assoc, (bind_get_object _ _ _ _ Hx), bind_ret.
  rewrite (bind_ok _ _ _ _ _ (IH (fun h' Hh' => Hin h' (or_intror Hh')))).
  assert (E : is_mesh s h = (type x =? "MESH")%string)
    by (unfold is_mesh; rewrite Hx; reflexivity).
  rewrite E. destruct (type x =? "MESH")%string; reflexivity.
Qed.

(** Past its checks, the operator runs the loop over the meshes of the
    collection in object mode. *)
Lemma export_collection_glb_execute_head (s : Scene) (members : list nat) :
  Collection (props s) = Some members ->
  members <> [] ->
  isdir env (pathToFile (props s)) = true ->
  (forall h, In h members -> In h (handles s)) ->
  export_collection_glb_execute env s
  = bind (for_each (filter (is_mesh s) members) (export_member env))
      (fun _ => ret FINISHED) (in_object_mode s).
Proof.
  intros Hcoll Hne Hdir Hin.
  unfold export_collection_glb_execute.
  rewrite bind_gets, Hcoll, bind_gets, Hdir. cbn [negb].
  destruct members as [|m members]; [congruence|].
  cbn [length Nat.eqb].
  rewrite (bind_ok _ _ _ _ _ (mesh_members_run (m :: members) s Hin)).
  rewrite bind_gets, bind_mode_check. reflexivity.
Qed.

Section OneCollection.

Variables (s : Scene) (members : list nat).
Hypothesis Hwf : wf_scene s.
Hypothesis Hcoll : Collection (props s) = Some members.
Hypothesis Hne : members <> [].
Hypothesis Hdir : isdir env (pathToFile (props s)) = true.
Hypothesis Hmem :
  forall h, In h members ->
            exists x, lookup h (objects s) = Some x /\ bound_box x <> [] /\
                      linked x = true.
Hypothesis Hn : (1 <= numLights (props s))%Z.
Hypothesis Hbake : bake_succeeds env.

Lemma members_in_scene : forall h, In h members -> In h (handles s).
Proof.
  intros h Hh. destruct (Hmem h Hh) as (x & Hx & _).
  exact (lookup_handles h _ x Hx).
Qed.

Lemma meshes_exportable :
  forall h, In h (filter (is_mesh s) members) -> exportable (in_object_mode s) h.
Proof.
  destruct (in_object_mode_fields s) as (Eo & _).
  intros h Hh. apply filter_In in Hh. destruct Hh as (Hh & Hmesh).
  destruct (Hmem h Hh) as (x & Hx & Hbox & Hl).
  exists x. rewrite Eo. split; [exact Hx|]. split; [|split; [exact Hbox | exact Hl]].
  unfold is_mesh in Hmesh. rewrite Hx in Hmesh.
  apply String.eqb_eq. exact Hmesh.
Qed.

Lemma collection_export_success :
  export_succeeds env ->
  exists s',
    export_collection_glb_execute env s = (Ok FINISHED, s') /\
    files s'
    = rev (map (glb_path_of env s) (filter (is_mesh s) members)) ++ files s /\
    reports s' = reports s /\
    handles s' = handles s.
Proof.
  intros Hexport.
  pose proof (export_collection_glb_execute_head s members Hcoll Hne Hdir
                members_in_scene) as Hhead.
  destruct (in_object_mode_fields s) as (Eo & En & Ep & Ef & Er).
  assert (Hpaths : map (glb_path_of env (in_object_mode s)) (filter (is_mesh s) members)
                   = map (glb_path_of env s) (filter (is_mesh s) members)).
  { apply map_ext. intros h. unfold glb_path_of, glb_path. rewrite Eo, Ep. reflexivity. }
  destruct (export_members_ok (filter (is_mesh s) members) (in_object_mode s)
              (in_object_mode_wf s Hwf) (in_object_mode_mode s) meshes_exportable
              ltac:(rewrite Ep; lia) Hbake Hexport)
    as (s' & Hrun & Hh & _ & _ & Hr & Hf).
  exists s'. split; [rewrite Hhead, (bind_ok _ _ _ _ _ Hrun); reflexivity|].
  rewrite Hf, Hr, Hh, Hpaths, Ef, Er. unfold handles. rewrite Eo.
  repeat split.
Qed.

(** The first mesh of the collection, when the exporter refuses its file. *)
Lemma collection_export_failure (h : nat) (rest : list nat) (x : Object) :
  filter (is_mesh s) members = h :: rest ->
  lookup h (objects s) = Some x ->
  (forall st, export_gltf env st (glb_path env s x) = false) ->
  exists s',
    export_collection_glb_execute env s = (Raise RuntimeError, s') /\
    files s' = files s /\ reports s' = reports s.
Proof.
  intros Emesh Hx Hfails.
  pose proof (export_collection_glb_execute_head s members Hcoll Hne Hdir
                members_in_scene) as Hhead.
  destruct (in_object_mode_fields s) as (Eo & En & Ep & Ef & Er).
  destruct (meshes_exportable h) as (x' & Hx' & Ht & Hbox & Hl);
    [rewrite Emesh; left; reflexivity|].
  assert (x' = x) by (rewrite Eo in Hx'; congruence). subst x'.
  destruct (bbox_min_max_z_ok x Hbox) as (mn & mx & Hbb & _).
  destruct (export_obj_run env (in_object_mode s) h x mn mx
              (in_object_mode_wf s Hwf) Hx' Ht Hbb
              ltac:(rewrite Ep; lia) (in_object_mode_mode s) Hl Hbake)
    as (px & _ & Hfail).
  exists (staged env h x mn mx px (in_object_mode s)).
  split.
  - rewrite Hhead, Emesh. apply bind_raise. cbn [for_each]. apply bind_raise.
    unfold export_member. rewrite (bind_get_object _ _ _ _ Hx'). rewrite Ht.
    cbn [String.eqb Ascii.eqb Bool.eqb negb]. apply Hfail.
    rewrite glb_path_in_object_mode. apply Hfails.
  - destruct (staged_fields env h x mn mx px (in_object_mode s)) as (_ & F2 & F3).
    rewrite F2, F3, Ef, Er. split; reflexivity.
Qed.

End OneCollection.

(** C4, as the code has it.  The collection export checks no height: on a
    collection whose members are in the view layer, when the renderer and
    the exporter succeed it exports every mesh of the collection in order,
    one file per mesh, reports nothing and finishes.  It does not catch a
    failure either: when the exporter refuses the file of the first mesh,
    the operator raises and writes no file. *)
Theorem collection_export_runs_every_mesh (s : Scene) (members : list nat) :
  wf_scene s ->
  Collection (props s) = Some members ->
  members <> [] ->
  isdir env (pathToFile (props s)) = true ->
  (forall h, In h members ->
             exists x, lookup h (objects s) = Some x /\ bound_box x <> [] /\
                       linked x = true) ->
  (1 <= numLights (props s))%Z ->
  bake_succeeds env ->
  (export_succeeds env ->
   exists s',
     export_collection_glb_execute env s = (Ok FINISHED, s') /\
     files s'
     = rev (map (glb_path_of env s) (filter (is_mesh s) members)) ++ files s /\
     length (files s')
     = (length (filter (is_mesh s) members) + length (files s))%nat /\
     reports s' = reports s /\
     handles s' = handles s) /\
  (forall h rest x,
      filter (is_mesh s) members = h :: rest ->
      lookup h (objects s) = Some x ->
      (forall st, export_gltf env st (glb_path env s x) = false) ->
      exists s',
        export_collection_glb_execute env s = (Raise RuntimeError, s') /\
        files s' = files s /\ reports s' = reports s).
Proof.
  intros Hwf Hcoll Hne Hdir Hmem Hn Hbake. split.
  - intros Hexport.
    destruct (collection_export_success s members Hwf Hcoll Hne Hdir Hmem Hn
                Hbake Hexport) as (s' & Hrun & Hf & Hr & Hh).
    exists s'. split; [exact Hrun|]. split; [exact Hf|].
    split; [rewrite Hf, length_app, length_rev, length_map; reflexivity|].
    split; [exact Hr | exact Hh].
  - intros h rest x Emesh Hx Hfails.
    exact (collection_export_failure s members Hwf Hcoll Hne Hdir Hmem Hn Hbake
             h rest x Emesh Hx Hfails).
Qed.

End CollectionExport.

(** C4 as stated fails.  Of three meshes, the third one outside the height
    range of the selected preset: three files are written and nothing is
    reported.  And when the exporter refuses the first member's file, the
    operator raises: the files of the other two are never written. *)
Lemma collection_export_skips_nothing :
  map (within_range "Table") [Samples.table; Samples.desk; Samples.wardrobe]
  = [true; true; false] /\
  (exists s',
      export_collection_glb_execute (Samples.sample_env true true)
                                    Samples.collection_scene
      = (Ok FINISHED, s') /\
      files s' = ["/out/Wardrobe.glb"; "/out/Desk.glb"; "/out/Table.glb"]%string /\
      reports s' = []) /\
  (exists s',
      export_collection_glb_execute Samples.picky_env Samples.collection_scene
      = (Raise RuntimeError, s') /\
      files s' = [] /\ reports s' = []).
Proof.
  assert (Hwf : wf_scene Samples.collection_scene) by apply scene_of_wf.
  assert (Hmem : forall h, In h [0; 1; 2]%nat ->
            exists x, lookup h (objects Samples.collection_scene) = Some x /\
                      bound_box x <> [] /\ linked x = true).
  { intros h [<- | [<- | [<- | []]]]; eexists;
      (split; [reflexivity | split; [discriminate | reflexivity]]). }
  split; [vm_compute; reflexivity|]. split.
  - destruct (collection_export_success (Samples.sample_env true true)
                Samples.collection_scene [0; 1; 2]%nat Hwf eq_refl
                ltac:(discriminate) eq_refl Hmem ltac:(vm_compute; discriminate)
                (sample_bake_succeeds true) (sample_export_succeeds true))
      as (s' & Hrun & Hf & Hr & _).
    exists s'. split; [exact Hrun|]. split; [rewrite Hf | rewrite Hr]; reflexivity.
  - assert (Hpicky : bake_succeeds Samples.picky_env).
    { intros s i. exists Samples.grey_pixels, (128 * 128)%nat.
      split; [reflexivity|].
      unfold Samples.grey_pixels. rewrite length_concat_repeat. reflexivity. }
    destruct (collection_export_failure Samples.picky_env
                Samples.collection_scene [0; 1; 2]%nat Hwf eq_refl
                ltac:(discriminate) eq_refl Hmem ltac:(vm_compute; discriminate)
                Hpicky 0%nat [1; 2]%nat Samples.table eq_refl eq_refl
                ltac:(intros st; reflexivity))
      as (s' & Hrun & Hf & Hr).
    exists s'. split; [exact Hrun|]. split; [rewrite Hf | rewrite Hr]; reflexivity.
Qed.

(* ================================================================== *)
(** * Pivot relocation *)

Section PivotRelocation.

Variable env : Env.

Lemma center_of_bottom_ok (bb : list Vec3) :
  bb <> [] -> exists c, center_of_bottom bb = Ok c.
Proof.
  intros Hne. unfold center_of_bottom.
  destruct bb as [|v0 bb]; [congruence|].
  cbn [map min_list res_bind].
  set (min_z := py_min (vz v0) (map vz bb)).
  destruct (py_min_spec (map vz bb) (vz v0)) as (Hin & _). fold min_z in Hin.
  change (vz v0 :: map vz bb) with (map vz (v0 :: bb)) in Hin.
  apply in_map_iff in Hin. destruct Hin as (v & Hv & Hvin).
  set (near := filter (fun v => Qle_bool (Qabs (vz v - min_z)) 0.000001) (v0 :: bb)).
  assert (Hnear : In v near).
  { unfold near. apply filter_In. split; [exact Hvin|].
    apply Qle_bool_iff. rewrite Hv. apply Qabs_Qle_condition. split; lra. }
  destruct near as [|w near']; [contradiction|].
  eexists. reflexivity.
Qed.

(** The centre [fix_origin] computes for a box higher than its tolerance
    is the centre of the bottom face. *)
Lemma center_of_bottom_box (lo hi : Vec3) :
  vz lo + 0.000001 < vz hi ->
  exists c, center_of_bottom (box_of lo hi) = Ok c /\ veq c (bottom_centre lo hi).
Proof.
  intros Hh.
  assert (E1 : Qltb (vz hi) (vz lo) = false) by (apply Qltb_false; lra).
  assert (E2 : Qltb (vz lo) (vz lo) = false) by (apply Qltb_false; lra).
  assert (F1 : Qle_bool (Qabs (vz lo - vz lo)) 0.000001 = true).
  { apply Qle_bool_iff. apply Qabs_Qle_condition. split; lra. }
  assert (F2 : Qle_bool (Qabs (vz hi - vz lo)) 0.000001 = false).
  { destruct (Qle_bool (Qabs (vz hi - vz lo)) 0.000001) eqn:E; [|reflexivity].
    apply Qle_bool_iff in E. apply Qabs_Qle_condition in E. lra. }
  assert (Hmin : min_list (map vz (box_of lo hi)) = Ok (vz lo)).
  { unfold box_of. cbn [map vz min_list]. unfold py_min. cbn [fold_left].
    repeat (first [rewrite E1 | rewrite E2]; cbv iota). reflexivity. }
  unfold center_of_bottom. rewrite Hmin. cbn [res_bind]. cbv zeta.
  unfold box_of. cbn [filter vz]. rewrite ?F1, ?F2.
  eexists. split; [reflexivity|].
  unfold veq, bottom_centre, vdiv, vadd. cbn [fold_left length vx vy vz].
  change (inject_Z (Z.of_nat 4)) with 4.
  split; [|split]; field.
Qed.

Lemma bind_origin_set_cursor {B} (k : unit -> M B) (s : Scene) :
  mode s = "OBJECT"%string ->
  bind origin_set_cursor k s
  = k tt (set_objects
            (map (fun p => (fst p, recentred (cursor_location s) (snd p)))
                 (objects s)) s).
Proof.
  intros Hm. unfold origin_set_cursor. rewrite bind_assoc, bind_gets, Hm.
  reflexivity.
Qed.

(** The scene [fix_origin] returns in, on a mesh. *)
Lemma fix_origin_run (s : Scene) (h : nat) (o : Object) (center_local : Vec3) :
  lookup h (objects s) = Some o ->
  type o = "MESH"%string ->
  linked o = true ->
  center_of_bottom (bound_box o) = Ok center_local ->
  exists s',
    fix_origin env (Some h) s = (Ok tt, s') /\
    lookup h (objects s')
    = Some (relocated env (mat_apply (matrix_world o) center_local) o) /\
    cursor_location s' = cursor_location s.
Proof.
  intros Ho Ht Hl Hc.
  destruct (in_object_mode_fields s) as (Eo & En & Ep & Ef & Er).
  pose proof (in_object_mode_mode s) as Hm.
  assert (Ho' : lookup h (objects (in_object_mode s)) = Some o)
    by (rewrite Eo; exact Ho).
  assert (Ecur : cursor_location (in_object_mode s) = cursor_location s).
  { unfold in_object_mode. destruct (negb (mode s =? "OBJECT")%string); reflexivity. }
  set (c := mat_apply (matrix_world o) center_local).
  set (L6 := map (fun p => (fst p, applied env (snd p)))
               (map (fun p => (fst p, refresh env (snd p)))
                  (replace_object h (set_location (vec3 0.0 0.0 0.0))
                     (map (fun p => (fst p, recentred c (snd p)))
                        (replace_object h (set_select true)
                           (map (fun p => (fst p, deselect (snd p)))
                              (objects (in_object_mode s)))))))).
  exists (set_objects L6 (in_object_mode s)).
  split; [|split].
  - unfold fix_origin, deref. rewrite bind_ret.
    rewrite (bind_get_object _ _ _ _ Ho). rewrite Ht.
    cbn [String.eqb Ascii.eqb Bool.eqb negb orb].
    rewrite bind_gets, bind_mode_check.
    rewrite (bind_get_object _ _ _ _ Ho'). rewrite Hc, bind_lift_ok.
    rewrite bind_gets, bind_modify.
    rewrite bind_select_all_deselect by exact Hm.
    erewrite bind_select_set;
      [ | cbn [objects set_objects set_cursor_location];
          apply lookup_map_old; exact Ho'
        | rewrite deselect_linked; exact Hl ].
    rewrite bind_origin_set_cursor by exact Hm.
    erewrite bind_update_object
      by (cbn [objects set_objects set_cursor_location];
          apply lookup_map_old; apply lookup_replace_same;
          apply lookup_map_old; exact Ho').
    rewrite bind_modify, bind_view_layer_update.
    rewrite bind_transform_apply_scale by exact Hm.
    fold c. unfold L6. clear. destruct (in_object_mode s). reflexivity.
  - cbn [objects set_objects]. unfold L6, relocated.
    apply lookup_map_old, lookup_map_old, lookup_replace_same, lookup_map_old,
          lookup_replace_same, lookup_map_old. exact Ho'.
  - cbn [cursor_location set_objects]. exact Ecur.
Qed.

Lemma relocated_mesh (c : Vec3) (o : Object) :
  linked o = true ->
  type o = "MESH"%string ->
  vertices (relocated env c o)
  = map (fun v => vmul (scale o) (vsub v (mat_inv_apply (matrix_world o) c)))
        (vertices o) /\
  scale (relocated env c o) = vec3 1 1 1 /\
  location (relocated env c o) = vec3 0.0 0.0 0.0.
Proof.
  intros Hl Ht.
  destruct o as [nm ty loc rot sc mw bb dims dat sel hr lk].
  cbn [linked type] in Hl, Ht. subst lk ty.
  unfold relocated, recentred, deselect, applied, refresh, selected_mesh.
  cbn [linked type select set_select set_location set_matrix_world origin_to
       set_bound_box set_data matrix_world bound_box data location scale
       name rotation_euler dimensions hide_render
       andb String.eqb Ascii.eqb Bool.eqb].
  unfold apply_scale, vertices.
  cbn [linked type select set_select set_location set_matrix_world set_scale
       set_bound_box set_data matrix_world bound_box data location scale
       name rotation_euler dimensions hide_render].
  split; [|split; reflexivity].
  unfold origin_to.
  cbn [linked type select set_select set_location set_matrix_world set_scale
       set_bound_box set_data matrix_world bound_box data location scale
       name rotation_euler dimensions hide_render].
  destruct dat as [vs slots| |]; cbn [map_vertices]; try reflexivity.
  rewrite map_map. reflexivity.
Qed.

Lemma mat_inv_apply_apply (m : Matrix) (x : Vec3) :
  ~ det3 (linear m) == 0 ->
  veq (mat_inv_apply m (mat_apply m x)) x.
Proof.
  destruct m as [[[a1 a2 a3] [b1 b2 b3] [c1 c2 c3]] [t1 t2 t3]].
  destruct x as [x1 x2 x3].
  unfold mat_inv_apply, mat_apply, mat3_solve, mat3_apply, veq.
  cbn [linear translation row_x row_y row_z].
  unfold det3, vdiv, vadd, vsub, vmul, cross, dot.
  cbn [linear translation row_x row_y row_z vx vy vz].
  intros Hdet. split; [|split]; field; exact Hdet.
Qed.

Lemma vmul_one (v : Vec3) : veq (vmul (vec3 1 1 1) v) v.
Proof. unfold veq, vmul. cbn [vx vy vz]. split; [|split]; ring. Qed.

(** C9, as the code has it.  On a mesh linked to the scene, pivot
    relocation returns; it translates every vertex of the mesh by minus
    the local position of the point the origin moves to, and then
    multiplies it componentwise by the object's scale, which becomes
    (1,1,1); the object's location becomes (0,0,0) and the 3D cursor is put
    back.  That point is the centre of the bottom face when the world
    matrix is invertible, and the mesh is changed by the origin shift alone
    when the scale is (1,1,1).  For a bounding box that reaches from [lo]
    to [hi], higher than the tolerance 1e-6, the centre of the bottom face
    is [((lo.x + hi.x)/2, (lo.y + hi.y)/2, lo.z)]. *)
Theorem pivot_relocation_rebases_and_rescales (s : Scene) (h : nat) (o : Object) :
  lookup h (objects s) = Some o ->
  type o = "MESH"%string ->
  linked o = true ->
  bound_box o <> [] ->
  exists s' o' center_local,
    let cent :=
      mat_inv_apply (matrix_world o) (mat_apply (matrix_world o) center_local) in
    fix_origin env (Some h) s = (Ok tt, s') /\
    lookup h (objects s') = Some o' /\
    center_of_bottom (bound_box o) = Ok center_local /\
    vertices o' = map (fun v => vmul (scale o) (vsub v cent)) (vertices o) /\
    scale o' = vec3 1 1 1 /\
    location o' = vec3 0.0 0.0 0.0 /\
    cursor_location s' = cursor_location s /\
    (~ det3 (linear (matrix_world o)) == 0 -> veq cent center_local) /\
    (scale o = vec3 1 1 1 -> shifted_by cent (vertices o) (vertices o')) /\
    (forall lo hi,
       bound_box o = box_of lo hi -> vz lo + 0.000001 < vz hi ->
       veq center_local (bottom_centre lo hi)).
Proof.
  intros Ho Ht Hl Hbox.
  destruct (center_of_bottom_ok (bound_box o) Hbox) as (center_local & Hc).
  destruct (fix_origin_run s h o center_local Ho Ht Hl Hc)
    as (s' & Hrun & Hlook & Hcur).
  destruct (relocated_mesh (mat_apply (matrix_world o) center_local) o Hl Ht)
    as (Hv & Hs & Hloc).
  exists s'. eexists. exists center_local. cbv zeta.
  split; [exact Hrun|]. split; [exact Hlook|]. split; [exact Hc|].
  split; [exact Hv|]. split; [exact Hs|]. split; [exact Hloc|].
  split; [exact Hcur|]. split; [|split].
  - apply mat_inv_apply_apply.
  - intros Hone. unfold shifted_by. rewrite Hv, Hone. clear Hv.
    induction (vertices o) as [|v vs IH]; cbn [map]; constructor.
    + apply vmul_one.
    + exact IH.
  - intros lo hi Hbb Hhigh.
    destruct (center_of_bottom_box lo hi Hhigh) as (c & Hc' & Hcb).
    rewrite <- Hbb in Hc'. rewrite Hc in Hc'. injection Hc' as <-. exact Hcb.
Qed.

End PivotRelocation.

(** C9 as stated fails.  On a unit box scaled by two and placed at
    (1,2,3), pivot relocation returns with mesh vertices that are no
    translation of the vertices it started from (they have been scaled),
    and the first vertex no longer lies where it was in the world. *)
Lemma pivot_relocation_rescales_mesh :
  exists s' o',
    fix_origin (Samples.sample_env true true) (Some 0%nat) Samples.scaled_scene
    = (Ok tt, s') /\
    lookup 0%nat (objects s') = Some o' /\
    (~ exists d, shifted_by d (vertices Samples.scaled_box) (vertices o')) /\
    ~ veq (mat_apply (matrix_world o') (nth 0 (vertices o') vzero))
          (mat_apply (matrix_world Samples.scaled_box)
                     (nth 0 (vertices Samples.scaled_box) vzero)).
Proof.
  assert (Hne : bound_box Samples.scaled_box <> []) by discriminate.
  destruct (center_of_bottom_ok (bound_box Samples.scaled_box) Hne) as (c & Hc).
  destruct (fix_origin_run (Samples.sample_env true true) Samples.scaled_scene
              0%nat Samples.scaled_box c eq_refl eq_refl eq_refl Hc)
    as (s' & Hrun & Hlook & _).
  exists s'. eexists. split; [exact Hrun|]. split; [exact Hlook|].
  vm_compute in Hc. injection Hc as <-.
  split.
  - intros (d & H). unfold shifted_by in H.
    match type of H with
    | Forall2 veq ?a _ =>
        let a' := eval vm_compute in a in
        assert (E : a = a') by (vm_compute; reflexivity);
        rewrite E in H; clear E
    end.
    change (vertices Samples.scaled_box) with (Samples.box_corners 1 1 1) in H.
    unfold Samples.box_corners in H. cbn [map] in H.
    inversion H as [|a1 b1 l1 l1' H1 T1]; subst.
    inversion T1 as [|a2 b2 l2 l2' H2 T2]; subst.
    destruct H1 as (_ & _ & Hz1). destruct H2 as (_ & _ & Hz2).
    cbn [vz vsub] in Hz1, Hz2. lra.
  - intros (Hx & _). vm_compute in Hx. discriminate Hx.
Qed.

(* ================================================================== *)
(** * The theorems at the sample scenes *)

Lemma plane_sits_at_feet_witness :
  exists mn s' p,
    is_min mn (map (world_z Samples.scaled_box) (bound_box Samples.scaled_box)) /\
    create_plane_at (Samples.sample_env true true) 0%nat 1.0 Samples.scaled_scene
    = (Ok 1%nat, s') /\
    lookup 1%nat (objects s') = Some p /\
    location p = vec3 1 2 mn.
Proof.
  destruct (plane_sits_at_feet (Samples.sample_env true true)
              Samples.scaled_scene 0%nat Samples.scaled_box 1.0)
    as (mn & Hmin & (s' & p & Hrun & Hp & Hloc) & _).
  - intros q [<- | []]. simpl. lia.
  - reflexivity.
  - reflexivity.
  - discriminate.
  - exists mn, s', p. split; [exact Hmin|]. split; [exact Hrun|].
    split; [exact Hp | exact Hloc].
Defined.

Lemma light_ring_witness :
  exists lights s',
    create_x_suns_around (Samples.sample_env true true) 0%nat 1.0
                         Samples.single_scene
    = (Ok lights, s') /\
    length lights = 4%nat.
Proof.
  destruct (light_ring (Samples.sample_env true true) Samples.single_scene
              0%nat Samples.table 1.0)
    as (lights & s' & mx & Hrun & Hlen & _).
  - intros q [<- | []]. simpl. lia.
  - reflexivity.
  - discriminate.
  - simpl. lia.
  - intros k. simpl. split; lra.
  - exists lights, s'. split; [exact Hrun | exact Hlen].
Defined.

Lemma export_removes_temporaries_witness :
  exists s',
    export_obj_glb_execute (Samples.sample_env true true) Samples.single_scene
    = (Ok FINISHED, s') /\
    handles s' = [0%nat] /\
    files s' = ["/out/Table.glb"%string].
Proof.
  destruct (export_removes_temporaries (Samples.sample_env true true)
              Samples.single_scene 0%nat Samples.table)
    as (Hok & _).
  - intros q [<- | []]. simpl. lia.
  - reflexivity.
  - reflexivity.
  - reflexivity.
  - discriminate.
  - reflexivity.
  - simpl. lia.
  - destruct Hok as (s' & Hrun & Hh & _ & Hf & _).
    + reflexivity.
    + apply sample_bake_succeeds.
    + intros s path. reflexivity.
    + exists s'. split; [exact Hrun|]. split; [exact Hh | exact Hf].
Defined.

Lemma collection_export_runs_every_mesh_witness :
  exists s',
    export_collection_glb_execute (Samples.sample_env true true)
                                  Samples.collection_scene
    = (Ok FINISHED, s') /\
    length (files s') = 3%nat /\
    reports s' = [].
Proof.
  destruct (collection_export_runs_every_mesh (Samples.sample_env true true)
              Samples.collection_scene [0; 1; 2]%nat) as (Hok & _).
  - intros q [<- | [<- | [<- | []]]]; simpl; lia.
  - reflexivity.
  - discriminate.
  - reflexivity.
  - intros h [<- | [<- | [<- | []]]]; eexists;
      (split; [reflexivity | split; [discriminate | reflexivity]]).
  - simpl. lia.
  - apply sample_bake_succeeds.
  - destruct Hok as (s' & Hrun & _ & Hlen & Hr & _).
    + intros s path. reflexivity.
    + exists s'. split; [exact Hrun|]. split; [exact Hlen | exact Hr].
Defined.

Lemma pivot_relocation_rebases_and_rescales_witness :
  exists s' o',
    fix_origin (Samples.sample_env true true) (Some 0%nat) Samples.scaled_scene
    = (Ok tt, s') /\
    lookup 0%nat (objects s') = Some o' /\
    scale o' = vec3 1 1 1 /\
    location o' = vec3 0.0 0.0 0.0.
Proof.
  destruct (pivot_relocation_rebases_and_rescales (Samples.sample_env true true)
              Samples.scaled_scene 0%nat Samples.scaled_box)
    as (s' & o' & c & Hrun & Hlook & _ & _ & Hs & Hl & _).
  - reflexivity.
  - reflexivity.
  - reflexivity.
  - discriminate.
  - exists s', o'. split; [exact Hrun|]. split; [exact Hlook|].
    split; [exact Hs | exact Hl].
Defined.
(* ================================================================== *)
(** * Further properties of the pixel loop *)

Section PixelEdges.

Lemma binarize_chunks_partial (fuel : nat) :
  forall pixels : list Q,
    (length pixels <= fuel)%nat ->
    (length pixels mod 4 <> 0)%nat ->
    binarize_chunks pixels = Raise ValueError.
Proof.
  induction fuel as [|fuel IH]; intros pixels Hfuel Hmod.
  - destruct pixels; [simpl in Hmod; congruence | simpl in Hfuel; lia].
  - destruct pixels as [|r [|g [|b [|a rest]]]]; try reflexivity.
    + simpl in Hmod. congruence.
    + cbn [binarize_chunks]. rewrite IH; [reflexivity | simpl in Hfuel; lia |].
      intros E. apply Hmod.
      change (length (r :: g :: b :: a :: rest)) with (4 + length rest)%nat.
      replace (4 + length rest)%nat with (length rest + 1 * 4)%nat by lia.
      rewrite Nat.Div0.mod_add. exact E.
Qed.

Lemma binarize_chunks_again (n : nat) :
  forall pixels out : list Q,
    length pixels = (4 * n)%nat ->
    binarize_chunks pixels = Ok out ->
    binarize_chunks out = Ok (concat (repeat [0; 0; 0; 1] n)).
Proof.
  induction n as [|n IH]; intros pixels out Hlen Hout.
  - destruct pixels; [|discriminate]. injection Hout as <-. reflexivity.
  - destruct pixels as [|r [|g [|b [|a rest]]]]; simpl in Hlen; try lia.
    cbn [binarize_chunks] in Hout.
    destruct (binarize_chunks rest) as [t|e] eqn:Et; [|discriminate].
    injection Hout as <-.
    unfold binarize_pixel. cbn [app binarize_chunks].
    rewrite (IH rest t); [reflexivity | lia | exact Et].
Qed.

Lemma max3_mono (r g b r' g' b' : Q) :
  r <= r' -> g <= g' -> b <= b' -> max3 r g b <= max3 r' g' b'.
Proof.
  intros Hr Hg Hb.
  pose proof (max3_upper r' g' b') as (H1 & H2 & H3).
  destruct (max3_cases r g b) as [E | [E | E]]; rewrite E; lra.
Qed.

End PixelEdges.

(** X1.  The post-processing loop needs whole pixels: on a buffer whose
    length is a multiple of four it returns a buffer of the same length,
    on any other buffer the unpacking of the last, short slice raises
    [ValueError]; the image is written only after the loop, so
    [postprocess] then leaves the scene as it found it. *)
Theorem binarize_needs_whole_pixels (pixels : list Q) :
  ((length pixels mod 4 = 0)%nat ->
   exists out, binarize pixels = Ok out /\ length out = length pixels) /\
  ((length pixels mod 4 <> 0)%nat ->
   binarize pixels = Raise ValueError /\
   forall (s : Scene) (img : nat) (im : Image),
     nth_error (images s) img = Some im ->
     img_pixels im = pixels ->
     postprocess img s = (Raise ValueError, s)).
Proof.
  split.
  - intros Hmod. apply Nat.Div0.div_exact in Hmod.
    apply (binarize_total pixels (length pixels / 4)). exact Hmod.
  - intros Hmod.
    assert (E : binarize pixels = Raise ValueError).
    { rewrite binarize_chunks_ok.
      apply (binarize_chunks_partial (length pixels)); [apply Nat.le_refl | exact Hmod]. }
    split; [exact E|].
    intros s img im Him Hpx. unfold postprocess.
    rewrite (bind_get_image _ _ _ _ Him). rewrite Hpx, E. reflexivity.
Qed.

Lemma binarize_needs_whole_pixels_witness :
  (exists out, binarize [0.5; 0.5; 0.5; 1] = Ok out /\ length out = 4%nat) /\
  binarize [0.5; 0.5; 0.5; 1; 0.25; 0.25] = Raise ValueError.
Proof.
  split.
  - apply (proj1 (binarize_needs_whole_pixels [0.5; 0.5; 0.5; 1])). reflexivity.
  - apply (proj2 (binarize_needs_whole_pixels [0.5; 0.5; 0.5; 1; 0.25; 0.25])).
    simpl. discriminate.
Defined.

(** X2.  A second pass of the loop makes every pixel opaque black,
    whatever the image was: the first pass has set the colours to zero,
    so the second computes the alpha [1 - 0]. *)
Theorem binarize_second_pass_opaque (pixels : list Q) (n : nat) :
  length pixels = (4 * n)%nat ->
  exists out,
    binarize pixels = Ok out /\
    binarize out = Ok (concat (repeat [0; 0; 0; 1] n)).
Proof.
  intros Hlen.
  destruct (binarize_total pixels n Hlen) as (out & Hout & _).
  exists out. split; [exact Hout|].
  rewrite binarize_chunks_ok in Hout. rewrite binarize_chunks_ok.
  exact (binarize_chunks_again n pixels out Hlen Hout).
Qed.

Lemma binarize_second_pass_opaque_witness :
  exists out,
    binarize [0.5; 0.2; 0.1; 1; 1; 1; 1; 1] = Ok out /\
    binarize out = Ok [0; 0; 0; 1; 0; 0; 0; 1].
Proof.
  exact (binarize_second_pass_opaque [0.5; 0.2; 0.1; 1; 1; 1; 1; 1] 2 eq_refl).
Defined.

(** X3.  The alpha the loop gives a pixel is graded, not a threshold: it
    is 0 exactly when the brightest colour channel is 1, positive as soon
    as that channel is below 1, and 1 on a black pixel; it is negative when
    a channel exceeds 1 (nothing is clamped), and a pixel that is no
    brighter than another in any channel gets an alpha at least as
    large. *)
Theorem binarize_alpha_is_graded (pixels out : list Q) (n : nat) :
  length pixels = (4 * n)%nat ->
  binarize pixels = Ok out ->
  forall k, (k < n)%nat ->
    let brightest :=
      Qmax (Qmax (channel pixels k 0) (channel pixels k 1)) (channel pixels k 2) in
    (channel out k 3 == 0 <-> brightest == 1) /\
    (brightest < 1 -> 0 < channel out k 3) /\
    (brightest == 0 -> channel out k 3 == 1) /\
    (1 < brightest -> channel out k 3 < 0) /\
    (forall j, (j < n)%nat ->
       channel pixels j 0 <= channel pixels k 0 ->
       channel pixels j 1 <= channel pixels k 1 ->
       channel pixels j 2 <= channel pixels k 2 ->
       channel out k 3 <= channel out j 3).
Proof.
  intros Hlen Hout k Hk brightest.
  destruct (binarize_chunks_channels n pixels Hlen) as (out' & Hout' & _ & Hch).
  rewrite binarize_chunks_ok, Hout' in Hout. injection Hout as <-.
  destruct (Hch k Hk) as (_ & _ & _ & H3).
  pose proof (max3_Qmax (channel pixels k 0) (channel pixels k 1) (channel pixels k 2))
    as Hmax.
  fold brightest in Hmax.
  rewrite H3. split; [|split; [|split; [|split]]].
  - rewrite Hmax. split; intros H; lra.
  - intros H. rewrite Hmax. lra.
  - intros H. rewrite Hmax. lra.
  - intros H. rewrite Hmax. lra.
  - intros j Hj H0 H1 H2. destruct (Hch j Hj) as (_ & _ & _ & H3j). rewrite H3j.
    pose proof (max3_mono _ _ _ _ _ _ H0 H1 H2). lra.
Qed.

Lemma binarize_alpha_is_graded_witness :
  exists out,
    binarize [1; 0.5; 0; 1; 0.25; 0; 0; 1] = Ok out /\
    channel out 0 3 == 0 /\ 0 < channel out 1 3.
Proof.
  destruct (binarize_total [1; 0.5; 0; 1; 0.25; 0; 0; 1] 2 eq_refl)
    as (out & Hout & _).
  exists out. split; [exact Hout|].
  pose proof (binarize_alpha_is_graded [1; 0.5; 0; 1; 0.25; 0; 0; 1] out 2
                eq_refl Hout) as H.
  split.
  - destruct (H 0%nat ltac:(lia)) as (H0 & _). apply H0. reflexivity.
  - destruct (H 1%nat ltac:(lia)) as (_ & H1 & _). apply H1. reflexivity.
Defined.
(* ================================================================== *)
(** * Bounding boxes *)

Section BoxFacts.

Lemma is_min_le_is_max (zs : list Q) (mn mx : Q) :
  is_min mn zs -> is_max mx zs -> mn <= mx.
Proof. intros (Hin & _) (_ & Hmax). apply Hmax. exact Hin. Qed.

Lemma inject_nat_succ (n : nat) :
  inject_Z (Z.of_nat (S n)) == inject_Z (Z.of_nat n) + 1.
Proof. rewrite Nat2Z.inj_succ. unfold Z.succ. rewrite inject_Z_plus. reflexivity. Qed.

Lemma inject_nat_pos (n : nat) : 0 < inject_Z (Z.of_nat (S n)).
Proof.
  rewrite inject_nat_succ.
  assert (0 <= inject_Z (Z.of_nat n)).
  { change 0 with (inject_Z 0). rewrite <- Zle_Qle. lia. }
  lra.
Qed.

(** The height of a sum of vectors lying between two heights. *)
Lemma fold_vadd_z (lo hi : Q) (l : list Vec3) :
  (forall v, In v l -> lo <= vz v <= hi) ->
  forall acc,
    vz acc + inject_Z (Z.of_nat (length l)) * lo <= vz (fold_left vadd l acc) /\
    vz (fold_left vadd l acc) <= vz acc + inject_Z (Z.of_nat (length l)) * hi.
Proof.
  induction l as [|v l IH]; intros Hl acc.
  - cbn [fold_left length]. change (inject_Z (Z.of_nat 0)) with 0. split; lra.
  - cbn [fold_left]. cbn [length]. rewrite inject_nat_succ.
    destruct (IH (fun w Hw => Hl w (or_intror Hw)) (vadd acc v)) as (H1 & H2).
    pose proof (Hl v (or_introl eq_refl)) as (Hv1 & Hv2).
    change (vz (vadd acc v)) with (vz acc + vz v) in H1, H2.
    set (N := inject_Z (Z.of_nat (length l))) in *.
    assert (E1 : (N + 1) * lo == N * lo + lo) by ring.
    assert (E2 : (N + 1) * hi == N * hi + hi) by ring.
    rewrite E1, E2. clear E1 E2.
    set (p := N * lo) in *. set (q := N * hi) in *.
    split; lra.
Qed.

End BoxFacts.

(** X4.  [bbox_min_max_z] returns the least and the greatest of the world
    heights of the corners of the bounding box, the third row of the world
    matrix applied to each local corner (x, y, z, 1): both are heights of
    corners, every corner lies between them, and the first is not above
    the second.  On an empty bounding box the [min]
    raises [ValueError]. *)
Theorem bbox_min_max_z_bounds (o : Object) :
  (bound_box o = [] -> bbox_min_max_z o = Raise ValueError) /\
  (bound_box o <> [] ->
   exists mn mx,
     bbox_min_max_z o = Ok (mn, mx) /\
     In mn (map (world_z o) (bound_box o)) /\
     In mx (map (world_z o) (bound_box o)) /\
     (forall c, In c (bound_box o) -> mn <= world_z o c /\ world_z o c <= mx) /\
     mn <= mx).
Proof.
  split.
  - intros E. unfold bbox_min_max_z, world_bbox_corners. rewrite E. reflexivity.
  - intros Hne.
    destruct (bbox_min_max_z_ok o Hne) as (mn & mx & Hrun & Hmin & Hmax).
    exists mn, mx. split; [exact Hrun|].
    split; [apply Hmin|]. split; [apply Hmax|]. split.
    + intros c Hc. split.
      * apply Hmin. apply in_map. exact Hc.
      * apply Hmax. apply in_map. exact Hc.
    + exact (is_min_le_is_max _ _ _ Hmin Hmax).
Qed.

(** The crate, a unit box scaled by two with its origin at height 3,
    reaches from height 3 to height 5. *)
Lemma bbox_min_max_z_bounds_witness :
  exists mn mx,
    bbox_min_max_z Samples.scaled_box = Ok (mn, mx) /\
    mn <= mx /\ mn == 3 /\ mx == 5.
Proof.
  destruct (proj2 (bbox_min_max_z_bounds Samples.scaled_box))
    as (mn & mx & Hrun & _ & _ & _ & Hle).
  - discriminate.
  - exists mn, mx. split; [exact Hrun|]. split; [exact Hle|].
    vm_compute in Hrun. injection Hrun as <- <-. split; reflexivity.
Defined.

(** X5.  The centre [fix_origin] computes for the bottom face of a
    non-empty bounding box is never a division by zero: the lowest corner
    is always among the corners averaged, so the fallback list is never
    used; the centre lies at most [1e-6] above the lowest corner and not
    below it.  An empty bounding box raises [ValueError]. *)
Theorem center_of_bottom_is_low (bb : list Vec3) :
  (bb = [] -> center_of_bottom bb = Raise ValueError) /\
  (bb <> [] ->
   exists c min_z,
     center_of_bottom bb = Ok c /\
     is_min min_z (map vz bb) /\
     filter (fun v => Qle_bool (Qabs (vz v - min_z)) 0.000001) bb <> [] /\
     min_z <= vz c /\ vz c <= min_z + 0.000001).
Proof.
  split; [intros ->; reflexivity|].
  intros Hne. unfold center_of_bottom.
  destruct bb as [|v0 bb]; [congruence|].
  cbn [map min_list res_bind]. cbv zeta.
  set (min_z := py_min (vz v0) (map vz bb)).
  pose proof (py_min_spec (map vz bb) (vz v0)) as Hmin. fold min_z in Hmin.
  change (vz v0 :: map vz bb) with (map vz (v0 :: bb)) in Hmin.
  destruct Hmin as (Hin & Hle).
  pose proof Hin as Hin'.
  apply in_map_iff in Hin'. destruct Hin' as (v & Hv & Hvin).
  remember (filter (fun v => Qle_bool (Qabs (vz v - min_z)) 0.000001) (v0 :: bb))
    as near eqn:Enear.
  assert (Hnear : In v near).
  { rewrite Enear. apply filter_In. split; [exact Hvin|].
    apply Qle_bool_iff. rewrite Hv. apply Qabs_Qle_condition. split; lra. }
  assert (Hrange : forall w, In w near -> min_z <= vz w <= min_z + 0.000001).
  { intros w Hw. rewrite Enear in Hw. apply filter_In in Hw. destruct Hw as (Hw & Hq).
    apply Qle_bool_iff in Hq. apply Qabs_Qle_condition in Hq.
    split; [apply Hle, in_map, Hw | lra]. }
  destruct near as [|w near']; [contradiction|].
  eexists. exists min_z. split; [reflexivity|].
  split; [split; [exact Hin | exact Hle]|].
  split; [rewrite <- Enear; discriminate|].
  pose proof (fold_vadd_z min_z (min_z + 0.000001) (w :: near') Hrange
                (vec3 0.0 0.0 0.0)) as (H1 & H2).
  pose proof (inject_nat_pos (length near')) as Hpos.
  change (S (length near')) with (length (w :: near')) in Hpos.
  unfold vdiv. cbn [vz] in *.
  split.
  - apply Qle_shift_div_l; [exact Hpos|]. lra.
  - apply Qle_shift_div_r; [exact Hpos|]. lra.
Qed.

Lemma center_of_bottom_is_low_witness :
  exists c, center_of_bottom (Samples.box_corners 2 1 0.75) = Ok c /\ vz c <= 0.000001.
Proof.
  destruct (proj2 (center_of_bottom_is_low (Samples.box_corners 2 1 0.75)))
    as (c & m & Hrun & Hmin & _ & _ & Hhi).
  - discriminate.
  - exists c. split; [exact Hrun|].
    assert (Hm : m <= 0).
    { apply Hmin. left. reflexivity. }
    lra.
Defined.
(* ================================================================== *)
(** * The plane, the image and the material *)

Section PlaneImageMaterial.

Variable env : Env.

Lemma bind_ret_r {A} (m : M A) (s : Scene) : bind m ret s = m s.
Proof. unfold bind, ret. destruct (m s) as [[a|e] s']; reflexivity. Qed.

Lemma settled_deselected (x : Object) :
  linked x = true -> select (settled env x) = false.
Proof.
  intros Hl. unfold settled, refresh, deselect. rewrite Hl. reflexivity.
Qed.

Lemma channel_white (n : nat) :
  forall k c, (k < n)%nat -> (c < 4)%nat ->
    channel (concat (repeat [1.0; 1.0; 1.0; 1.0] n)) k c = 1.0.
Proof.
  induction n as [|n IH]; intros k c Hk Hc; [lia|].
  cbn [repeat concat app].
  destruct k as [|k].
  - destruct c as [|[|[|[|c]]]]; try lia; reflexivity.
  - rewrite channel_skip4. apply IH; lia.
Qed.

Lemma set_hide_render_same (x : Object) : set_hide_render (hide_render x) x = x.
Proof. destruct x; reflexivity. Qed.

End PlaneImageMaterial.

(** X6.  Called in object mode, [create_plane_at] adds exactly one
    object, a mesh, which it leaves selected and active; the requested side length ends in the
    mesh, not in the object: the plane's scale is (1,1,1) and its vertices
    are those of the plane primitive multiplied by
    [(side_length/2, side_length/2, 1)].  Every other object keeps its
    name, type, transform, bounding box, dimensions and data, and is
    deselected when it is linked to the scene. *)
Theorem create_plane_at_adds_one_mesh (env : Env) (s : Scene) (obj : nat)
    (o : Object) (side_length : Q) :
  wf_scene s ->
  mode s = "OBJECT"%string ->
  lookup obj (objects s) = Some o ->
  bound_box o <> [] ->
  exists s' p,
    create_plane_at env obj side_length s = (Ok (next_handle s), s') /\
    handles s' = handles s ++ [next_handle s] /\
    lookup (next_handle s) (objects s') = Some p /\
    type p = "MESH"%string /\
    select p = true /\
    active_object s' = Some (next_handle s) /\
    scale p = vec3 1 1 1 /\
    vertices p
    = map (vmul (vec3 (side_length / 2.0) (side_length / 2.0) 1.0))
          (vertices (plane_object env 1.0 (cursor_location s))) /\
    (forall h x, lookup h (objects s) = Some x ->
       exists x', lookup h (objects s') = Some x' /\ same_body x x' /\
                  (linked x = true -> select x' = false)).
Proof.
  intros Hwf Hmode Ho Hne.
  destruct (bbox_min_max_z_ok o Hne) as (mn & mx & Hbb & _).
  eexists. exists (shadow_plane env o side_length mn (cursor_location s)).
  split; [exact (create_plane_at_run env s obj o side_length mn mx Hwf Hmode Ho Hbb)|].
  split.
  { unfold handles. cbn [objects]. rewrite map_app, map_map. reflexivity. }
  split.
  { cbn [objects]. apply lookup_fresh. apply fresh_map. apply wf_fresh. exact Hwf. }
  split; [reflexivity|]. split; [reflexivity|]. split; [reflexivity|].
  split; [reflexivity|]. split; [reflexivity|].
  intros h x Hx. exists (settled env x). split.
  - cbn [objects]. apply lookup_app_old. apply lookup_map_old. exact Hx.
  - split; [apply settled_body | apply settled_deselected].
Qed.

Lemma create_plane_at_adds_one_mesh_witness :
  exists s' p,
    create_plane_at (Samples.sample_env true true) 0%nat 2 Samples.single_scene
    = (Ok 1%nat, s') /\
    handles s' = [0; 1]%nat /\
    lookup 1%nat (objects s') = Some p /\
    scale p = vec3 1 1 1.
Proof.
  destruct (create_plane_at_adds_one_mesh (Samples.sample_env true true)
              Samples.single_scene 0%nat Samples.table 2)
    as (s' & p & Hrun & Hh & Hp & _ & _ & _ & Hs & _).
  - intros q [<- | []]. simpl. lia.
  - reflexivity.
  - reflexivity.
  - discriminate.
  - exists s', p. split; [exact Hrun|]. split; [exact Hh|].
    split; [exact Hp | exact Hs].
Defined.

(** X7.  For a positive width and height [create_image] returns: it
    appends one image of the given size to the images, every channel of
    every pixel of which is 1 (white, opaque), and returns it; the other
    images stay.  Post-processing such an image, one the renderer has not
    written, makes it fully transparent black. *)
Theorem create_image_is_white (nm : string) (width height : nat) (s : Scene) :
  (0 < width)%nat ->
  (0 < height)%nat ->
  exists im out,
    create_image nm width height s
    = (Ok (length (images s)), set_images (images s ++ [im]) s) /\
    img_size im = (width, height) /\
    length (img_pixels im) = (4 * (width * height))%nat /\
    binarize (img_pixels im) = Ok out /\
    forall k c, (k < width * height)%nat -> (c < 4)%nat ->
      channel (img_pixels im) k c == 1 /\ channel out k c == 0.
Proof.
  intros Hw Hh.
  pose proof (bind_create_image nm width height ret s) as Hrun.
  rewrite bind_ret_r in Hrun.
  set (px := concat (repeat [1.0; 1.0; 1.0; 1.0] (width * height))) in *.
  assert (Hlen : length px = (4 * (width * height))%nat).
  { unfold px. rewrite length_concat_repeat. reflexivity. }
  destruct (binarize_chunks_channels (width * height) px Hlen)
    as (out & Hout & _ & Hch).
  exists (mkImage nm (width, height) px "" "TARGA"), out.
  split; [exact Hrun|]. split; [reflexivity|]. split; [exact Hlen|].
  split; [rewrite binarize_chunks_ok; exact Hout|].
  intros k c Hk Hc. cbn [img_pixels]. split.
  - unfold px. rewrite channel_white by assumption. reflexivity.
  - destruct (Hch k Hk) as (H0 & H1 & H2 & H3).
    destruct c as [|[|[|[|c]]]]; try lia.
    + rewrite H0. reflexivity.
    + rewrite H1. reflexivity.
    + rewrite H2. reflexivity.
    + rewrite H3. unfold px. rewrite !channel_white by lia. reflexivity.
Qed.

Lemma create_image_is_white_witness :
  exists im out,
    create_image "t" 2 1 Samples.single_scene
    = (Ok 0%nat, set_images [im] Samples.single_scene) /\
    binarize (img_pixels im) = Ok out /\
    channel out 1 3 == 0.
Proof.
  destruct (create_image_is_white "t" 2 1 Samples.single_scene)
    as (im & out & Hrun & _ & _ & Hout & Hch).
  - lia.
  - lia.
  - exists im, out. split; [exact Hrun|]. split; [exact Hout|].
    apply (Hch 1%nat 3%nat); simpl; lia.
Defined.

(** X8.  [ensure_material_with_image] puts a new material, whose image
    node shows the given image with closest-pixel interpolation, in the
    first material slot of a mesh: the slot is replaced when the mesh has
    slots and added when it has none, the other slots and the vertices
    stay, and so do the other objects.  On an object whose data has no
    material slots the call raises [AttributeError] after the material has
    been created, which stays among the materials. *)
Theorem ensure_material_takes_first_slot (s : Scene) (obj img : nat)
    (im : Image) (o : Object) :
  nth_error (images s) img = Some im ->
  lookup obj (objects s) = Some o ->
  exists m,
    In (mkNode "ShaderNodeTexImage" (Some img) "Closest") (nodes m) /\
    (forall vs slots, data o = MeshData vs slots ->
       exists s' o',
         ensure_material_with_image obj img s = (Ok (length (materials s)), s') /\
         materials s' = materials s ++ [m] /\
         lookup obj (objects s') = Some o' /\
         data o' = MeshData vs (length (materials s) :: tl slots) /\
         (forall h, h <> obj -> lookup h (objects s') = lookup h (objects s))) /\
    ((forall vs slots, data o <> MeshData vs slots) ->
       ensure_material_with_image obj img s
       = (Raise AttributeError, set_materials (materials s ++ [m]) s)).
Proof.
  intros Him Ho. exists (shadow_material im img).
  split; [right; right; left; reflexivity|].
  split.
  - intros vs slots Hd.
    exists (set_objects
              (replace_object obj
                 (set_data (MeshData vs (length (materials s) :: tl slots)))
                 (objects s))
              (set_materials (materials s ++ [shadow_material im img]) s)).
    exists (set_data (MeshData vs (length (materials s) :: tl slots)) o).
    split; [|split; [|split; [|split]]].
    + unfold ensure_material_with_image.
      rewrite (bind_get_image _ _ _ _ Him).
      unfold materials_new at 1. unfold bind at 1.
      fold (shadow_material im img).
      erewrite bind_get_object by (cbn [objects set_materials]; exact Ho).
      rewrite Hd.
      destruct slots as [|m0 slots].
      * erewrite bind_update_object by (cbn [objects set_materials]; exact Ho).
        reflexivity.
      * erewrite bind_update_object by (cbn [objects set_materials]; exact Ho).
        reflexivity.
    + reflexivity.
    + cbn [objects set_objects]. apply lookup_replace_same. exact Ho.
    + reflexivity.
    + intros h Hh. cbn [objects set_objects set_materials].
      apply lookup_replace_other. exact Hh.
  - intros Hd. unfold ensure_material_with_image.
    rewrite (bind_get_image _ _ _ _ Him).
    unfold materials_new at 1. unfold bind at 1.
    fold (shadow_material im img).
    erewrite bind_get_object by (cbn [objects set_materials]; exact Ho).
    destruct (data o) as [vs slots| |] eqn:Ed.
    + exfalso. exact (Hd vs slots eq_refl).
    + reflexivity.
    + reflexivity.
Qed.

Lemma ensure_material_takes_first_slot_witness :
  exists s' o',
    ensure_material_with_image 0%nat 0%nat
      (set_images [mkImage "t" (1%nat, 1%nat) [1; 1; 1; 1] "" "TARGA"]
                  Samples.single_scene)
    = (Ok 0%nat, s') /\
    lookup 0%nat (objects s') = Some o' /\
    data o' = MeshData (Samples.box_corners 1 1 0.74) [0%nat].
Proof.
  destruct (ensure_material_takes_first_slot
              (set_images [mkImage "t" (1%nat, 1%nat) [1; 1; 1; 1] "" "TARGA"]
                          Samples.single_scene)
              0%nat 0%nat (mkImage "t" (1%nat, 1%nat) [1; 1; 1; 1] "" "TARGA")
              Samples.table eq_refl eq_refl) as (m & _ & Hmesh & _).
  destruct (Hmesh (Samples.box_corners 1 1 0.74) [] eq_refl)
    as (s' & o' & Hrun & _ & Ho' & Hd & _).
  exists s', o'. split; [exact Hrun|]. split; [exact Ho' | exact Hd].
Defined.

(** X9.  [isolate_mesh_render] on a mesh leaves that mesh visible to the
    renderer and hides every other mesh linked to the scene; objects that
    are not meshes, or not linked, keep their visibility, and nothing else
    changes.  On an object that is not a mesh it changes nothing. *)
Theorem isolate_mesh_render_hides_others (s : Scene) (obj : nat) (o : Object) :
  lookup obj (objects s) = Some o ->
  (type o = "MESH"%string ->
   exists obs,
     isolate_mesh_render obj s = (Ok tt, set_objects obs s) /\
     map fst obs = handles s /\
     forall h x, lookup h (objects s) = Some x ->
       lookup h obs
       = Some (set_hide_render
                 (if (h =? obj)%nat then false
                  else if linked x && (type x =? "MESH")%string then true
                       else hide_render x) x)) /\
  ((type o =? "MESH")%string = false ->
   isolate_mesh_render obj s = (Ok tt, s)).
Proof.
  intros Ho. split.
  - intros Ht.
    exists (replace_object obj (set_hide_render false)
              (map (fun p => (fst p, hidden (snd p))) (objects s))).
    split; [|split].
    + pose proof (bind_isolate_mesh_render obj ret s o Ho Ht) as Hrun.
      rewrite bind_ret_r in Hrun. exact Hrun.
    + unfold handles. rewrite handles_replace, handles_map. reflexivity.
    + intros h x Hx. destruct (h =? obj)%nat eqn:E.
      * apply Nat.eqb_eq in E. subst h.
        erewrite lookup_replace_same by (apply lookup_map_old; exact Hx).
        unfold hidden. destruct (linked x && (type x =? "MESH")%string).
        -- destruct x; reflexivity.
        -- reflexivity.
      * apply Nat.eqb_neq in E.
        rewrite lookup_replace_other by exact E.
        rewrite (lookup_map_old _ _ _ _ Hx). unfold hidden.
        destruct (linked x && (type x =? "MESH")%string).
        -- reflexivity.
        -- rewrite set_hide_render_same. reflexivity.
  - intros Ht. unfold isolate_mesh_render.
    rewrite (bind_get_object _ _ _ _ Ho). rewrite Ht. reflexivity.
Qed.

Lemma isolate_mesh_render_hides_others_witness :
  exists obs x,
    isolate_mesh_render 1%nat Samples.collection_scene
    = (Ok tt, set_objects obs Samples.collection_scene) /\
    lookup 2%nat obs = Some x /\ hide_render x = true.
Proof.
  destruct (proj1 (isolate_mesh_render_hides_others Samples.collection_scene
                     1%nat Samples.desk eq_refl) eq_refl)
    as (obs & Hrun & _ & Hvis).
  exists obs. eexists. split; [exact Hrun|].
  split; [exact (Hvis 2%nat Samples.wardrobe eq_refl) | reflexivity].
Defined.
(* ================================================================== *)
(** * The lights as objects *)

(** X10.  With a positive number of lights [N], [create_x_suns_around]
    adds exactly [N] objects, under fresh handles in creation order, and
    returns them; each is a light linked to the scene and not selected,
    with the scene's [strength] as energy and [radians(angle)] as angle,
    turned by the tracking rotation of the direction from the light to the
    object's location.  The objects that were in the scene are untouched,
    the active object stays, and the random generator is drawn from [N]
    times, or not at all when the lights are symmetric. *)
Theorem create_x_suns_around_adds_lights (env : Env) (s : Scene) (obj : nat)
    (o : Object) (distance : Q) :
  wf_scene s ->
  lookup obj (objects s) = Some o ->
  bound_box o <> [] ->
  (0 < numLights (props s))%Z ->
  exists lights s',
    create_x_suns_around env obj distance s = (Ok lights, s') /\
    lights = map (fun i => (next_handle s + i)%nat)
                 (seq 0 (Z.to_nat (numLights (props s)))) /\
    handles s' = handles s ++ lights /\
    (forall h x, lookup h (objects s) = Some x -> lookup h (objects s') = Some x) /\
    (forall h, In h lights ->
       exists l,
         lookup h (objects s') = Some l /\
         type l = "LIGHT"%string /\
         data l = LightData (strength (props s)) (radians env (angle (props s))) /\
         linked l = true /\ select l = false /\
         rotation_euler l = track_euler env (vsub (location o) (location l))) /\
    active_object s' = active_object s /\
    random_calls s'
    = (if simetric (props s) then random_calls s
       else random_calls s + Z.to_nat (numLights (props s)))%nat.
Proof.
  intros Hwf Ho Hne Hn.
  destruct (bbox_min_max_z_ok o Hne) as (mn & mx & Hbb & _).
  pose proof (create_x_suns_around_run env s obj o distance mn mx Hwf Ho Hbb Hn)
    as Hrun.
  set (n := Z.to_nat (numLights (props s))) in *.
  exists (map (fun i => (next_handle s + i)%nat) (seq 0 n)).
  exists (with_suns env o distance mx s n).
  split; [exact Hrun|]. split; [reflexivity|].
  split.
  { unfold handles, with_suns. cbn [objects]. rewrite map_app, map_map. reflexivity. }
  split.
  { intros h x Hx. unfold with_suns. cbn [objects]. apply lookup_app_old. exact Hx. }
  split.
  { intros h Hh. apply in_map_iff in Hh. destruct Hh as (i & <- & Hi).
    apply in_seq in Hi.
    exists (nth_sun env o (props s) distance mx (random_calls s) i).
    split; [apply with_suns_light; [exact Hwf | lia]|].
    repeat split. }
  split; reflexivity.
Qed.

Lemma create_x_suns_around_adds_lights_witness :
  exists s',
    create_x_suns_around (Samples.sample_env true true) 0%nat 1.0
                         Samples.single_scene
    = (Ok [1; 2; 3; 4]%nat, s') /\
    handles s' = [0; 1; 2; 3; 4]%nat /\
    random_calls s' = 0%nat.
Proof.
  destruct (create_x_suns_around_adds_lights (Samples.sample_env true true)
              Samples.single_scene 0%nat Samples.table 1.0)
    as (lights & s' & Hrun & -> & Hh & _ & _ & _ & Hr).
  - intros q [<- | []]. simpl. lia.
  - reflexivity.
  - discriminate.
  - simpl. lia.
  - exists s'. split; [exact Hrun|]. split; [exact Hh | exact Hr].
Defined.
(* ================================================================== *)
(** * What [make_shadow_plane] leaves behind *)

Section ShadowPlaneEffects.

Variable env : Env.

Lemma isolated_flags (x : Object) :
  same_body x (hidden (settled env x)) /\
  hide_render (hidden (settled env x))
  = (if linked x && (type x =? "MESH")%string then true else hide_render x) /\
  select (hidden (settled env x)) = (if linked x then false else select x).
Proof.
  split.
  - eapply same_body_trans; [apply settled_body | apply hidden_body].
  - destruct x as [nm ty loc rot sc mw bb dims dat sel hr lk].
    unfold hidden, settled, refresh, deselect.
    cbn [linked type select hide_render].
    destruct lk; cbn [linked type select hide_render set_select set_matrix_world
                      set_hide_render andb];
      destruct (ty =? "MESH")%string; split; reflexivity.
Qed.

Lemma hide_render_set_hide_render (v : bool) (x : Object) :
  hide_render (set_hide_render v x) = v.
Proof. reflexivity. Qed.

Lemma select_set_hide_render (v : bool) (x : Object) :
  select (set_hide_render v x) = select x.
Proof. destruct x; reflexivity. Qed.

Lemma data_set_hide_render (v : bool) (x : Object) :
  data (set_hide_render v x) = data x.
Proof. destruct x; reflexivity. Qed.

Lemma type_set_hide_render (v : bool) (x : Object) :
  type (set_hide_render v x) = type x.
Proof. destruct x; reflexivity. Qed.

Lemma same_body_set_hide_render (v : bool) (x : Object) :
  same_body x (set_hide_render v x).
Proof. unfold same_body. repeat split. Qed.

Lemma baked_plane_flags (o : Object) (mn : Q) (c : Vec3) (mat : nat) :
  hide_render (baked_plane env o mn c mat) = false /\
  type (baked_plane env o mn c mat) = "MESH"%string /\
  exists vs, data (baked_plane env o mn c mat) = MeshData vs [mat].
Proof.
  unfold baked_plane. split; [reflexivity|].
  destruct (shadow_plane_data env o (side_len_of (compute_radius_from_dimensions o))
              mn c) as (vs & Hvs).
  set (sp := shadow_plane env o (side_len_of (compute_radius_from_dimensions o)) mn c)
    in *.
  assert (Hty : type sp = "MESH"%string) by reflexivity.
  assert (Hw : with_material mat sp = set_data (MeshData vs [mat]) sp).
  { unfold with_material. rewrite Hvs. reflexivity. }
  rewrite Hw. clearbody sp.
  pose proof (hidden_body (set_data (MeshData vs [mat]) sp)) as Hb.
  destruct Hb as (_ & Hty' & _ & _ & _ & _ & _ & Hd & _).
  split.
  - rewrite type_set_hide_render, Hty'. destruct sp; exact Hty.
  - exists vs. rewrite data_set_hide_render, Hd. destruct sp; reflexivity.
Qed.

End ShadowPlaneEffects.

(** X12.  When [make_shadow_plane], called in object mode, returns, the
    only material slot of the plane holds a new material whose image node
    shows a new image of 128 x 128 pixels, and that image holds the
    post-processed output of the renderer, which was called on a scene
    with the objects the function returns with. *)
Theorem make_shadow_plane_texture (env : Env) (s : Scene) (obj : nat) (o : Object) :
  wf_scene s ->
  mode s = "OBJECT"%string ->
  lookup obj (objects s) = Some o ->
  type o = "MESH"%string ->
  bound_box o <> [] ->
  bake_succeeds env ->
  exists s' p vs m im st px,
    make_shadow_plane env obj s = (Ok (next_handle s), s') /\
    lookup (next_handle s) (objects s') = Some p /\
    data p = MeshData vs [length (materials s)] /\
    nth_error (materials s') (length (materials s)) = Some m /\
    In (mkNode "ShaderNodeTexImage" (Some (length (images s))) "Closest") (nodes m) /\
    nth_error (images s') (length (images s)) = Some im /\
    img_size im = (128%nat, 128%nat) /\
    objects st = objects s' /\
    bake env st (length (images s)) = Some px /\
    binarize px = Ok (img_pixels im).
Proof.
  intros Hwf Hmode Ho Ht Hne Hbake.
  destruct (bbox_min_max_z_ok o Hne) as (mn & mx & Hbb & _).
  destruct (make_shadow_plane_run env s obj o mn mx Hwf Hmode Ho Ht Hbb Hbake)
    as (px & out & Hpx & Hout & Hrun).
  destruct (baked_plane_flags env o mn (cursor_location s) (length (materials s)))
    as (_ & _ & vs & Hd).
  exists (after_shadow_plane env obj o mn out s).
  exists (baked_plane env o mn (cursor_location s) (length (materials s))).
  exists vs. eexists. eexists.
  exists (after_shadow_plane env obj o mn white_pixels s), px.
  split; [exact Hrun|].
  split; [apply after_shadow_plane_lookup; exact Hwf|].
  split; [exact Hd|].
  split; [unfold after_shadow_plane; cbn [materials]; apply nth_error_last|].
  split; [right; right; left; reflexivity|].
  split; [unfold after_shadow_plane; cbn [images]; apply nth_error_last|].
  split; [reflexivity|]. split; [reflexivity|].
  split; [exact Hpx | exact Hout].
Qed.

Lemma make_shadow_plane_texture_witness :
  exists s' im,
    make_shadow_plane (Samples.sample_env true true) 0%nat Samples.single_scene
    = (Ok 1%nat, s') /\
    nth_error (images s') 0 = Some im /\
    img_size im = (128%nat, 128%nat).
Proof.
  destruct (make_shadow_plane_texture (Samples.sample_env true true)
              Samples.single_scene 0%nat Samples.table)
    as (s' & p & vs & m & im & st & px & Hrun & _ & _ & _ & _ & Him & Hsz & _).
  - intros q [<- | []]. simpl. lia.
  - reflexivity.
  - reflexivity.
  - reflexivity.
  - discriminate.
  - apply sample_bake_succeeds.
  - exists s', im. split; [exact Hrun|]. split; [exact Him | exact Hsz].
Defined.

(** X13.  When [make_shadow_plane], called in object mode, returns, the
    scene holds one object more, the plane; the plane and the object it
    was made for are visible to the renderer and every other mesh linked
    to the scene is hidden from it, while the objects that were in the
    scene keep their name, type, transform, bounding box, dimensions and
    data; the render settings are Cycles, shadow bake, CPU, 64 samples,
    without selected-to-active.  Neither the visibility nor the settings
    are put back. *)
Theorem make_shadow_plane_isolates (env : Env) (s : Scene) (obj : nat) (o : Object) :
  wf_scene s ->
  mode s = "OBJECT"%string ->
  lookup obj (objects s) = Some o ->
  type o = "MESH"%string ->
  bound_box o <> [] ->
  bake_succeeds env ->
  exists s' p,
    make_shadow_plane env obj s = (Ok (next_handle s), s') /\
    handles s' = handles s ++ [next_handle s] /\
    lookup (next_handle s) (objects s') = Some p /\
    type p = "MESH"%string /\
    hide_render p = false /\
    (forall h x, lookup h (objects s) = Some x ->
       exists x',
         lookup h (objects s') = Some x' /\ same_body x x' /\
         hide_render x'
         = (if (h =? obj)%nat then false
            else if linked x && (type x =? "MESH")%string then true
                 else hide_render x)) /\
    render s' = mkRender "CYCLES" "SHADOW" "CPU" (denoiser (render s)) 64 false.
Proof.
  intros Hwf Hmode Ho Ht Hne Hbake.
  destruct (bbox_min_max_z_ok o Hne) as (mn & mx & Hbb & _).
  destruct (make_shadow_plane_run env s obj o mn mx Hwf Hmode Ho Ht Hbb Hbake)
    as (px & out & _ & _ & Hrun).
  destruct (baked_plane_flags env o mn (cursor_location s) (length (materials s)))
    as (Hhr & Hty & _).
  exists (after_shadow_plane env obj o mn out s).
  exists (baked_plane env o mn (cursor_location s) (length (materials s))).
  split; [exact Hrun|].
  split; [apply after_shadow_plane_handles|].
  split; [apply after_shadow_plane_lookup; exact Hwf|].
  split; [exact Hty|]. split; [exact Hhr|].
  split; [|reflexivity].
  intros h x Hx.
  destruct (isolated_flags env x) as (Hb & Hh & _).
  eexists. split; [apply after_shadow_plane_old; exact Hx|].
  destruct (h =? obj)%nat.
  - split; [|reflexivity].
    eapply same_body_trans; [exact Hb | apply same_body_set_hide_render].
  - split; [exact Hb | exact Hh].
Qed.

Lemma make_shadow_plane_isolates_witness :
  exists s' x,
    make_shadow_plane (Samples.sample_env true true) 1%nat Samples.collection_scene
    = (Ok 3%nat, s') /\
    lookup 2%nat (objects s') = Some x /\
    hide_render x = true.
Proof.
  destruct (make_shadow_plane_isolates (Samples.sample_env true true)
              Samples.collection_scene 1%nat Samples.desk)
    as (s' & p & Hrun & _ & _ & _ & _ & Hold & _).
  - intros q [<- | [<- | [<- | []]]]; simpl; lia.
  - reflexivity.
  - reflexivity.
  - reflexivity.
  - discriminate.
  - apply sample_bake_succeeds.
  - destruct (Hold 2%nat Samples.wardrobe eq_refl) as (x' & Hx' & _ & Hh).
    exists s', x'. split; [exact Hrun|]. split; [exact Hx' | exact Hh].
Defined.
(* ================================================================== *)
(** * What the export operator leaves behind, and when it cancels *)

Section ExportEffects.

Variable env : Env.

Lemma deselect_flags (y : Object) :
  hide_render (deselect y) = hide_render y /\
  select (deselect y) = (if linked y then false else select y).
Proof.
  unfold deselect. destruct (linked y); split; reflexivity.
Qed.

Lemma set_select_flags (v : bool) (y : Object) :
  hide_render (set_select v y) = hide_render y /\ select (set_select v y) = v.
Proof. destruct y; split; reflexivity. Qed.

Lemma linked_hidden_settled (x : Object) : linked (hidden (settled env x)) = linked x.
Proof. destruct (isolated_flags env x) as (Hb & _). apply Hb. Qed.

Lemma linked_set_hide_render (v : bool) (x : Object) :
  linked (set_hide_render v x) = linked x.
Proof. destruct x; reflexivity. Qed.

(** What the export makes of an object that was in the scene: its
    visibility to the renderer and its selection. *)
Lemma exported_old (s : Scene) (obj : nat) (o : Object) (mn mx : Q) (px : list Q)
    (h : nat) (x : Object) :
  wf_scene s ->
  lookup h (objects s) = Some x ->
  exists x',
    lookup h (objects (exported env obj o mn mx px s)) = Some x' /\
    hide_render x'
    = (if (h =? obj)%nat then false
       else if linked x && (type x =? "MESH")%string then true
            else hide_render x) /\
    select x'
    = (if (h =? obj)%nat then true else if linked x then false else select x).
Proof.
  intros Hwf Hx.
  assert (Hlt : (h < next_handle s)%nat) by exact (wf_lookup_lt _ _ _ Hwf Hx).
  set (s1 := with_suns env o 1.0 mx s (light_count s)).
  assert (Hx1 : lookup h (objects s1) = Some x).
  { unfold s1, with_suns. cbn [objects]. apply lookup_app_old. exact Hx. }
  pose proof (after_shadow_plane_old env s1 obj o mn px h x Hx1) as Hy.
  set (y := if (h =? obj)%nat then set_hide_render false (hidden (settled env x))
            else hidden (settled env x)) in *.
  assert (Hyf : hide_render y
                = (if (h =? obj)%nat then false
                   else if linked x && (type x =? "MESH")%string then true
                        else hide_render x) /\
                select y = (if linked x then false else select x) /\
                linked y = linked x).
  { destruct (isolated_flags env x) as (_ & Hh & Hs). unfold y.
    destruct (h =? obj)%nat.
    - rewrite select_set_hide_render, linked_set_hide_render, linked_hidden_settled.
      split; [reflexivity|]. split; [exact Hs | reflexivity].
    - rewrite linked_hidden_settled. split; [exact Hh|]. split; [exact Hs | reflexivity]. }
  clearbody y. destruct Hyf as (Hyh & Hys & Hyl).
  assert (Hstaged :
    lookup h (objects (staged env obj o mn mx px s))
    = Some (if (h =? obj)%nat then set_select true (deselect y) else deselect y)).
  { unfold staged, ready_to_export. fold s1. cbn [objects].
    assert (Hd : lookup h (replace_object (plane_handle s) (set_select true)
                             (map (fun p => (fst p, deselect (snd p)))
                                (objects (after_shadow_plane env obj o mn px s1))))
                 = Some (deselect y)).
    { rewrite lookup_replace_other by (unfold plane_handle; lia).
      apply lookup_map_old. exact Hy. }
    destruct (h =? obj)%nat eqn:E.
    - apply Nat.eqb_eq in E. subst h. apply lookup_replace_same. exact Hd.
    - apply Nat.eqb_neq in E. rewrite lookup_replace_other by exact E. exact Hd. }
  eexists. split.
  - unfold exported, without, with_file. cbn [objects].
    rewrite (lookup_filter_keep (fun a => negb (removed (light_handles s) a))).
    + rewrite (lookup_filter_keep (fun a => negb (removed [plane_handle s] a))).
      * exact Hstaged.
      * rewrite removed_single. apply negb_true_iff, Nat.eqb_neq.
        unfold plane_handle. lia.
    + apply negb_true_iff, removed_not_In. intros Hin.
      apply light_handles_spec in Hin. lia.
  - destruct (deselect_flags y) as (Dh & Ds).
    destruct (h =? obj)%nat.
    + destruct (set_select_flags true (deselect y)) as (Sh & Ss).
      rewrite Sh, Ss, Dh, Hyh. split; reflexivity.
    + rewrite Dh, Ds, Hyh, Hyl, Hys. split; [reflexivity|].
      destruct (linked x); reflexivity.
Qed.

Lemma in_object_mode_rest (s : Scene) :
  images (in_object_mode s) = images s /\
  materials (in_object_mode s) = materials s /\
  render (in_object_mode s) = render s /\
  active_object (in_object_mode s) = active_object s /\
  cursor_location (in_object_mode s) = cursor_location s.
Proof.
  unfold in_object_mode. destruct (negb (mode s =? "OBJECT")%string); repeat split.
Qed.

End ExportEffects.

(** A computation that returned went through each of its steps. *)
Lemma bind_returned {A B} (m : M A) (k : A -> M B) (s s' : Scene) (r : B) :
  bind m k s = (Ok r, s') ->
  exists a s1, m s = (Ok a, s1) /\ k a s1 = (Ok r, s').
Proof.
  unfold bind. destruct (m s) as [[a|e] s1]; intros H; [|discriminate].
  exists a, s1. split; [reflexivity | exact H].
Qed.

(** Whether a computation written as a chain of steps ending in
    [ret FINISHED] can have returned [CANCELLED]. *)
Ltac finished_only H :=
  lazymatch type of H with
  | bind _ _ _ = (Ok _, _) =>
      let a := fresh "a" in
      let s1 := fresh "s1" in
      let H1 := fresh "H1" in
      apply bind_returned in H; destruct H as (a & s1 & _ & H1);
      cbv beta in H1; finished_only H1
  | _ => discriminate H
  end.

(** X14.  A successful single-object export, on a mesh target of the view
    layer, does not put the scene back as it was: the target is the active
    and the only selected object among those linked to the scene, it is
    visible to the renderer and every other linked mesh is hidden from it;
    the mode is object mode, the render settings are those of
    [setup_render], and the image and the material made for the plane stay
    in the file's data although the plane is removed. *)
Theorem export_leaves_scene_changed (env : Env) (s : Scene) (t : nat) (o : Object) :
  wf_scene s ->
  targetObj (props s) = Some t ->
  lookup t (objects s) = Some o ->
  type o = "MESH"%string ->
  linked o = true ->
  bound_box o <> [] ->
  isdir env (pathToFile (props s)) = true ->
  (1 <= numLights (props s))%Z ->
  bake_succeeds env ->
  export_succeeds env ->
  exists s' im m,
    export_obj_glb_execute env s = (Ok FINISHED, s') /\
    active_object s' = Some t /\
    mode s' = "OBJECT"%string /\
    render s' = mkRender "CYCLES" "SHADOW" "CPU" (denoiser (render s)) 64 false /\
    images s' = images s ++ [im] /\
    materials s' = materials s ++ [m] /\
    forall h x, lookup h (objects s) = Some x ->
      exists x',
        lookup h (objects s') = Some x' /\
        hide_render x'
        = (if (h =? t)%nat then false
           else if linked x && (type x =? "MESH")%string then true
                else hide_render x) /\
        select x'
        = (if (h =? t)%nat then true else if linked x then false else select x).
Proof.
  intros Hwf Htarget Ho Ht Hl Hne Hdir Hn Hbake Hexport.
  destruct (bbox_min_max_z_ok o Hne) as (mn & mx & Hbb & _).
  destruct (export_obj_glb_execute_run env s t o mn mx Hwf Htarget Ho Ht Hl Hbb Hdir
              ltac:(lia) Hbake) as (px & Hok & _).
  destruct (in_object_mode_fields s) as (Eo & En & Ep & Ef & Er).
  destruct (in_object_mode_rest s) as (Ei & Em & Ere & Ea & Ec).
  pose proof (in_object_mode_mode s) as Emode.
  pose proof (in_object_mode_wf s Hwf) as Hwf'.
  set (s0 := in_object_mode s) in *.
  exists (set_active_object (Some t) (exported env t o mn mx px s0)).
  eexists. eexists.
  split; [apply Hok, Hexport|].
  split; [reflexivity|].
  split; [exact Emode|].
  split.
  { change (render (set_active_object (Some t) (exported env t o mn mx px s0)))
      with (mkRender "CYCLES" "SHADOW" "CPU" (denoiser (render s0)) 64 false).
    rewrite Ere. reflexivity. }
  split.
  { change (images (set_active_object (Some t) (exported env t o mn mx px s0)))
      with (images s0
            ++ [mkImage (name o ++ "_shadow_tex")%string (128%nat, 128%nat) px
                        "" "TARGA"]).
    rewrite Ei. reflexivity. }
  split.
  { change (materials (set_active_object (Some t) (exported env t o mn mx px s0)))
      with (materials s0
            ++ [shadow_material
                  (mkImage (name o ++ "_shadow_tex")%string (128%nat, 128%nat)
                           white_pixels "" "TARGA")
                  (length (images s0))]).
    rewrite Em. reflexivity. }
  intros h x Hx. rewrite <- Eo in Hx.
  change (objects (set_active_object (Some t) (exported env t o mn mx px s0)))
    with (objects (exported env t o mn mx px s0)).
  exact (exported_old env s0 t o mn mx px h x Hwf' Hx).
Qed.

Lemma export_leaves_scene_changed_witness :
  exists s' x,
    export_obj_glb_execute (Samples.sample_env true true)
      (Samples.scene_of [Samples.table; Samples.desk]
         (mkProps "/out" 13.3 true 5.0 None (Some 0%nat) 4 "Table"))
    = (Ok FINISHED, s') /\
    active_object s' = Some 0%nat /\
    lookup 1%nat (objects s') = Some x /\
    hide_render x = true.
Proof.
  destruct (export_leaves_scene_changed (Samples.sample_env true true)
              (Samples.scene_of [Samples.table; Samples.desk]
                 (mkProps "/out" 13.3 true 5.0 None (Some 0%nat) 4 "Table"))
              0%nat Samples.table)
    as (s' & im & m & Hrun & Ha & _ & _ & _ & _ & Hold).
  - apply scene_of_wf.
  - reflexivity.
  - reflexivity.
  - reflexivity.
  - reflexivity.
  - discriminate.
  - reflexivity.
  - simpl. lia.
  - apply sample_bake_succeeds.
  - intros st path. reflexivity.
  - destruct (Hold 1%nat Samples.desk eq_refl) as (x' & Hx' & Hh & _).
    exists s', x'. split; [exact Hrun|]. split; [exact Ha|].
    split; [exact Hx' | exact Hh].
Defined.

(** X15.  The single-object export cancels, after having switched to
    object mode, with one error report and nothing else changed: "No
    target object selected" without a target; otherwise "Invalid path"
    when the folder is not a directory, whatever the target is; otherwise
    "Target object is not a mesh" when it is none.  It cancels in no other
    case: past these checks it finishes or raises. *)
Theorem export_cancels_with_report (env : Env) (s : Scene) :
  let cancelled (msg : string) :=
    (Ok CANCELLED,
     set_reports (("ERROR"%string, msg) :: reports (in_object_mode s))
                 (in_object_mode s))
  in
  (targetObj (props s) = None ->
   export_obj_glb_execute env s = cancelled "No target object selected"%string) /\
  (forall t,
     targetObj (props s) = Some t ->
     isdir env (pathToFile (props s)) = false ->
     export_obj_glb_execute env s = cancelled "Invalid path"%string) /\
  (forall t o,
     targetObj (props s) = Some t ->
     isdir env (pathToFile (props s)) = true ->
     lookup t (objects s) = Some o ->
     (type o =? "MESH")%string = false ->
     export_obj_glb_execute env s = cancelled "Target object is not a mesh"%string) /\
  (forall s',
     export_obj_glb_execute env s = (Ok CANCELLED, s') ->
     targetObj (props s) = None \/
     isdir env (pathToFile (props s)) = false \/
     exists t o, targetObj (props s) = Some t /\
                 lookup t (objects s) = Some o /\
                 (type o =? "MESH")%string = false).
Proof.
  intros cancelled. unfold cancelled.
  destruct (in_object_mode_fields s) as (Eo & En & Ep & Ef & Er).
  split; [|split; [|split]].
  - intros Ht. unfold export_obj_glb_execute.
    rewrite bind_gets, bind_mode_check, bind_gets, Ep, Ht. reflexivity.
  - intros t Ht Hdir. unfold export_obj_glb_execute.
    rewrite bind_gets, bind_mode_check, bind_gets, Ep, Ht.
    rewrite bind_gets, Ep, Hdir. reflexivity.
  - intros t o Ht Hdir Ho Hty. unfold export_obj_glb_execute.
    rewrite bind_gets, bind_mode_check, bind_gets, Ep, Ht.
    rewrite bind_gets, Ep, Hdir. cbn [negb].
    erewrite bind_get_object by (rewrite Eo; exact Ho).
    rewrite Hty. reflexivity.
  - intros s' Hrun. unfold export_obj_glb_execute in Hrun.
    rewrite bind_gets, bind_mode_check, bind_gets, Ep in Hrun.
    destruct (targetObj (props s)) as [t|]; [|left; reflexivity].
    rewrite bind_gets, Ep in Hrun.
    destruct (isdir env (pathToFile (props s))); [|right; left; reflexivity].
    cbn [negb] in Hrun. right. right.
    apply bind_returned in Hrun. destruct Hrun as (o & s1 & Hget & Hrun).
    unfold get_object in Hget. rewrite Eo in Hget.
    destruct (lookup t (objects s)) as [o'|] eqn:Ho; [|discriminate].
    injection Hget as -> <-.
    exists t, o. split; [reflexivity|]. split; [exact Ho|].
    destruct (type o =? "MESH")%string; [|reflexivity].
    exfalso. cbn [negb] in Hrun. finished_only Hrun.
Qed.

Lemma export_cancels_with_report_witness :
  export_obj_glb_execute (Samples.sample_env true true)
    (Samples.scene_of [Samples.table]
       (mkProps "/out" 13.3 true 5.0 None None 4 "Table"))
  = (Ok CANCELLED,
     set_reports [("ERROR", "No target object selected")%string]
       (Samples.scene_of [Samples.table]
          (mkProps "/out" 13.3 true 5.0 None None 4 "Table"))).
Proof.
  exact (proj1 (export_cancels_with_report (Samples.sample_env true true)
                  (Samples.scene_of [Samples.table]
                     (mkProps "/out" 13.3 true 5.0 None None 4 "Table")))
               eq_refl).
Defined.
(* ================================================================== *)
(** * The bake operator *)

Section BakeOperator.

Variable env : Env.

Lemma settled_flags (x : Object) :
  hide_render (settled env x) = hide_render x.
Proof.
  unfold settled, refresh, deselect. destruct (linked x); reflexivity.
Qed.

(** [OBJECT_OT_bake_shadow_texture.execute] on a mesh, up to the call of
    the renderer. *)
Lemma bake_operator_stage (s : Scene) (sel : nat) (o : Object) (mn mx mn' mx' : Q) :
  wf_scene s ->
  mode s = "OBJECT"%string ->
  denoiser_offered env "OPTIX" = true ->
  active_object s = Some sel ->
  lookup sel (objects s) = Some o ->
  type o = "MESH"%string ->
  bbox_min_max_z o = Ok (mn, mx) ->
  bbox_min_max_z (settled env o) = Ok (mn', mx') ->
  (0 < numLights (props s))%Z ->
  bake_shadow_texture_execute env s
  = bind (object_bake env (length (images s)))
      (fun _ =>
         bind (postprocess (length (images s)))
           (fun _ =>
              bind (update_image (length (images s))
                      (fun im => mkImage (img_name im) (img_size im)
                                   (img_pixels im)
                                   (path_join env (blend_dir env) "baked_shadow.png")
                                   "PNG"))
                (fun _ =>
                   bind (image_save env (length (images s)))
                     (fun _ =>
                        bind (report "INFO"
                                ("Baked shadow saved to: "
                                 ++ path_join env (blend_dir env)
                                      "baked_shadow.png")%string)
                          (fun _ => ret FINISHED)))))
      (with_suns env (settled env o) 1.0 mx' (bake_ready env o mn s)
                 (light_count s)).
Proof.
  intros Hwf Hm Hoptix Hact Ho Ht Hbb Hbb' Hn.
  assert (Hne : sel <> next_handle s)
    by (pose proof (wf_lookup_lt _ _ _ Hwf Ho); lia).
  destruct (shadow_plane_data env o (side_len_of (compute_radius_from_dimensions o))
              mn (cursor_location s)) as (vs & Hvs).
  assert (Hwm : with_material (length (materials s))
                  (shadow_plane env o
                     (side_len_of (compute_radius_from_dimensions o)) mn
                     (cursor_location s))
                = set_data (MeshData vs [length (materials s)])
                    (shadow_plane env o
                       (side_len_of (compute_radius_from_dimensions o)) mn
                       (cursor_location s))).
  { unfold with_material. rewrite Hvs. reflexivity. }
  assert (Hwf3 : wf_scene (bake_ready env o mn s)).
  { intros q Hq. unfold bake_ready in *. cbn [objects next_handle] in *.
    apply in_app_or in Hq. destruct Hq as [Hq | [<- | []]].
    - apply in_map_iff in Hq. destruct Hq as (q0 & <- & Hq0).
      specialize (Hwf q0 Hq0). simpl. lia.
    - simpl. lia. }
  assert (Ho3 : lookup sel (objects (bake_ready env o mn s)) = Some (settled env o)).
  { unfold bake_ready. cbn [objects]. apply lookup_app_old, lookup_map_old. exact Ho. }
  assert (Hn3 : (0 < numLights (props (bake_ready env o mn s)))%Z) by exact Hn.
  pose proof (create_x_suns_around_run env (bake_ready env o mn s) sel
                (settled env o) 1.0 mn' mx' Hwf3 Ho3 Hbb' Hn3) as Hsuns.
  change (Z.to_nat (numLights (props (bake_ready env o mn s))))
    with (light_count s) in Hsuns.
  unfold bake_shadow_texture_execute. rewrite bind_gets, Hact.
  rewrite (bind_get_object _ _ _ _ Ho). rewrite Ht.
  cbn [String.eqb Ascii.eqb Bool.eqb negb].
  rewrite bind_bake_settings by exact Hoptix. mget.
  erewrite bind_ok
    by (apply (create_plane_at_run env _ sel o _ mn mx);
        [ exact Hwf | exact Hm | exact Ho | exact Hbb ]).
  sc. mget. rewrite bind_create_image. fold white_pixels. sc.
  erewrite bind_ensure_material
    by (sc; first [ apply nth_error_last | lk | exact Hvs ]).
  sc. rewrite replace_fresh by fr. rewrite settled_name.
  rewrite <- Hwm.
  fold (bake_ready env o mn s).
  rewrite (bind_ok _ _ _ _ _ Hsuns).
  reflexivity.
Qed.

Lemma settled_bbox_ok (o : Object) :
  bound_box o <> [] ->
  exists mn' mx', bbox_min_max_z (settled env o) = Ok (mn', mx').
Proof.
  intros Hne.
  assert (Hbox : bound_box (settled env o) <> [])
    by (rewrite settled_bound_box; exact Hne).
  destruct (bbox_min_max_z_ok (settled env o) Hbox) as (mn' & mx' & H & _).
  exists mn', mx'. exact H.
Qed.

(** The whole operator on a mesh, on a host that offers the OptiX denoiser:
    it finishes when the image file can be written, and raises at the save
    otherwise. *)
Lemma bake_operator_run (s : Scene) (sel : nat) (o : Object) :
  wf_scene s ->
  mode s = "OBJECT"%string ->
  denoiser_offered env "OPTIX" = true ->
  active_object s = Some sel ->
  lookup sel (objects s) = Some o ->
  type o = "MESH"%string ->
  bound_box o <> [] ->
  (0 < numLights (props s))%Z ->
  bake_succeeds env ->
  exists mn mx' px out,
    let st := with_suns env (settled env o) 1.0 mx' (bake_ready env o mn s)
                        (light_count s) in
    is_min mn (map (world_z o) (bound_box o)) /\
    bake env st (length (images s)) = Some px /\
    binarize px = Ok out /\
    (writable env (baked_shadow_path env) = true ->
     bake_shadow_texture_execute env s = (Ok FINISHED, bake_saved env o out st)) /\
    (writable env (baked_shadow_path env) = false ->
     exists s',
       bake_shadow_texture_execute env s = (Raise RuntimeError, s') /\
       objects s' = objects st /\
       files s' = files s /\ reports s' = reports s).
Proof.
  intros Hwf Hm Hoptix Hact Ho Ht Hne Hn Hbake.
  destruct (bbox_min_max_z_ok o Hne) as (mn & mx & Hbb & Hmin & _).
  destruct (settled_bbox_ok o Hne) as (mn' & mx' & Hbb').
  pose proof (bake_operator_stage s sel o mn mx mn' mx' Hwf Hm Hoptix Hact Ho Ht
                Hbb Hbb' Hn)
    as Hstage.
  set (st := with_suns env (settled env o) 1.0 mx' (bake_ready env o mn s)
                       (light_count s)) in *.
  destruct (Hbake st (length (images s))) as (px & npx & Hpx & Hlen).
  destruct (binarize_total px npx Hlen) as (out & Hout & Hlout).
  exists mn, mx', px, out. cbv zeta. fold st.
  split; [exact Hmin|]. split; [exact Hpx|]. split; [exact Hout|].
  assert (Himgs : images st
                  = images s ++ [mkImage (name o ++ "_shadow_tex")%string
                                         (128%nat, 128%nat) white_pixels "" "TARGA"])
    by reflexivity.
  split; intros Hsave.
  - rewrite Hstage.
    erewrite bind_object_bake_last by (first [ exact Himgs | exact Hpx ]).
    erewrite bind_postprocess_last
      by (first [ reflexivity | exact Hout | exact Hlout ]).
    erewrite bind_update_image_last by reflexivity.
    unfold image_save. rewrite bind_assoc.
    erewrite bind_get_image by (cbn [images set_images]; apply nth_error_last).
    cbn [filepath_raw]. fold (baked_shadow_path env). rewrite Hsave.
    unfold report. rewrite !bind_modify.
    unfold bake_saved. rewrite Himgs, removelast_last.
    reflexivity.
  - eexists. split.
    + rewrite Hstage.
      erewrite bind_object_bake_last by (first [ exact Himgs | exact Hpx ]).
      erewrite bind_postprocess_last
        by (first [ reflexivity | exact Hout | exact Hlout ]).
      erewrite bind_update_image_last by reflexivity.
      unfold image_save. rewrite bind_assoc.
      erewrite bind_get_image by (cbn [images set_images]; apply nth_error_last).
      cbn [filepath_raw]. fold (baked_shadow_path env). rewrite Hsave.
      reflexivity.
    + split; [reflexivity|]. split; reflexivity.
Qed.

(** Where the OptiX denoiser is not offered, the operator stops at the
    assignment of [scene.cycles.denoiser], with the engine, the device and
    the bake type already set. *)
Lemma bake_operator_no_optix (s : Scene) (sel : nat) (o : Object) :
  active_object s = Some sel ->
  lookup sel (objects s) = Some o ->
  type o = "MESH"%string ->
  denoiser_offered env "OPTIX" = false ->
  bake_shadow_texture_execute env s
  = (Raise TypeError,
     set_render (mkRender "CYCLES" "SHADOW" "GPU" (denoiser (render s))
                          (samples (render s))
                          (use_selected_to_active (render s))) s).
Proof.
  intros Hact Ho Ht Hoptix.
  unfold bake_shadow_texture_execute. rewrite bind_gets, Hact.
  rewrite (bind_get_object _ _ _ _ Ho). rewrite Ht.
  cbn [String.eqb Ascii.eqb Bool.eqb negb].
  unfold assign_denoiser. rewrite Hoptix. unfold update_render.
  rewrite !bind_modify. reflexivity.
Qed.

End BakeOperator.

(** X16.  The bake operator cancels with the error report "Active object
    must be a mesh", and changes nothing else, when there is no active
    object and when the active object is not a mesh; it cancels in no
    other case: on a mesh it finishes or raises. *)
Theorem bake_cancels_without_mesh (env : Env) (s : Scene) :
  let cancelled :=
    (Ok CANCELLED,
     set_reports (("ERROR", "Active object must be a mesh")%string :: reports s) s)
  in
  (active_object s = None -> bake_shadow_texture_execute env s = cancelled) /\
  (forall sel o,
     active_object s = Some sel ->
     lookup sel (objects s) = Some o ->
     (type o =? "MESH")%string = false ->
     bake_shadow_texture_execute env s = cancelled) /\
  (forall s',
     bake_shadow_texture_execute env s = (Ok CANCELLED, s') ->
     active_object s = None \/
     exists sel o, active_object s = Some sel /\
                   lookup sel (objects s) = Some o /\
                   (type o =? "MESH")%string = false).
Proof.
  cbv zeta. split; [|split].
  - intros Ha. unfold bake_shadow_texture_execute. rewrite bind_gets, Ha. reflexivity.
  - intros sel o Ha Ho Hty. unfold bake_shadow_texture_execute.
    rewrite bind_gets, Ha. rewrite (bind_get_object _ _ _ _ Ho). rewrite Hty.
    reflexivity.
  - intros s' Hrun. unfold bake_shadow_texture_execute in Hrun.
    rewrite bind_gets in Hrun.
    destruct (active_object s) as [sel|]; [|left; reflexivity].
    right.
    apply bind_returned in Hrun. destruct Hrun as (o & s1 & Hget & Hrun).
    unfold get_object in Hget.
    destruct (lookup sel (objects s)) as [o'|] eqn:Ho; [|discriminate].
    injection Hget as -> <-.
    exists sel, o. split; [reflexivity|]. split; [exact Ho|].
    destruct (type o =? "MESH")%string; [|reflexivity].
    exfalso. cbn [negb] in Hrun. finished_only Hrun.
Qed.

Lemma bake_cancels_without_mesh_witness :
  bake_shadow_texture_execute (Samples.sample_env true true) Samples.single_scene
  = (Ok CANCELLED,
     set_reports [("ERROR", "Active object must be a mesh")%string]
                 Samples.single_scene).
Proof.
  exact (proj1 (bake_cancels_without_mesh (Samples.sample_env true true)
                  Samples.single_scene) eq_refl).
Defined.

(** X17.  The bake operator in object mode, on an active mesh.  On a
    host that offers the OptiX denoiser, with a renderer that succeeds and
    an image file that can be written, it finishes having saved one file,
    "baked_shadow.png" in the directory of the blend file (the export
    folder is not used), and reported the path; the image it created is
    128 x 128, has that path and the PNG format, and holds the
    post-processed output of the renderer.  When the file cannot be
    written, the save raises [RuntimeError]: nothing is written or
    reported.  Where OptiX is not offered the operator raises [TypeError]
    at the render settings, before it has created anything. *)
Theorem bake_saves_beside_blend_file (env : Env) (s : Scene) (sel : nat)
    (o : Object) :
  wf_scene s ->
  mode s = "OBJECT"%string ->
  active_object s = Some sel ->
  lookup sel (objects s) = Some o ->
  type o = "MESH"%string ->
  bound_box o <> [] ->
  (0 < numLights (props s))%Z ->
  let final_path := path_join env (blend_dir env) "baked_shadow.png" in
  (denoiser_offered env "OPTIX" = true -> bake_succeeds env ->
   writable env final_path = true ->
   exists s' im st px,
     bake_shadow_texture_execute env s = (Ok FINISHED, s') /\
     files s' = final_path :: files s /\
     reports s'
     = ("INFO", "Baked shadow saved to: " ++ final_path)%string :: reports s /\
     nth_error (images s') (length (images s)) = Some im /\
     img_size im = (128%nat, 128%nat) /\
     filepath_raw im = final_path /\
     file_format im = "PNG"%string /\
     objects st = objects s' /\
     bake env st (length (images s)) = Some px /\
     binarize px = Ok (img_pixels im)) /\
  (denoiser_offered env "OPTIX" = true -> bake_succeeds env ->
   writable env final_path = false ->
   exists s',
     bake_shadow_texture_execute env s = (Raise RuntimeError, s') /\
     files s' = files s /\ reports s' = reports s) /\
  (denoiser_offered env "OPTIX" = false ->
   exists s',
     bake_shadow_texture_execute env s = (Raise TypeError, s') /\
     objects s' = objects s /\ images s' = images s /\
     files s' = files s /\ reports s' = reports s).
Proof.
  intros Hwf Hmode Hact Ho Ht Hne Hn final_path.
  split; [|split].
  - intros Hoptix Hbake Hsave.
    destruct (bake_operator_run env s sel o Hwf Hmode Hoptix Hact Ho Ht Hne Hn Hbake)
      as (mn & mx' & px & out & _ & Hpx & Hout & Hrun & _).
    cbv zeta in Hpx, Hrun. specialize (Hrun Hsave).
    set (st := with_suns env (settled env o) 1.0 mx' (bake_ready env o mn s)
                         (light_count s)) in *.
    exists (bake_saved env o out st).
    exists (mkImage (name o ++ "_shadow_tex")%string (128%nat, 128%nat) out
                    final_path "PNG").
    exists st, px.
    split; [exact Hrun|].
    split; [reflexivity|]. split; [reflexivity|].
    split.
    { unfold bake_saved. cbn [images].
      change (images st)
        with (images s ++ [mkImage (name o ++ "_shadow_tex")%string
                                   (128%nat, 128%nat) white_pixels "" "TARGA"]).
      rewrite removelast_last. apply nth_error_last. }
    split; [reflexivity|]. split; [reflexivity|]. split; [reflexivity|].
    split; [reflexivity|]. split; [exact Hpx | exact Hout].
  - intros Hoptix Hbake Hsave.
    destruct (bake_operator_run env s sel o Hwf Hmode Hoptix Hact Ho Ht Hne Hn Hbake)
      as (mn & mx' & px & out & _ & _ & _ & _ & Hfail).
    destruct (Hfail Hsave) as (s' & Hrun & _ & Hf & Hr).
    exists s'. split; [exact Hrun|]. split; [exact Hf | exact Hr].
  - intros Hoptix. eexists.
    split; [exact (bake_operator_no_optix env s sel o Hact Ho Ht Hoptix)|].
    repeat split.
Qed.

Lemma bake_saves_beside_blend_file_witness :
  exists s',
    bake_shadow_texture_execute (Samples.sample_env true true)
      (set_active_object (Some 0%nat) Samples.single_scene)
    = (Ok FINISHED, s') /\
    files s' = ["/tmp/baked_shadow.png"%string].
Proof.
  destruct (bake_saves_beside_blend_file (Samples.sample_env true true)
              (set_active_object (Some 0%nat) Samples.single_scene)
              0%nat Samples.table)
    as (Hok & _).
  - intros q [<- | []]. simpl. lia.
  - reflexivity.
  - reflexivity.
  - reflexivity.
  - reflexivity.
  - discriminate.
  - simpl. lia.
  - destruct Hok as (s' & im & st & px & Hrun & Hf & _).
    + reflexivity.
    + apply sample_bake_succeeds.
    + reflexivity.
    + exists s'. split; [exact Hrun | exact Hf].
Defined.

(** X18.  The bake operator removes nothing and restores nothing.
    Called in object mode on an active mesh, on a host that offers the
    OptiX denoiser, whose renderer succeeds and which can write the image
    file, it finishes with the plane and the lights still in the scene,
    after the objects that were there, and the plane is the active object;
    the render settings are Cycles, shadow bake, GPU, OptiX denoiser, 64
    samples; the objects that were in the scene keep their name, type,
    transform, bounding box, dimensions, data and visibility to the
    renderer. *)
Theorem bake_leaves_plane_and_lights (env : Env) (s : Scene) (sel : nat)
    (o : Object) :
  wf_scene s ->
  mode s = "OBJECT"%string ->
  active_object s = Some sel ->
  lookup sel (objects s) = Some o ->
  type o = "MESH"%string ->
  bound_box o <> [] ->
  (0 < numLights (props s))%Z ->
  denoiser_offered env "OPTIX" = true ->
  bake_succeeds env ->
  writable env (path_join env (blend_dir env) "baked_shadow.png") = true ->
  exists s',
    bake_shadow_texture_execute env s = (Ok FINISHED, s') /\
    handles s'
    = handles s ++ next_handle s
        :: map (fun i => (S (next_handle s) + i)%nat)
               (seq 0 (Z.to_nat (numLights (props s)))) /\
    active_object s' = Some (next_handle s) /\
    render s'
    = mkRender "CYCLES" "SHADOW" "GPU" "OPTIX" 64
               (use_selected_to_active (render s)) /\
    forall h x, lookup h (objects s) = Some x ->
      exists x',
        lookup h (objects s') = Some x' /\ same_body x x' /\
        hide_render x' = hide_render x.
Proof.
  intros Hwf Hmode Hact Ho Ht Hne Hn Hoptix Hbake Hsave.
  destruct (bake_operator_run env s sel o Hwf Hmode Hoptix Hact Ho Ht Hne Hn Hbake)
    as (mn & mx' & px & out & _ & _ & _ & Hrun & _).
  cbv zeta in Hrun. specialize (Hrun Hsave).
  eexists. split; [exact Hrun|].
  split.
  { unfold handles, bake_saved, with_suns, bake_ready, light_count.
    cbn [objects next_handle props].
    rewrite !map_app, !map_map. cbn [map fst]. rewrite <- app_assoc. reflexivity. }
  split; [reflexivity|]. split; [reflexivity|].
  intros h x Hx. exists (settled env x). split; [|split].
  - unfold bake_saved, with_suns, bake_ready. cbn [objects].
    apply lookup_app_old, lookup_app_old, lookup_map_old. exact Hx.
  - apply settled_body.
  - apply settled_flags.
Qed.

Lemma bake_leaves_plane_and_lights_witness :
  exists s',
    bake_shadow_texture_execute (Samples.sample_env true true)
      (set_active_object (Some 0%nat) Samples.single_scene)
    = (Ok FINISHED, s') /\
    handles s' = [0; 1; 2; 3; 4; 5]%nat /\
    active_object s' = Some 1%nat.
Proof.
  destruct (bake_leaves_plane_and_lights (Samples.sample_env true true)
              (set_active_object (Some 0%nat) Samples.single_scene)
              0%nat Samples.table)
    as (s' & Hrun & Hh & Ha & _).
  - intros q [<- | []]. simpl. lia.
  - reflexivity.
  - reflexivity.
  - reflexivity.
  - reflexivity.
  - discriminate.
  - simpl. lia.
  - reflexivity.
  - apply sample_bake_succeeds.
  - reflexivity.
  - exists s'. split; [exact Hrun|]. split; [exact Hh | exact Ha].
Defined.

(** X19.  The collection export cancels with one error report and
    nothing else changed, the mode included: "No collection selected"
    without a collection; otherwise "Invalid path" when the folder is not
    a directory; otherwise "Collection is empty" when the collection has
    no object.  It cancels in no other case: a collection without any mesh
    does not cancel it. *)
Theorem collection_export_cancels_with_report (env : Env) (s : Scene) :
  let cancelled (msg : string) :=
    (Ok CANCELLED, set_reports (("ERROR"%string, msg) :: reports s) s)
  in
  (Collection (props s) = None ->
   export_collection_glb_execute env s = cancelled "No collection selected"%string) /\
  (forall members,
     Collection (props s) = Some members ->
     isdir env (pathToFile (props s)) = false ->
     export_collection_glb_execute env s = cancelled "Invalid path"%string) /\
  (Collection (props s) = Some [] ->
   isdir env (pathToFile (props s)) = true ->
   export_collection_glb_execute env s = cancelled "Collection is empty"%string) /\
  (forall s',
     export_collection_glb_execute env s = (Ok CANCELLED, s') ->
     Collection (props s) = None \/
     isdir env (pathToFile (props s)) = false \/
     Collection (props s) = Some []).
Proof.
  cbv zeta. split; [|split; [|split]].
  - intros Hc. unfold export_collection_glb_execute. rewrite bind_gets, Hc.
    reflexivity.
  - intros members Hc Hdir. unfold export_collection_glb_execute.
    rewrite bind_gets, Hc, bind_gets, Hdir. reflexivity.
  - intros Hc Hdir. unfold export_collection_glb_execute.
    rewrite bind_gets, Hc, bind_gets, Hdir. reflexivity.
  - intros s' Hrun. unfold export_collection_glb_execute in Hrun.
    rewrite bind_gets in Hrun.
    destruct (Collection (props s)) as [members|]; [|left; reflexivity].
    rewrite bind_gets in Hrun.
    destruct (isdir env (pathToFile (props s))); [|right; left; reflexivity].
    cbn [negb] in Hrun.
    destruct members as [|m members]; [right; right; reflexivity|].
    exfalso. cbn [length Nat.eqb] in Hrun. finished_only Hrun.
Qed.

Lemma collection_export_cancels_with_report_witness :
  export_collection_glb_execute (Samples.sample_env true true) Samples.single_scene
  = (Ok CANCELLED,
     set_reports [("ERROR", "No collection selected")%string] Samples.single_scene).
Proof.
  exact (proj1 (collection_export_cancels_with_report
                  (Samples.sample_env true true) Samples.single_scene) eq_refl).
Defined.
(* ================================================================== *)
(** * Pivot relocation: the operator, the other objects, the bottom centre *)

Section PivotEffects.

Variable env : Env.

(** The scene [fix_origin] returns in, on a mesh. *)
Lemma fix_origin_scene (s : Scene) (h : nat) (o : Object) (center_local : Vec3) :
  lookup h (objects s) = Some o ->
  type o = "MESH"%string ->
  linked o = true ->
  center_of_bottom (bound_box o) = Ok center_local ->
  fix_origin env (Some h) s
  = (Ok tt,
     set_objects
       (map (fun p => (fst p, applied env (snd p)))
          (map (fun p => (fst p, refresh env (snd p)))
             (replace_object h (set_location (vec3 0.0 0.0 0.0))
                (map (fun p => (fst p,
                                recentred (mat_apply (matrix_world o) center_local)
                                          (snd p)))
                   (replace_object h (set_select true)
                      (map (fun p => (fst p, deselect (snd p)))
                         (objects (in_object_mode s))))))))
       (in_object_mode s)).
Proof.
  intros Ho Ht Hl Hc.
  destruct (in_object_mode_fields s) as (Eo & En & Ep & Ef & Er).
  pose proof (in_object_mode_mode s) as Hm.
  assert (Ho' : lookup h (objects (in_object_mode s)) = Some o)
    by (rewrite Eo; exact Ho).
  unfold fix_origin, deref. rewrite bind_ret.
  rewrite (bind_get_object _ _ _ _ Ho). rewrite Ht.
  cbn [String.eqb Ascii.eqb Bool.eqb negb orb].
  rewrite bind_gets, bind_mode_check.
  rewrite (bind_get_object _ _ _ _ Ho'). rewrite Hc, bind_lift_ok.
  rewrite bind_gets, bind_modify.
  rewrite bind_select_all_deselect by exact Hm.
  erewrite bind_select_set;
    [ | cbn [objects set_objects set_cursor_location];
        apply lookup_map_old; exact Ho'
      | rewrite deselect_linked; exact Hl ].
  rewrite bind_origin_set_cursor by exact Hm.
  erewrite bind_update_object
    by (cbn [objects set_objects set_cursor_location];
        apply lookup_map_old; apply lookup_replace_same;
        apply lookup_map_old; exact Ho').
  rewrite bind_modify, bind_view_layer_update.
  rewrite bind_transform_apply_scale by exact Hm.
  clear. destruct (in_object_mode s). reflexivity.
Qed.

(** On a mesh outside the view layer [fix_origin] stops at
    [obj.select_set(True)]: the scene is in object mode, everything is
    deselected and the 3D cursor is left at the centre of the bottom
    face. *)
Lemma fix_origin_unlinked (s : Scene) (h : nat) (o : Object) (center_local : Vec3) :
  lookup h (objects s) = Some o ->
  type o = "MESH"%string ->
  linked o = false ->
  center_of_bottom (bound_box o) = Ok center_local ->
  fix_origin env (Some h) s
  = (Raise RuntimeError,
     set_objects
       (map (fun p => (fst p, deselect (snd p))) (objects (in_object_mode s)))
       (set_cursor_location (mat_apply (matrix_world o) center_local)
          (in_object_mode s))).
Proof.
  intros Ho Ht Hl Hc.
  destruct (in_object_mode_fields s) as (Eo & En & Ep & Ef & Er).
  pose proof (in_object_mode_mode s) as Hm.
  assert (Ho' : lookup h (objects (in_object_mode s)) = Some o)
    by (rewrite Eo; exact Ho).
  unfold fix_origin, deref. rewrite bind_ret.
  rewrite (bind_get_object _ _ _ _ Ho). rewrite Ht.
  cbn [String.eqb Ascii.eqb Bool.eqb negb orb].
  rewrite bind_gets, bind_mode_check.
  rewrite (bind_get_object _ _ _ _ Ho'). rewrite Hc, bind_lift_ok.
  rewrite bind_gets, bind_modify.
  rewrite bind_select_all_deselect by exact Hm.
  apply bind_raise.
  eapply select_set_unlinked.
  - cbn [objects set_objects set_cursor_location]. apply lookup_map_old. exact Ho'.
  - rewrite deselect_linked. exact Hl.
Qed.

Lemma veq_trans (a b c : Vec3) : veq a b -> veq b c -> veq a c.
Proof.
  intros (H1 & H2 & H3) (K1 & K2 & K3). unfold veq.
  rewrite H1, H2, H3. auto.
Qed.

Lemma rebased_veq (sc v p q : Vec3) :
  veq p q -> veq (vmul sc (vsub v p)) (vmul sc (vsub v q)).
Proof.
  intros (H1 & H2 & H3). unfold veq, vmul, vsub. cbn [vx vy vz].
  rewrite H1, H2, H3. repeat split; reflexivity.
Qed.

Lemma Forall2_map_veq (f g : Vec3 -> Vec3) (l : list Vec3) :
  (forall v, veq (f v) (g v)) -> Forall2 veq (map f l) (map g l).
Proof.
  intros H. induction l as [|v l IH]; cbn [map]; constructor; [apply H | exact IH].
Qed.

Lemma recentred_deselected (c : Vec3) (x : Object) :
  recentred c (deselect x) = deselect x.
Proof. unfold recentred. rewrite deselect_unselected. reflexivity. Qed.

Lemma applied_settled (x : Object) :
  applied env (refresh env (deselect x)) = settled env x.
Proof.
  unfold applied. rewrite refresh_unselected, deselect_unselected. reflexivity.
Qed.

Lemma relocated_keeps (c : Vec3) (o : Object) :
  select (relocated env c o) = true /\
  name (relocated env c o) = name o /\
  type (relocated env c o) = type o /\
  rotation_euler (relocated env c o) = rotation_euler o /\
  hide_render (relocated env c o) = hide_render o.
Proof.
  destruct o as [nm ty loc rot sc mw bb dims dat sel hr lk].
  unfold relocated, recentred, deselect, applied, refresh, selected_mesh.
  destruct lk; destruct (ty =? "MESH")%string eqn:E;
    cbv [origin_to apply_scale set_select set_location set_matrix_world
         set_bound_box set_data set_scale linked type select name
         rotation_euler hide_render matrix_world bound_box data location
         scale dimensions andb];
    rewrite ?E; repeat split.
Qed.

(** The bounding box and the world matrix of the relocated mesh. *)
Lemma relocated_box (c : Vec3) (o : Object) :
  linked o = true ->
  type o = "MESH"%string ->
  bound_box (relocated env c o)
  = map (fun v => vmul (scale o) (vsub v (mat_inv_apply (matrix_world o) c)))
        (bound_box o) /\
  translation (matrix_world (relocated env c o)) = vec3 0.0 0.0 0.0.
Proof.
  intros Hl Ht.
  destruct o as [nm ty loc rot sc mw bb dims dat sel hr lk].
  cbn [linked type] in Hl, Ht. subst lk ty.
  unfold relocated, recentred, deselect, applied, refresh, selected_mesh.
  cbn [linked type select set_select set_location set_matrix_world origin_to
       set_bound_box set_data matrix_world bound_box data location scale
       name rotation_euler dimensions hide_render
       andb String.eqb Ascii.eqb Bool.eqb].
  unfold apply_scale, origin_to.
  cbn [linked type select set_select set_location set_matrix_world set_scale
       set_bound_box set_data matrix_world bound_box data location scale
       name rotation_euler dimensions hide_render].
  split; [rewrite map_map; reflexivity | reflexivity].
Qed.

Lemma mat_apply_zero (m : Matrix) (v : Vec3) :
  translation m = vec3 0.0 0.0 0.0 ->
  veq v vzero ->
  veq (mat_apply m v) vzero.
Proof.
  intros Hm (Hx & Hy & Hz).
  unfold mat_apply, mat3_apply, dot, vadd, veq, vzero in *.
  rewrite Hm. cbn [vx vy vz] in *.
  rewrite Hx, Hy, Hz. split; [|split]; ring.
Qed.

End PivotEffects.

(** X20.  The poll of the pivot operator answers whether the target is a
    mesh, without changing the scene.  Without a target it answers no, and
    [execute] would raise [AttributeError].  On a target that is not a
    mesh [execute] finishes, having changed nothing.  On a mesh with a
    bounding box [execute] finishes when the mesh is in the view layer;
    the poll does not look at that: on a mesh outside the view layer it
    answers yes and [execute] raises [RuntimeError], the selection of the
    target being refused. *)
Theorem reset_pivot_poll_guards_execute (env : Env) (s : Scene) :
  (targetObj (props s) = None ->
   reset_pivot_poll s = (Ok false, s) /\
   reset_pivot_execute env s = (Raise AttributeError, s)) /\
  (forall t o,
     targetObj (props s) = Some t ->
     lookup t (objects s) = Some o ->
     reset_pivot_poll s = (Ok (type o =? "MESH")%string, s) /\
     ((type o =? "MESH")%string = false ->
      reset_pivot_execute env s = (Ok FINISHED, s)) /\
     ((type o =? "MESH")%string = true -> bound_box o <> [] ->
      linked o = true ->
      exists s', reset_pivot_execute env s = (Ok FINISHED, s')) /\
     ((type o =? "MESH")%string = true -> bound_box o <> [] ->
      linked o = false ->
      exists s', reset_pivot_execute env s = (Raise RuntimeError, s'))).
Proof.
  split.
  - intros Ht. unfold reset_pivot_poll, reset_pivot_execute.
    rewrite !bind_gets, Ht. split; reflexivity.
  - intros t o Ht Ho. split; [|split; [|split]].
    + unfold reset_pivot_poll. rewrite bind_gets, Ht.
      rewrite (bind_get_object _ _ _ _ Ho). reflexivity.
    + intros Hty. unfold reset_pivot_execute. rewrite bind_gets, Ht.
      rewrite (bind_ok _ _ _ _ _ (fix_origin_not_mesh env s t o Ho Hty)).
      reflexivity.
    + intros Hty Hne Hl. apply String.eqb_eq in Hty.
      destruct (center_of_bottom_ok (bound_box o) Hne) as (c & Hc).
      eexists. unfold reset_pivot_execute. rewrite bind_gets, Ht.
      rewrite (bind_ok _ _ _ _ _ (fix_origin_scene env s t o c Ho Hty Hl Hc)).
      reflexivity.
    + intros Hty Hne Hl. apply String.eqb_eq in Hty.
      destruct (center_of_bottom_ok (bound_box o) Hne) as (c & Hc).
      eexists. unfold reset_pivot_execute. rewrite bind_gets, Ht.
      apply bind_raise. exact (fix_origin_unlinked env s t o c Ho Hty Hl Hc).
Qed.

Lemma reset_pivot_poll_guards_execute_witness :
  reset_pivot_poll Samples.scaled_scene = (Ok true, Samples.scaled_scene) /\
  exists s',
    reset_pivot_execute (Samples.sample_env true true) Samples.scaled_scene
    = (Ok FINISHED, s').
Proof.
  destruct (proj2 (reset_pivot_poll_guards_execute (Samples.sample_env true true)
                     Samples.scaled_scene)
              0%nat Samples.scaled_box eq_refl eq_refl) as (Hpoll & _ & Hexec & _).
  split; [exact Hpoll|].
  apply Hexec; [reflexivity | discriminate | reflexivity].
Defined.

(** X21.  On a mesh of the view layer, [fix_origin] leaves the scene in
    object mode (it does not switch back), with the same objects under the
    same handles; the mesh is selected and keeps its name, type, rotation
    and visibility; every other object keeps its name, type, transform,
    bounding box, dimensions, data and visibility, and is deselected when
    it is linked to the scene; the active object stays. *)
Theorem fix_origin_touches_only_target (env : Env) (s : Scene) (h : nat)
    (o : Object) :
  lookup h (objects s) = Some o ->
  type o = "MESH"%string ->
  linked o = true ->
  bound_box o <> [] ->
  exists s' o',
    fix_origin env (Some h) s = (Ok tt, s') /\
    mode s' = "OBJECT"%string /\
    handles s' = handles s /\
    active_object s' = active_object s /\
    lookup h (objects s') = Some o' /\
    select o' = true /\ name o' = name o /\ type o' = type o /\
    rotation_euler o' = rotation_euler o /\ hide_render o' = hide_render o /\
    (forall h' x, h' <> h -> lookup h' (objects s) = Some x ->
       exists x',
         lookup h' (objects s') = Some x' /\ same_body x x' /\
         hide_render x' = hide_render x /\
         (linked x = true -> select x' = false)).
Proof.
  intros Ho Ht Hl Hne.
  destruct (center_of_bottom_ok (bound_box o) Hne) as (c & Hc).
  pose proof (fix_origin_scene env s h o c Ho Ht Hl Hc) as Hrun.
  destruct (in_object_mode_fields s) as (Eo & En & Ep & Ef & Er).
  destruct (in_object_mode_rest s) as (Ei & Em & Ere & Ea & Ec).
  pose proof (in_object_mode_mode s) as Emode.
  set (s0 := in_object_mode s) in *.
  destruct (relocated_keeps env (mat_apply (matrix_world o) c) o)
    as (K1 & K2 & K3 & K4 & K5).
  eexists. exists (relocated env (mat_apply (matrix_world o) c) o).
  split; [exact Hrun|].
  split; [exact Emode|].
  split.
  { unfold handles. cbn [objects set_objects].
    rewrite !handles_map, handles_replace, handles_map, handles_replace, handles_map.
    rewrite Eo. reflexivity. }
  split; [exact Ea|].
  split.
  { cbn [objects set_objects]. unfold relocated.
    apply lookup_map_old, lookup_map_old, lookup_replace_same, lookup_map_old,
          lookup_replace_same, lookup_map_old. rewrite Eo. exact Ho. }
  split; [exact K1|]. split; [exact K2|]. split; [exact K3|].
  split; [exact K4|]. split; [exact K5|].
  intros h' x Hh' Hx. exists (settled env x). split; [|split; [|split]].
  - cbn [objects set_objects].
    rewrite <- (applied_settled env x).
    rewrite <- (recentred_deselected (mat_apply (matrix_world o) c) x).
    apply lookup_map_old, lookup_map_old.
    rewrite lookup_replace_other by exact Hh'.
    apply lookup_map_old.
    rewrite lookup_replace_other by exact Hh'.
    apply lookup_map_old. rewrite Eo. exact Hx.
  - apply settled_body.
  - apply settled_flags.
  - apply settled_deselected.
Qed.

Lemma fix_origin_touches_only_target_witness :
  exists s' x',
    fix_origin (Samples.sample_env true true) (Some 1%nat) Samples.collection_scene
    = (Ok tt, s') /\
    handles s' = [0; 1; 2]%nat /\
    lookup 2%nat (objects s') = Some x' /\
    same_body Samples.wardrobe x'.
Proof.
  destruct (fix_origin_touches_only_target (Samples.sample_env true true)
              Samples.collection_scene 1%nat Samples.desk)
    as (s' & o' & Hrun & _ & Hh & _ & _ & _ & _ & _ & _ & _ & Hold).
  - reflexivity.
  - reflexivity.
  - reflexivity.
  - discriminate.
  - destruct (Hold 2%nat Samples.wardrobe ltac:(lia) eq_refl)
      as (x' & Hx' & Hb & _).
    exists s', x'. split; [exact Hrun|]. split; [exact Hh|].
    split; [exact Hx' | exact Hb].
Defined.

(** X22.  Take a mesh of the view layer whose bounding box reaches from
    [lo] to [hi], higher than the tolerance 1e-6, whose world matrix
    is invertible and whose vertical scale is positive.  [fix_origin]
    leaves it with the bounding box that reaches from [lo'] to [hi'], the
    old corners minus the centre of the old bottom face
    [((lo.x + hi.x)/2, (lo.y + hi.y)/2, lo.z)], multiplied componentwise
    by the scale.  The centre of the bottom face of the new box is the
    local origin, and the object's new world matrix puts it at the world
    origin. *)
Theorem fix_origin_puts_bottom_centre_at_world_origin (env : Env) (s : Scene)
    (h : nat) (o : Object) (lo hi : Vec3) :
  lookup h (objects s) = Some o ->
  type o = "MESH"%string ->
  linked o = true ->
  bound_box o = box_of lo hi ->
  vz lo + 0.000001 < vz hi ->
  0 < vz (scale o) ->
  ~ det3 (linear (matrix_world o)) == 0 ->
  exists s' o',
    let lo' := vmul (scale o) (vsub lo (bottom_centre lo hi)) in
    let hi' := vmul (scale o) (vsub hi (bottom_centre lo hi)) in
    fix_origin env (Some h) s = (Ok tt, s') /\
    lookup h (objects s') = Some o' /\
    Forall2 veq (bound_box o') (box_of lo' hi') /\
    vz lo' < vz hi' /\
    veq (bottom_centre lo' hi') vzero /\
    veq (mat_apply (matrix_world o') (bottom_centre lo' hi')) vzero.
Proof.
  intros Ho Ht Hl Hbox Hhigh Hsz Hdet.
  destruct (center_of_bottom_box lo hi Hhigh) as (c & Hc & Hcb).
  rewrite <- Hbox in Hc.
  pose proof (fix_origin_scene env s h o c Ho Ht Hl Hc) as Hrun.
  destruct (in_object_mode_fields s) as (Eo & _).
  destruct (relocated_box env (mat_apply (matrix_world o) c) o Hl Ht) as (Hbb & Htr).
  pose proof (mat_inv_apply_apply (matrix_world o) c Hdet) as Hp.
  set (p := mat_inv_apply (matrix_world o) (mat_apply (matrix_world o) c)) in *.
  assert (Hpb : veq p (bottom_centre lo hi)) by exact (veq_trans _ _ _ Hp Hcb).
  assert (Hz : veq (bottom_centre (vmul (scale o) (vsub lo (bottom_centre lo hi)))
                                  (vmul (scale o) (vsub hi (bottom_centre lo hi))))
                   vzero).
  { unfold veq, bottom_centre, vmul, vsub, vzero. cbn [vx vy vz].
    split; [|split]; field. }
  eexists. exists (relocated env (mat_apply (matrix_world o) c) o). cbv zeta.
  split; [exact Hrun|].
  split.
  { cbn [objects set_objects]. unfold relocated.
    apply lookup_map_old, lookup_map_old, lookup_replace_same, lookup_map_old,
          lookup_replace_same, lookup_map_old. rewrite Eo. exact Ho. }
  split.
  { rewrite Hbb, Hbox.
    change (box_of (vmul (scale o) (vsub lo (bottom_centre lo hi)))
                   (vmul (scale o) (vsub hi (bottom_centre lo hi))))
      with (map (fun v => vmul (scale o) (vsub v (bottom_centre lo hi)))
                (box_of lo hi)).
    apply Forall2_map_veq. intros v. apply rebased_veq. exact Hpb. }
  split.
  { unfold vmul, vsub, bottom_centre. cbn [vx vy vz].
    apply Qmult_lt_l; [exact Hsz | lra]. }
  split; [exact Hz|].
  apply mat_apply_zero; [exact Htr | exact Hz].
Qed.

(** The crate, a unit cube scaled by two whose origin is a corner of its
    bottom face, ends with the box from (-1,-1,0) to (1,1,2). *)
Lemma fix_origin_puts_bottom_centre_at_world_origin_witness :
  exists s' o',
    fix_origin (Samples.sample_env true true) (Some 0%nat) Samples.corner_scene
    = (Ok tt, s') /\
    lookup 0%nat (objects s') = Some o' /\
    Forall2 veq (bound_box o') (box_of (vec3 (-1) (-1) 0) (vec3 1 1 2)).
Proof.
  destruct (fix_origin_puts_bottom_centre_at_world_origin
              (Samples.sample_env true true) Samples.corner_scene 0%nat
              Samples.corner_crate (vec3 0 0 0) (vec3 1 1 1))
    as (s' & o' & Hrun & Ho' & Hbox & _).
  - reflexivity.
  - reflexivity.
  - reflexivity.
  - reflexivity.
  - reflexivity.
  - reflexivity.
  - vm_compute. discriminate.
  - exists s', o'. split; [exact Hrun|]. split; [exact Ho'|].
    cbv zeta in Hbox.
    assert (E : Forall2 veq
                  (box_of (vmul (scale Samples.corner_crate)
                             (vsub (vec3 0 0 0)
                                (bottom_centre (vec3 0 0 0) (vec3 1 1 1))))
                          (vmul (scale Samples.corner_crate)
                             (vsub (vec3 1 1 1)
                                (bottom_centre (vec3 0 0 0) (vec3 1 1 1)))))
                  (box_of (vec3 (-1) (-1) 0) (vec3 1 1 2))).
    { repeat constructor. }
    clear Hrun Ho'. revert Hbox E.
    generalize (bound_box o').
    generalize (box_of (vmul (scale Samples.corner_crate)
                          (vsub (vec3 0 0 0)
                             (bottom_centre (vec3 0 0 0) (vec3 1 1 1))))
                       (vmul (scale Samples.corner_crate)
                          (vsub (vec3 1 1 1)
                             (bottom_centre (vec3 0 0 0) (vec3 1 1 1))))).
    generalize (box_of (vec3 (-1) (-1) 0) (vec3 1 1 2)).
    intros l3 l2 l1 H12. revert l3.
    induction H12 as [|a b l1 l2 Hab H12 IH]; intros l3 H23.
    + inversion H23; subst; constructor.
    + inversion H23; subst. constructor; [|apply IH; assumption].
      eapply veq_trans; eassumption.
Defined.
(* ================================================================== *)
(** * Collections and reference images *)

Section RefFacts.

Import Refs.

Variable env : RefEnv.

Lemma find_coll_app_new (name : string) (cs : list Coll) (c : Coll) :
  has_collection name cs = false ->
  coll_name c = name ->
  find (fun c => (coll_name c =? name)%string) (cs ++ [c]) = Some c.
Proof.
  intros Hno Hc. induction cs as [|c0 cs IH].
  - simpl. rewrite Hc, String.eqb_refl. reflexivity.
  - simpl in Hno. apply orb_false_iff in Hno. destruct Hno as (H0 & Hno).
    simpl. rewrite H0. apply IH. exact Hno.
Qed.

Lemma map_coll_app_new (name : string) (cs : list Coll) (c : Coll) (f : Coll -> Coll) :
  has_collection name cs = false ->
  coll_name c = name ->
  map (fun c => if (coll_name c =? name)%string then f c else c) (cs ++ [c])
  = cs ++ [f c].
Proof.
  intros Hno Hc. induction cs as [|c0 cs IH].
  - simpl. rewrite Hc, String.eqb_refl. reflexivity.
  - simpl in Hno. apply orb_false_iff in Hno. destruct Hno as (H0 & Hno).
    simpl. rewrite H0. rewrite IH by exact Hno. reflexivity.
Qed.

Lemma has_collection_app_new (name : string) (cs : list Coll) (c : Coll) :
  coll_name c = name -> has_collection name (cs ++ [c]) = true.
Proof.
  intros Hc. unfold has_collection. rewrite existsb_app. simpl.
  rewrite Hc, String.eqb_refl. apply orb_true_iff. right. reflexivity.
Qed.

(** [make_collection] when the name is free and the host keeps it. *)
Lemma make_collection_new (name : string) (st : RefState) :
  has_collection name (collections st) = false ->
  stored_name env (map coll_name (collections st)) name = name ->
  make_collection env name st
  = (Ok name, set_collections (collections st ++ [mkColl name [] true true]) st).
Proof.
  intros Hno Hkeep.
  unfold make_collection, rbind, rgets. rewrite Hno.
  unfold collections_new. rewrite Hkeep.
  unfold children_link, rbind, get_coll.
  cbn [collections set_collections].
  erewrite find_coll_app_new by (first [ exact Hno | reflexivity ]).
  cbn [coll_in_scene].
  unfold update_coll, rbind, get_coll, rmodify.
  cbn [collections set_collections].
  erewrite find_coll_app_new by (first [ exact Hno | reflexivity ]).
  cbn [collections set_collections].
  erewrite map_coll_app_new by (first [ exact Hno | reflexivity ]).
  erewrite find_coll_app_new by (first [ exact Hno | reflexivity ]).
  cbn [collections set_collections].
  erewrite map_coll_app_new by (first [ exact Hno | reflexivity ]).
  reflexivity.
Qed.

Lemma make_collection_old (name : string) (st : RefState) :
  has_collection name (collections st) = true ->
  make_collection env name st = (Ok name, st).
Proof.
  intros Hhas. unfold make_collection, rbind, rgets. rewrite Hhas. reflexivity.
Qed.

End RefFacts.

(** X23.  [make_collection] creates a collection at most once.  When a
    collection of that name exists it is returned as it is: it is neither
    linked to the scene nor made unselectable, and nothing changes.
    Otherwise one empty collection is added, linked to the scene and
    unselectable, and returned; provided the host stores the name as
    asked, a second call returns it again and changes nothing, so that
    calling [make_collection] on every redraw of the panel keeps one
    collection. *)
Theorem make_collection_creates_once (env : Refs.RefEnv) (name : string)
    (st : Refs.RefState) :
  (Refs.has_collection name (Refs.collections st) = true ->
   Refs.make_collection env name st = (Ok name, st)) /\
  (Refs.has_collection name (Refs.collections st) = false ->
   Refs.stored_name env (map Refs.coll_name (Refs.collections st)) name = name ->
   exists st',
     Refs.make_collection env name st = (Ok name, st') /\
     Refs.collections st'
     = Refs.collections st ++ [Refs.mkColl name [] true true] /\
     Refs.ref_objects st' = Refs.ref_objects st /\
     Refs.make_collection env name st' = (Ok name, st')).
Proof.
  split.
  - apply make_collection_old.
  - intros Hno Hkeep. eexists.
    split; [exact (make_collection_new env name st Hno Hkeep)|].
    split; [reflexivity|]. split; [reflexivity|].
    apply make_collection_old. cbn [Refs.collections Refs.set_collections].
    apply has_collection_app_new. reflexivity.
Qed.

Lemma make_collection_creates_once_witness :
  exists st',
    Refs.make_collection (Refs.sample_ref_env []) "References" Refs.empty_ref_state
    = (Ok "References"%string, st') /\
    Refs.collections st' = [Refs.mkColl "References" [] true true] /\
    Refs.make_collection (Refs.sample_ref_env []) "References" st'
    = (Ok "References"%string, st').
Proof.
  destruct (proj2 (make_collection_creates_once (Refs.sample_ref_env [])
                     "References" Refs.empty_ref_state) eq_refl eq_refl)
    as (st' & Hrun & Hc & _ & Hagain).
  exists st'. split; [exact Hrun|]. split; [exact Hc | exact Hagain].
Defined.

Section RefImages.

Import Refs.

Variable env : RefEnv.

Lemma rbind_ok {A B} (m : R A) (k : A -> R B) st a st' :
  m st = (Ok a, st') -> rbind m k st = k a st'.
Proof. intros H. unfold rbind. rewrite H. reflexivity. Qed.

Lemma rbind_assoc {A B C} (m : R A) (f : A -> R B) (g : B -> R C) st :
  rbind (rbind m f) g st = rbind m (fun a => rbind (f a) g) st.
Proof. unfold rbind. destruct (m st) as [[a|e] st']; reflexivity. Qed.

Lemma find_map_coll (g : Coll -> Coll) (name : string) (cs : list Coll) :
  (forall c, coll_name (g c) = coll_name c) ->
  find (fun c => (coll_name c =? name)%string) (map g cs)
  = option_map g (find (fun c => (coll_name c =? name)%string) cs).
Proof.
  intros Hg. induction cs as [|c cs IH]; [reflexivity|].
  cbn [map find]. rewrite Hg.
  destruct (coll_name c =? name)%string; [reflexivity | exact IH].
Qed.

Lemma ref_lookup_filter_keep (P : nat -> bool) (h : nat)
    (obs : list (nat * RefObject)) :
  P h = true ->
  ref_lookup h (filter (fun p => P (fst p)) obs) = ref_lookup h obs.
Proof.
  intros HP. unfold ref_lookup. induction obs as [|p obs IH]; simpl; [reflexivity|].
  destruct (fst p =? h)%nat eqn:E.
  - apply Nat.eqb_eq in E. rewrite E, HP. simpl.
    rewrite E, Nat.eqb_refl. reflexivity.
  - destruct (P (fst p)); simpl; [rewrite E|]; exact IH.
Qed.

Lemma ref_lookup_filter_drop (P : nat -> bool) (h : nat)
    (obs : list (nat * RefObject)) :
  P h = false ->
  ref_lookup h (filter (fun p => P (fst p)) obs) = None.
Proof.
  intros HP. unfold ref_lookup. induction obs as [|p obs IH]; simpl; [reflexivity|].
  destruct (P (fst p)) eqn:EP; simpl.
  - destruct (fst p =? h)%nat eqn:E; [|exact IH].
    apply Nat.eqb_eq in E. rewrite E in EP. congruence.
  - exact IH.
Qed.

Lemma ref_objects_remove_run (st : RefState) (h : nat) (x : RefObject) :
  ref_lookup h (ref_objects st) = Some x ->
  ref_objects_remove h st = (Ok tt, without_refs [h] st).
Proof.
  intros Hx. unfold ref_objects_remove. rewrite Hx. unfold without_refs.
  f_equal. f_equal.
  - apply map_ext. intros c. unfold strip. f_equal.
    apply filter_ext. intros a. rewrite removed_single. reflexivity.
  - apply filter_ext. intros p. rewrite removed_single. reflexivity.
  - destruct (ref_active_object st) as [a|]; [|reflexivity].
    rewrite removed_single. reflexivity.
Qed.

Lemma filter_removed_nat (hs : list nat) (h : nat) (l : list nat) :
  filter (fun x => negb (removed hs x)) (filter (fun x => negb (removed [h] x)) l)
  = filter (fun x => negb (removed (h :: hs) x)) l.
Proof.
  induction l as [|x l IH]; [reflexivity|].
  cbn [filter]. rewrite removed_single, removed_cons.
  destruct (x =? h)%nat; cbn [negb orb].
  - exact IH.
  - cbn [filter]. rewrite IH. reflexivity.
Qed.

Lemma filter_removed_ref (hs : list nat) (h : nat) (obs : list (nat * RefObject)) :
  filter (fun p => negb (removed hs (fst p)))
         (filter (fun p => negb (removed [h] (fst p))) obs)
  = filter (fun p => negb (removed (h :: hs) (fst p))) obs.
Proof.
  induction obs as [|p obs IH]; [reflexivity|].
  cbn [filter]. rewrite removed_single, removed_cons.
  destruct (fst p =? h)%nat; cbn [negb orb].
  - exact IH.
  - cbn [filter]. rewrite IH. reflexivity.
Qed.

Lemma without_refs_again (hs : list nat) (h : nat) (st : RefState) :
  without_refs hs (without_refs [h] st) = without_refs (h :: hs) st.
Proof.
  unfold without_refs.
  cbn [collections active_collection ref_objects ref_next_handle
       ref_active_object printed].
  rewrite filter_removed_ref, map_map. f_equal.
  - apply map_ext. intros c. unfold strip.
    cbn [coll_name coll_objects coll_hide_select coll_in_scene].
    rewrite filter_removed_nat. reflexivity.
  - destruct (ref_active_object st) as [a|]; [|reflexivity].
    rewrite removed_single, removed_cons.
    destruct (a =? h)%nat; reflexivity.
Qed.

Lemma filter_all (A : Type) (l : list A) : filter (fun _ => true) l = l.
Proof. induction l as [|x l IH]; simpl; [reflexivity | rewrite IH; reflexivity]. Qed.

Lemma without_refs_nil (st : RefState) : without_refs [] st = st.
Proof.
  unfold without_refs. cbn [removed existsb negb].
  rewrite filter_all.
  replace (map (strip []) (collections st)) with (collections st).
  - destruct st as [cs ac obs n [a|] pr]; reflexivity.
  - induction (collections st) as [|c cs IH]; [reflexivity|].
    cbn [map]. rewrite <- IH. f_equal. unfold strip. cbn [removed existsb negb].
    rewrite filter_all. destruct c; reflexivity.
Qed.

(** The loop that empties the collection. *)
Lemma remove_loop_run (hs : list nat) :
  forall st,
    NoDup hs ->
    (forall h, In h hs -> exists x, ref_lookup h (ref_objects st) = Some x) ->
    rfor_each hs ref_objects_remove st = (Ok tt, without_refs hs st).
Proof.
  induction hs as [|h hs IH]; intros st Hnd Hin.
  - cbn [rfor_each]. rewrite without_refs_nil. reflexivity.
  - cbn [rfor_each].
    destruct (Hin h (or_introl eq_refl)) as (x & Hx).
    rewrite (rbind_ok _ _ _ _ _ (ref_objects_remove_run st h x Hx)).
    rewrite IH.
    + rewrite without_refs_again. reflexivity.
    + inversion Hnd; assumption.
    + intros h' Hh'. destruct (Hin h' (or_intror Hh')) as (x' & Hx').
      exists x'. unfold without_refs. cbn [ref_objects].
      rewrite (ref_lookup_filter_keep (fun a => negb (removed [h] a))); [exact Hx'|].
      rewrite removed_single. apply negb_true_iff, Nat.eqb_neq.
      inversion Hnd; subst. intros ->. contradiction.
Qed.

Lemma members_without_refs (name : string) (hs : list nat) (st : RefState) :
  members name (without_refs hs st)
  = filter (fun x => negb (removed hs x)) (members name st).
Proof.
  unfold members, without_refs. cbn [collections].
  rewrite find_map_coll by reflexivity.
  destruct (find (fun c => (coll_name c =? name)%string) (collections st));
    reflexivity.
Qed.

Lemma filter_removed_self (hs l : list nat) :
  (forall h, In h l -> In h hs) ->
  filter (fun x => negb (removed hs x)) l = [].
Proof.
  induction l as [|h l IH]; intros Hall; [reflexivity|].
  cbn [filter].
  assert (E : removed hs h = true) by (apply removed_In, Hall; left; reflexivity).
  rewrite E. cbn [negb]. apply IH. intros h' Hh'. apply Hall. right. exact Hh'.
Qed.

Lemma has_collection_find (name : string) (cs : list Coll) :
  has_collection name cs = true ->
  exists c, find (fun c => (coll_name c =? name)%string) cs = Some c.
Proof.
  intros H. induction cs as [|c cs IH]; [discriminate|].
  cbn [find]. simpl in H.
  destruct (coll_name c =? name)%string; [eexists; reflexivity|].
  apply IH. exact H.
Qed.

(** [setup_ref_image] on a path that is no file. *)
Lemma setup_ref_image_missing (path : string) (loc sc rot : Vec3) (st : RefState) :
  isfile env path = false ->
  setup_ref_image env path loc sc rot st
  = (Ok None,
     mkRefState (collections st) (active_collection st) (ref_objects st)
                (ref_next_handle st) (ref_active_object st)
                ("Invalid image path"%string :: printed st)).
Proof. intros H. unfold setup_ref_image. rewrite H. reflexivity. Qed.

End RefImages.

Section RefImageRuns.

Import Refs.

Variable env : RefEnv.

Lemma ref_lookup_app_old (h : nat) (obs more : list (nat * RefObject)) (x : RefObject) :
  ref_lookup h obs = Some x -> ref_lookup h (obs ++ more) = Some x.
Proof.
  unfold ref_lookup. induction obs as [|p obs IH]; simpl; [discriminate|].
  destruct (fst p =? h)%nat; [auto | exact IH].
Qed.

Lemma ref_lookup_fresh (h : nat) (obs : list (nat * RefObject)) (x : RefObject) :
  (forall p, In p obs -> fst p <> h) ->
  ref_lookup h (obs ++ [(h, x)]) = Some x.
Proof.
  intros Hf. unfold ref_lookup. induction obs as [|p obs IH]; simpl.
  - rewrite Nat.eqb_refl. reflexivity.
  - destruct (fst p =? h)%nat eqn:E.
    + apply Nat.eqb_eq in E. exfalso. exact (Hf p (or_introl eq_refl) E).
    + apply IH. intros q Hq. apply Hf. right. exact Hq.
Qed.

Lemma update_fresh (h : nat) (f : RefObject -> RefObject)
    (obs : list (nat * RefObject)) (x : RefObject) :
  (forall p, In p obs -> fst p <> h) ->
  map (fun p => if (fst p =? h)%nat then (fst p, f (snd p)) else p)
      (obs ++ [(h, x)])
  = obs ++ [(h, f x)].
Proof.
  intros Hf. rewrite map_app. simpl. rewrite Nat.eqb_refl. f_equal.
  rewrite <- (map_id obs) at 2. apply map_ext_in. intros p Hin.
  destruct (fst p =? h)%nat eqn:E; [|reflexivity].
  apply Nat.eqb_eq in E. exfalso. exact (Hf p Hin E).
Qed.

Lemma ref_lookup_app_other (k h : nat) (obs : list (nat * RefObject))
    (x : RefObject) :
  k <> h -> ref_lookup k (obs ++ [(h, x)]) = ref_lookup k obs.
Proof.
  intros Hne. unfold ref_lookup. induction obs as [|p obs IH]; simpl.
  - assert (E : (h =? k)%nat = false) by (apply Nat.eqb_neq; lia).
    rewrite E. reflexivity.
  - destruct (fst p =? k)%nat; [reflexivity | exact IH].
Qed.

Lemma wf_refs_fresh (st : RefState) :
  wf_refs st -> forall p, In p (ref_objects st) -> fst p <> ref_next_handle st.
Proof. intros Hwf p Hp. specialize (Hwf p Hp). lia. Qed.

Lemma larger_side (width height : nat) :
  (if (height <? width)%nat then width else height) = Nat.max width height.
Proof. destruct (height <? width)%nat eqn:E; [apply Nat.ltb_lt in E | apply Nat.ltb_ge in E]; lia. Qed.

Lemma rbind_update_fresh {B} (h : nat) (f : RefObject -> RefObject)
    (k : unit -> R B) (st : RefState) (obs : list (nat * RefObject))
    (x : RefObject) :
  ref_objects st = obs ++ [(h, x)] ->
  (forall p, In p obs -> fst p <> h) ->
  rbind (update_ref_object h f) k st
  = k tt (mkRefState (collections st) (active_collection st)
                     (obs ++ [(h, f x)])
                     (ref_next_handle st) (ref_active_object st) (printed st)).
Proof.
  intros Hobs Hf. unfold rbind, update_ref_object.
  rewrite Hobs, (ref_lookup_fresh _ _ _ Hf), (update_fresh _ _ _ _ Hf).
  reflexivity.
Qed.

(** [setup_ref_image] on an image the host can read. *)
Lemma setup_ref_image_run (path : string) (loc sc rot : Vec3) (st : RefState)
    (width height : nat) :
  wf_refs st ->
  isfile env path = true ->
  image_size env path = Some (width, height) ->
  can_add_empty env st = true ->
  setup_ref_image env path loc sc rot st
  = (Ok (Some (ref_next_handle st)),
     with_ref_object (ref_image path loc sc rot width height) st).
Proof.
  intros Hwf Hfile Hsize Hcan.
  pose proof (wf_refs_fresh st Hwf) as Hfresh.
  unfold setup_ref_image. rewrite Hfile, Hsize. cbn [negb].
  unfold rbind at 1. unfold empty_image_add. rewrite Hcan.
  unfold rbind at 1. unfold rgets. cbn [ref_active_object].
  rewrite larger_side.
  erewrite rbind_update_fresh by (first [ reflexivity | exact Hfresh ]).
  erewrite rbind_update_fresh by (first [ reflexivity | exact Hfresh ]).
  erewrite rbind_update_fresh by (first [ reflexivity | exact Hfresh ]).
  reflexivity.
Qed.

Lemma find_coll_name (name : string) (cs : list Coll) (c : Coll) :
  find (fun c => (coll_name c =? name)%string) cs = Some c -> coll_name c = name.
Proof.
  intros H. apply find_some in H. destruct H as (_ & H).
  apply String.eqb_eq. exact H.
Qed.

Lemma members_link_into_same (a : string) (h : nat) (st : RefState) (cs : list Coll) :
  has_collection a cs = true ->
  match find (fun c => (coll_name c =? a)%string) (link_into a h cs) with
  | Some c => coll_objects c
  | None => []
  end
  = match find (fun c => (coll_name c =? a)%string) cs with
    | Some c => coll_objects c
    | None => []
    end ++ [h].
Proof.
  intros Hhas. unfold link_into.
  rewrite find_map_coll by (intros c; destruct (coll_name c =? a)%string; reflexivity).
  destruct (has_collection_find a cs Hhas) as (c & Hc). rewrite Hc.
  cbn [option_map]. rewrite (find_coll_name _ _ _ Hc), String.eqb_refl.
  reflexivity.
Qed.

Lemma members_link_into_other (a b : string) (h : nat) (cs : list Coll) :
  a <> b ->
  find (fun c => (coll_name c =? b)%string) (link_into a h cs)
  = find (fun c => (coll_name c =? b)%string) cs.
Proof.
  intros Hne. unfold link_into.
  rewrite find_map_coll by (intros c; destruct (coll_name c =? a)%string; reflexivity).
  destruct (find (fun c => (coll_name c =? b)%string) cs) as [c|] eqn:Hc;
    [|reflexivity].
  cbn [option_map]. pose proof (find_coll_name _ _ _ Hc) as Hn.
  destruct (coll_name c =? a)%string eqn:E; [|reflexivity].
  apply String.eqb_eq in E. congruence.
Qed.

End RefImageRuns.

(** X24.  [setup_ref_image] on a path that is no file prints "Invalid
    image path" and returns [None], creating nothing; on a file the host
    cannot load as an image it raises before creating anything.  On an
    image of [w] x [h] pixels it returns a new empty, created where it was
    asked, unselectable, with the vertical image offset 0 and the display
    size [max(w, h) / 1024]; the empty is the active object and is linked
    to the active collection; the other objects are untouched. *)
Theorem setup_ref_image_sizes_the_empty (env : Refs.RefEnv) (path : string)
    (location scale rotation : Vec3) (st : Refs.RefState) :
  Refs.wf_refs st ->
  (Refs.isfile env path = false ->
   exists st',
     Refs.setup_ref_image env path location scale rotation st = (Ok None, st') /\
     Refs.ref_objects st' = Refs.ref_objects st /\
     Refs.collections st' = Refs.collections st /\
     Refs.printed st' = "Invalid image path"%string :: Refs.printed st) /\
  (Refs.isfile env path = true -> Refs.image_size env path = None ->
   Refs.setup_ref_image env path location scale rotation st
   = (Raise RuntimeError, st)) /\
  (forall w h,
     Refs.isfile env path = true ->
     Refs.image_size env path = Some (w, h) ->
     Refs.can_add_empty env st = true ->
     exists st',
       Refs.setup_ref_image env path location scale rotation st
       = (Ok (Some (Refs.ref_next_handle st)), st') /\
       Refs.ref_lookup (Refs.ref_next_handle st) (Refs.ref_objects st')
       = Some (Refs.mkRefObject path location rotation scale
                 (inject_Z (Z.of_nat (Nat.max w h)) / 1024) 0 true) /\
       Refs.ref_active_object st' = Some (Refs.ref_next_handle st) /\
       (forall k x, Refs.ref_lookup k (Refs.ref_objects st) = Some x ->
                    Refs.ref_lookup k (Refs.ref_objects st') = Some x) /\
       (forall a, Refs.active_collection st = Some a ->
                  Refs.has_collection a (Refs.collections st) = true ->
                  Refs.members a st'
                  = Refs.members a st ++ [Refs.ref_next_handle st])).
Proof.
  intros Hwf. split; [|split].
  - intros Hfile. eexists.
    split; [exact (setup_ref_image_missing env path location scale rotation st Hfile)|].
    repeat split.
  - intros Hfile Hsize. unfold Refs.setup_ref_image. rewrite Hfile, Hsize.
    reflexivity.
  - intros w h Hfile Hsize Hcan. eexists.
    split; [exact (setup_ref_image_run env path location scale rotation st w h
                     Hwf Hfile Hsize Hcan)|].
    split.
    { unfold Refs.with_ref_object. cbn [Refs.ref_objects].
      apply ref_lookup_fresh. exact (wf_refs_fresh st Hwf). }
    split; [reflexivity|]. split.
    { intros k x Hx. unfold Refs.with_ref_object. cbn [Refs.ref_objects].
      apply ref_lookup_app_old. exact Hx. }
    intros a Ha Hhas. unfold Refs.members, Refs.with_ref_object.
    cbn [Refs.collections]. rewrite Ha.
    exact (members_link_into_same a (Refs.ref_next_handle st) st
             (Refs.collections st) Hhas).
Qed.

Lemma setup_ref_image_sizes_the_empty_witness :
  exists st',
    Refs.setup_ref_image (Refs.sample_ref_env [("ref.png"%string, (2048, 512)%nat)])
      "ref.png" (vec3 0 0 0) (vec3 1 1 1) (vec3 0 0 0) Refs.empty_ref_state
    = (Ok (Some 0%nat), st') /\
    Refs.ref_lookup 0 (Refs.ref_objects st')
    = Some (Refs.mkRefObject "ref.png" (vec3 0 0 0) (vec3 0 0 0) (vec3 1 1 1)
              (inject_Z 2048 / 1024) 0 true).
Proof.
  destruct (setup_ref_image_sizes_the_empty
              (Refs.sample_ref_env [("ref.png"%string, (2048, 512)%nat)])
              "ref.png" (vec3 0 0 0) (vec3 1 1 1) (vec3 0 0 0) Refs.empty_ref_state)
    as (_ & _ & Hok).
  - intros p [].
  - destruct (Hok 2048%nat 512%nat eq_refl eq_refl eq_refl)
      as (st' & Hrun & Hobj & _).
    exists st'. split; [exact Hrun | exact Hobj].
Defined.

Section RefImagesRuns.

Import Refs.

Variable env : RefEnv.

Lemma has_collection_map (g : Coll -> Coll) (name : string) (cs : list Coll) :
  (forall c, coll_name (g c) = coll_name c) ->
  has_collection name (map g cs) = has_collection name cs.
Proof.
  intros Hg. unfold has_collection. induction cs as [|c cs IH]; [reflexivity|].
  cbn [map existsb]. rewrite Hg, IH. reflexivity.
Qed.

Lemma link_into_names (a : string) (h : nat) (c : Coll) :
  coll_name (if (coll_name c =? a)%string
             then mkColl (coll_name c) (coll_objects c ++ [h])
                         (coll_hide_select c) (coll_in_scene c)
             else c)
  = coll_name c.
Proof. destruct (coll_name c =? a)%string; reflexivity. Qed.

Lemma with_ref_object_has (name : string) (o : RefObject) (st : RefState) :
  has_collection name (collections (with_ref_object o st))
  = has_collection name (collections st).
Proof.
  unfold with_ref_object. cbn [collections].
  destruct (active_collection st) as [a|]; [|reflexivity].
  unfold link_into. apply has_collection_map. intros c. apply link_into_names.
Qed.

Lemma with_ref_object_members_other (name : string) (o : RefObject) (st : RefState) :
  active_collection st <> Some name ->
  members name (with_ref_object o st) = members name st.
Proof.
  intros Hne. unfold members, with_ref_object. cbn [collections].
  destruct (active_collection st) as [a|]; [|reflexivity].
  rewrite members_link_into_other by congruence. reflexivity.
Qed.

Lemma with_ref_object_members_same (name : string) (o : RefObject) (st : RefState) :
  active_collection st = Some name ->
  has_collection name (collections st) = true ->
  members name (with_ref_object o st) = members name st ++ [ref_next_handle st].
Proof.
  intros Ha Hhas. unfold members, with_ref_object. cbn [collections]. rewrite Ha.
  exact (members_link_into_same name (ref_next_handle st) st (collections st) Hhas).
Qed.

Lemma with_ref_object_wf (o : RefObject) (st : RefState) :
  wf_refs st -> wf_refs (with_ref_object o st).
Proof.
  intros Hwf p Hp. unfold with_ref_object in *.
  cbn [ref_objects ref_next_handle] in *.
  apply in_app_or in Hp. destruct Hp as [Hp | [<- | []]].
  - specialize (Hwf p Hp). lia.
  - simpl. lia.
Qed.

Lemma members_find (name : string) (st : RefState) (c : Coll) :
  find (fun c => (coll_name c =? name)%string) (collections st) = Some c ->
  members name st = coll_objects c.
Proof. intros H. unfold members. rewrite H. reflexivity. Qed.

Lemma not_member (h : nat) (l : list nat) :
  ~ In h l -> existsb (Nat.eqb h) l = false.
Proof.
  intros Hn. apply not_true_is_false. intros E. apply Hn.
  apply existsb_exists in E. destruct E as (x & Hx & E).
  apply Nat.eqb_eq in E. subst. exact Hx.
Qed.

Lemma rbind_get_coll {B} (name : string) (k : Coll -> R B) (st : RefState)
    (c : Coll) :
  find (fun c => (coll_name c =? name)%string) (collections st) = Some c ->
  rbind (get_coll name) k st = k c st.
Proof. intros H. unfold rbind, get_coll. rewrite H. reflexivity. Qed.

Lemma rbind_rmodify {B} (f : RefState -> RefState) (k : unit -> R B)
    (st : RefState) :
  rbind (rmodify f) k st = k tt (f st).
Proof. reflexivity. Qed.

Lemma update_ref_object_fresh (h : nat) (f : RefObject -> RefObject)
    (st : RefState) (obs : list (nat * RefObject)) (x : RefObject) :
  ref_objects st = obs ++ [(h, x)] ->
  (forall p, In p obs -> fst p <> h) ->
  update_ref_object h f st
  = (Ok tt, mkRefState (collections st) (active_collection st)
                       (obs ++ [(h, f x)])
                       (ref_next_handle st) (ref_active_object st) (printed st)).
Proof.
  intros Hobs Hf. unfold update_ref_object.
  rewrite Hobs, (ref_lookup_fresh _ _ _ Hf), (update_fresh _ _ _ _ Hf).
  reflexivity.
Qed.

(** Linking an image empty that is not in the collection yet. *)
Lemma link_ref_image_run (name : string) (h : nat) (st : RefState)
    (obs : list (nat * RefObject)) (x : RefObject) :
  has_collection name (collections st) = true ->
  ~ In h (members name st) ->
  ref_objects st = obs ++ [(h, x)] ->
  (forall p, In p obs -> fst p <> h) ->
  hide_select x = true ->
  link_ref_image name (Some h) st
  = (Ok tt,
     mkRefState (link_into name h (collections st)) (active_collection st)
                (ref_objects st) (ref_next_handle st) (ref_active_object st)
                (printed st)).
Proof.
  intros Hhas Hnot Hobs Hf Hsel.
  destruct (has_collection_find name (collections st) Hhas) as (c & Hc).
  rewrite (members_find name st c Hc) in Hnot.
  unfold link_ref_image, coll_objects_link.
  rewrite rbind_assoc, (rbind_get_coll _ _ _ _ Hc).
  rewrite (not_member h _ Hnot).
  unfold update_coll.
  rewrite !rbind_assoc, (rbind_get_coll _ _ _ _ Hc), rbind_rmodify.
  cbv beta.
  erewrite update_ref_object_fresh;
    [| cbn [ref_objects set_collections]; exact Hobs | exact Hf].
  unfold set_collections, link_into.
  cbn [collections active_collection ref_objects ref_next_handle
       ref_active_object printed].
  rewrite Hobs. destruct x as [fp l r s d oy hs]. cbn [hide_select] in Hsel.
  subst hs. reflexivity.
Qed.

(** Linking an image empty that is in the collection already. *)
Lemma link_ref_image_twice (name : string) (h : nat) (st : RefState) :
  In h (members name st) ->
  link_ref_image name (Some h) st = (Raise RuntimeError, st).
Proof.
  intros Hin. unfold members in Hin.
  destruct (find (fun c => (coll_name c =? name)%string) (collections st))
    as [c|] eqn:Hc; [|contradiction].
  unfold link_ref_image, coll_objects_link.
  rewrite rbind_assoc, (rbind_get_coll _ _ _ _ Hc).
  assert (E : existsb (Nat.eqb h) (coll_objects c) = true).
  { apply existsb_exists. exists h. split; [exact Hin | apply Nat.eqb_refl]. }
  rewrite E. reflexivity.
Qed.

(** One image of [setup_ref_images]: created, then linked to the
    collection, which is not the active one. *)
Lemma add_ref_image_step (name path : string) (loc sc rot : Vec3) (st : RefState)
    (width height : nat) :
  wf_refs st ->
  isfile env path = true ->
  image_size env path = Some (width, height) ->
  can_add_empty env st = true ->
  has_collection name (collections st) = true ->
  active_collection st <> Some name ->
  (forall x, In x (members name st) -> (x < ref_next_handle st)%nat) ->
  exists st',
    rbind (setup_ref_image env path loc sc rot) (link_ref_image name) st
    = (Ok tt, st') /\
    wf_refs st' /\
    ref_next_handle st' = S (ref_next_handle st) /\
    members name st' = members name st ++ [ref_next_handle st] /\
    ref_lookup (ref_next_handle st) (ref_objects st')
    = Some (ref_image path loc sc rot width height) /\
    (forall k, k <> ref_next_handle st ->
               ref_lookup k (ref_objects st') = ref_lookup k (ref_objects st)) /\
    has_collection name (collections st') = true /\
    active_collection st' = active_collection st /\
    printed st' = printed st.
Proof.
  intros Hwf Hfile Hsize Hcan Hhas Hact Hmem.
  pose proof (wf_refs_fresh st Hwf) as Hfresh.
  set (o := ref_image path loc sc rot width height).
  set (st2 := with_ref_object o st).
  assert (Hhas2 : has_collection name (collections st2) = true)
    by (unfold st2; rewrite with_ref_object_has; exact Hhas).
  assert (Hmem2 : members name st2 = members name st)
    by (apply with_ref_object_members_other; exact Hact).
  assert (Hnot : ~ In (ref_next_handle st) (members name st2)).
  { rewrite Hmem2. intros Hin. specialize (Hmem _ Hin). lia. }
  eexists. split.
  { rewrite (rbind_ok _ _ _ _ _ (setup_ref_image_run env path loc sc rot st
                                   width height Hwf Hfile Hsize Hcan)).
    fold o. fold st2.
    exact (link_ref_image_run name (ref_next_handle st) st2 (ref_objects st) o
             Hhas2 Hnot eq_refl Hfresh eq_refl). }
  split.
  { intros p Hp. exact (with_ref_object_wf o st Hwf p Hp). }
  split; [reflexivity|].
  split.
  { unfold members. cbn [collections].
    rewrite (members_link_into_same name (ref_next_handle st) st2
               (collections st2) Hhas2).
    fold (members name st2). rewrite Hmem2. reflexivity. }
  split.
  { cbn [ref_objects]. unfold st2, with_ref_object. cbn [ref_objects].
    apply ref_lookup_fresh. exact Hfresh. }
  split.
  { intros k Hk. cbn [ref_objects]. unfold st2, with_ref_object.
    cbn [ref_objects]. apply ref_lookup_app_other. exact Hk. }
  split.
  { cbn [collections]. unfold link_into.
    rewrite has_collection_map by (intros c; apply link_into_names).
    exact Hhas2. }
  split; reflexivity.
Qed.

Lemma without_refs_wf (hs : list nat) (st : RefState) :
  wf_refs st -> wf_refs (without_refs hs st).
Proof.
  intros Hwf p Hp. unfold without_refs in *. cbn [ref_objects ref_next_handle] in *.
  apply filter_In in Hp. apply Hwf. apply Hp.
Qed.

Lemma without_refs_has (name : string) (hs : list nat) (st : RefState) :
  has_collection name (collections (without_refs hs st))
  = has_collection name (collections st).
Proof.
  unfold without_refs. cbn [collections]. apply has_collection_map. reflexivity.
Qed.

(** [setup_ref_images] up to the first image: the collection named
    "References" exists and has been emptied. *)
Lemma setup_ref_images_head (url : string) (st : RefState) :
  has_collection "References" (collections st) = true ->
  NoDup (members "References" st) ->
  (forall h, In h (members "References" st) ->
             exists x, ref_lookup h (ref_objects st) = Some x) ->
  setup_ref_images env url st
  = rbind (setup_ref_image env url (vec3 (-0.5) 0 0) (vec3 1 1 1)
             (vec3 (pi env / 2) 0 (- pi env / 2)))
      (fun img1 =>
         rbind (link_ref_image "References" img1)
           (fun _ =>
              rbind (setup_ref_image env arrow_path (vec3 0 0 0) (vec3 1 1 1)
                                     (vec3 0 0 0))
                (link_ref_image "References")))
      (without_refs (members "References" st) st).
Proof.
  intros Hhas Hnd Hin.
  destruct (has_collection_find _ _ Hhas) as (c & Hc).
  rewrite (members_find _ st c Hc) in *.
  unfold setup_ref_images.
  rewrite (rbind_ok _ _ _ _ _ (make_collection_old env "References" st Hhas)).
  rewrite (rbind_get_coll _ _ _ _ Hc).
  rewrite (rbind_ok _ _ _ _ _ (remove_loop_run (coll_objects c) st Hnd Hin)).
  reflexivity.
Qed.

End RefImagesRuns.

(** X25.  When neither the given image nor the arrow image is a file,
    [setup_ref_images] only deletes: every object that was in the
    collection "References" is removed from the data, whatever it is, the
    collection ends empty, the objects outside it stay, and "Invalid image
    path" is printed twice. *)
Theorem setup_ref_images_only_deletes (env : Refs.RefEnv) (url : string)
    (st : Refs.RefState) :
  Refs.has_collection "References" (Refs.collections st) = true ->
  NoDup (Refs.members "References" st) ->
  (forall h, In h (Refs.members "References" st) ->
             exists x, Refs.ref_lookup h (Refs.ref_objects st) = Some x) ->
  Refs.isfile env url = false ->
  Refs.isfile env Refs.arrow_path = false ->
  exists st',
    Refs.setup_ref_images env url st = (Ok tt, st') /\
    Refs.members "References" st' = [] /\
    (forall h, In h (Refs.members "References" st) ->
               Refs.ref_lookup h (Refs.ref_objects st') = None) /\
    (forall h x, ~ In h (Refs.members "References" st) ->
                 Refs.ref_lookup h (Refs.ref_objects st) = Some x ->
                 Refs.ref_lookup h (Refs.ref_objects st') = Some x) /\
    Refs.printed st'
    = "Invalid image path"%string :: "Invalid image path"%string :: Refs.printed st.
Proof.
  intros Hhas Hnd Hin Hurl Harrow.
  set (hs := Refs.members "References" st) in *.
  eexists. split.
  { rewrite (setup_ref_images_head env url st Hhas Hnd Hin). fold hs.
    rewrite (rbind_ok _ _ _ _ _
               (setup_ref_image_missing env url _ _ _ _ Hurl)).
    cbn [Refs.link_ref_image]. unfold Refs.rbind at 1. unfold Refs.rret at 1.
    rewrite (rbind_ok _ _ _ _ _
               (setup_ref_image_missing env Refs.arrow_path _ _ _ _ Harrow)).
    reflexivity. }
  split.
  { change (Refs.members "References" (Refs.without_refs hs st) = []).
    rewrite members_without_refs. apply filter_removed_self. auto. }
  split.
  { intros h Hh. cbn [Refs.ref_objects Refs.without_refs].
    apply (ref_lookup_filter_drop (fun a => negb (removed hs a))).
    apply negb_false_iff, removed_In. exact Hh. }
  split; [|reflexivity].
  intros h x Hh Hx. cbn [Refs.ref_objects Refs.without_refs].
  rewrite (ref_lookup_filter_keep (fun a => negb (removed hs a))); [exact Hx|].
  apply negb_true_iff, removed_not_In. exact Hh.
Qed.

Lemma setup_ref_images_only_deletes_witness :
  exists st',
    Refs.setup_ref_images (Refs.sample_ref_env []) "plan.png"
      (Refs.mkRefState [Refs.mkColl "References" [0%nat] true true] None
         [(0%nat, Refs.ref_image "old.png" vzero (vec3 1 1 1) vzero 512 512)]
         1 None [])
    = (Ok tt, st') /\
    Refs.members "References" st' = [] /\
    Refs.ref_lookup 0 (Refs.ref_objects st') = None.
Proof.
  destruct (setup_ref_images_only_deletes (Refs.sample_ref_env []) "plan.png"
              (Refs.mkRefState [Refs.mkColl "References" [0%nat] true true] None
                 [(0%nat, Refs.ref_image "old.png" vzero (vec3 1 1 1) vzero 512 512)]
                 1 None []))
    as (st' & Hrun & Hm & Hgone & _).
  - reflexivity.
  - repeat constructor. intros [].
  - intros h [<- | []]. eexists. reflexivity.
  - reflexivity.
  - reflexivity.
  - exists st'. split; [exact Hrun|]. split; [exact Hm|].
    apply Hgone. left. reflexivity.
Defined.

(** X26.  When both images load and the active collection is not
    "References", [setup_ref_images] replaces the contents of that
    collection: the objects that were in it are removed from the data, and
    it ends holding exactly the two new empties, first the given image
    then the arrow, each unselectable and displayed at
    [max(width, height) / 1024] of its image. *)
Theorem setup_ref_images_replaces_contents (env : Refs.RefEnv) (url : string)
    (st : Refs.RefState) (w1 h1 w2 h2 : nat) :
  Refs.wf_refs st ->
  Refs.has_collection "References" (Refs.collections st) = true ->
  NoDup (Refs.members "References" st) ->
  (forall h, In h (Refs.members "References" st) ->
             exists x, Refs.ref_lookup h (Refs.ref_objects st) = Some x) ->
  Refs.active_collection st <> Some "References"%string ->
  Refs.isfile env url = true ->
  Refs.image_size env url = Some (w1, h1) ->
  Refs.isfile env Refs.arrow_path = true ->
  Refs.image_size env Refs.arrow_path = Some (w2, h2) ->
  (forall st0, Refs.can_add_empty env st0 = true) ->
  let n := Refs.ref_next_handle st in
  exists st',
    Refs.setup_ref_images env url st = (Ok tt, st') /\
    Refs.members "References" st' = [n; S n] /\
    Refs.ref_lookup n (Refs.ref_objects st')
    = Some (Refs.mkRefObject url (vec3 (-0.5) 0 0)
              (vec3 (Refs.pi env / 2) 0 (- Refs.pi env / 2)) (vec3 1 1 1)
              (inject_Z (Z.of_nat (Nat.max w1 h1)) / 1024) 0 true) /\
    Refs.ref_lookup (S n) (Refs.ref_objects st')
    = Some (Refs.mkRefObject Refs.arrow_path (vec3 0 0 0) (vec3 0 0 0) (vec3 1 1 1)
              (inject_Z (Z.of_nat (Nat.max w2 h2)) / 1024) 0 true) /\
    (forall h, In h (Refs.members "References" st) ->
               Refs.ref_lookup h (Refs.ref_objects st') = None).
Proof.
  intros Hwf Hhas Hnd Hin Hact Hurl Hsz1 Harrow Hsz2 Hcan n.
  set (hs := Refs.members "References" st) in *.
  set (st1 := Refs.without_refs hs st).
  assert (Hwf1 : Refs.wf_refs st1) by (apply without_refs_wf; exact Hwf).
  assert (Hhas1 : Refs.has_collection "References" (Refs.collections st1) = true)
    by (unfold st1; rewrite without_refs_has; exact Hhas).
  assert (Hm1 : Refs.members "References" st1 = []).
  { unfold st1. rewrite members_without_refs. apply filter_removed_self. auto. }
  destruct (add_ref_image_step env "References" url (vec3 (-0.5) 0 0) (vec3 1 1 1)
              (vec3 (Refs.pi env / 2) 0 (- Refs.pi env / 2)) st1 w1 h1
              Hwf1 Hurl Hsz1 (Hcan st1) Hhas1 Hact)
    as (st2 & Hrun2 & Hwf2 & Hn2 & Hm2 & Ho2 & Hk2 & Hhas2 & Hact2 & _).
  { rewrite Hm1. intros x []. }
  destruct (add_ref_image_step env "References" Refs.arrow_path (vec3 0 0 0)
              (vec3 1 1 1) (vec3 0 0 0) st2 w2 h2
              Hwf2 Harrow Hsz2 (Hcan st2) Hhas2)
    as (st3 & Hrun3 & _ & _ & Hm3 & Ho3 & Hk3 & _).
  { rewrite Hact2. exact Hact. }
  { rewrite Hm2, Hm1. intros x [<- | []]. rewrite Hn2. apply Nat.lt_succ_diag_r. }
  change (Refs.ref_next_handle st1) with n in *.
  rewrite Hn2 in *. rewrite Hm2, Hm1 in Hm3. cbn [app] in Hm3.
  exists st3. split.
  { rewrite (setup_ref_images_head env url st Hhas Hnd Hin). fold hs. fold st1.
    transitivity
      (Refs.rbind
         (Refs.rbind
            (Refs.setup_ref_image env url (vec3 (-0.5) 0 0) (vec3 1 1 1)
               (vec3 (Refs.pi env / 2) 0 (- Refs.pi env / 2)))
            (Refs.link_ref_image "References"))
         (fun _ =>
            Refs.rbind
              (Refs.setup_ref_image env Refs.arrow_path (vec3 0 0 0) (vec3 1 1 1)
                 (vec3 0 0 0))
              (Refs.link_ref_image "References"))
         st1).
    - symmetry. apply rbind_assoc.
    - rewrite (rbind_ok _ _ _ _ _ Hrun2). exact Hrun3. }
  split; [exact Hm3|].
  split.
  { rewrite Hk3 by (apply Nat.neq_succ_diag_r). exact Ho2. }
  split; [exact Ho3|].
  intros h Hh.
  destruct (Hin h Hh) as (x & Hx).
  assert (Hlt : (h < n)%nat).
  { unfold Refs.ref_lookup in Hx.
    destruct (find (fun p => (fst p =? h)%nat) (Refs.ref_objects st)) as [p|] eqn:E;
      [|discriminate].
    apply find_some in E. destruct E as (Hp & E). apply Nat.eqb_eq in E.
    specialize (Hwf p Hp). unfold n. lia. }
  rewrite Hk3 by lia. rewrite Hk2 by lia.
  unfold st1. cbn [Refs.ref_objects Refs.without_refs].
  apply (ref_lookup_filter_drop (fun a => negb (removed hs a))).
  apply negb_false_iff, removed_In. exact Hh.
Qed.

Lemma setup_ref_images_replaces_contents_witness :
  exists st',
    Refs.setup_ref_images
      (Refs.sample_ref_env [("plan.png"%string, (2048, 1024)%nat);
                            (Refs.arrow_path, (256, 512)%nat)])
      "plan.png"
      (Refs.mkRefState [Refs.mkColl "References" [0%nat] true true] None
         [(0%nat, Refs.ref_image "old.png" vzero (vec3 1 1 1) vzero 512 512)]
         1 None [])
    = (Ok tt, st') /\
    Refs.members "References" st' = [1; 2]%nat /\
    Refs.ref_lookup 0 (Refs.ref_objects st') = None.
Proof.
  destruct (setup_ref_images_replaces_contents
              (Refs.sample_ref_env [("plan.png"%string, (2048, 1024)%nat);
                                    (Refs.arrow_path, (256, 512)%nat)])
              "plan.png"
              (Refs.mkRefState [Refs.mkColl "References" [0%nat] true true] None
                 [(0%nat, Refs.ref_image "old.png" vzero (vec3 1 1 1) vzero 512 512)]
                 1 None [])
              2048 1024 256 512)
    as (st' & Hrun & Hm & _ & _ & Hgone).
  - intros p [<- | []]. simpl. lia.
  - reflexivity.
  - repeat constructor. intros [].
  - intros h [<- | []]. eexists. reflexivity.
  - discriminate.
  - reflexivity.
  - reflexivity.
  - reflexivity.
  - reflexivity.
  - intros st0. reflexivity.
  - exists st'. split; [exact Hrun|]. split; [exact Hm|].
    apply Hgone. left. reflexivity.
Defined.

(** X27.  When the active collection is "References" itself and the
    given image loads, [setup_ref_images] raises [RuntimeError]: the new
    empty is linked to the active collection when it is created, so
    linking it to "References" again is refused; the empty stays, alone in
    the collection, and the arrow image is never added. *)
Theorem setup_ref_images_in_active_collection (env : Refs.RefEnv) (url : string)
    (st : Refs.RefState) (w1 h1 : nat) :
  Refs.wf_refs st ->
  Refs.has_collection "References" (Refs.collections st) = true ->
  NoDup (Refs.members "References" st) ->
  (forall h, In h (Refs.members "References" st) ->
             exists x, Refs.ref_lookup h (Refs.ref_objects st) = Some x) ->
  Refs.active_collection st = Some "References"%string ->
  Refs.isfile env url = true ->
  Refs.image_size env url = Some (w1, h1) ->
  (forall st0, Refs.can_add_empty env st0 = true) ->
  exists st',
    Refs.setup_ref_images env url st = (Raise RuntimeError, st') /\
    Refs.members "References" st' = [Refs.ref_next_handle st] /\
    Refs.ref_next_handle st' = S (Refs.ref_next_handle st).
Proof.
  intros Hwf Hhas Hnd Hin Hact Hurl Hsz1 Hcan.
  set (hs := Refs.members "References" st) in *.
  set (st1 := Refs.without_refs hs st).
  assert (Hwf1 : Refs.wf_refs st1) by (apply without_refs_wf; exact Hwf).
  assert (Hhas1 : Refs.has_collection "References" (Refs.collections st1) = true)
    by (unfold st1; rewrite without_refs_has; exact Hhas).
  assert (Hm1 : Refs.members "References" st1 = []).
  { unfold st1. rewrite members_without_refs. apply filter_removed_self. auto. }
  set (o := Refs.ref_image url (vec3 (-0.5) 0 0) (vec3 1 1 1)
              (vec3 (Refs.pi env / 2) 0 (- Refs.pi env / 2)) w1 h1).
  assert (Hm2 : Refs.members "References" (Refs.with_ref_object o st1)
                = [Refs.ref_next_handle st]).
  { rewrite (with_ref_object_members_same "References" o st1 Hact Hhas1).
    rewrite Hm1. reflexivity. }
  exists (Refs.with_ref_object o st1).
  split; [|split; [exact Hm2 | reflexivity]].
  rewrite (setup_ref_images_head env url st Hhas Hnd Hin). fold hs. fold st1.
  rewrite (rbind_ok _ _ _ _ _
             (setup_ref_image_run env url _ _ _ st1 w1 h1 Hwf1 Hurl Hsz1 (Hcan st1))).
  fold o.
  unfold Refs.rbind at 1.
  rewrite (link_ref_image_twice "References" (Refs.ref_next_handle st1)
             (Refs.with_ref_object o st1)).
  - reflexivity.
  - rewrite Hm2. left. reflexivity.
Qed.

Lemma setup_ref_images_in_active_collection_witness :
  exists st',
    Refs.setup_ref_images
      (Refs.sample_ref_env [("plan.png"%string, (2048, 1024)%nat)])
      "plan.png"
      (Refs.mkRefState [Refs.mkColl "References" [] true true]
         (Some "References"%string) [] 0 None [])
    = (Raise RuntimeError, st') /\
    Refs.members "References" st' = [0%nat].
Proof.
  destruct (setup_ref_images_in_active_collection
              (Refs.sample_ref_env [("plan.png"%string, (2048, 1024)%nat)])
              "plan.png"
              (Refs.mkRefState [Refs.mkColl "References" [] true true]
                 (Some "References"%string) [] 0 None [])
              2048 1024)
    as (st' & Hrun & Hm & _).
  - intros p [].
  - reflexivity.
  - constructor.
  - intros h [].
  - reflexivity.
  - reflexivity.
  - reflexivity.
  - intros st0. reflexivity.
  - exists st'. split; [exact Hrun | exact Hm].
Defined.
(* ================================================================== *)
(** * The single light *)

(** X28.  [create_top_down_sun] adds exactly one object and returns it: a
    light at the given location, linked to the scene, with the scene's
    [strength] as energy and [radians(angle)] as angle; its rotation is
    left at zero, so it is not aimed at anything, unlike the lights of
    [create_x_suns_around].  The objects that were in the scene and the
    random generator are untouched. *)
Theorem create_top_down_sun_adds_one_light (env : Env) (s : Scene)
    (at_ : Vec3) (nm : string) :
  wf_scene s ->
  exists s' l,
    create_top_down_sun env at_ nm s = (Ok (next_handle s), s') /\
    handles s' = handles s ++ [next_handle s] /\
    lookup (next_handle s) (objects s') = Some l /\
    type l = "LIGHT"%string /\
    location l = at_ /\
    rotation_euler l = vzero /\
    data l = LightData (strength (props s)) (radians env (angle (props s))) /\
    linked l = true /\
    (forall h x, lookup h (objects s) = Some x -> lookup h (objects s') = Some x) /\
    random_calls s' = random_calls s /\
    active_object s' = active_object s.
Proof.
  intros Hwf.
  assert (Hrun :
    create_top_down_sun env at_ nm s
    = (Ok (next_handle s),
       mkScene
         (objects s
          ++ [(next_handle s,
               mkObject nm "LIGHT" at_ vzero (vec3 1 1 1)
                        (matrix mat3_identity vzero) [] vzero
                        (LightData (strength (props s))
                                   (radians env (angle (props s))))
                        false false true)])
         (S (next_handle s)) (images s) (materials s) (cursor_location s)
         (mode s) (active_object s) (render s) (props s) (random_calls s)
         (files s) (reports s))).
  { unfold create_top_down_sun. mrun. unfold objects_link. mupd. mupd.
    reflexivity. }
  eexists. eexists. split; [exact Hrun|].
  split.
  { unfold handles. cbn [objects]. rewrite map_app. reflexivity. }
  split.
  { cbn [objects]. apply lookup_fresh. apply wf_fresh. exact Hwf. }
  split; [reflexivity|]. split; [reflexivity|]. split; [reflexivity|].
  split; [reflexivity|]. split; [reflexivity|].
  split; [|split; reflexivity].
  intros h x Hx. cbn [objects]. apply lookup_app_old. exact Hx.
Qed.

Lemma create_top_down_sun_adds_one_light_witness :
  exists s' l,
    create_top_down_sun (Samples.sample_env true true) (vec3 3 4 6) "Shadow_Sun"
                        Samples.single_scene
    = (Ok 1%nat, s') /\
    lookup 1%nat (objects s') = Some l /\
    location l = vec3 3 4 6.
Proof.
  destruct (create_top_down_sun_adds_one_light (Samples.sample_env true true)
              Samples.single_scene (vec3 3 4 6) "Shadow_Sun")
    as (s' & l & Hrun & _ & Hl & _ & Hloc & _).
  - intros q [<- | []]. simpl. lia.
  - exists s', l. split; [exact Hrun|]. split; [exact Hl | exact Hloc].
Defined.
(* ================================================================== *)
(** * What the collection export leaves behind *)

Section CollectionEffects.

Variable env : Env.

Lemma for_each_app {A} (xs ys : list A) (body : A -> M unit) (s : Scene) :
  for_each (xs ++ ys) body s
  = bind (for_each xs body) (fun _ => for_each ys body) s.
Proof.
  revert s. induction xs as [|x xs IH]; intros s.
  - reflexivity.
  - cbn [app for_each]. rewrite bind_assoc.
    destruct (body x s) as [[u|e] s1] eqn:E.
    + rewrite !(bind_ok _ _ _ _ _ E). apply IH.
    + rewrite !(bind_raise _ _ _ _ _ E). reflexivity.
Qed.

(** The loop of the collection export keeps the handles in order. *)
Lemma export_members_wf (ms : list nat) :
  forall s,
    wf_scene s ->
    mode s = "OBJECT"%string ->
    (forall h, In h ms -> exportable s h) ->
    (0 < numLights (props s))%Z ->
    bake_succeeds env ->
    export_succeeds env ->
    exists s',
      for_each ms (export_member env) s = (Ok tt, s') /\
      wf_scene s' /\ mode s' = "OBJECT"%string /\
      keeps_objects s s' /\ props s' = props s.
Proof.
  induction ms as [|h ms IH]; intros s Hwf Hm Hall Hn Hbake Hexport.
  - exists s. split; [reflexivity|]. split; [exact Hwf|]. split; [exact Hm|].
    split; [apply keeps_objects_refl | reflexivity].
  - destruct (export_member_ok env s h Hwf Hm (Hall h (or_introl eq_refl)) Hn Hbake
                Hexport)
      as (s1 & Hrun1 & Hwf1 & Hm1 & _ & Hk1 & Hp1 & _).
    destruct (IH s1 Hwf1 Hm1) as (s2 & Hrun2 & Hwf2 & Hm2 & Hk2 & Hp2).
    { intros h' Hh'. apply (exportable_kept s s1 h' Hk1). apply Hall. right. exact Hh'. }
    { rewrite Hp1. exact Hn. }
    { exact Hbake. }
    { exact Hexport. }
    exists s2. split.
    { cbn [for_each]. rewrite (bind_ok _ _ _ _ _ Hrun1). exact Hrun2. }
    split; [exact Hwf2|]. split; [exact Hm2|].
    split; [exact (keeps_objects_trans _ _ _ Hk1 Hk2) | congruence].
Qed.

Lemma active_without (hs : list nat) (st : Scene) :
  active_object (without hs st)
  = match active_object st with
    | Some a => if removed hs a then None else Some a
    | None => None
    end.
Proof. reflexivity. Qed.

Lemma active_with_file (path : string) (st : Scene) :
  active_object (with_file path st) = active_object st.
Proof. reflexivity. Qed.

Lemma active_ready_to_export (plane obj : nat) (st : Scene) :
  active_object (ready_to_export plane obj st) = active_object st.
Proof. reflexivity. Qed.

Lemma active_after_shadow_plane (obj : nat) (o : Object) (mn : Q) (px : list Q)
    (st : Scene) :
  active_object (after_shadow_plane env obj o mn px st) = Some (next_handle st).
Proof. reflexivity. Qed.

Lemma exported_active (s : Scene) (obj : nat) (o : Object) (mn mx : Q)
    (px : list Q) :
  active_object (exported env obj o mn mx px s) = None.
Proof.
  unfold exported, staged.
  rewrite !active_without, active_with_file, active_ready_to_export,
          active_after_shadow_plane.
  assert (E : next_handle (with_suns env o 1.0 mx s (light_count s))
              = plane_handle s) by reflexivity.
  rewrite E, removed_single, Nat.eqb_refl. reflexivity.
Qed.

(** One turn of the loop: what it makes of the flags of the objects. *)
Lemma export_member_flags (s : Scene) (t : nat) :
  wf_scene s ->
  mode s = "OBJECT"%string ->
  exportable s t ->
  (0 < numLights (props s))%Z ->
  bake_succeeds env ->
  export_succeeds env ->
  exists s',
    export_member env t s = (Ok tt, s') /\
    active_object s' = None /\
    forall h x, lookup h (objects s) = Some x ->
      exists x',
        lookup h (objects s') = Some x' /\
        hide_render x'
        = (if (h =? t)%nat then false
           else if linked x && (type x =? "MESH")%string then true
                else hide_render x).
Proof.
  intros Hwf Hm (x & Hx & Ht & Hbox & Hl) Hn Hbake Hexport.
  destruct (bbox_min_max_z_ok x Hbox) as (mn & mx & Hbb & _).
  destruct (export_obj_run env s t x mn mx Hwf Hx Ht Hbb Hn Hm Hl Hbake)
    as (px & Hok & _).
  exists (exported env t x mn mx px s).
  split.
  { unfold export_member. rewrite (bind_get_object _ _ _ _ Hx). rewrite Ht.
    cbn [String.eqb Ascii.eqb Bool.eqb negb]. apply Hok, Hexport. }
  split; [apply exported_active|].
  intros h y Hy.
  destruct (exported_old env s t x mn mx px h y Hwf Hy) as (y' & Hy' & Hh & _).
  exists y'. split; [exact Hy' | exact Hh].
Qed.

End CollectionEffects.

(** X29.  On a collection whose members are in the view layer, with a
    renderer and an exporter that succeed, the collection export finishes,
    and the mesh it exported last is the only linked mesh of the scene left
    visible to the renderer: every call of [export_obj] hides the other
    meshes and none puts them back; and no object is active, the active
    plane having been removed. *)
Theorem collection_export_leaves_last_mesh_visible (env : Env) (s : Scene)
    (members earlier : list nat) (last : nat) :
  wf_scene s ->
  Collection (props s) = Some members ->
  isdir env (pathToFile (props s)) = true ->
  (forall h, In h members ->
             exists x, lookup h (objects s) = Some x /\ bound_box x <> [] /\
                       linked x = true) ->
  (1 <= numLights (props s))%Z ->
  bake_succeeds env ->
  export_succeeds env ->
  filter (is_mesh s) members = earlier ++ [last] ->
  exists s',
    export_collection_glb_execute env s = (Ok FINISHED, s') /\
    active_object s' = None /\
    forall h x,
      lookup h (objects s) = Some x ->
      linked x = true ->
      type x = "MESH"%string ->
      exists x',
        lookup h (objects s') = Some x' /\
        hide_render x' = negb (h =? last)%nat.
Proof.
  intros Hwf Hcoll Hdir Hmem Hn Hbake Hexport Hmeshes.
  assert (Hne : members <> []).
  { intros ->. destruct earlier; discriminate Hmeshes. }
  pose proof (members_in_scene s members Hmem) as Hin.
  pose proof (export_collection_glb_execute_head env s members Hcoll Hne Hdir Hin)
    as Hhead.
  pose proof (meshes_exportable s members Hmem) as Hexp.
  destruct (in_object_mode_fields s) as (Eo & En & Ep & Ef & Er).
  set (s0 := in_object_mode s) in *.
  rewrite Hmeshes in Hhead, Hexp.
  destruct (export_members_wf env earlier s0 (in_object_mode_wf s Hwf)
              (in_object_mode_mode s)) as
    (s1 & Hrun1 & Hwf1 & Hm1 & Hk1 & Hp1).
  { intros h Hh. apply Hexp. apply in_or_app. left. exact Hh. }
  { rewrite Ep. lia. }
  { exact Hbake. }
  { exact Hexport. }
  destruct (export_member_flags env s1 last Hwf1 Hm1)
    as (s2 & Hrun2 & Hact & Hflags).
  { apply (exportable_kept s0 s1 last Hk1). apply Hexp. apply in_or_app.
    right. left. reflexivity. }
  { rewrite Hp1, Ep. lia. }
  { exact Hbake. }
  { exact Hexport. }
  exists s2. split; [|split; [exact Hact|]].
  - rewrite Hhead.
    assert (Hloop : for_each (earlier ++ [last]) (export_member env) s0 = (Ok tt, s2)).
    { rewrite for_each_app, (bind_ok _ _ _ _ _ Hrun1).
      cbn [for_each]. rewrite (bind_ok _ _ _ _ _ Hrun2). reflexivity. }
    rewrite (bind_ok _ _ _ _ _ Hloop). reflexivity.
  - intros h x Hx Hl Ht. rewrite <- Eo in Hx.
    destruct (Hk1 h x Hx) as (x1 & Hx1 & Hb1).
    destruct (Hflags h x1 Hx1) as (x2 & Hx2 & Hh2).
    exists x2. split; [exact Hx2|].
    rewrite Hh2.
    destruct Hb1 as (_ & Hty & _ & _ & _ & _ & _ & _ & Hlk).
    rewrite Hlk, Hl, Hty, Ht. cbn [String.eqb Ascii.eqb Bool.eqb andb].
    destruct (h =? last)%nat; reflexivity.
Qed.

Lemma collection_export_leaves_last_mesh_visible_witness :
  exists s' x0 x2,
    export_collection_glb_execute (Samples.sample_env true true)
                                  Samples.collection_scene
    = (Ok FINISHED, s') /\
    lookup 0%nat (objects s') = Some x0 /\ hide_render x0 = true /\
    lookup 2%nat (objects s') = Some x2 /\ hide_render x2 = false.
Proof.
  destruct (collection_export_leaves_last_mesh_visible
              (Samples.sample_env true true) Samples.collection_scene
              [0; 1; 2]%nat [0; 1]%nat 2%nat)
    as (s' & Hrun & _ & Hvis).
  - apply scene_of_wf.
  - reflexivity.
  - reflexivity.
  - intros h [<- | [<- | [<- | []]]]; eexists;
      (split; [reflexivity | split; [discriminate | reflexivity]]).
  - simpl. lia.
  - apply sample_bake_succeeds.
  - intros st path. reflexivity.
  - reflexivity.
  - destruct (Hvis 0%nat Samples.table eq_refl eq_refl eq_refl) as (x0 & Hx0 & Hh0).
    destruct (Hvis 2%nat Samples.wardrobe eq_refl eq_refl eq_refl) as (x2 & Hx2 & Hh2).
    exists s', x0, x2. split; [exact Hrun|].
    split; [exact Hx0|]. split; [exact Hh0|]. split; [exact Hx2 | exact Hh2].
Defined.
(* ================================================================== *)
(** * The two export paths *)

(** X30.  Past its checks, the single-object export does to its target
    what [export_obj], the step of the collection export, does to a
    member, whatever that is: when [export_obj] returns, the operator
    finishes in the same scene with the target made active, and when
    [export_obj] raises, the operator raises the same exception in the
    same scene. *)
Theorem export_operator_runs_export_obj (env : Env) (s : Scene) (t : nat)
    (o : Object) :
  targetObj (props s) = Some t ->
  lookup t (objects s) = Some o ->
  type o = "MESH"%string ->
  isdir env (pathToFile (props s)) = true ->
  (forall s',
     export_obj env t (in_object_mode s) = (Ok tt, s') ->
     export_obj_glb_execute env s
     = (Ok FINISHED, set_active_object (Some t) s')) /\
  (forall e s',
     export_obj env t (in_object_mode s) = (Raise e, s') ->
     export_obj_glb_execute env s = (Raise e, s')).
Proof.
  intros Htarget Ho Ht Hdir.
  pose proof (export_obj_glb_execute_head env s t o Htarget Ho Ht Hdir) as Hhead.
  split.
  - intros s' Hrun. rewrite Hhead, (bind_ok _ _ _ _ _ Hrun). reflexivity.
  - intros e s' Hrun. rewrite Hhead. apply bind_raise. exact Hrun.
Qed.

Lemma export_operator_runs_export_obj_witness :
  exists s',
    export_obj (Samples.sample_env true true) 0%nat Samples.single_scene
    = (Ok tt, s') /\
    export_obj_glb_execute (Samples.sample_env true true) Samples.single_scene
    = (Ok FINISHED, set_active_object (Some 0%nat) s').
Proof.
  destruct (bbox_min_max_z_ok Samples.table ltac:(discriminate))
    as (mn & mx & Hbb & _).
  destruct (export_obj_run (Samples.sample_env true true) Samples.single_scene
              0%nat Samples.table mn mx (scene_of_wf _ _) eq_refl eq_refl Hbb
              eq_refl eq_refl eq_refl (sample_bake_succeeds true))
    as (px & Hok & _).
  eexists. split; [apply Hok; reflexivity|].
  apply (proj1 (export_operator_runs_export_obj (Samples.sample_env true true)
                  Samples.single_scene 0%nat Samples.table
                  eq_refl eq_refl eq_refl eq_refl)).
  apply Hok. reflexivity.
Defined.
